(* ===== verification/_CoqProject ===== *)
-Q . S2P
Prelude.v
BuildInfo.v
GoStrings.v
GoStrconv.v
GoTime.v
GoDuration.v
GoNet.v
GoFlag.v
Config.v
ConfigRules.v
Secrets.v
Connector.v
Concurrency.v
Relay.v
Listener.v
Lifecycle.v
Classify.v
Logical.v
Codec.v
Response.v
Handshake.v
Wire.v
NativeAuth.v
AuthLimit.v
PreparedCodec.v
ExecuteRoundtrip.v
PreparedRows.v
BinaryRows.v
Admission.v
Gateway.v
GatewayProtocol.v
Client.v
Transparency.v
Conversation.v
Reset.v
Login.v
Service.v
App.v
AppRules.v
ControlAuth.v
Benchmark.v
PointReads.v
BenchmarkRules.v
Runtime.v
Command.v
CommandRules.v
ControlApi.v
Testkit.v
