(* ===== verification/Prelude.v ===== *)
(** * Database Accelerator: a verification library

    Database Accelerator (Go, [src/]) is a proxy between MySQL clients and a MySQL
    server.  In pooled mode it terminates the client protocol itself, runs each
    statement on a short-lived pooled connection, and pins a connection only
    while a transaction or a prepared statement needs one; in transparent mode it
    relays bytes.  A control API reports health and status.  This library models
    the program from the command line to the packets, with the tools of its tests,
    and proves what a team would want to rely on.

    ** Parts of the program and the files that model them

    - [internal/lifecycle/state.go]: [Lifecycle] (process states, readiness).
    - [internal/engine/classify.go]: [Classify] ([ClassifySQL] and its scanners,
      on byte strings).
    - [internal/session/logical.go], [negotiated.go]: [Logical] (the client's
      logical session), [NativeAuth.Negotiated].
    - [internal/protocol/mysql]: [Codec] (framing over readers and writers that
      fail anywhere), [Response] and [Wire] (payload encoders and what a client
      reads back), [Handshake] (greeting, login parser, capabilities),
      [NativeAuth] (tokens, with SHA-1 written out).
    - [internal/gateway/auth_limit.go]: [AuthLimit] (failed-login limiter).
    - [internal/gateway/prepared.go]: the codec in [PreparedCodec] (arguments of
      COM_STMT_EXECUTE), [ExecuteRoundtrip] (a client's encoder against it),
      [PreparedRows] (binary rows, placeholder count) and [BinaryRows] (a client's
      reader of them); the handlers in [Gateway].
    - [internal/gateway/gateway.go]: [Gateway] (client sessions: every command
      handler, transactions, pinning, streaming of results, the command loop,
      closing), [GatewayProtocol] (its theorems about the pool), [Admission]
      ([acquire] run by many requests at once); and what the two ends see:
      [Client] (a reference client that reads responses), [Transparency] (every
      handler against it) and [Conversation] (the theorems).
    - The login, [handleClient] up to the command loop, and [authenticate]:
      [Login].
    - The rest of [gateway.go], [tls.go] and [identity.go]: [Service] (building the
      gateway, certificate files, start, shutdown, snapshot).
    - [internal/protocol/mysql/listener.go]: [Listener] (the accept loop, its
      watcher and its handlers as a step relation).
    - [internal/relay/relay.go]: [Relay] (accept loop, copying and shutdown as a
      step relation).
    - [internal/upstream]: [Connector] (driver configuration, TLS policy, error
      categories, probe).
    - [internal/config]: [Config] (defaults, layers, validation), [ConfigRules] (its
      declarative specification and theorems), [Secrets]; [WriteDefault] is in
      [Command].
    - [internal/control]: [ControlAuth] (administrator sessions; SHA-256, HMAC and
      base64 written out), [Runtime] (probe state, pressure, status report),
      [ControlApi] (routes, with [internal/ui]).
    - [internal/app/app.go]: [App] and its theorems [AppRules];
      [internal/command/command.go]: [Command] and [CommandRules].
    - [internal/benchmark]: [Benchmark] (the run, its figures and its evidence),
      [BenchmarkRules] (its theorems), [PointReads] (the workers of [runWorkload] as
      a step relation); [internal/buildinfo]: [BuildInfo].
    - [internal/testkit]: [Testkit] (disposable databases, captures of a statement
      on both paths and their comparison, kept failures).
    - [internal/gateway/reset.go]: [Reset] (bringing a pooled connection back to
      the baseline); [checkout], its caller, is in [Gateway].

    [GoStrings], [GoStrconv], [GoTime], [GoDuration], [GoNet] and [GoFlag] model what
    the sources use of Go's [strings], [unicode/utf8], [strconv], [time] (durations
    with their binary64 fractions), [net], [path/filepath] and [flag].
    [Concurrency] has the shared vocabulary of the step relations: sums over the
    participants, hand-over between an accept loop and handlers, runs, and
    [eventually], "every schedule gets there".  This file holds what all share: the outcomes of Go code, integers at their width, little-endian
    bytes, slices with bounds checks, tactics and hints.

    ** How the parts interact

    [Gateway.run_session] is [Service.handleClient] after the login.  [serve]
    reads messages (those [Codec.ReadMessage] delivers) and [dispatch]es them;
    [query] classifies with [ClassifySQL], [executePrepared] decodes with
    [decodeArguments], replies are built by [Response], rows by [textValue] and
    [binaryPreparedRow], and the flags of the status are those of [Logical].
    The handlers run in a state monad: the state is the [clientSession] record,
    the slots and connections the session holds, the service's counters and a log
    of events.  Every call to code outside the repository (the SQL driver, the
    network, [acquire] under contention, the server's answer to a reset) is
    answered by an [environment] that may answer each call differently; the
    theorems quantify over all environments.  The only assumption on it is that
    [database/sql] delivers as many values per row as there are columns, and on
    [strconv.ParseFloat] that it does not panic.  [Conversation] also assumes
    ([Transparency.driver_ok]) that a result set has columns, that counts are 64-bit
    integers, and that the hook which tests place before the reply to a commit is
    not set.

    Around the sessions: [Command.runServe] parses flags, loads the configuration
    ([Config.Load]) and the secrets, and hands them to [App.Run]; that builds
    [Connector.New] and then [Service.New] or a relay ([Relay.check]), opens the
    control API, moves the lifecycle ([Lifecycle.Transition]) and shuts down in
    order.  [Service.New] fixes what [Login.login] later judges clients by
    ([Service.login_identity]) and the listener's limits.  [App] records what it does
    to the outside as events; the operating system's answers are an [environment].
    [Command.runBenchmark] goes the same way to [Benchmark.Run], which builds a
    gateway of its own with [Service.New]; [Runtime.Snapshot] reads the evidence file
    back with [Benchmark.LoadStatus].

    The relay and the listener are step relations with one step per statement
    that others can interleave with; an action is either the process's own
    ([internal]) or the environment's, and liveness theorems hold for every
    schedule in which the process takes its enabled steps.

    ** What the theorems show

    - Whole program: any gateway [accelerator serve] starts has a valid
      configuration, a strong password from its configured source and TLS where it
      is exposed, and every login proves that password ([serve_end_to_end]); its
      exit code is honest ([serve_exit_code]); a run reports the lifecycle that
      happened and stops what it started, up to two exceptions that are stated
      ([run_lifecycle], [run_releases]).
    - Listeners: the relay and the MySQL listener keep their limits and drain under
      every schedule ([relay_drains], [listener_ends]); one gap of the relay is
      exhibited ([shutdown_misses_client]).
    - Configuration: [Validate] against a declarative specification
      ([validate_exact]), precedence of the layers, well-formedness of what [Load]
      returns, soundness of secrets; the TLS promise of the connector
      ([connector_policy]), the probe's restraint ([probe_contract]).
    - Benchmarks: what the command prints is what was measured and what the status
      page shows afterwards ([benchmark_shown]); a run works in a database of its
      own and gives back what it takes ([benchmark_isolated]); its workers measure
      every operation once under every schedule ([workload_exact]) and end
      ([workload_ends]); one gap is exhibited ([benchmark_gateway_open]).
    - Control API: operational data only with a signed session ([api_protected]);
      the status shows the last probe, the advice errs on the safe side.

    - Sessions: the log of any session is accepted by a monitor of slots,
      connections, resets and transactions, and nothing is left when the session
      ends ([session_protocol]); between commands a connection is held exactly
      while needed and the status is truthful ([session_in_order]); commits are
      acknowledged only after they happened ([commit_acknowledged]); refused
      statements have no effect ([refused_without_effect]).
    - Transparency: a client that reads one response per command is in step with
      the gateway for a whole session ([conversation_in_step]); it decodes exactly
      the rows the server returned, as text ([results_faithful]) or binary
      ([prepared_results_faithful]); the server sees the client's own statements,
      in order, once ([statements_verbatim]).  [Transparency.conversed] is the
      abstract conversation that [serve_converses] shows a session to follow.
    - Pool: a connection handed out was seen at the baseline
      ([reset_reaches_baseline]); admission keeps its limits under every
      interleaving, leaks nothing and makes progress ([admission_*]).
    - Protocol: round trips of frames, greeting, login, rows, column definitions,
      status packets and execute packets; parsers never read out of range; packet
      kinds are distinguishable.
    - Classification: transaction control is recognised exactly, reads have no
      connection-state fragment, separators are found exactly up to the gaps that
      [classifier_gaps] exhibits.
    - Authentication: a login succeeds only for the configured user, over TLS where
      required, with a proof of the password ([login_sound]); denials look alike;
      the verifier check is exact, the limiter locks out whom it should and nobody
      else, its table is bounded.  Administrator sessions of the control API last
      until their expiry and cannot be had without the token; five failures lock
      an address out.
    - Tests: two captures compare equal exactly if the same was observed
      ([captures_equal]); fixtures stay in databases of their own
      ([fixture_confined]).
    - Process and logical state: readiness is an interval, transitions fail
      closed, a session reported multiplexable is a fresh one.

    ** Bounds and fuel

    Loops over strings and byte slices that are not structural take fuel: the
    length of the input, which each round shortens ([read_frames_total],
    [strip_comments_complete] and the lemmas beside the definitions show it is
    enough).  The reference client needs none: its loops follow the packets.
    Integers are [Z] with the wrap-around of their width written out
    ([u8] to [u64], [signed]).  [session_protocol] assumes fewer than 2^32
    messages, because prepared identifiers wrap around after that many.

    ** What is not modelled

    In the sessions, contexts, deadlines and cancellation appear only as the errors
    they cause; texts of driver errors are data.  Code points above ASCII change
    case by a parameter ([UnicodeCase]), [EqualFold] is modelled against ASCII
    patterns; paths are Unix paths; floats of results are parsed and printed by a
    parameter ([FloatText]).  The YAML decoder, the certificate library, the driver
    and [os] are parameters.  The router takes percent-encoded paths decoded, and
    JSON text, log lines and the fixed security headers are left out; the copied
    bytes of the relay are only counted.  Of a benchmark, times, samples of the
    monitors and the server's answers are inputs of the run, and [Run] takes the
    measurements that [PointReads] explains.  [Config.RedactedJSON] and the text of
    the files the tests keep are [encoding/json]; getters of one field, the usage
    text and log lines have no definition. *)

From stdpp Require Import base list numbers strings gmap option.
From coqutil Require Import Byte Word.LittleEndianList.
From Stdlib Require Import ZArith Lia Strings.Byte.

(** ** Notations *)

Declare Scope accel_scope.
Delimit Scope accel_scope with accel.

(** ** Outcomes of Go code

    A Go function either returns normally, returns a non-nil error, or panics
    (an index or slice expression out of range).  The three cases are kept
    apart, so that "the parser rejects this input" and "the parser crashes on
    this input" are different values. *)

Inductive outcome (E A : Type) : Type :=
| Ret (a : A)
| Fail (e : E)
| Panic.
Arguments Ret {E A} a.
Arguments Fail {E A} e.
Arguments Panic {E A}.

#[export] Instance outcome_ret {E} : MRet (outcome E) := fun A a => Ret a.
#[export] Instance outcome_bind {E} : MBind (outcome E) :=
  fun A B k o => match o with Ret a => k a | Fail e => Fail e | Panic => Panic end.

#[export] Instance outcome_fmap {E} : FMap (outcome E) :=
  fun A B f o => match o with Ret a => Ret (f a) | Fail e => Fail e | Panic => Panic end.

#[export] Instance outcome_eq_dec {E A} `{EqDecision E, EqDecision A} :
  EqDecision (outcome E A).
Proof. solve_decision. Defined.

Definition is_ret {E A} (o : outcome E A) : bool :=
  match o with Ret _ => true | _ => false end.

Definition no_panic {E A} (o : outcome E A) : Prop := o <> Panic.

(** [if err != nil { return err }] with a message of the caller's own. *)
Definition guard_or {E} (b : bool) (e : E) : outcome E unit :=
  if b then Ret tt else Fail e.

(** [fmt.Errorf("...: %w", err)]: the error is rewritten, success and panics
    pass through. *)
Definition map_fail {E F A} (f : E -> F) (o : outcome E A) : outcome F A :=
  match o with Ret a => Ret a | Fail e => Fail (f e) | Panic => Panic end.

(** ** Slices

    [payload[i]] and [payload[lo:hi]] with Go's bounds checks. *)

Definition go_index {E A} (l : list A) (i : nat) : outcome E A :=
  match l !! i with Some a => Ret a | None => Panic end.

Definition go_slice {E A} (l : list A) (lo hi : nat) : outcome E (list A) :=
  if (lo <=? hi)%nat && (hi <=? length l)%nat then Ret (take (hi - lo) (drop lo l))
  else Panic.

(** ** Machine integers *)

Definition u8 (z : Z) : Z := (z mod 2 ^ 8)%Z.
Definition u16 (z : Z) : Z := (z mod 2 ^ 16)%Z.
Definition u32 (z : Z) : Z := (z mod 2 ^ 32)%Z.
Definition u64 (z : Z) : Z := (z mod 2 ^ 64)%Z.

(** Conversion of the low [w] bits to a signed [w]-bit integer. *)
Definition signed (w : Z) (z : Z) : Z :=
  (let r := z mod 2 ^ w in if r <? 2 ^ (w - 1) then r else r - 2 ^ w)%Z.

(** [binary.LittleEndian]: [AppendUintN]/[PutUintN] and [UintN]. *)
Definition le_bytes (n : nat) (z : Z) : list byte := le_split n z.
Definition le_value (bs : list byte) : Z := le_combine bs.

#[export] Instance byte_eq_decision : EqDecision byte := Stdlib.Strings.Byte.byte_eq_dec.

Definition zbyte (z : Z) : byte := byte.of_Z z.
Definition bval (b : byte) : Z := byte.unsigned b.

(** ** Tactics *)

(** Case analysis on the scrutinee of a match or an [if] in the goal. *)
Ltac case_goal :=
  match goal with
  | |- context [match ?x with _ => _ end] => destruct x eqn:?
  end.

(** The same in a hypothesis. *)
Ltac case_hyp H :=
  match type of H with
  | context [match ?x with _ => _ end] => destruct x eqn:?
  end.

(** Turns boolean tests of the code into the propositions they decide. *)
Ltac bool_props :=
  repeat match goal with
  | H : (_ && _)%bool = true |- _ => apply andb_prop in H; destruct H
  | H : (_ || _)%bool = false |- _ => apply orb_false_elim in H; destruct H
  | H : negb _ = true |- _ => apply negb_true_iff in H
  | H : negb _ = false |- _ => apply negb_false_iff in H
  | H : (_ <=? _)%nat = true |- _ => apply Nat.leb_le in H
  | H : (_ <=? _)%nat = false |- _ => apply Nat.leb_gt in H
  | H : (_ <? _)%nat = true |- _ => apply Nat.ltb_lt in H
  | H : (_ <? _)%nat = false |- _ => apply Nat.ltb_ge in H
  | H : (_ =? _)%nat = true |- _ => apply Nat.eqb_eq in H
  | H : (_ =? _)%nat = false |- _ => apply Nat.eqb_neq in H
  | H : (_ <=? _)%Z = true |- _ => apply Z.leb_le in H
  | H : (_ <=? _)%Z = false |- _ => apply Z.leb_gt in H
  | H : (_ <? _)%Z = true |- _ => apply Z.ltb_lt in H
  | H : (_ <? _)%Z = false |- _ => apply Z.ltb_ge in H
  | H : (_ =? _)%Z = true |- _ => apply Z.eqb_eq in H
  | H : (_ =? _)%Z = false |- _ => apply Z.eqb_neq in H
  | H : bool_decide _ = true |- _ => apply bool_decide_eq_true in H
  | H : bool_decide _ = false |- _ => apply bool_decide_eq_false in H
  end.

(** Inversion of a bind that returned. *)
Ltac invert_bind H :=
  match type of H with
  | (mbind ?k ?o) = Ret _ =>
      let a := fresh "a" in let Ha := fresh "Ha" in
      destruct o as [a| |] eqn:Ha; [|discriminate H|discriminate H];
      change (k a = Ret _) in H; cbv beta in H
  end.

(** ** Shared lemmas *)

Lemma bind_ret {E A B} (a : A) (k : A -> outcome E B) : (Ret a ≫= k) = k a.
Proof. reflexivity. Qed.

Lemma bind_ret_inv {E A B} (o : outcome E A) (k : A -> outcome E B) b :
  (o ≫= k) = Ret b -> exists a, o = Ret a /\ k a = Ret b.
Proof. destruct o; simpl; [eauto | discriminate..]. Qed.

Lemma bind_pair_ret {E A B C} (o : outcome E (A * B)) (k : A -> B -> outcome E C) c :
  ('(a, b) ← o; k a b) = Ret c -> exists a b, o = Ret (a, b) /\ k a b = Ret c.
Proof. destruct o as [[a b]| |]; simpl; [eauto | discriminate..]. Qed.

Lemma bind_no_panic {E A B} (o : outcome E A) (k : A -> outcome E B) :
  no_panic o -> (forall a, o = Ret a -> no_panic (k a)) -> no_panic (o ≫= k).
Proof. unfold no_panic. destruct o; simpl; auto. Qed.

Lemma map_fail_no_panic {E F A} (f : E -> F) (o : outcome E A) :
  no_panic o -> no_panic (map_fail f o).
Proof. unfold no_panic. destruct o; simpl; congruence. Qed.

Lemma ret_no_panic {E A} (a : A) : no_panic (Ret (E := E) a).
Proof. discriminate. Qed.

Lemma fail_no_panic {E A} (e : E) : no_panic (Fail (A := A) e).
Proof. discriminate. Qed.

Lemma go_slice_ok {E A} (l : list A) lo hi :
  lo <= hi -> hi <= length l ->
  go_slice (E := E) l lo hi = Ret (take (hi - lo) (drop lo l)).
Proof.
  intros. unfold go_slice.
  by rewrite (proj2 (Nat.leb_le _ _)), (proj2 (Nat.leb_le _ _)).
Qed.

Lemma go_slice_length {E A} (l s : list A) lo hi :
  go_slice (E := E) l lo hi = Ret s ->
  length s = hi - lo /\ lo <= hi /\ hi <= length l.
Proof.
  unfold go_slice. case_goal; [|discriminate]. intros [= <-]. bool_props.
  rewrite length_take, length_drop. lia.
Qed.

Lemma go_index_ok {E A} (l : list A) i :
  i < length l -> exists a, go_index (E := E) l i = Ret a.
Proof.
  intros Hi. unfold go_index.
  destruct (lookup_lt_is_Some_2 l i Hi) as [a ->]. eauto.
Qed.

Lemma bval_range b : (0 <= bval b < 256)%Z.
Proof. apply (byte.unsigned_range b). Qed.

Lemma bval_zbyte z : bval (zbyte z) = (z mod 256)%Z.
Proof. apply byte.unsigned_of_Z. Qed.

Lemma bval_zbyte_small z : (0 <= z < 256)%Z -> bval (zbyte z) = z.
Proof. intros. rewrite bval_zbyte. by apply Z.mod_small. Qed.

Lemma zbyte_bval b : zbyte (bval b) = b.
Proof. apply byte.of_Z_unsigned. Qed.

Lemma bval_inj b c : bval b = bval c -> b = c.
Proof. apply byte.unsigned_inj. Qed.

Lemma le_bytes_length n z : length (le_bytes n z) = n.
Proof. apply length_le_split. Qed.

Lemma le_value_bytes n z :
  (0 <= z < 2 ^ (Z.of_nat n * 8))%Z -> le_value (le_bytes n z) = z.
Proof.
  intros. unfold le_value, le_bytes. rewrite le_combine_split. by apply Z.mod_small.
Qed.

Lemma le_value_bound bs :
  (0 <= le_value bs < 2 ^ (8 * Z.of_nat (length bs)))%Z.
Proof. apply le_combine_bound. Qed.

Lemma le_bytes_value bs : le_bytes (length bs) (le_value bs) = bs.
Proof. apply split_le_combine. Qed.

(** Three bytes combined by hand, as the decoders do for 24-bit lengths. *)
Lemma three_bytes a b c :
  Z.lor (Z.lor (bval a) (Z.shiftl (bval b) 8)) (Z.shiftl (bval c) 16) = le_value [a; b; c].
Proof.
  unfold le_value. change (LittleEndianList.le_combine [a; b; c]) with
    (Z.lor (bval a) (Z.shiftl (Z.lor (bval b) (Z.shiftl (Z.lor (bval c) (Z.shiftl 0 8)) 8)) 8)).
  by rewrite Z.shiftl_0_l, Z.lor_0_r, Z.shiftl_lor, Z.shiftl_shiftl, Z.lor_assoc.
Qed.

Lemma take_length_app {A} (l k : list A) : take (length l) (l ++ k) = l.
Proof. by rewrite take_app_length. Qed.

Lemma drop_length_app {A} (l k : list A) : drop (length l) (l ++ k) = k.
Proof. by rewrite drop_app_length. Qed.

(** ** Hints *)

Create HintDb accel.
Create Rewrite HintDb accel_simpl.
#[export] Hint Resolve ret_no_panic fail_no_panic map_fail_no_panic bval_range
  le_bytes_length : accel.
#[export] Hint Rewrite @bind_ret bval_zbyte zbyte_bval le_bytes_length
  @take_length_app @drop_length_app : accel_simpl.

(** Decides [no_panic] of straight-line code: every bind is opened and the
    hint database closes the leaves. *)
Ltac safe_steps :=
  repeat first
    [ apply ret_no_panic | apply fail_no_panic
    | apply bind_no_panic; [|intros ? ?]
    | case_goal ].
