(* ===== verification/BuildInfo.v ===== *)
(** * Build information ([internal/buildinfo]) *)

From Stdlib Require Import String.
From S2P Require Import Prelude.

Module BuildInfo.
Local Open Scope string_scope.

Record Info := mkInfo { Version : string; Commit : string; BuildDate : string; GoVersion : string }.

Definition Info_String (i : Info) : string :=
  Version i ++ " commit=" ++ Commit i ++ " built=" ++ BuildDate i ++ " go=" ++ GoVersion i.

(** What a build without release metadata says of itself. *)
Definition development (go : string) : Info := mkInfo "dev" "unknown" "unknown" go.

Example development_text : Info_String (development "go1.24") = "dev commit=unknown built=unknown go=go1.24".
Proof. reflexivity. Qed.

End BuildInfo.
