(* ===== verification/GoStrings.v ===== *)
(** * The string functions of Go's standard library the sources use

    A Go string is a sequence of bytes; it is modelled by Rocq's [string].
    [strings.TrimSpace], [strings.Fields] and [strings.ToUpper] work on UTF-8
    code points.  White space is exactly [unicode.IsSpace].  The case tables of
    package [unicode] above ASCII are the interface [UnicodeCase]; every theorem
    holds whatever they are. *)

From stdpp Require Import base list numbers strings option.
From Stdlib Require Import ZArith Lia Ascii String.
From S2P Require Import Prelude.

Open Scope string_scope.

(** [unicode.ToUpper] and [unicode.ToLower] on code points of 128 and more. *)
Class UnicodeCase := {
  wide_upper : Z -> Z;
  wide_lower : Z -> Z
}.

(** The table that maps every wide code point to itself. *)
Definition ascii_case : UnicodeCase := {| wide_upper := id; wide_lower := id |}.

(** ** Bytes and slices of strings *)

Definition code (c : ascii) : Z := Z.of_N (N_of_ascii c).
Definition char (z : Z) : ascii := ascii_of_N (Z.to_N z).

Fixpoint str_drop (n : nat) (s : string) : string :=
  match n, s with
  | O, _ => s
  | S n', String _ r => str_drop n' r
  | S _, EmptyString => EmptyString
  end.

Fixpoint str_take (n : nat) (s : string) : string :=
  match n, s with
  | O, _ => EmptyString
  | S n', String c r => String c (str_take n' r)
  | S _, EmptyString => EmptyString
  end.

Definition str_get (n : nat) (s : string) : option ascii := String.get n s.

(** [strings.HasPrefix], [strings.Index], [strings.Contains]. *)
Definition has_prefix (p s : string) : bool := String.prefix p s.
Definition go_find (sub s : string) : option nat := String.index 0 sub s.
Definition contains (sub s : string) : bool :=
  match go_find sub s with Some _ => true | None => false end.

Definition trim_prefix (p s : string) : string :=
  if has_prefix p s then str_drop (String.length p) s else s.

Definition has_suffix (p s : string) : bool :=
  (String.length p <=? String.length s)%nat &&
  String.eqb (str_drop (String.length s - String.length p) s) p.

Definition trim_suffix (p s : string) : string :=
  if has_suffix p s then str_take (String.length s - String.length p) s else s.

(** [strings.IndexByte(value, '\n')] and the like. *)
Fixpoint index_byte (c : ascii) (s : string) : option nat :=
  match s with
  | EmptyString => None
  | String d r => if Ascii.eqb c d then Some 0 else S <$> index_byte c r
  end.

(** ** White space *)

Definition tab : ascii := char 9.
Definition newline : ascii := char 10.
Definition carriage_return : ascii := char 13.

(** The ASCII part of [unicode.IsSpace]: tab, LF, VT, FF, CR and space. *)
Definition ascii_space (c : ascii) : bool :=
  let z := code c in ((9 <=? z) && (z <=? 13) || (z =? 32))%Z.

(** Number of bytes of the white-space code point [s] starts with; 0 if there
    is none.  U+0085, U+00A0, U+1680, U+2000-200A, U+2028, U+2029, U+202F,
    U+205F and U+3000 are the non-ASCII ones.  Their first bytes never occur
    inside another code point, so scanning by bytes visits them all. *)
Definition space_len (s : string) : nat :=
  match s with
  | EmptyString => 0
  | String a r =>
      if ascii_space a then 1 else
      match r with
      | EmptyString => 0
      | String b r' =>
          (if (code a =? 194) && ((code b =? 133) || (code b =? 160)) then 2%nat else
          match r' with
          | EmptyString => 0%nat
          | String c _ =>
              if ((code a =? 225) && (code b =? 154) && (code c =? 128))
                 || ((code a =? 226) && (code b =? 128)
                     && (((128 <=? code c) && (code c <=? 138))
                         || (code c =? 168) || (code c =? 169) || (code c =? 175)))
                 || ((code a =? 226) && (code b =? 129) && (code c =? 159))
                 || ((code a =? 227) && (code b =? 128) && (code c =? 128))
              then 3%nat else 0%nat
          end)%Z
      end
  end.

Fixpoint trim_left_fuel (fuel : nat) (s : string) : string :=
  match fuel with
  | O => s
  | S f => match space_len s with O => s | n => trim_left_fuel f (str_drop n s) end
  end.

Definition trim_left (s : string) : string := trim_left_fuel (String.length s) s.

Definition all_space (s : string) : bool := String.eqb (trim_left s) "".

(** The shortest prefix whose rest is white space only. *)
Fixpoint trim_right (s : string) : string :=
  if all_space s then "" else
  match s with EmptyString => "" | String c r => String c (trim_right r) end.

Definition trim_space (s : string) : string := trim_right (trim_left s).

(** [strings.Fields]: maximal runs of non-space bytes. *)
Definition close_field (cur : string) (fs : list string) : list string :=
  if String.eqb cur "" then fs else cur :: fs.

Fixpoint fields_fuel (fuel : nat) (cur s : string) : list string :=
  match fuel with
  | O => close_field cur []
  | S f =>
      match s with
      | EmptyString => close_field cur []
      | String c r =>
          match space_len s with
          | O => fields_fuel f (cur ++ String c "") r
          | n => close_field cur (fields_fuel f "" (str_drop n s))
          end
      end
  end.

Definition fields (s : string) : list string := fields_fuel (S (String.length s)) "" s.

(** [strings.Join]. *)
Fixpoint join (sep : string) (l : list string) : string :=
  match l with
  | [] => ""
  | [s] => s
  | s :: r => s ++ sep ++ join sep r
  end.

(** ** Upper case *)

Definition rune_error : Z := 65533.

Definition in_range (lo hi : Z) (c : ascii) : bool := ((lo <=? code c) && (code c <=? hi))%Z.

(** [utf8.DecodeRuneInString]: code point and width; an invalid first byte
    gives U+FFFD with width 1. *)
Definition decode_rune (s : string) : Z * nat :=
  let low c := (code c mod 64)%Z in
  (match s with
  | EmptyString => (rune_error, 0%nat)
  | String a r =>
      if code a <? 128 then (code a, 1%nat) else
      match r with
      | EmptyString => (rune_error, 1%nat)
      | String b r2 =>
          if in_range 194 223 a && in_range 128 191 b
          then ((code a mod 32) * 64 + low b, 2%nat) else
          match r2 with
          | EmptyString => (rune_error, 1%nat)
          | String c r3 =>
              if ((code a =? 224) && in_range 160 191 b
                  || (in_range 225 236 a || in_range 238 239 a) && in_range 128 191 b
                  || (code a =? 237) && in_range 128 159 b) && in_range 128 191 c
              then ((code a mod 16) * 4096 + low b * 64 + low c, 3%nat) else
              match r3 with
              | EmptyString => (rune_error, 1%nat)
              | String d _ =>
                  if ((code a =? 240) && in_range 144 191 b
                      || in_range 241 243 a && in_range 128 191 b
                      || (code a =? 244) && in_range 128 143 b)
                     && in_range 128 191 c && in_range 128 191 d
                  then ((code a mod 8) * 262144 + low b * 4096 + low c * 64 + low d, 4%nat)
                  else (rune_error, 1%nat)
              end
          end
      end
  end)%Z.

(** [utf8.AppendRune]. *)
Definition encode_rune (r : Z) : string :=
  (let valid := (0 <=? r) && (r <=? 1114111) && negb ((55296 <=? r) && (r <=? 57343)) in
   let r := if valid then r else rune_error in
   let tail n := char (128 + (r / n) mod 64) in
   if r <? 128 then String (char r) ""
   else if r <? 2048 then String (char (192 + r / 64)) (String (tail 1) "")
   else if r <? 65536 then
     String (char (224 + r / 4096)) (String (tail 64) (String (tail 1) ""))
   else String (char (240 + r / 262144))
          (String (tail 4096) (String (tail 64) (String (tail 1) ""))))%Z.

(** [strings.Map] with a mapping that never drops a code point. *)
Fixpoint map_runes_fuel (fuel : nat) (f : Z -> Z) (s : string) : string :=
  match fuel, s with
  | S n, String _ _ =>
      let '(r, w) := decode_rune s in
      encode_rune (f r) ++ map_runes_fuel n f (str_drop w s)
  | _, _ => ""
  end.

Definition map_runes (f : Z -> Z) (s : string) : string :=
  map_runes_fuel (String.length s) f s.

Section Case.
Context {U : UnicodeCase}.

Definition rune_upper (r : Z) : Z :=
  (if r <? 128 then if (97 <=? r) && (r <=? 122) then r - 32 else r else wide_upper r)%Z.
Definition rune_lower (r : Z) : Z :=
  (if r <? 128 then if (65 <=? r) && (r <=? 90) then r + 32 else r else wide_lower r)%Z.

Definition to_upper (s : string) : string := map_runes rune_upper s.
Definition to_lower (s : string) : string := map_runes rune_lower s.
End Case.

(** The code points of a string, as [range] enumerates them. *)
Fixpoint runes_fuel (fuel : nat) (s : string) : list Z :=
  match fuel, s with
  | S n, String _ _ => let '(r, w) := decode_rune s in r :: runes_fuel n (str_drop w s)
  | _, _ => []
  end.

Definition runes (s : string) : list Z := runes_fuel (String.length s) s.

(** Simple case folding onto the ASCII letters: beside the two ASCII cases, the
    Kelvin sign folds to [k] and the long s to [s]. *)
Definition fold_rune (r : Z) : Z :=
  (if (65 <=? r) && (r <=? 90) then r + 32
   else if r =? 8490 then 107 else if r =? 383 then 115 else r)%Z.

(** [strings.EqualFold(s, t)] for an ASCII [t]. *)
Definition equal_fold (s t : string) : bool :=
  bool_decide (map fold_rune (runes s) = map fold_rune (runes t)).

(** ** Replacement, cutting and splitting *)

(** [strings.ReplaceAll] for a non-empty [old]. *)
Fixpoint replace_all_fuel (fuel : nat) (old new s : string) : string :=
  match fuel, s with
  | S f, String c r =>
      if has_prefix old s then new ++ replace_all_fuel f old new (str_drop (String.length old) s)
      else String c (replace_all_fuel f old new r)
  | _, _ => ""
  end.

Definition replace_all (old new s : string) : string :=
  replace_all_fuel (String.length s) old new s.

(** Removal of the bytes that satisfy [f]: a [strings.Replacer] from single
    bytes to the empty string. *)
Fixpoint remove_bytes (f : ascii -> bool) (s : string) : string :=
  match s with
  | EmptyString => ""
  | String c r => if f c then remove_bytes f r else String c (remove_bytes f r)
  end.

(** [strings.Trim] with an ASCII cut set. *)
Fixpoint cut_left (f : ascii -> bool) (s : string) : string :=
  match s with
  | EmptyString => ""
  | String c r => if f c then cut_left f r else s
  end.

Fixpoint cut_right (f : ascii -> bool) (s : string) : string :=
  match s with
  | EmptyString => ""
  | String c r =>
      let t := cut_right f r in
      if String.eqb t "" && f c then "" else String c t
  end.

Definition trim_set (f : ascii -> bool) (s : string) : string := cut_right f (cut_left f s).

(** [strings.Split(s, sep)] for a one-byte separator. *)
Fixpoint split_byte (sep : ascii) (s : string) : list string :=
  match s with
  | EmptyString => [""]
  | String c r =>
      if Ascii.eqb c sep then "" :: split_byte sep r else
      match split_byte sep r with
      | p :: ps => String c p :: ps
      | [] => [String c ""]
      end
  end.

Definition str_mem (s : string) (l : list string) : bool := existsb (String.eqb s) l.

(** [strings.LastIndexByte]. *)
Fixpoint last_index_byte (c : ascii) (s : string) : option nat :=
  match s with
  | EmptyString => None
  | String d r =>
      match last_index_byte c r with
      | Some i => Some (S i)
      | None => if Ascii.eqb c d then Some 0 else None
      end
  end.

(** [net.SplitHostPort]; [None] is an error. *)
Definition split_host_port (hostport : string) : option (string * string) :=
  let colon := char 58 in
  let opening := char 91 in
  let closing := char 93 in
  match last_index_byte colon hostport with
  | None => None
  | Some i =>
      let bracketed :=
        match hostport with String c _ => Ascii.eqb c opening | EmptyString => false end in
      let parsed :=
        if bracketed then
          match index_byte closing hostport with
          | None => None
          | Some end_ =>
              if (S end_ =? i)%nat then Some (str_take (end_ - 1)%nat (str_drop 1 hostport), 1, S end_)
              else None
          end
        else
          let host := str_take i hostport in
          match index_byte colon host with Some _ => None | None => Some (host, 0, 0) end in
      match parsed with
      | None => None
      | Some (host, j, k) =>
          match index_byte opening (str_drop j hostport), index_byte closing (str_drop k hostport) with
          | None, None => Some (host, str_drop (S i) hostport)
          | _, _ => None
          end
      end
  end.

(** Wire bytes of a string and back. *)
Definition bytes_of (s : string) : list Init.Byte.byte := list_byte_of_string s.
Definition string_of (bs : list Init.Byte.byte) : string := string_of_list_byte bs.

(** ** Lemmas *)

Lemma equal_fold_refl s : equal_fold s s = true.
Proof. by apply bool_decide_eq_true. Qed.

Example split_v4 : split_host_port "10.0.0.7:51122" = Some ("10.0.0.7", "51122").
Proof. reflexivity. Qed.
Example split_v6 : split_host_port "[fe80::1]:80" = Some ("fe80::1", "80").
Proof. reflexivity. Qed.
Example split_bare_v6 : split_host_port "fe80::1" = None.
Proof. reflexivity. Qed.

Lemma bytes_of_string_of bs : bytes_of (string_of bs) = bs.
Proof. apply list_byte_of_string_of_list_byte. Qed.

Lemma string_of_bytes_of s : string_of (bytes_of s) = s.
Proof. apply string_of_list_byte_of_string. Qed.

Lemma bytes_of_length s : List.length (bytes_of s) = String.length s.
Proof. unfold bytes_of, list_byte_of_string. rewrite length_map.
  induction s; simpl; congruence. Qed.

Lemma str_mem_true s l : str_mem s l = true <-> In s l.
Proof.
  unfold str_mem. rewrite existsb_exists. split.
  - intros (t & Ht & He). apply String.eqb_eq in He. by subst.
  - intros Hs. exists s. by rewrite String.eqb_refl.
Qed.

Lemma str_drop_length n s : String.length (str_drop n s) = String.length s - n.
Proof. revert s; induction n as [|n IH]; intros [|c s]; simpl; auto. Qed.

Lemma append_cons c p s : String c p ++ s = String c (p ++ s).
Proof. reflexivity. Qed.

Lemma str_drop_app p s : str_drop (String.length p) (p ++ s) = s.
Proof. induction p; simpl; auto. Qed.

Lemma has_prefix_app p s : has_prefix p (p ++ s) = true.
Proof. apply prefix_correct. induction p; simpl; [by destruct s|congruence]. Qed.

Lemma has_prefix_inv p s :
  has_prefix p s = true -> s = p ++ str_drop (String.length p) s.
Proof.
  revert s; induction p as [|c p IH]; intros [|d s]; simpl; try done.
  unfold has_prefix in *. simpl. destruct (ascii_dec c d); [subst|done].
  intros H. rewrite append_cons. f_equal. by apply IH.
Qed.

Lemma has_prefix_iff p s : has_prefix p s = true <-> exists r, s = p ++ r.
Proof.
  split; [intros H; eexists; by apply has_prefix_inv|].
  intros [r ->]. apply has_prefix_app.
Qed.

Lemma go_find_cons sub c s :
  go_find sub (String c s) =
    if has_prefix sub (String c s) then Some 0 else S <$> go_find sub s.
Proof. unfold go_find, has_prefix. cbn. by destruct (String.index 0 sub s). Qed.

Lemma contains_cons sub c s :
  contains sub (String c s) = has_prefix sub (String c s) || contains sub s.
Proof.
  unfold contains. rewrite go_find_cons.
  destruct (has_prefix _ _); [done|]. by destruct (go_find sub s).
Qed.

(** [strings.Contains] is substring containment. *)
Lemma contains_spec sub s : contains sub s = true <-> exists a b, s = a ++ sub ++ b.
Proof.
  split.
  - induction s as [|c s IH].
    + destruct sub; [|discriminate]. by exists "", "".
    + rewrite contains_cons. intros [H|H]%orb_prop.
      * apply has_prefix_inv in H. exists "". eexists. exact H.
      * destruct (IH H) as (a & b & ->). by exists (String c a), b.
  - intros (a & b & ->). induction a as [|c a IH].
    + change ("" ++ sub ++ b) with (sub ++ b).
      destruct (sub ++ b) as [|c s] eqn:E; [by destruct sub|].
      rewrite contains_cons, <- E, has_prefix_app. done.
    + rewrite append_cons, contains_cons, IH. apply orb_true_r.
Qed.

Lemma str_drop_suffix n s : exists a, s = a ++ str_drop n s.
Proof.
  revert s; induction n as [|n IH]; intros [|c s].
  1,2,3: by exists "".
  destruct (IH s) as [a Ha]. exists (String c a). simpl. rewrite append_cons. by f_equal.
Qed.

Lemma space_len_pos s : space_len s <> 0 -> s <> "".
Proof. by destruct s. Qed.

Lemma trim_left_fuel_length fuel s :
  String.length (trim_left_fuel fuel s) <= String.length s.
Proof.
  revert s; induction fuel as [|f IH]; intros s; simpl; [done|].
  destruct (space_len s) as [|n] eqn:E; [done|].
  etrans; [apply IH|]. change (String.length (str_drop (S n) s) <= String.length s).
  rewrite str_drop_length. lia.
Qed.

Lemma trim_right_length s : String.length (trim_right s) <= String.length s.
Proof. induction s as [|c s IH]; [done|]. simpl. destruct (all_space _); simpl; lia. Qed.

Lemma trim_space_length s : String.length (trim_space s) <= String.length s.
Proof. etrans; [apply trim_right_length|apply trim_left_fuel_length]. Qed.

(** Enough fuel trims every leading space. *)
Lemma trim_left_fuel_done fuel s :
  String.length s <= fuel -> space_len (trim_left_fuel fuel s) = 0.
Proof.
  revert s; induction fuel as [|f IH]; intros s Hl; simpl.
  - destruct s; [done|simpl in Hl; lia].
  - destruct (space_len s) as [|n] eqn:E; [done|]. apply IH.
    change (String.length (str_drop (S n) s) <= f). rewrite str_drop_length. lia.
Qed.

Lemma trim_left_no_space s : space_len (trim_left s) = 0.
Proof. by apply trim_left_fuel_done. Qed.

(** Contiguous part of a string. *)
Definition part_of (v s : string) : Prop := exists a b, s = a ++ v ++ b.

Lemma append_assoc a b c : (a ++ b) ++ c = a ++ (b ++ c).
Proof. induction a as [|x a IH]; [done|]. rewrite !append_cons. by f_equal. Qed.

Lemma append_nil_r s : s ++ "" = s.
Proof. induction s as [|x s IH]; [done|]. rewrite append_cons. by f_equal. Qed.

#[export] Instance part_of_preorder : PreOrder part_of.
Proof.
  split.
  - intros s. exists "", "". by rewrite append_nil_r.
  - intros v t s (a & b & ->) (c & d & ->). exists (c ++ a), (b ++ d).
    by rewrite !append_assoc.
Qed.

Lemma str_drop_part n s : part_of (str_drop n s) s.
Proof. destruct (str_drop_suffix n s) as [a Ha]. exists a, "". by rewrite append_nil_r. Qed.

Lemma trim_left_part s : part_of (trim_left s) s.
Proof.
  unfold trim_left. generalize (String.length s) as fuel. intros fuel.
  revert s; induction fuel as [|f IH]; intros s; simpl; [done|].
  destruct (space_len s) as [|n]; [done|].
  etrans; [apply IH|]. apply (str_drop_part (S n)).
Qed.

Lemma trim_right_prefix s : exists b, s = trim_right s ++ b.
Proof.
  induction s as [|c s [b IH]]; [by exists ""|]. simpl.
  destruct (all_space _); [by eexists|].
  exists b. rewrite append_cons. by f_equal.
Qed.

Lemma trim_space_part s : part_of (trim_space s) s.
Proof.
  unfold trim_space. etrans; [|apply trim_left_part].
  destruct (trim_right_prefix (trim_left s)) as [b Hb]. by exists "", b.
Qed.

Lemma empty_part s : part_of "" s.
Proof. by exists "", s. Qed.

#[export] Hint Resolve str_drop_part trim_space_part empty_part : accel.

#[export] Hint Rewrite bytes_of_string_of string_of_bytes_of bytes_of_length : accel_simpl.
