(* ===== verification/GoStrconv.v ===== *)
(** * Decimal numerals: what the sources use of [strconv] and [fmt]

    [ParseUint] and [ParseInt] in base ten with their bit sizes, the decimal
    rendering that [fmt.Sprint] and [strconv.FormatUint] give integers, and the
    zero-padded [%0nd]. *)

From stdpp Require Import base list numbers strings option.
From Stdlib Require Import ZArith Lia Ascii String.
From S2P Require Import Prelude GoStrings.

Module GoStrconv.
Local Open Scope string_scope.
Local Open Scope Z_scope.

(** ** Rendering *)

Definition digit (d : Z) : ascii := char (48 + d).

Fixpoint format_fuel (fuel : nat) (z : Z) : string :=
  let last := String (digit (z mod 10)) "" in
  match fuel with
  | O => last
  | S f => if z <? 10 then last else format_fuel f (z / 10) ++ last
  end.

(** [strconv.FormatUint(z, 10)] *)
Definition format_uint (z : Z) : string := format_fuel (Z.to_nat (Z.log2 z)) z.

(** [strconv.FormatInt(z, 10)] *)
Definition format_int (z : Z) : string :=
  if z <? 0 then String (char 45) (format_uint (- z)) else format_uint z.

Fixpoint zeros (n : nat) : string :=
  match n with O => "" | S n => String (char 48) (zeros n) end.

(** [fmt.Sprintf("%0nd", z)] for an unsigned [z]. *)
Definition pad_uint (n : nat) (z : Z) : string :=
  let s := format_uint z in zeros (n - String.length s) ++ s.

(** ** Parsing *)

Inductive num_error := ErrSyntax | ErrRange.

Definition is_digit (c : ascii) : bool := (48 <=? code c) && (code c <=? 57).

(** The value of a string of digits. *)
Fixpoint digits_value (acc : Z) (s : string) : option Z :=
  match s with
  | EmptyString => Some acc
  | String c r => if is_digit c then digits_value (acc * 10 + (code c - 48)) r else None
  end.

(** [strconv.ParseUint(s, 10, bits)] *)
Definition ParseUint (bits : Z) (s : string) : outcome num_error Z :=
  match s with
  | EmptyString => Fail ErrSyntax
  | _ =>
      match digits_value 0 s with
      | None => Fail ErrSyntax
      | Some v => if 2 ^ bits - 1 <? v then Fail ErrRange else Ret v
      end
  end.

(** [strconv.ParseInt(s, 10, bits)] *)
Definition ParseInt (bits : Z) (s : string) : outcome num_error Z :=
  match s with
  | EmptyString => Fail ErrSyntax
  | String c r =>
      let neg := Ascii.eqb c (char 45) in
      let digits := if neg || Ascii.eqb c (char 43) then r else s in
      un ← ParseUint bits digits;
      if neg then (if 2 ^ (bits - 1) <? un then Fail ErrRange else Ret (- un))
      else if 2 ^ (bits - 1) <=? un then Fail ErrRange else Ret un
  end.

(** ** Lemmas *)

Lemma code_char z : 0 <= z < 256 -> code (char z) = z.
Proof.
  intros Hz. unfold code, char. rewrite N_ascii_embedding by lia. lia.
Qed.

Lemma code_digit d : 0 <= d < 10 -> code (digit d) = 48 + d.
Proof. intros Hd. apply code_char. lia. Qed.

Lemma is_digit_digit d : 0 <= d < 10 -> is_digit (digit d) = true.
Proof. intros Hd. unfold is_digit. rewrite code_digit by done. lia. Qed.

Lemma digits_value_app a : forall b acc,
  digits_value acc (a ++ b) = acc' ← digits_value acc a; digits_value acc' b.
Proof.
  induction a as [|c a IH]; intros b acc; [done|]. rewrite append_cons. cbn.
  destruct (is_digit c); [apply IH|done].
Qed.

Lemma digits_value_one acc d :
  0 <= d < 10 -> digits_value acc (String (digit d) "") = Some (acc * 10 + d).
Proof.
  intros Hd. cbn [digits_value]. rewrite is_digit_digit, code_digit by done. f_equal. lia.
Qed.

Lemma format_fuel_value fuel : forall z,
  0 <= z -> z < 2 ^ (Z.of_nat fuel + 1) -> digits_value 0 (format_fuel fuel z) = Some z.
Proof.
  induction fuel as [|f IH]; intros z Hz Hf; cbn [format_fuel].
  - rewrite digits_value_one by (apply Z.mod_pos_bound; lia). f_equal.
    rewrite Z.mod_small by lia. lia.
  - destruct (Z.ltb_spec z 10).
    + rewrite Z.mod_small by lia. rewrite digits_value_one by lia. f_equal.
    + rewrite digits_value_app, IH.
      * cbn [mbind option_bind]. rewrite digits_value_one by (apply Z.mod_pos_bound; lia).
        f_equal. pose proof (Z.div_mod z 10). lia.
      * apply Z.div_pos; lia.
      * replace (Z.of_nat (S f) + 1) with (Z.succ (Z.of_nat f + 1)) in Hf by lia.
        rewrite Z.pow_succ_r in Hf by lia. apply Z.div_lt_upper_bound; lia.
Qed.

(** A rendered number is read back. *)
Lemma format_uint_value z : 0 <= z -> digits_value 0 (format_uint z) = Some z.
Proof.
  intros Hz. apply format_fuel_value; [done|].
  destruct (Z.eq_dec z 0) as [->|Hne]; [done|].
  rewrite Z2Nat.id by apply Z.log2_nonneg. apply (Z.log2_spec z). lia.
Qed.

Lemma format_fuel_nonempty fuel z : format_fuel fuel z <> "".
Proof.
  destruct fuel; cbn [format_fuel]; [done|]. case_goal; [done|].
  destruct (format_fuel fuel (z / 10)); [done|]. by rewrite append_cons.
Qed.

Lemma zeros_value n : forall s, digits_value 0 (zeros n ++ s) = digits_value 0 s.
Proof. induction n as [|n IH]; intros s; [done|]. cbn [zeros]. rewrite append_cons. apply IH. Qed.

Lemma pad_uint_value n z : 0 <= z -> digits_value 0 (pad_uint n z) = Some z.
Proof. intros Hz. unfold pad_uint. cbv zeta. by rewrite zeros_value, format_uint_value. Qed.

Lemma pad_uint_nonempty n z : pad_uint n z <> "".
Proof.
  unfold pad_uint. cbv zeta. pose proof (format_fuel_nonempty (Z.to_nat (Z.log2 z)) z).
  destruct (n - _)%nat; cbn [zeros]; [done|]. by rewrite append_cons.
Qed.

Lemma parse_uint_value bits s v :
  s <> "" -> digits_value 0 s = Some v -> v < 2 ^ bits -> ParseUint bits s = Ret v.
Proof.
  intros Hne Hv Hb. unfold ParseUint. destruct s; [done|]. rewrite Hv.
  by rewrite (proj2 (Z.ltb_ge _ v)) by lia.
Qed.

Lemma parse_pad n bits z : 0 <= z < 2 ^ bits -> ParseUint bits (pad_uint n z) = Ret z.
Proof.
  intros Hz. apply parse_uint_value; [apply pad_uint_nonempty|apply pad_uint_value; lia|lia].
Qed.

Lemma parse_format_uint bits z : 0 <= z < 2 ^ bits -> ParseUint bits (format_uint z) = Ret z.
Proof.
  intros Hz. apply parse_uint_value; [apply format_fuel_nonempty|apply format_uint_value; lia|lia].
Qed.

Lemma digits_value_bound s : forall acc v, 0 <= acc -> digits_value acc s = Some v -> 0 <= v.
Proof.
  induction s as [|c s IH]; intros acc v Ha; cbn; [by intros [= <-]|].
  destruct (is_digit c) eqn:E; [|done]. unfold is_digit in E. bool_props.
  apply IH. lia.
Qed.

(** Success means the value is in range. *)
Lemma parse_uint_range bits s v : ParseUint bits s = Ret v -> 0 <= v < 2 ^ bits.
Proof.
  unfold ParseUint. destruct s as [|c s]; [done|].
  destruct (digits_value 0 _) as [w|] eqn:E; [|done].
  destruct (Z.ltb_spec (2 ^ bits - 1) w); [done|]. intros [= <-].
  apply digits_value_bound in E; lia.
Qed.

Lemma parse_int_range bits s v :
  0 < bits -> ParseInt bits s = Ret v -> - 2 ^ (bits - 1) <= v < 2 ^ (bits - 1).
Proof.
  intros Hb. unfold ParseInt. destruct s as [|c s]; [done|]. intros (un & Hu & H)%bind_ret_inv.
  apply parse_uint_range in Hu. assert (0 < 2 ^ (bits - 1)) by (apply Z.pow_pos_nonneg; lia).
  destruct (Ascii.eqb c (char 45)).
  - destruct (Z.ltb_spec (2 ^ (bits - 1)) un); [done|]. injection H as <-. lia.
  - destruct (Z.leb_spec (2 ^ (bits - 1)) un); [done|]. injection H as <-. lia.
Qed.

(** The first character of a rendered unsigned number is a digit. *)
Lemma digits_value_head c r acc v :
  digits_value acc (String c r) = Some v ->
  Ascii.eqb c (char 45) = false /\ Ascii.eqb c (char 43) = false.
Proof.
  cbn. destruct (is_digit c) eqn:E; [|done]. intros _.
  split; apply Ascii.eqb_neq; intros ->; vm_compute in E; discriminate.
Qed.

Lemma parse_format_int bits z :
  0 < bits -> - 2 ^ (bits - 1) <= z < 2 ^ (bits - 1) -> ParseInt bits (format_int z) = Ret z.
Proof.
  intros Hb Hz. assert (He : 2 ^ bits = 2 * 2 ^ (bits - 1)).
  { rewrite <- Z.pow_succ_r by lia. f_equal. lia. }
  unfold format_int. destruct (Z.ltb_spec z 0).
  - unfold ParseInt. rewrite Ascii.eqb_refl. cbn [orb].
    rewrite parse_format_uint by lia. cbn [mbind outcome_bind].
    rewrite (proj2 (Z.ltb_ge _ _)) by lia. f_equal. lia.
  - pose proof (format_uint_value z ltac:(lia)) as Hv.
    pose proof (parse_format_uint bits z ltac:(lia)) as Hp.
    destruct (format_uint z) as [|c r] eqn:E; [by destruct (format_fuel_nonempty _ _ E)|].
    destruct (digits_value_head c r 0 z Hv) as [Hm Hpl]. unfold ParseInt.
    rewrite Hm, Hpl. cbn [orb]. rewrite Hp. cbn [mbind outcome_bind].
    by rewrite (proj2 (Z.leb_gt _ _)) by lia.
Qed.

(** ** Shape of rendered numbers *)

Lemma append_length a b : String.length (a ++ b) = (String.length a + String.length b)%nat.
Proof. induction a as [|c a IH]; [done|]. rewrite append_cons. cbn. by rewrite IH. Qed.

Lemma format_fuel_length fuel : forall z k,
  0 <= z < 10 ^ Z.of_nat (S k) -> (String.length (format_fuel fuel z) <= S k)%nat.
Proof.
  induction fuel as [|f IH]; intros z k Hz; cbn [format_fuel]; [cbn; lia|].
  destruct (Z.ltb_spec z 10); [cbn; lia|]. destruct k as [|k].
  { change (10 ^ Z.of_nat 1) with 10 in Hz. lia. }
  rewrite append_length. assert (String.length (format_fuel f (z / 10)) <= S k)%nat; [|cbn; lia].
  apply IH. replace (Z.of_nat (S (S k))) with (Z.succ (Z.of_nat (S k))) in Hz by lia.
  rewrite Z.pow_succ_r in Hz by lia. split; [apply Z.div_pos; lia|apply Z.div_lt_upper_bound; lia].
Qed.

Lemma zeros_length n : String.length (zeros n) = n.
Proof. induction n as [|n IH]; [done|]. cbn. by rewrite IH. Qed.

Lemma pad_uint_length n z :
  0 <= z < 10 ^ Z.of_nat (S n) -> String.length (pad_uint (S n) z) = S n.
Proof.
  intros Hz. unfold pad_uint. cbv zeta. rewrite append_length, zeros_length.
  pose proof (format_fuel_length (Z.to_nat (Z.log2 z)) z n Hz).
  fold (format_uint z) in *. lia.
Qed.

(** A byte that is not a digit does not occur in a string of digits. *)
Lemma index_not_digit c s : forall acc v,
  is_digit c = false -> digits_value acc s = Some v -> index_byte c s = None.
Proof.
  induction s as [|d s IH]; intros acc v Hc; [done|]. cbn. destruct (is_digit d) eqn:Ed; [|done].
  intros H. destruct (Ascii.eqb_spec c d) as [->|]; [congruence|]. by erewrite IH.
Qed.

Lemma index_byte_append c a b :
  index_byte c a = None ->
  index_byte c (a ++ b) = (fun i => String.length a + i)%nat <$> index_byte c b.
Proof.
  induction a as [|d a IH]; [intros _; change ("" ++ b) with b; by destruct (index_byte c b)|].
  rewrite append_cons. cbn.
  destruct (Ascii.eqb c d); [done|]. destruct (index_byte c a); [done|]. intros _.
  rewrite IH by done. by destruct (index_byte c b).
Qed.

Lemma split_byte_one c a : index_byte c a = None -> split_byte c a = [a].
Proof.
  induction a as [|d a IH]; [done|]. cbn. rewrite (Ascii.eqb_sym d c).
  destruct (Ascii.eqb c d); [done|]. destruct (index_byte c a); [done|]. intros _. by rewrite IH.
Qed.

Lemma split_byte_append c a b :
  index_byte c a = None -> split_byte c (a ++ String c b) = a :: split_byte c b.
Proof.
  induction a as [|d a IH]; [intros _; change ("" ++ String c b) with (String c b); cbn; by rewrite Ascii.eqb_refl|]. rewrite append_cons. cbn.
  rewrite (Ascii.eqb_sym d c). destruct (Ascii.eqb c d); [done|].
  destruct (index_byte c a); [done|]. intros _. by rewrite IH.
Qed.

Lemma str_take_append a b : str_take (String.length a) (a ++ b) = a.
Proof. induction a as [|c a IH]; [by destruct b|]. rewrite append_cons. cbn. by rewrite IH. Qed.

Lemma pad_uint_no c n z : is_digit c = false -> 0 <= z -> index_byte c (pad_uint n z) = None.
Proof. intros Hc Hz. eapply index_not_digit; [done|]. by apply pad_uint_value. Qed.

Lemma pad_uint_no_sign n z s : 0 <= z -> has_prefix "-" (pad_uint n z ++ s) = false.
Proof.
  intros Hz. pose proof (pad_uint_value n z Hz) as Hv. pose proof (pad_uint_nonempty n z).
  destruct (pad_uint n z) as [|c r]; [done|]. rewrite append_cons.
  apply digits_value_head in Hv as [Hm _]. destruct (has_prefix _ _) eqn:E; [|done].
  apply has_prefix_iff in E as [t E]. rewrite append_cons in E. injection E as -> _. done.
Qed.

End GoStrconv.
