(* ===== verification/GoTime.v ===== *)
(** * Instants: what the sources use of package [time]

    A [time.Time] in UTC is its number of nanoseconds since 1970.  [time.Date]
    normalises out-of-range fields; the calendar accessors, the three layouts
    the sources format with and the two they parse are written out. *)

From stdpp Require Import base list numbers strings option.
From Stdlib Require Import ZArith Lia Ascii String.
From S2P Require Import Prelude GoStrings GoStrconv.
Import GoStrconv.

Module GoTime.
Local Open Scope string_scope.
Local Open Scope Z_scope.

(** ** Days and civil dates (proleptic Gregorian) *)

(** Day of the 400-year era, for a year that starts in March. *)
Definition day_of_era (yoe mp d : Z) : Z :=
  yoe * 365 + yoe / 4 - yoe / 100 + ((153 * mp + 2) / 5 + d - 1).

Definition era_date (doe : Z) : Z * Z * Z :=
  let yoe := (doe - doe / 1460 + doe / 36524 - doe / 146096) / 365 in
  let doy := doe - (365 * yoe + yoe / 4 - yoe / 100) in
  let mp := (5 * doy + 2) / 153 in
  (yoe, mp, doy - (153 * mp + 2) / 5 + 1).

Definition days_from_civil (y m d : Z) : Z :=
  let y := if m <=? 2 then y - 1 else y in
  let mp := if m <=? 2 then m + 9 else m - 3 in
  y / 400 * 146097 + day_of_era (y mod 400) mp d - 719468.

Definition civil_from_days (days : Z) : Z * Z * Z :=
  let z := days + 719468 in
  let '(yoe, mp, d) := era_date (z mod 146097) in
  let y := yoe + z / 146097 * 400 in
  if mp <? 10 then (y, mp + 3, d) else (y + 1, mp - 9, d).

Definition leap (y : Z) : bool :=
  (y mod 4 =? 0) && (negb (y mod 100 =? 0) || (y mod 400 =? 0)).

Definition days_in (m y : Z) : Z :=
  if m =? 2 then if leap y then 29 else 28
  else if (m =? 4) || (m =? 6) || (m =? 9) || (m =? 11) then 30 else 31.

(** ** Instants *)

Definition second_ns : Z := 10 ^ 9.
Definition day_ns : Z := 86400 * second_ns.

(** [time.Date(..., time.UTC)]: months overflow into years, everything below
    adds up. *)
Definition Date (year month day hour minute second ns : Z) : Z :=
  let y := year + (month - 1) / 12 in
  let m := (month - 1) mod 12 + 1 in
  (days_from_civil y m 1 + (day - 1)) * day_ns +
  (hour * 3600 + minute * 60 + second) * second_ns + ns.

Definition civil (t : Z) : Z * Z * Z := civil_from_days (t / day_ns).
Definition Year (t : Z) : Z := let '(y, _, _) := civil t in y.
Definition Month (t : Z) : Z := let '(_, m, _) := civil t in m.
Definition Day (t : Z) : Z := let '(_, _, d) := civil t in d.
Definition Hour (t : Z) : Z := t / (3600 * second_ns) mod 24.
Definition Minute (t : Z) : Z := t / (60 * second_ns) mod 60.
Definition Second (t : Z) : Z := t / second_ns mod 60.
Definition Nanosecond (t : Z) : Z := t mod second_ns.

(** ** Formatting *)

Definition pad_int (n : nat) (z : Z) : string :=
  if z <? 0 then "-" ++ pad_uint n (- z) else pad_uint n z.

(** Layout 2006-01-02. *)
Definition format_date (t : Z) : string :=
  pad_int 4 (Year t) ++ "-" ++ pad_uint 2 (Month t) ++ "-" ++ pad_uint 2 (Day t).

(** Layout 15:04:05.000000. *)
Definition format_clock (t : Z) : string :=
  pad_uint 2 (Hour t) ++ ":" ++ pad_uint 2 (Minute t) ++ ":" ++ pad_uint 2 (Second t) ++ "." ++
  pad_uint 6 (Nanosecond t / 1000).

(** Layout 2006-01-02 15:04:05.000000. *)
Definition format_datetime (t : Z) : string := format_date t ++ " " ++ format_clock t.

(** ** Parsing *)

(** [getnum]: two digits, or one unless [fixed]. *)
Definition getnum (fixed : bool) (s : string) : option (Z * string) :=
  match s with
  | String c r =>
      if is_digit c then
        match r with
        | String d r' =>
            if is_digit d then Some ((code c - 48) * 10 + (code d - 48), r')
            else if fixed then None else Some (code c - 48, r)
        | EmptyString => if fixed then None else Some (code c - 48, r)
        end
      else None
  | EmptyString => None
  end.

Definition getyear (s : string) : option (Z * string) :=
  let p := str_take 4 s in
  if (String.length p <? 4)%nat then None
  else match digits_value 0 p with Some y => Some (y, str_drop 4 s) | None => None end.

(** [skip] over a literal of the layout; a space matches any run of spaces. *)
Definition literal (c : ascii) (s : string) : option string :=
  match s with String d r => if Ascii.eqb c d then Some r else None | EmptyString => None end.

Definition skip_space (s : string) : option string :=
  match s with
  | String d _ => if Ascii.eqb d (char 32) then Some (cut_left (Ascii.eqb (char 32)) s) else None
  | EmptyString => Some s
  end.

(** The run of digits at the start of a string and the rest. *)
Fixpoint span_digits (s : string) : string * string :=
  match s with
  | String c r => if is_digit c then let '(a, b) := span_digits r in (String c a, b) else ("", s)
  | EmptyString => ("", "")
  end.

(** An optional fraction: nanoseconds from at most nine digits, the rest of the
    digits is read and dropped. *)
Definition fraction (s : string) : Z * string :=
  match s with
  | String p (String c _ as r) =>
      if (Ascii.eqb p (char 46) || Ascii.eqb p (char 44)) && is_digit c then
        let '(ds, rest) := span_digits r in
        let kept := str_take 9 ds in
        (match digits_value 0 kept with
         | Some v => v * 10 ^ (9 - Z.of_nat (String.length kept))
         | None => 0
         end, rest)
      else (0, s)
  | _ => (0, s)
  end.

Definition in_bounds (lo hi z : Z) : option unit := if (lo <=? z) && (z <=? hi) then Some tt else None.

Definition parse_day (s : string) : option (Z * Z * Z * string) :=
  '(y, s) ← getyear s;
  s ← literal (char 45) s;
  '(m, s) ← getnum true s;
  _ ← in_bounds 1 12 m;
  s ← literal (char 45) s;
  '(d, s) ← getnum true s;
  Some (y, m, d, s).

(** [time.ParseInLocation] with layout 2006-01-02. *)
Definition parse_date (s : string) : option Z :=
  '(y, m, d, s) ← parse_day s;
  if negb (String.eqb s "") then None else
  _ ← in_bounds 1 (days_in m y) d;
  Some (Date y m d 0 0 0 0).

(** The same with layout 2006-01-02 15:04:05.999999. *)
Definition parse_datetime (s : string) : option Z :=
  '(y, m, d, s) ← parse_day s;
  s ← skip_space s;
  '(hh, s) ← getnum false s;
  _ ← in_bounds 0 23 hh;
  s ← literal (char 58) s;
  '(mm, s) ← getnum true s;
  _ ← in_bounds 0 59 mm;
  s ← literal (char 58) s;
  '(ss, s) ← getnum true s;
  _ ← in_bounds 0 59 ss;
  let '(ns, s) := fraction s in
  if negb (String.eqb s "") then None else
  _ ← in_bounds 1 (days_in m y) d;
  Some (Date y m d hh mm ss ns).

Example parse_date_ex : parse_date "2024-02-29" = Some (Date 2024 2 29 0 0 0 0).
Proof. vm_compute. reflexivity. Qed.
Example parse_date_range : parse_date "2023-02-29" = None.
Proof. vm_compute. reflexivity. Qed.
Example parse_datetime_ex :
  format_datetime <$> parse_datetime "1999-12-31 23:59:58.25" = Some "1999-12-31 23:59:58.250000".
Proof. vm_compute. reflexivity. Qed.
Example date_epoch : Date 1970 1 1 0 0 0 0 = 0 /\ Date 2001 9 9 1 46 40 0 = 10 ^ 18.
Proof. vm_compute. split; reflexivity. Qed.

(** ** Calendar lemmas *)

Ltac divisions := Z.to_euclidean_division_equations; lia.

Lemma year_range doe :
  0 <= doe < 146097 ->
  0 <= (doe - doe / 1460 + doe / 36524 - doe / 146096) / 365 < 400.
Proof. intros Hd. divisions. Qed.

Lemma year_day_range doe yoe :
  0 <= doe < 146097 ->
  yoe = (doe - doe / 1460 + doe / 36524 - doe / 146096) / 365 ->
  0 <= doe - (365 * yoe + yoe / 4 - yoe / 100) <= 365.
Proof. intros. split; divisions. Qed.

Lemma month_range doy :
  0 <= doy <= 365 ->
  0 <= (5 * doy + 2) / 153 < 12 /\
  1 <= doy - (153 * ((5 * doy + 2) / 153) + 2) / 5 + 1 <= 31.
Proof. intros Hd. divisions. Qed.

(** The conversion of a day of the era inverts on each of its 146097 days. *)
Lemma era_date_ok doe :
  0 <= doe < 146097 ->
  let '(yoe, mp, d) := era_date doe in
  0 <= yoe < 400 /\ 0 <= mp < 12 /\ 1 <= d <= 31 /\ day_of_era yoe mp d = doe.
Proof.
  intros Hd. unfold era_date. cbv zeta.
  pose proof (year_range doe Hd) as Hy. pose proof (year_day_range doe _ Hd eq_refl) as Hdoy.
  destruct (month_range _ Hdoy) as [Hm Hday]. unfold day_of_era. split_and!; try done; lia.
Qed.

(** Leap year, for a year of the era that starts in March: its last day is the
    366th. *)
Definition leap_era (yoe : Z) : Prop :=
  (yoe + 1) mod 4 = 0 /\ ((yoe + 1) mod 100 <> 0 \/ (yoe + 1) mod 400 = 0).

Lemma year_of_day yoe doy :
  0 <= yoe < 400 -> 0 <= doy -> doy <= 364 \/ (doy = 365 /\ leap_era yoe) ->
  let doe := yoe * 365 + yoe / 4 - yoe / 100 + doy in
  0 <= doe < 146097 /\
  (doe - doe / 1460 + doe / 36524 - doe / 146096) / 365 = yoe.
Proof. unfold leap_era. cbv zeta. intros Hy H0 [H|[-> H]]; split; divisions. Qed.

(** Civil year and month of a year that starts in March. *)
Definition civil_month (mp : Z) : Z := if mp <? 10 then mp + 3 else mp - 9.
Definition civil_year (y mp : Z) : Z := if mp <? 10 then y else y + 1.

Lemma leap_true y : leap y = true -> y mod 4 = 0 /\ (y mod 100 <> 0 \/ y mod 400 = 0).
Proof. unfold leap. lia. Qed.

Lemma month_of_day yoe era mp d :
  0 <= mp < 12 -> 1 <= d <= days_in (civil_month mp) (civil_year (yoe + era * 400) mp) ->
  let doy := (153 * mp + 2) / 5 + d - 1 in
  (5 * doy + 2) / 153 = mp /\ 0 <= doy /\ (doy <= 364 \/ (doy = 365 /\ leap_era yoe)).
Proof.
  intros Hm. assert (Hc : mp = 0 \/ mp = 1 \/ mp = 2 \/ mp = 3 \/ mp = 4 \/ mp = 5 \/ mp = 6 \/
    mp = 7 \/ mp = 8 \/ mp = 9 \/ mp = 10 \/ mp = 11) by lia.
  destruct Hc as [->|[->|[->|[->|[->|[->|[->|[->|[->|[->|[->| ->]]]]]]]]]]].
  all: unfold days_in;
    match goal with |- context [civil_month ?k] =>
      let m := eval vm_compute in (civil_month k) in change (civil_month k) with m end;
    cbn [Z.eqb Pos.eqb orb].
  1-11: intros Hd; split_and!; divisions.
  change (civil_year (yoe + era * 400) 11) with (yoe + era * 400 + 1).
  destruct (leap (yoe + era * 400 + 1)) eqn:Hl; intros Hd.
  - apply leap_true in Hl.
    assert (leap_era yoe) by (unfold leap_era; clear - Hl; divisions).
    split_and!; [divisions..|]. destruct (Z.eq_dec d 29) as [->|]; [right; done|left; divisions].
  - split_and!; divisions.
Qed.

Lemma era_date_inv yoe era mp d :
  0 <= yoe < 400 -> 0 <= mp < 12 ->
  1 <= d <= days_in (civil_month mp) (civil_year (yoe + era * 400) mp) ->
  0 <= day_of_era yoe mp d < 146097 /\ era_date (day_of_era yoe mp d) = (yoe, mp, d).
Proof.
  intros Hy Hm Hd. destruct (month_of_day yoe era mp d Hm Hd) as (Hmp & H0 & Hdoy).
  destruct (year_of_day yoe _ Hy H0 Hdoy) as [Hr Hyear]. split; [exact Hr|].
  unfold era_date. cbv zeta. unfold day_of_era. rewrite Hyear.
  replace (_ - (365 * yoe + yoe / 4 - yoe / 100)) with ((153 * mp + 2) / 5 + d - 1) by lia.
  rewrite Hmp. f_equal. lia.
Qed.

Lemma civil_days days : let '(y, m, d) := civil_from_days days in
  days_from_civil y m d = days /\ 1 <= m <= 12 /\ 1 <= d <= 31.
Proof.
  unfold civil_from_days. cbv zeta.
  pose proof (era_date_ok ((days + 719468) mod 146097)) as H.
  specialize (H (Z.mod_pos_bound _ 146097 ltac:(lia))).
  destruct (era_date _) as [[yoe mp] d]. destruct H as (Hy & Hm & Hd & He).
  pose proof (Z.div_mod (days + 719468) 146097).
  unfold days_from_civil. destruct (Z.ltb_spec mp 10).
  - rewrite (proj2 (Z.leb_gt (mp + 3) 2)) by lia.
    rewrite Z.div_add, Z.mod_add, Z.div_small, Z.mod_small by lia.
    replace (mp + 3 - 3) with mp by lia. lia.
  - rewrite (proj2 (Z.leb_le (mp - 9) 2)) by lia.
    replace (yoe + (days + 719468) / 146097 * 400 + 1 - 1)
      with (yoe + (days + 719468) / 146097 * 400) by lia.
    rewrite Z.div_add, Z.mod_add, Z.div_small, Z.mod_small by lia.
    replace (mp - 9 + 9) with mp by lia. lia.
Qed.

Lemma days_from_civil_day y m d : days_from_civil y m 1 + (d - 1) = days_from_civil y m d.
Proof. unfold days_from_civil, day_of_era. repeat case_goal; lia. Qed.

(** An instant is rebuilt from its fields. *)
Lemma date_of_fields t :
  Date (Year t) (Month t) (Day t) (Hour t) (Minute t) (Second t) (Nanosecond t) = t.
Proof.
  unfold Date, Year, Month, Day, civil. pose proof (civil_days (t / day_ns)) as H.
  destruct (civil_from_days _) as [[y m] d]. destruct H as (He & Hm & Hd).
  rewrite Z.div_small, Z.mod_small by lia. replace (m - 1 + 1) with m by lia.
  rewrite Z.add_0_r, days_from_civil_day, He.
  unfold Hour, Minute, Second, Nanosecond, day_ns, second_ns. clear.
  change (10 ^ 9) with 1000000000. Z.to_euclidean_division_equations. lia.
Qed.

Lemma civil_of_date y m d :
  1 <= m <= 12 -> 1 <= d <= days_in m y -> civil_from_days (days_from_civil y m d) = (y, m, d).
Proof.
  intros Hm Hd. unfold days_from_civil.
  set (mp := if m <=? 2 then m + 9 else m - 3). set (y' := if m <=? 2 then y - 1 else y).
  assert (Hmp : 0 <= mp < 12) by (unfold mp; destruct (Z.leb_spec m 2); lia).
  assert (Hcm : civil_month mp = m).
  { unfold civil_month, mp. destruct (Z.leb_spec m 2); [rewrite (proj2 (Z.ltb_ge _ 10))|
      rewrite (proj2 (Z.ltb_lt _ 10))]; lia. }
  assert (Hcy : civil_year y' mp = y).
  { unfold civil_year, mp, y'. destruct (Z.leb_spec m 2); [rewrite (proj2 (Z.ltb_ge _ 10))|
      rewrite (proj2 (Z.ltb_lt _ 10))]; lia. }
  assert (Hsplit : y' mod 400 + y' / 400 * 400 = y') by (pose proof (Z.div_mod y' 400); lia).
  destruct (era_date_inv (y' mod 400) (y' / 400) mp d) as [Hr He].
  { apply Z.mod_pos_bound. lia. }
  { done. }
  { by rewrite Hsplit, Hcm, Hcy. }
  unfold civil_from_days. cbv zeta.
  replace (y' / 400 * 146097 + day_of_era (y' mod 400) mp d - 719468 + 719468)
    with (day_of_era (y' mod 400) mp d + y' / 400 * 146097) by lia.
  rewrite Z.mod_add, Z.div_add, Z.mod_small, Z.div_small, He, Z.add_0_l, Hsplit by lia.
  revert Hcm Hcy. unfold civil_month, civil_year. destruct (mp <? 10); by intros -> ->.
Qed.

(** Fields of a valid civil date and time. *)
Record valid_fields (y m d hh mm ss ns : Z) : Prop := {
  vf_month : 1 <= m <= 12;
  vf_day : 1 <= d <= days_in m y;
  vf_hour : 0 <= hh < 24;
  vf_minute : 0 <= mm < 60;
  vf_second : 0 <= ss < 60;
  vf_ns : 0 <= ns < 10 ^ 9 }.

(** [time.Date] of valid fields has these fields. *)
Lemma fields_of_date y m d hh mm ss ns :
  valid_fields y m d hh mm ss ns ->
  let t := Date y m d hh mm ss ns in
  Year t = y /\ Month t = m /\ Day t = d /\
  Hour t = hh /\ Minute t = mm /\ Second t = ss /\ Nanosecond t = ns.
Proof.
  intros [Hm Hd Hhh Hmm Hss Hns] t.
  assert (Ht : t = days_from_civil y m d * day_ns + (hh * 3600 + mm * 60 + ss) * second_ns + ns).
  { unfold t, Date. rewrite Z.div_small, Z.mod_small by lia.
    replace (m - 1 + 1) with m by lia. by rewrite Z.add_0_r, days_from_civil_day. }
  assert (Hdays : t / day_ns = days_from_civil y m d).
  { rewrite Ht. unfold day_ns, second_ns. clear - Hhh Hmm Hss Hns.
    change (10 ^ 9) with 1000000000 in *. divisions. }
  unfold Year, Month, Day, civil. rewrite Hdays, civil_of_date by done.
  unfold Hour, Minute, Second, Nanosecond. rewrite Ht. unfold day_ns, second_ns.
  clear - Hhh Hmm Hss Hns. generalize (days_from_civil y m d). intros k.
  change (10 ^ 9) with 1000000000 in *. split_and!; first [done|divisions].
Qed.

Lemma field_ranges t :
  1 <= Month t <= 12 /\ 1 <= Day t <= 31 /\ 0 <= Hour t < 24 /\ 0 <= Minute t < 60 /\
  0 <= Second t < 60 /\ 0 <= Nanosecond t < 10 ^ 9.
Proof.
  unfold Month, Day, civil. pose proof (civil_days (t / day_ns)) as H.
  destruct (civil_from_days _) as [[y m] d]. destruct H as (_ & Hm & Hd).
  split_and!; try lia; by apply Z.mod_pos_bound.
Qed.

End GoTime.
