(* ===== verification/GoDuration.v ===== *)
(** * Durations: [time.ParseDuration] and [Duration.String]

    A [time.Duration] is a number of nanoseconds in 64 bits.  The fraction of a
    duration text goes through [float64], which is modelled by the IEEE binary64
    arithmetic of [SpecFloat] (53 bits, round to nearest even). *)

From stdpp Require Import base list numbers strings option.
From Stdlib Require Import ZArith Lia Ascii String SpecFloat.
From S2P Require Import Prelude GoStrings GoStrconv.

Module GoDuration.
Import GoStrconv.GoStrconv.
Local Open Scope string_scope.
Local Open Scope Z_scope.

Definition Nanosecond : Z := 1.
Definition Microsecond : Z := 1000.
Definition Millisecond : Z := 1000 * Microsecond.
Definition Second : Z := 1000 * Millisecond.
Definition Minute : Z := 60 * Second.
Definition Hour : Z := 60 * Minute.

(** ** [float64] *)

Definition float_prec : Z := 53.
Definition float_emax : Z := 1024.

(** [float64(n)] of an unsigned integer. *)
Definition float_of (n : Z) : spec_float := binary_normalize float_prec float_emax n 0 false.
Definition float_mul : spec_float -> spec_float -> spec_float := SFmul float_prec float_emax.
Definition float_div : spec_float -> spec_float -> spec_float := SFdiv float_prec float_emax.
Definition float_add : spec_float -> spec_float -> spec_float := SFadd float_prec float_emax.
Definition float_sub : spec_float -> spec_float -> spec_float := SFsub float_prec float_emax.

(** [d.Seconds()] *)
Definition seconds (d : Z) : spec_float :=
  float_add (float_of (Z.quot d Second)) (float_div (float_of (Z.rem d Second)) (float_of Second)).

(** [uint64(x)] of a non-negative [float64]: truncation. *)
Definition float_trunc (x : spec_float) : Z :=
  match x with
  | S754_finite false m e => if 0 <=? e then Z.pos m * 2 ^ e else Z.pos m / 2 ^ (- e)
  | _ => 0
  end.

(** ** Parsing *)

Definition dot : ascii := char 46.

(** [leadingInt]: the digits at the front; [None] when the value exceeds 2^63. *)
Fixpoint leading_int (x : Z) (s : string) : option (Z * string) :=
  match s with
  | String c r =>
      if is_digit c then
        if 2 ^ 63 / 10 <? x then None
        else let x' := x * 10 + (code c - 48) in
             if 2 ^ 63 <? x' then None else leading_int x' r
      else Some (x, s)
  | EmptyString => Some (x, s)
  end.

(** [leadingFraction]: digits beyond the precision are dropped. *)
Fixpoint leading_fraction (x : Z) (scale : spec_float) (overflow : bool) (s : string)
  : Z * spec_float * string :=
  match s with
  | String c r =>
      if is_digit c then
        if overflow then leading_fraction x scale true r
        else if (2 ^ 63 - 1) / 10 <? x then leading_fraction x scale true r
        else let y := x * 10 + (code c - 48) in
             if 2 ^ 63 <? y then leading_fraction x scale true r
             else leading_fraction y (float_mul scale (float_of 10)) false r
      else (x, scale, s)
  | EmptyString => (x, scale, s)
  end.

(** The unit's name: everything up to a digit or a dot. *)
Fixpoint leading_unit (s : string) : string * string :=
  match s with
  | String c r =>
      if Ascii.eqb c dot || is_digit c then ("", s)
      else let '(u, rest) := leading_unit r in (String c u, rest)
  | EmptyString => ("", "")
  end.

(** The micro sign U+00B5 and the Greek mu U+03BC, in UTF-8. *)
Definition micro_sign : string := String (char 194) (String (char 181) "").
Definition greek_mu : string := String (char 206) (String (char 188) "").

Definition unit_value (u : string) : option Z :=
  if String.eqb u "ns" then Some Nanosecond
  else if String.eqb u "us" || String.eqb u (micro_sign ++ "s") || String.eqb u (greek_mu ++ "s")
  then Some Microsecond
  else if String.eqb u "ms" then Some Millisecond
  else if String.eqb u "s" then Some Second
  else if String.eqb u "m" then Some Minute
  else if String.eqb u "h" then Some Hour
  else None.

Inductive duration_error :=
| InvalidDuration
| MissingUnit
| UnknownUnit (u : string).

Definition empty (s : string) : bool := String.eqb s "".

(** The optional dot and the digits behind it; the last component says whether
    there were any. *)
Definition parse_fraction (s : string) : Z * spec_float * string * bool :=
  match s with
  | String d r =>
      if Ascii.eqb d dot then
        let '(f, scale, rest) := leading_fraction 0 (float_of 1) false r in
        (f, scale, rest, negb (String.length r =? String.length rest)%nat)
      else (0, float_of 1, s, false)
  | EmptyString => (0, float_of 1, s, false)
  end.

(** One number with its unit: its nanoseconds and the rest of the text. *)
Definition parse_element (s : string) : outcome duration_error (Z * string) :=
  match s with
  | EmptyString => Fail InvalidDuration
  | String c _ =>
      if negb (Ascii.eqb c dot || is_digit c) then Fail InvalidDuration else
      match leading_int 0 s with
      | None => Fail InvalidDuration
      | Some (v, s1) =>
          let pre := negb (String.length s =? String.length s1)%nat in
          let '(f, scale, s2, post) := parse_fraction s1 in
          if negb pre && negb post then Fail InvalidDuration else
          let '(u, s3) := leading_unit s2 in
          if empty u then Fail MissingUnit else
          match unit_value u with
          | None => Fail (UnknownUnit u)
          | Some unit =>
              if 2 ^ 63 / unit <? v then Fail InvalidDuration else
              let v := v * unit in
              let v := if 0 <? f
                       then u64 (v + float_trunc (float_mul (float_of f)
                                                    (float_div (float_of unit) scale)))
                       else v in
              if (0 <? f) && (2 ^ 63 <? v) then Fail InvalidDuration else Ret (v, s3)
          end
      end
  end.

(** The loop over the elements.  Each consumes at least one byte, so the length
    of the text is enough fuel. *)
Fixpoint parse_elements (fuel : nat) (d : Z) (s : string) : outcome duration_error Z :=
  match fuel with
  | O => Ret d
  | S n =>
      if empty s then Ret d else
      '(v, rest) ← parse_element s;
      let d := u64 (d + v) in
      if 2 ^ 63 <? d then Fail InvalidDuration else parse_elements n d rest
  end.

(** [time.ParseDuration] *)
Definition ParseDuration (orig : string) : outcome duration_error Z :=
  let '(neg, s) :=
    match orig with
    | String c r =>
        if Ascii.eqb c (char 45) || Ascii.eqb c (char 43) then (Ascii.eqb c (char 45), r)
        else (false, orig)
    | EmptyString => (false, orig)
    end in
  if String.eqb s "0" then Ret 0 else
  if empty s then Fail InvalidDuration else
  d ← parse_elements (String.length s) 0 s;
  if neg then Ret (signed 64 (- d)) else
  if 2 ^ 63 - 1 <? d then Fail InvalidDuration else Ret d.

(** ** Error texts *)

Definition hex_digit (n : Z) : ascii := if n <? 10 then char (48 + n) else char (87 + n).

(** [time.quote] *)
Fixpoint quote_body (s : string) : string :=
  match s with
  | EmptyString => ""
  | String c r =>
      (if (code c <? 32) || (128 <=? code c)
       then "\x" ++ String (hex_digit (code c / 16)) (String (hex_digit (code c mod 16)) "")
       else if (code c =? 34) || (code c =? 92) then String (char 92) (String c "")
       else String c "") ++ quote_body r
  end.

Definition quote (s : string) : string := String (char 34) (quote_body s ++ String (char 34) "").

Definition duration_error_text (orig : string) (e : duration_error) : string :=
  match e with
  | InvalidDuration => "time: invalid duration " ++ quote orig
  | MissingUnit => "time: missing unit in duration " ++ quote orig
  | UnknownUnit u => "time: unknown unit " ++ quote u ++ " in duration " ++ quote orig
  end.

(** ** Printing *)

(** [fmtFrac]: the last [prec] decimal digits of [v], trailing zeros dropped, and
    what is left of [v]. *)
Fixpoint fmt_frac (prec : nat) (print : bool) (v : Z) (acc : string) : string * Z :=
  match prec with
  | O => (if print then String dot acc else acc, v)
  | S n =>
      let d := v mod 10 in
      let print := print || negb (d =? 0) in
      fmt_frac n print (v / 10) (if print then String (digit d) acc else acc)
  end.

(** [Duration.String] *)
Definition String_ (d : Z) : string :=
  let u := u64 (if d <? 0 then - d else d) in
  let body :=
    if u <? Second then
      if u =? 0 then "0s" else
      let '(prec, suffix) :=
        if u <? Microsecond then (0%nat, "ns")
        else if u <? Millisecond then (3%nat, micro_sign ++ "s")
        else (6%nat, "ms") in
      let '(frac, whole) := fmt_frac prec false u suffix in
      format_uint whole ++ frac
    else
      let '(frac, seconds) := fmt_frac 9 false u "s" in
      let tail := format_uint (seconds mod 60) ++ frac in
      let minutes := seconds / 60 in
      if minutes =? 0 then tail else
      let tail := format_uint (minutes mod 60) ++ "m" ++ tail in
      let hours := minutes / 60 in
      if hours =? 0 then tail else format_uint hours ++ "h" ++ tail in
  if d <? 0 then String (char 45) body else body.

(** ** Examples and lemmas *)

Example parse_15s : ParseDuration "15s" = Ret (15 * Second).
Proof. reflexivity. Qed.
Example parse_mixed : ParseDuration "1h15m30.918s" = Ret (4530918 * Millisecond).
Proof. reflexivity. Qed.
Example parse_half : ParseDuration "-1.5h" = Ret (- (90 * Minute)).
Proof. reflexivity. Qed.
Example parse_micro : ParseDuration (".5" ++ micro_sign ++ "s") = Ret 500.
Proof. reflexivity. Qed.
Example parse_no_unit : ParseDuration "15" = Fail MissingUnit.
Proof. reflexivity. Qed.
Example parse_no_digits : ParseDuration ".s" = Fail InvalidDuration.
Proof. reflexivity. Qed.
Example parse_big : ParseDuration "9223372036854775808ns" = Fail InvalidDuration.
Proof. reflexivity. Qed.
Example parse_min : ParseDuration "-9223372036854775808ns" = Ret (- 2 ^ 63).
Proof. reflexivity. Qed.
Example print_ten_minutes : String_ (10 * Minute) = "10m0s".
Proof. reflexivity. Qed.
Example print_tenth : String_ (100 * Millisecond) = "100ms".
Proof. reflexivity. Qed.
Example print_mixed : String_ (4530918 * Millisecond) = "1h15m30.918s".
Proof. reflexivity. Qed.

Lemma leading_unit_append s : forall u r, leading_unit s = (u, r) -> s = u ++ r.
Proof.
  induction s as [|c s IH]; cbn [leading_unit]; intros u r H; [by simplify_eq|].
  destruct (Ascii.eqb c dot || is_digit c); [by simplify_eq|].
  destruct (leading_unit s) as [u' r'] eqn:E. simplify_eq.
  rewrite append_cons. f_equal. by apply IH.
Qed.

Lemma leading_int_shorter s : forall x v r,
  leading_int x s = Some (v, r) -> (String.length r <= String.length s)%nat.
Proof.
  induction s as [|c s IH]; cbn [leading_int]; intros x v r H; [by simplify_eq|].
  destruct (is_digit c); [|by simplify_eq].
  repeat case_hyp H; try done. apply IH in H. cbn [String.length]. lia.
Qed.

Lemma leading_fraction_shorter s : forall x sc o v sc' r,
  leading_fraction x sc o s = (v, sc', r) -> (String.length r <= String.length s)%nat.
Proof.
  induction s as [|c s IH]; cbn [leading_fraction]; intros x sc o v sc' r H; [by simplify_eq|].
  destruct (is_digit c); [|by simplify_eq].
  repeat case_hyp H; apply IH in H; cbn [String.length]; lia.
Qed.

Lemma parse_fraction_shorter s f sc r post :
  parse_fraction s = (f, sc, r, post) -> (String.length r <= String.length s)%nat.
Proof.
  unfold parse_fraction. intros H. destruct s as [|d s]; [by simplify_eq|].
  destruct (Ascii.eqb d dot); [|by simplify_eq].
  destruct (leading_fraction 0 (float_of 1) false s) as [[f' sc'] r'] eqn:E. simplify_eq.
  apply leading_fraction_shorter in E. cbn [String.length]. lia.
Qed.

(** Every element consumes at least its unit. *)
Lemma parse_element_shorter s v r :
  parse_element s = Ret (v, r) -> (String.length r < String.length s)%nat.
Proof.
  unfold parse_element. intros H. destruct s as [|c s']; [done|].
  destruct (negb (Ascii.eqb c dot || is_digit c)); [done|].
  set (s := String c s') in *.
  destruct (leading_int 0 s) as [[v0 s1]|] eqn:E1; [|done]. apply leading_int_shorter in E1.
  destruct (parse_fraction s1) as [[[f sc] s2] post] eqn:E2. apply parse_fraction_shorter in E2.
  destruct (negb _ && negb post); [done|].
  destruct (leading_unit s2) as [u s3] eqn:E4. apply leading_unit_append in E4.
  destruct (empty u) eqn:Eu; [done|].
  destruct (unit_value u); [|done]. repeat case_hyp H; simplify_eq.
  all: subst; rewrite append_length in E2; destruct u; [done|]; cbn [String.length] in *; lia.
Qed.

(** The loop does not depend on the fuel, once there is a unit of it per byte. *)
Lemma parse_elements_fuel n : forall m d s,
  (String.length s <= n)%nat -> (String.length s <= m)%nat ->
  parse_elements n d s = parse_elements m d s.
Proof.
  induction n as [|n IH]; intros m d s Hn Hm.
  - destruct s; [|cbn in Hn; lia]. by destruct m.
  - destruct m as [|m]; [destruct s; [done|cbn in Hm; lia]|].
    cbn [parse_elements]. destruct (empty s); [done|].
    destruct (parse_element s) as [[v r]| |] eqn:E; cbn [mbind outcome_bind]; try done.
    apply parse_element_shorter in E. case_goal; [done|]. apply IH; lia.
Qed.

End GoDuration.
