(* ===== verification/GoNet.v ===== *)
(** * Addresses and paths: what the sources use of [net], [net/netip], [strconv]
    and [path/filepath]

    [net.SplitHostPort] with its error texts, [net.JoinHostPort], [net.ParseIP]
    and [IP.IsLoopback], [strconv.ParseBool], and the Unix paths of
    [path/filepath]. *)

From stdpp Require Import base list numbers strings option.
From Stdlib Require Import ZArith Lia Ascii String.
From S2P Require Import Prelude GoStrings GoStrconv.

Module GoNet.
Import GoStrconv.GoStrconv.
Local Open Scope string_scope.
Local Open Scope Z_scope.

Definition colon : ascii := char 58.
Definition opening : ascii := char 91.
Definition closing : ascii := char 93.
Definition percent : ascii := char 37.
Definition dot : ascii := char 46.
Definition slash : ascii := char 47.

(** ** [net.SplitHostPort] and [net.JoinHostPort] *)

(** [AddrError.Error]. *)
Definition addr_error (addr why : string) : string :=
  if String.eqb addr "" then why else "address " ++ addr ++ ": " ++ why.

Definition starts_with (c : ascii) (s : string) : bool :=
  match s with String d _ => Ascii.eqb c d | EmptyString => false end.

Definition addr_fail {A} (addr why : string) : outcome string A := Fail (addr_error addr why).

(** The host in front of the last colon, at [i], and where the checks for stray
    brackets start. *)
Definition host_part (hostport : string) (i : nat) : outcome string (string * nat * nat) :=
  if starts_with opening hostport then
    match index_byte closing hostport with
    | None => addr_fail hostport "missing ']' in address"
    | Some end_ =>
        if (S end_ =? String.length hostport)%nat then addr_fail hostport "missing port in address"
        else if (S end_ =? i)%nat
        then Ret (str_take (end_ - 1) (str_drop 1 hostport), 1%nat, S end_)
        else if starts_with colon (str_drop (S end_) hostport)
        then addr_fail hostport "too many colons in address"
        else addr_fail hostport "missing port in address"
    end
  else
    let host := str_take i hostport in
    match index_byte colon host with
    | Some _ => addr_fail hostport "too many colons in address"
    | None => Ret (host, 0%nat, 0%nat)
    end.

Definition SplitHostPort (hostport : string) : outcome string (string * string) :=
  match last_index_byte colon hostport with
  | None => addr_fail hostport "missing port in address"
  | Some i =>
      '(host, j, k) ← host_part hostport i;
      match index_byte opening (str_drop j hostport), index_byte closing (str_drop k hostport) with
      | Some _, _ => addr_fail hostport "unexpected '[' in address"
      | None, Some _ => addr_fail hostport "unexpected ']' in address"
      | None, None => Ret (host, str_drop (S i) hostport)
      end
  end.

Definition JoinHostPort (host port : string) : string :=
  match index_byte colon host with
  | Some _ => "[" ++ host ++ "]:" ++ port
  | None => host ++ ":" ++ port
  end.

(** ** [net.ParseIP]

    An address is its sixteen bytes; IPv4 addresses are mapped into ::ffff:0:0/96. *)

(** [parseIPv4Fields]: the scan's state is the value and the digits of the octet
    at hand and the octets before it. *)
Fixpoint ipv4_fields (first : bool) (val : Z) (digits : nat) (fields : list Z) (s : string)
  : option (list Z) :=
  match s with
  | EmptyString => if (List.length fields =? 3)%nat then Some (fields ++ [val])%list else None
  | String c r =>
      if is_digit c then
        if (digits =? 1)%nat && (val =? 0) then None else
        let val := val * 10 + (code c - 48) in
        if 255 <? val then None else ipv4_fields false val (S digits) fields r
      else if Ascii.eqb c dot then
        if first || String.eqb r "" || (digits =? 0)%nat then None
        else if (List.length fields =? 3)%nat then None
        else ipv4_fields false 0 0 (fields ++ [val])%list r
      else None
  end.

Definition v4_mapped (fields : list Z) : list Z := (repeat 0 10 ++ [255; 255] ++ fields)%list.

Definition hex_value (c : ascii) : option Z :=
  let z := code c in
  if (48 <=? z) && (z <=? 57) then Some (z - 48)
  else if (97 <=? z) && (z <=? 102) then Some (z - 87)
  else if (65 <=? z) && (z <=? 70) then Some (z - 55)
  else None.

(** A group of at most four hexadecimal digits: its value, the number of digits
    and the rest; [None] when it is longer. *)
Fixpoint hex_group (off : nat) (acc : Z) (s : string) : option (Z * nat * string) :=
  match s with
  | EmptyString => Some (acc, off, s)
  | String c r =>
      match hex_value c with
      | None => Some (acc, off, s)
      | Some d => if (3 <? off)%nat then None else hex_group (S off) (acc * 16 + d) r
      end
  end.

(** The loop of [parseIPv6]: the bytes so far, where the ellipsis stands, and
    what is left; at most eight rounds. *)
Fixpoint ipv6_groups (fuel : nat) (ip : list Z) (ellipsis : option nat) (s : string)
  : option (list Z * option nat * string) :=
  match fuel with
  | O => Some (ip, ellipsis, s)
  | S n =>
      match hex_group 0 0 s with
      | None => None
      | Some (acc, off, rest) =>
          if (off =? 0)%nat then None
          else if starts_with dot rest then
            if bool_decide (ellipsis = None) && negb (List.length ip =? 12)%nat then None
            else if (16 <? List.length ip + 4)%nat then None
            else match ipv4_fields true 0 0 [] s with
                 | None => None
                 | Some f => Some ((ip ++ f)%list, ellipsis, "")
                 end
          else
            let ip := (ip ++ [acc / 256; acc mod 256])%list in
            match rest with
            | EmptyString => Some (ip, ellipsis, "")
            | String c r =>
                if negb (Ascii.eqb c colon) || String.eqb r "" then None
                else if starts_with colon r then
                  match ellipsis with
                  | Some _ => None
                  | None =>
                      let r := str_drop 1 r in
                      if String.eqb r "" then Some (ip, Some (List.length ip), "")
                      else ipv6_groups n ip (Some (List.length ip)) r
                  end
                else ipv6_groups n ip ellipsis r
            end
      end
  end.

(** Filling the ellipsis with zeros, or rejecting. *)
Definition expand_ellipsis (ip : list Z) (ellipsis : option nat) (s : string) : option (list Z) :=
  if negb (String.eqb s "") then None
  else if (List.length ip <? 16)%nat then
    e ← ellipsis; Some (take e ip ++ repeat 0 (16 - List.length ip) ++ drop e ip)%list
  else match ellipsis with Some _ => None | None => Some ip end.

Definition parse_ipv6 (s : string) : option (list Z) :=
  if has_prefix "::" s then
    let s := str_drop 2 s in
    if String.eqb s "" then Some (repeat 0 16) else
    '(ip, e, rest) ← ipv6_groups 8 [] (Some 0%nat) s; expand_ellipsis ip e rest
  else '(ip, e, rest) ← ipv6_groups 8 [] None s; expand_ellipsis ip e rest.

(** The first of '.', ':' and '%' decides the kind of address. *)
Fixpoint addr_kind (s : string) : option ascii :=
  match s with
  | EmptyString => None
  | String c r =>
      if Ascii.eqb c dot || Ascii.eqb c colon || Ascii.eqb c percent then Some c else addr_kind r
  end.

(** [net.ParseIP]: an address with a zone is not one; nil is [None]. *)
Definition ParseIP (s : string) : option (list Z) :=
  c ← addr_kind s;
  if Ascii.eqb c dot then v4_mapped <$> ipv4_fields true 0 0 [] s
  else if Ascii.eqb c colon then
    match index_byte percent s with Some _ => None | None => parse_ipv6 s end
  else None.

Definition To4 (ip : list Z) : option (list Z) :=
  if bool_decide (take 12 ip = (repeat 0 10 ++ [255; 255])%list) then Some (drop 12 ip) else None.

(** [IP.IsLoopback] *)
Definition IsLoopback (ip : list Z) : bool :=
  match To4 ip with
  | Some (a :: _) => a =? 127
  | _ => bool_decide (ip = (repeat 0 15 ++ [1])%list)
  end.

(** ** [strconv.ParseBool] *)

Definition ParseBool (s : string) : outcome num_error bool :=
  if str_mem s ["1"; "t"; "T"; "true"; "TRUE"; "True"] then Ret true
  else if str_mem s ["0"; "f"; "F"; "false"; "FALSE"; "False"] then Ret false
  else Fail ErrSyntax.

(** [strconv.Atoi] on a 64-bit platform. *)
Definition Atoi (s : string) : outcome num_error Z := ParseInt 64 s.

(** ** [path/filepath] on Unix *)

Definition IsAbs (path : string) : bool := starts_with slash path.

(** One element of the path against the elements kept so far, innermost first. *)
Definition clean_step (rooted : bool) (kept : list string) (elem : string) : list string :=
  if String.eqb elem "" || String.eqb elem "." then kept
  else if String.eqb elem ".." then
    match kept with
    | [] => if rooted then [] else [".."]
    | k :: rest => if String.eqb k ".." then ".." :: kept else rest
    end
  else elem :: kept.

Definition Clean (path : string) : string :=
  let rooted := IsAbs path in
  let kept := foldl (clean_step rooted) [] (split_byte slash path) in
  let body := join "/" (rev kept) in
  if rooted then String slash body else if String.eqb body "" then "." else body.

(** [filepath.Join] of two elements. *)
Definition Join (a b : string) : string :=
  if String.eqb a "" then (if String.eqb b "" then "" else Clean b)
  else Clean (a ++ String slash b).

(** [filepath.Dir] *)
Definition Dir (path : string) : string :=
  Clean match last_index_byte slash path with
        | Some i => str_take (S i) path
        | None => ""
        end.

(** [filepath.Abs], given what [os.Getwd] returned. *)
Definition Abs {E} (getwd : outcome E string) (path : string) : outcome E string :=
  if IsAbs path then Ret (Clean path) else wd ← getwd; Ret (Join wd path).

(** ** Examples *)

Example split_missing : SplitHostPort "localhost" = Fail "address localhost: missing port in address".
Proof. reflexivity. Qed.
Example split_brackets : SplitHostPort "[::1]:3306" = Ret ("::1", "3306").
Proof. reflexivity. Qed.
Example split_colons : SplitHostPort "::1" = Fail "address ::1: too many colons in address".
Proof. reflexivity. Qed.
Example parse_v4 : ParseIP "127.0.0.1" = Some (v4_mapped [127; 0; 0; 1]).
Proof. reflexivity. Qed.
Example parse_v4_leading : ParseIP "127.0.0.01" = None.
Proof. reflexivity. Qed.
Example parse_v4_big : ParseIP "256.0.0.1" = None.
Proof. reflexivity. Qed.
Example parse_v6 : ParseIP "fe80::1" = Some ([254; 128] ++ repeat 0 13 ++ [1])%list.
Proof. reflexivity. Qed.
Example parse_v6_v4 : ParseIP "::ffff:127.0.0.1" = Some (v4_mapped [127; 0; 0; 1]).
Proof. reflexivity. Qed.
Example parse_zone : ParseIP "fe80::1%eth0" = None.
Proof. reflexivity. Qed.
Example parse_v6_full : ParseIP "1:2:3:4:5:6:7:8" = Some [0;1;0;2;0;3;0;4;0;5;0;6;0;7;0;8].
Proof. reflexivity. Qed.
Example parse_v6_long : ParseIP "1:2:3:4:5:6:7:8:9" = None.
Proof. reflexivity. Qed.
Example parse_v6_full_ellipsis : ParseIP "1:2:3:4:5:6:7::8" = None.
Proof. reflexivity. Qed.
Example loopback_v6 : IsLoopback <$> ParseIP "::1" = Some true.
Proof. reflexivity. Qed.
Example clean_1 : Clean "/a/../../b//./c/" = "/b/c".
Proof. reflexivity. Qed.
Example clean_2 : Clean "../a/../.." = "../..".
Proof. reflexivity. Qed.
Example dir_1 : Dir "/etc/accelerator.yaml" = "/etc".
Proof. reflexivity. Qed.
Example dir_2 : Dir "accelerator.yaml" = ".".
Proof. reflexivity. Qed.

(** ** Lemmas *)

Lemma last_index_byte_bound c s : forall i, last_index_byte c s = Some i -> (i < String.length s)%nat.
Proof.
  induction s as [|d s IH]; cbn [last_index_byte String.length]; intros i H; [done|].
  destruct (last_index_byte c s) as [j|]; [specialize (IH j eq_refl)|]; simplify_eq; [lia|].
  destruct (Ascii.eqb c d); simplify_eq. lia.
Qed.

(** The version of [SplitHostPort] without error texts agrees with this one. *)
Lemma split_host_port_ok s :
  split_host_port s = match SplitHostPort s with Ret p => Some p | _ => None end.
Proof.
  unfold split_host_port, SplitHostPort, host_part. fold colon opening closing.
  destruct (last_index_byte colon s) as [i|] eqn:El; [|done].
  replace (match s with String c _ => Ascii.eqb c opening | EmptyString => false end)
    with (starts_with opening s)
    by (destruct s; [done|]; unfold starts_with; apply Ascii.eqb_sym).
  destruct (starts_with opening s).
  - destruct (index_byte closing s) as [e|]; [|done]. cbn [mbind outcome_bind].
    destruct (S e =? i)%nat eqn:Ei.
    + assert ((S e =? String.length s)%nat = false) as ->.
      { apply Nat.eqb_neq. apply Nat.eqb_eq in Ei. apply last_index_byte_bound in El. lia. }
      cbn [mbind outcome_bind].
      by destruct (index_byte opening (str_drop 1 s)), (index_byte closing (str_drop (S e) s)).
    + destruct (S e =? String.length s)%nat; [done|]. by destruct (starts_with colon _).
  - destruct (index_byte colon (str_take i s)); [done|]. cbn [mbind outcome_bind].
    by destruct (index_byte opening (str_drop 0 s)), (index_byte closing (str_drop 0 s)).
Qed.

(** A cleaned absolute path is absolute. *)
Lemma Clean_abs path : IsAbs path = true -> IsAbs (Clean path) = true.
Proof. unfold Clean. by intros ->. Qed.

Lemma Join_abs a b : IsAbs a = true -> IsAbs (Join a b) = true.
Proof.
  intros Ha. unfold Join. destruct a as [|c a]; [done|]. cbn [String.eqb].
  apply Clean_abs. by rewrite append_cons.
Qed.

Lemma Dir_abs path : IsAbs path = true -> IsAbs (Dir path) = true.
Proof.
  intros Ha. unfold Dir. apply Clean_abs. destruct path as [|c path]; [done|].
  cbn [IsAbs starts_with] in Ha. cbn [last_index_byte]. rewrite Ha.
  destruct (last_index_byte slash path); done.
Qed.

Lemma Abs_abs {E} (getwd : outcome E string) path p :
  (forall wd, getwd = Ret wd -> IsAbs wd = true) -> Abs getwd path = Ret p -> IsAbs p = true.
Proof.
  intros Hwd. unfold Abs. destruct (IsAbs path) eqn:E1.
  - intros [= <-]. by apply Clean_abs.
  - destruct getwd as [wd| |]; [|done|done]. intros [= <-]. apply Join_abs, Hwd. done.
Qed.

End GoNet.
