(* ===== verification/GoFlag.v ===== *)
(** * Command-line flags ([flag.FlagSet] with [ContinueOnError])

    The syntax of arguments: [-name value], [-name=value], two minuses as well as
    one, boolean flags without a value, and the end at the first operand or after
    two minuses.  A flag set is the kinds of its flags; parsing yields the text of
    the last value of every flag that was given, and the operands. *)

From stdpp Require Import base list numbers strings option gmap.
From Stdlib Require Import ZArith Lia Ascii String.
From S2P Require Import Prelude GoStrings GoStrconv GoDuration GoNet.

Module GoFlag.
Import GoNet.GoNet.
Import GoDuration.GoDuration.
Local Open Scope string_scope.
Local Open Scope Z_scope.

(** *** [strconv.ParseInt(s, 0, 64)]: signs, base prefixes and underscores *)

Definition lower (c : ascii) : ascii := if in_range 65 90 c then char (code c + 32) else c.

Definition digit_of (c : ascii) : option Z :=
  let c := lower c in
  if in_range 48 57 c then Some (code c - 48)
  else if in_range 97 122 c then Some (code c - 87) else None.

Definition underscore : ascii := char 95.

(** The base of a text and its digits. *)
Definition base_of (s : string) : Z * string :=
  match s with
  | String z (String p (String d r)) =>
      if Ascii.eqb z (char 48) then
        if Ascii.eqb (lower p) (char 98) then (2, String d r)
        else if Ascii.eqb (lower p) (char 111) then (8, String d r)
        else if Ascii.eqb (lower p) (char 120) then (16, String d r)
        else (8, String p (String d r))
      else (10, s)
  | String z r => if Ascii.eqb z (char 48) then (8, r) else (10, s)
  | EmptyString => (10, s)
  end.

Fixpoint digits_base (base acc : Z) (s : string) : option Z :=
  match s with
  | EmptyString => Some acc
  | String c r =>
      if Ascii.eqb c underscore then digits_base base acc r else
      d ← digit_of c;
      if base <=? d then None else digits_base base (acc * base + d) r
  end.

Inductive seen := SeenNothing | SeenDigit | SeenUnderscore | SeenOther.

Fixpoint underscores (hex : bool) (i : seen) (s : string) : bool :=
  match s with
  | EmptyString => match i with SeenUnderscore => false | _ => true end
  | String c r =>
      if in_range 48 57 c || hex && in_range 97 102 (lower c) then underscores hex SeenDigit r
      else if Ascii.eqb c underscore then
        match i with SeenDigit => underscores hex SeenUnderscore r | _ => false end
      else match i with SeenUnderscore => false | _ => underscores hex SeenOther r end
  end.

Definition underscoreOK (s : string) : bool :=
  match s with
  | String z (String p r) =>
      if Ascii.eqb z (char 48) && str_mem (String (lower p) "") ["b"; "o"; "x"]
      then underscores (Ascii.eqb (lower p) (char 120)) SeenDigit r
      else underscores false SeenNothing s
  | _ => underscores false SeenNothing s
  end.

(** The magnitude; [None] on any error. *)
Definition magnitude (s : string) : option Z :=
  if String.eqb s "" then None else
  let '(base, digits) := base_of s in
  n ← digits_base base 0 digits;
  if bool_decide (is_Some (index_byte underscore s)) && negb (underscoreOK s) then None else Some n.

Definition parse_int (s : string) : option Z :=
  match s with
  | EmptyString => None
  | String c r =>
      if Ascii.eqb c (char 45) then n ← magnitude r; if 2 ^ 63 <? n then None else Some (- n)
      else n ← magnitude (if Ascii.eqb c (char 43) then r else s); if 2 ^ 63 <=? n then None else Some n
  end.

Example ints : map parse_int ["64"; "-0x1F"; "0b101"; "1_000"; "0"; "+7"; "017"; "1__0"; "_1"; "0x"; "9223372036854775808"; ""]
  = [Some 64; Some (-31); Some 5; Some 1000; Some 0; Some 7; Some 15; None; None; None; None; None].
Proof. vm_compute. reflexivity. Qed.

(** ** Flag sets *)

Inductive kind := StringFlag | BoolFlag | DurationFlag | IntFlag.

Inductive flag_error :=
| BadSyntax (arg : string)
| NotDefined (name : string)
| Help
| NeedsArgument (name : string)
| InvalidValue (value name : string).

(** [Value.Set] takes the text. *)
Definition accepts (k : kind) (value : string) : bool :=
  match k with
  | StringFlag => true
  | BoolFlag => is_ret (ParseBool value)
  | DurationFlag => is_ret (ParseDuration value)
  | IntFlag => bool_decide (is_Some (parse_int value))
  end.

Definition minus : ascii := char 45.
Definition equals : ascii := char 61.

Inductive arg :=
| Operand
| Terminator
| Malformed
| Flag (name : string) (value : option string).

(** What follows the minuses. *)
Definition read_name (name : string) : arg :=
  match name with
  | EmptyString => Malformed
  | String c _ =>
      if Ascii.eqb c minus || Ascii.eqb c equals then Malformed else
      match index_byte equals name with
      | Some i => Flag (str_take i name) (Some (str_drop (S i) name))
      | None => Flag name None
      end
  end.

Definition read_arg (s : string) : arg :=
  match s with
  | String c (String d r) =>
      if negb (Ascii.eqb c minus) then Operand
      else if negb (Ascii.eqb d minus) then read_name (String d r)
      else if String.eqb r "" then Terminator else read_name r
  | _ => Operand
  end.

Section Parse.
Context (formal : string -> option kind).

Fixpoint parse (args : list string) (actual : gmap string string)
  : outcome flag_error (gmap string string * list string) :=
  match args with
  | [] => Ret (actual, [])
  | s :: rest =>
      match read_arg s with
      | Operand => Ret (actual, args)
      | Terminator => Ret (actual, rest)
      | Malformed => Fail (BadSyntax s)
      | Flag name value =>
          match formal name with
          | None => Fail (if String.eqb name "help" || String.eqb name "h" then Help else NotDefined name)
          | Some k =>
              match k, value, rest with
              | BoolFlag, None, _ => parse rest (<[name := "true"]> actual)
              | _, Some v, _ =>
                  if accepts k v then parse rest (<[name := v]> actual) else Fail (InvalidValue v name)
              | _, None, v :: rest =>
                  if accepts k v then parse rest (<[name := v]> actual) else Fail (InvalidValue v name)
              | _, None, [] => Fail (NeedsArgument name)
              end
          end
      end
  end.

Definition Parse (args : list string) : outcome flag_error (gmap string string) :=
  fst <$> parse args ∅.

(** Every text that is kept has been accepted by its flag. *)
Definition well_typed (actual : gmap string string) : Prop :=
  forall name v, actual !! name = Some v -> exists k, formal name = Some k /\ accepts k v = true.

Lemma well_typed_insert actual name v k :
  well_typed actual -> formal name = Some k -> accepts k v = true -> well_typed (<[name := v]> actual).
Proof.
  intros Ha Hk Hv n w. destruct (decide (name = n)) as [<-|Hn].
  - rewrite lookup_insert_eq. intros [= <-]. by exists k.
  - rewrite lookup_insert_ne by done. apply Ha.
Qed.

Lemma parse_typed n : forall args actual actual' operands, (List.length args <= n)%nat ->
  well_typed actual -> parse args actual = Ret (actual', operands) -> well_typed actual'.
Proof.
  induction n as [|n IH]; intros [|s rest] actual actual' operands Hn Ha; cbn [parse];
    try (by intros [= <- _]); cbn in Hn; [lia|].
  destruct (read_arg s) as [| | |name value]; try (by intros [= <- _]).
  destruct (formal name) as [k|] eqn:Hk; [|done].
  assert (forall v more, (List.length more <= List.length rest)%nat ->
            (if accepts k v then parse more (<[name:=v]> actual) else Fail (InvalidValue v name))
              = Ret (actual', operands) -> well_typed actual') as Hgo.
  { intros v more Hl H. destruct (accepts k v) eqn:Hv; [|done].
    eapply IH; [|by eapply well_typed_insert|exact H]. lia. }
  destruct value as [v|].
  - intros H. apply (Hgo v rest); [lia|]. by destruct k.
  - destruct k; [|intros H; apply (Hgo "true" rest); [lia|done]|..];
      (destruct rest as [|v rest]; [done|]; intros H; apply (Hgo v rest); [cbn; lia|done]).
Qed.

Lemma Parse_typed args actual : Parse args = Ret actual -> well_typed actual.
Proof.
  unfold Parse. destruct (parse args ∅) as [[m operands]|e|] eqn:E; try done. cbn. intros [= <-].
  eapply parse_typed; [reflexivity| |exact E]. by intros name v H.
Qed.

End Parse.

(** Getters: the value of a flag, or its default. *)
Definition get_string (actual : gmap string string) (name def : string) : string :=
  default def (actual !! name).
Definition get_bool (actual : gmap string string) (name : string) (def : bool) : bool :=
  match actual !! name with
  | Some v => match ParseBool v with Ret b => b | _ => def end
  | None => def
  end.
Definition get_duration (actual : gmap string string) (name : string) (def : Z) : Z :=
  match actual !! name with
  | Some v => match ParseDuration v with Ret d => d | _ => def end
  | None => def
  end.

Definition get_int (actual : gmap string string) (name : string) (def : Z) : Z :=
  match actual !! name with
  | Some v => default def (parse_int v)
  | None => def
  end.

(** The pointer [Visit] leads to: set exactly if the flag was given. *)
Definition visited (actual : gmap string string) (name : string) : option string := actual !! name.

End GoFlag.
