(* ===== verification/Config.v ===== *)
(** * Configuration

    [internal/config/config.go] and [secret.go]: the configuration record, its
    defaults, the layers [Load] applies (defaults, YAML file, environment, flags,
    managed overlay), the rules of [Validate], the durations the services read
    from it, and the resolution of secrets.

    The YAML decoder, the files and the process environment are parameters.  A
    decoder works on the record it is given and may change it before it fails, as
    yaml.v3 does. *)

From stdpp Require Import base list numbers strings option.
From Stdlib Require Import ZArith Lia Ascii String.
From S2P Require Import Prelude GoStrings GoStrconv GoDuration GoNet.

Module Config.
Import GoNet.GoNet.
Import GoDuration.GoDuration.
Local Open Scope list_scope.
Local Open Scope string_scope.
Local Open Scope Z_scope.

(** ** The records *)

Definition CurrentVersion : Z := 1.

Record ServerConfig := mkServerConfig {
  MySQLListen : string;
  MySQLMode : string;
  MySQLClientUser : string;
  MySQLClientPasswordEnv : string;
  MySQLAllowInsecureNet : bool;
  MySQLTLSMode : string;
  MySQLTLSCertFile : string;
  MySQLTLSKeyFile : string;
  AdminListen : string;
  AdminTokenEnv : string;
  ShutdownTimeout : string;
  DataDir : string
}.

Record UpstreamConfig := mkUpstreamConfig {
  Enabled : bool;
  Host : string;
  Port : Z;
  User : string;
  PasswordEnv : string;
  AllowEmptyPassword : bool;
  Database : string;
  TLSMode : string;
  TLSCAFile : string;
  TLSServerName : string;
  ConnectTimeout : string;
  ReadTimeout : string;
  WriteTimeout : string;
  HealthTimeout : string
}.

Record LimitsConfig := mkLimitsConfig {
  MaxLogicalConnections : Z;
  MaxUpstreamConnections : Z;
  MaxQueuedRequests : Z;
  MaxQueuedBytes : Z
}.

Record LoggingConfig := mkLoggingConfig { Level : string }.

Record Config := mkConfig {
  Version : Z;
  Server : ServerConfig;
  Upstream : UpstreamConfig;
  Limits : LimitsConfig;
  Logging : LoggingConfig
}.

(** Command-line values; [None] is no override. *)
Record Overrides := mkOverrides {
  override_MySQLListen : option string;
  override_AdminListen : option string;
  override_DataDir : option string;
  override_LogLevel : option string
}.

Definition Default : Config := {|
  Version := CurrentVersion;
  Server := {|
    MySQLListen := "127.0.0.1:3307";
    MySQLMode := "transparent";
    MySQLClientUser := "accelerator";
    MySQLClientPasswordEnv := "DBA_CLIENT_PASSWORD";
    MySQLAllowInsecureNet := false;
    MySQLTLSMode := "disabled";
    MySQLTLSCertFile := "";
    MySQLTLSKeyFile := "";
    AdminListen := "127.0.0.1:9090";
    AdminTokenEnv := "";
    ShutdownTimeout := "15s";
    DataDir := "./data" |};
  Upstream := {|
    Enabled := false;
    Host := "127.0.0.1";
    Port := 3306;
    User := "accelerator";
    PasswordEnv := "DBA_UPSTREAM_PASSWORD";
    AllowEmptyPassword := false;
    Database := "app";
    TLSMode := "preferred";
    TLSCAFile := "";
    TLSServerName := "";
    ConnectTimeout := "5s";
    ReadTimeout := "30s";
    WriteTimeout := "30s";
    HealthTimeout := "5s" |};
  Limits := {|
    MaxLogicalConnections := 10000;
    MaxUpstreamConnections := 200;
    MaxQueuedRequests := 5000;
    MaxQueuedBytes := Z.shiftl 64 20 |};
  Logging := {| Level := "info" |}
|}.

(** ** Durations *)

Definition ShutdownDuration (c : Config) : outcome string Z :=
  duration ← map_fail (duration_error_text (ShutdownTimeout (Server c)))
               (ParseDuration (ShutdownTimeout (Server c)));
  if (duration <=? 0) || (10 * Minute <? duration)
  then Fail "must be greater than zero and at most 10m" else Ret duration.

Definition boundedDuration (value : string) (minimum maximum : Z) : outcome string Z :=
  duration ← map_fail (duration_error_text value) (ParseDuration value);
  if (duration <? minimum) || (maximum <? duration)
  then Fail ("must be between " ++ String_ minimum ++ " and " ++ String_ maximum)
  else Ret duration.

Definition upstreamBound (value : string) : outcome string Z :=
  boundedDuration value (100 * Millisecond) (10 * Minute).

Definition UpstreamDurations (c : Config) : outcome string (Z * Z * Z * Z) :=
  connect ← upstreamBound (ConnectTimeout (Upstream c));
  read ← upstreamBound (ReadTimeout (Upstream c));
  write ← upstreamBound (WriteTimeout (Upstream c));
  health ← upstreamBound (HealthTimeout (Upstream c));
  Ret (connect, read, write, health).

(** ** Addresses *)

Definition isLoopbackAddress (address : string) : bool :=
  match SplitHostPort address with
  | Ret (host, _) =>
      equal_fold host "localhost" ||
      match ParseIP host with Some ip => IsLoopback ip | None => false end
  | _ => false
  end.

(** [None] is the nil error. *)
Definition validateAddress (address : string) : option string :=
  match SplitHostPort address with
  | Fail e => Some e
  | Panic => None
  | Ret (host, port) =>
      if String.eqb host "" then Some "host must not be empty" else
      match Atoi port with
      | Ret parsed =>
          if (parsed <? 0) || (65535 <? parsed)
          then Some "port must be between 0 and 65535" else None
      | _ => Some "port must be between 0 and 65535"
      end
  end.

Definition oneOf (value : string) (allowed : list string) : bool := str_mem value allowed.

(** ** Validation *)

Section Validate.
Context {U : UnicodeCase}.
(** The order in which [range] visits the map of timeouts. *)
Context (range : list (string * string) -> list (string * string)).

(** [if b { problems = append(problems, text) }] *)
Definition when (b : bool) (text : string) : option string := if b then Some text else None.

(** [if err != nil { problems = append(problems, label+err.Error()) }] *)
Definition labelled (label : string) (e : option string) : option string :=
  text ← e; Some (label ++ text).

Definition error_of {A} (o : outcome string A) : option string :=
  match o with Fail e => Some e | _ => None end.

Definition blank (s : string) : bool := String.eqb (trim_space s) "".

Definition pooledMode (c : Config) : bool := equal_fold (MySQLMode (Server c)) "pooled".
Definition tlsRequired (c : Config) : bool := equal_fold (MySQLTLSMode (Server c)) "required".

Definition pooled_checks (c : Config) : list (option string) :=
  let s := Server c in [
    when (blank (MySQLClientUser s)) "server.mysql_client_user must not be empty in pooled mode";
    when (blank (MySQLClientPasswordEnv s))
      "server.mysql_client_password_env must not be empty in pooled mode";
    when (negb (oneOf (to_lower (MySQLTLSMode s)) ["disabled"; "required"]))
      "server.mysql_tls_mode must be disabled or required";
    when (tlsRequired c && (blank (MySQLTLSCertFile s) || blank (MySQLTLSKeyFile s)))
      "server.mysql_tls_cert_file and mysql_tls_key_file are required when client TLS is required";
    when (negb (MySQLAllowInsecureNet s) && negb (isLoopbackAddress (MySQLListen s))
          && negb (tlsRequired c))
      "server.mysql_listen must use loopback in pooled mode until client TLS is enabled; set mysql_allow_insecure_network only for an explicitly protected private boundary"
  ].

Definition timeouts (c : Config) : list (string * string) :=
  let u := Upstream c in [
    ("connect_timeout", ConnectTimeout u); ("read_timeout", ReadTimeout u);
    ("write_timeout", WriteTimeout u); ("health_timeout", HealthTimeout u)
  ].

Definition timeout_check (entry : string * string) : option string :=
  labelled ("upstream." ++ fst entry ++ ": ") (error_of (upstreamBound (snd entry))).

Definition upstream_checks (c : Config) : list (option string) :=
  let u := Upstream c in
  let mode := to_lower (TLSMode u) in
  [ when (blank (Host u)) "upstream.host must not be empty when enabled";
    when ((Port u <? 1) || (65535 <? Port u)) "upstream.port must be between 1 and 65535";
    when (blank (User u)) "upstream.user must not be empty when enabled";
    when (blank (PasswordEnv u)) "upstream.password_env must not be empty when enabled";
    when (negb (oneOf mode ["disabled"; "preferred"; "required"; "verify-ca"; "verify-full"]))
      "upstream.tls_mode is unsupported";
    when (oneOf mode ["verify-ca"; "verify-full"] && blank (TLSCAFile u))
      "upstream.tls_ca_file is required for verify-ca and verify-full";
    when (equal_fold (TLSMode u) "verify-full" && blank (TLSServerName u)
          && bool_decide (is_Some (ParseIP (Host u))))
      "upstream.tls_server_name is required for verify-full when host is an IP address"
  ] ++ map timeout_check (range (timeouts c)).

Definition checks (c : Config) : list (option string) :=
  let s := Server c in
  let l := Limits c in
  [ when (negb (Version c =? CurrentVersion)) "version must be 1";
    labelled "server.mysql_listen: " (validateAddress (MySQLListen s));
    when (negb (oneOf (to_lower (MySQLMode s)) ["transparent"; "pooled"]))
      "server.mysql_mode must be transparent or pooled"
  ] ++ (if pooledMode c then pooled_checks c else []) ++
  [ labelled "server.admin_listen: " (validateAddress (AdminListen s));
    when (String.eqb (MySQLListen s) (AdminListen s))
      "server mysql and admin listeners must differ";
    labelled "server.shutdown_timeout: " (error_of (ShutdownDuration c));
    when (blank (DataDir s)) "server.data_dir must not be empty";
    when (MaxLogicalConnections l <=? 0) "limits.max_logical_connections must be positive";
    when (MaxUpstreamConnections l <=? 0) "limits.max_upstream_connections must be positive";
    when (MaxLogicalConnections l <? MaxUpstreamConnections l)
      "limits.max_upstream_connections cannot exceed max_logical_connections";
    when ((MaxQueuedRequests l <? 0) || (MaxQueuedBytes l <? 0)) "queue limits cannot be negative";
    when (negb (oneOf (to_lower (Level (Logging c))) ["debug"; "info"; "warn"; "error"]))
      "logging.level must be debug, info, warn, or error"
  ] ++ (if Enabled (Upstream c) then upstream_checks c else []).

(** The problems, in the order they are found. *)
Definition problems (c : Config) : list string := omap id (checks c).

(** The error of [Validate]; [None] is nil. *)
Definition Validate (c : Config) : option string :=
  match problems c with [] => None | ps => Some (join "; " ps) end.

End Validate.

(** ** Layers *)

Section Load.
Context {U : UnicodeCase}.
Context (range : list (string * string) -> list (string * string)).
(** What the process sees of the system: its working directory and files. *)
Context (getwd : outcome string string).

Inductive decode_error :=
| NotExist
| EOF
| OtherError (text : string).

#[export] Instance decode_error_eq_dec : EqDecision decode_error.
Proof. solve_decision. Defined.

(** The YAML decoder over an open file: decoding a document into a record
    (unknown fields are errors), and decoding one more document of any shape. *)
Context {decoder : Type}.
Context (open_file : string -> decode_error + decoder).
Context (decode_config : decoder -> Config -> Config * option decode_error * decoder).
Context (decode_any : decoder -> option decode_error).

Inductive load_error :=
| WorkingDirectory (e : string)
| ConfigFile (path : string) (e : decode_error)
| ConfigPath (e : string)
| Environment (name : string) (e : GoStrconv.num_error)
| ManagedFile (path : string) (e : decode_error)
| Invalid (message : string).

(** The record as the decoder leaves it, and the error. *)
Definition decodeFile (path : string) (target : Config) : Config * option decode_error :=
  match open_file path with
  | inl err => (target, Some err)
  | inr file =>
      let '(target, err, file) := decode_config file target in
      match err with
      | Some err => (target, Some err)
      | None =>
          match decode_any file with
          | Some EOF => (target, None)
          | None =>
              (target, Some (OtherError "configuration contains more than one YAML document"))
          | Some err => (target, Some err)
          end
      end
  end.

Definition applyOverrides (cfg : Config) (o : Overrides) : Config :=
  let s := Server cfg in
  {| Version := Version cfg;
     Server := {|
       MySQLListen := default (MySQLListen s) (override_MySQLListen o);
       MySQLMode := MySQLMode s;
       MySQLClientUser := MySQLClientUser s;
       MySQLClientPasswordEnv := MySQLClientPasswordEnv s;
       MySQLAllowInsecureNet := MySQLAllowInsecureNet s;
       MySQLTLSMode := MySQLTLSMode s;
       MySQLTLSCertFile := MySQLTLSCertFile s;
       MySQLTLSKeyFile := MySQLTLSKeyFile s;
       AdminListen := default (AdminListen s) (override_AdminListen o);
       AdminTokenEnv := AdminTokenEnv s;
       ShutdownTimeout := ShutdownTimeout s;
       DataDir := default (DataDir s) (override_DataDir o) |};
     Upstream := Upstream cfg;
     Limits := Limits cfg;
     Logging := {| Level := default (Level (Logging cfg)) (override_LogLevel o) |} |}.

Section Environment.
Context (lookup : string -> option string).

Definition setString (name target : string) : string :=
  match lookup name with Some value => value | None => target end.

Definition setBool (name : string) (target : bool) : outcome load_error bool :=
  match lookup name with
  | None => Ret target
  | Some value => map_fail (Environment name) (ParseBool value)
  end.

Definition setInt (name : string) (target : Z) : outcome load_error Z :=
  match lookup name with
  | None => Ret target
  | Some value => map_fail (Environment name) (Atoi value)
  end.

Definition applyEnvironment (cfg : Config) : outcome load_error Config :=
  let s := Server cfg in
  let u := Upstream cfg in
  let l := Limits cfg in
  enabled ← setBool "DBA_UPSTREAM_ENABLED" (Enabled u);
  insecure ← setBool "DBA_MYSQL_ALLOW_INSECURE_NETWORK" (MySQLAllowInsecureNet s);
  allow_empty ← setBool "DBA_UPSTREAM_ALLOW_EMPTY_PASSWORD" (AllowEmptyPassword u);
  port ← setInt "DBA_UPSTREAM_PORT" (Port u);
  logical ← setInt "DBA_MAX_LOGICAL_CONNECTIONS" (MaxLogicalConnections l);
  upstream ← setInt "DBA_MAX_UPSTREAM_CONNECTIONS" (MaxUpstreamConnections l);
  requests ← setInt "DBA_MAX_QUEUED_REQUESTS" (MaxQueuedRequests l);
  bytes ← (match lookup "DBA_MAX_QUEUED_BYTES" with
           | Some value =>
               map_fail (Environment "DBA_MAX_QUEUED_BYTES") (GoStrconv.ParseInt 64 value)
           | None => Ret (MaxQueuedBytes l)
           end);
  Ret {| Version := Version cfg;
         Server := {|
           MySQLListen := setString "DBA_MYSQL_LISTEN" (MySQLListen s);
           MySQLMode := setString "DBA_MYSQL_MODE" (MySQLMode s);
           MySQLClientUser := setString "DBA_MYSQL_CLIENT_USER" (MySQLClientUser s);
           MySQLClientPasswordEnv :=
             setString "DBA_MYSQL_CLIENT_PASSWORD_ENV" (MySQLClientPasswordEnv s);
           MySQLAllowInsecureNet := insecure;
           MySQLTLSMode := setString "DBA_MYSQL_TLS_MODE" (MySQLTLSMode s);
           MySQLTLSCertFile := setString "DBA_MYSQL_TLS_CERT_FILE" (MySQLTLSCertFile s);
           MySQLTLSKeyFile := setString "DBA_MYSQL_TLS_KEY_FILE" (MySQLTLSKeyFile s);
           AdminListen := setString "DBA_ADMIN_LISTEN" (AdminListen s);
           AdminTokenEnv := setString "DBA_ADMIN_TOKEN_ENV" (AdminTokenEnv s);
           ShutdownTimeout := setString "DBA_SHUTDOWN_TIMEOUT" (ShutdownTimeout s);
           DataDir := setString "DBA_DATA_DIR" (DataDir s) |};
         Upstream := {|
           Enabled := enabled;
           Host := setString "DBA_UPSTREAM_HOST" (Host u);
           Port := port;
           User := setString "DBA_UPSTREAM_USER" (User u);
           PasswordEnv := setString "DBA_UPSTREAM_PASSWORD_ENV" (PasswordEnv u);
           AllowEmptyPassword := allow_empty;
           Database := setString "DBA_UPSTREAM_DATABASE" (Database u);
           TLSMode := setString "DBA_UPSTREAM_TLS_MODE" (TLSMode u);
           TLSCAFile := setString "DBA_UPSTREAM_TLS_CA_FILE" (TLSCAFile u);
           TLSServerName := setString "DBA_UPSTREAM_TLS_SERVER_NAME" (TLSServerName u);
           ConnectTimeout := setString "DBA_UPSTREAM_CONNECT_TIMEOUT" (ConnectTimeout u);
           ReadTimeout := setString "DBA_UPSTREAM_READ_TIMEOUT" (ReadTimeout u);
           WriteTimeout := setString "DBA_UPSTREAM_WRITE_TIMEOUT" (WriteTimeout u);
           HealthTimeout := setString "DBA_UPSTREAM_HEALTH_TIMEOUT" (HealthTimeout u) |};
         Limits := {|
           MaxLogicalConnections := logical;
           MaxUpstreamConnections := upstream;
           MaxQueuedRequests := requests;
           MaxQueuedBytes := bytes |};
         Logging := {| Level := setString "DBA_LOG_LEVEL" (Level (Logging cfg)) |} |}.

End Environment.

(** A path of the configuration, relative to the configuration file. *)
Definition resolve (baseDir path : string) : string :=
  if IsAbs path then path else Clean (Join baseDir path).

Definition resolve_optional (baseDir path : string) : string :=
  if String.eqb path "" then path else resolve baseDir path.

Definition normalize (baseDir : string) (cfg : Config) : Config :=
  let s := Server cfg in
  let u := Upstream cfg in
  {| Version := Version cfg;
     Server := {|
       MySQLListen := MySQLListen s;
       MySQLMode := MySQLMode s;
       MySQLClientUser := MySQLClientUser s;
       MySQLClientPasswordEnv := MySQLClientPasswordEnv s;
       MySQLAllowInsecureNet := MySQLAllowInsecureNet s;
       MySQLTLSMode := MySQLTLSMode s;
       MySQLTLSCertFile := resolve_optional baseDir (MySQLTLSCertFile s);
       MySQLTLSKeyFile := resolve_optional baseDir (MySQLTLSKeyFile s);
       AdminListen := AdminListen s;
       AdminTokenEnv := AdminTokenEnv s;
       ShutdownTimeout := ShutdownTimeout s;
       DataDir := resolve baseDir (DataDir s) |};
     Upstream := {|
       Enabled := Enabled u;
       Host := Host u;
       Port := Port u;
       User := User u;
       PasswordEnv := PasswordEnv u;
       AllowEmptyPassword := AllowEmptyPassword u;
       Database := Database u;
       TLSMode := TLSMode u;
       TLSCAFile := resolve_optional baseDir (TLSCAFile u);
       TLSServerName := TLSServerName u;
       ConnectTimeout := ConnectTimeout u;
       ReadTimeout := ReadTimeout u;
       WriteTimeout := WriteTimeout u;
       HealthTimeout := HealthTimeout u |};
     Limits := Limits cfg;
     Logging := Logging cfg |}.

Record LoadOptions := mkLoadOptions {
  Path : string;
  ManagedPath : string;
  overrides : Overrides;
  LookupEnv : string -> option string
}.

(** The YAML file over the defaults, and the directory paths are relative to. *)
Definition load_file (options : LoadOptions) : outcome load_error (Config * string) :=
  baseDir ← map_fail WorkingDirectory getwd;
  if String.eqb (Path options) "" then Ret (Default, baseDir) else
  let '(cfg, err) := decodeFile (Path options) Default in
  match err with
  | Some err => Fail (ConfigFile (Path options) err)
  | None =>
      absolutePath ← map_fail ConfigPath (Abs getwd (Path options));
      Ret (cfg, Dir absolutePath)
  end.

(** The managed overlay; a missing file is no overlay. *)
Definition load_managed (options : LoadOptions) (cfg : Config) : outcome load_error Config :=
  if String.eqb (ManagedPath options) "" then Ret cfg else
  let '(cfg, err) := decodeFile (ManagedPath options) cfg in
  match err with
  | Some NotExist | None => Ret cfg
  | Some err => Fail (ManagedFile (ManagedPath options) err)
  end.

Definition Load (options : LoadOptions) : outcome load_error Config :=
  '(cfg, baseDir) ← load_file options;
  cfg ← applyEnvironment (LookupEnv options) cfg;
  let cfg := applyOverrides cfg (overrides options) in
  cfg ← load_managed options cfg;
  let cfg := normalize baseDir cfg in
  match Validate range cfg with Some message => Fail (Invalid message) | None => Ret cfg end.

End Load.

End Config.
