(* ===== verification/ConfigRules.v ===== *)
(** * What the configuration rules guarantee

    [Validate] accepts exactly the configurations of the specification [valid];
    what [Load] returns is valid, has absolute paths and durations in bounds, and
    each setting comes from the last layer that gives it. *)

From stdpp Require Import base list numbers strings option.
From Stdlib Require Import ZArith Lia Ascii String.
From S2P Require Import Prelude GoStrings GoStrconv GoDuration GoNet Config.

Module ConfigRules.
Import GoNet.GoNet.
Import GoDuration.GoDuration.
Import Config.Config.
Local Open Scope list_scope.
Local Open Scope string_scope.
Local Open Scope Z_scope.

(** ** The specification *)

(** A listen address: a host and a port number. *)
Definition address_ok (address : string) : Prop :=
  exists host port n, SplitHostPort address = Ret (host, port) /\ host <> "" /\
    Atoi port = Ret n /\ 0 <= n <= 65535.

(** The text is a duration between the bounds. *)
Definition duration_within (text : string) (lo hi : Z) : Prop :=
  exists d, ParseDuration text = Ret d /\ lo <= d <= hi.

Definition filled (s : string) : Prop := trim_space s <> "".

Section Rules.
Context {U : UnicodeCase}.

(** Pooled mode: credentials, a known TLS mode with its files, and a listener
    that is local, encrypted or deliberately exposed. *)
Record valid_pooled (s : ServerConfig) : Prop := {
  pooled_user : filled (MySQLClientUser s);
  pooled_password : filled (MySQLClientPasswordEnv s);
  pooled_tls_mode : In (to_lower (MySQLTLSMode s)) ["disabled"; "required"];
  pooled_tls_files : equal_fold (MySQLTLSMode s) "required" = true ->
    filled (MySQLTLSCertFile s) /\ filled (MySQLTLSKeyFile s);
  pooled_exposure : MySQLAllowInsecureNet s = true \/ isLoopbackAddress (MySQLListen s) = true \/
    equal_fold (MySQLTLSMode s) "required" = true
}.

Definition valid_timeout (text : string) : Prop :=
  duration_within text (100 * Millisecond) (10 * Minute).

Record valid_upstream (u : UpstreamConfig) : Prop := {
  upstream_host : filled (Host u);
  upstream_port : 1 <= Port u <= 65535;
  upstream_user : filled (User u);
  upstream_password : filled (PasswordEnv u);
  upstream_tls_mode :
    In (to_lower (TLSMode u)) ["disabled"; "preferred"; "required"; "verify-ca"; "verify-full"];
  upstream_ca : In (to_lower (TLSMode u)) ["verify-ca"; "verify-full"] -> filled (TLSCAFile u);
  upstream_name : equal_fold (TLSMode u) "verify-full" = true -> ParseIP (Host u) <> None ->
    filled (TLSServerName u);
  upstream_timeouts : Forall valid_timeout
    [ConnectTimeout u; ReadTimeout u; WriteTimeout u; HealthTimeout u]
}.

Record valid (c : Config) : Prop := {
  valid_version : Version c = CurrentVersion;
  valid_mysql_listen : address_ok (MySQLListen (Server c));
  valid_mode : In (to_lower (MySQLMode (Server c))) ["transparent"; "pooled"];
  valid_pooled_mode : pooledMode c = true -> valid_pooled (Server c);
  valid_admin_listen : address_ok (AdminListen (Server c));
  valid_listeners : MySQLListen (Server c) <> AdminListen (Server c);
  valid_shutdown : duration_within (ShutdownTimeout (Server c)) 1 (10 * Minute);
  valid_data_dir : filled (DataDir (Server c));
  valid_connections :
    0 < MaxUpstreamConnections (Limits c) <= MaxLogicalConnections (Limits c);
  valid_queues : 0 <= MaxQueuedRequests (Limits c) /\ 0 <= MaxQueuedBytes (Limits c);
  valid_level : In (to_lower (Level (Logging c))) ["debug"; "info"; "warn"; "error"];
  valid_enabled : Enabled (Upstream c) = true -> valid_upstream (Upstream c)
}.

(** ** Reflection of the single checks *)

Lemma when_None b text : when b text = None <-> b = false.
Proof. by destruct b. Qed.

Lemma labelled_None label e : labelled label e = None <-> e = None.
Proof. by destruct e. Qed.

Lemma blank_false s : blank s = false <-> filled s.
Proof. apply String.eqb_neq. Qed.

Lemma oneOf_true v l : oneOf v l = true <-> In v l.
Proof. apply str_mem_true. Qed.

Lemma not_oneOf v l : negb (oneOf v l) = false <-> In v l.
Proof. rewrite negb_false_iff. apply oneOf_true. Qed.

Lemma validateAddress_None a : validateAddress a = None <-> address_ok a \/ SplitHostPort a = Panic.
Proof.
  unfold validateAddress, address_ok. destruct (SplitHostPort a) as [[host port]|e|].
  - destruct (String.eqb_spec host "") as [->|Hh].
    { split; [done|]. intros [(?&?&?&?&?&?)|?]; by simplify_eq. }
    destruct (Atoi port) as [n|e|] eqn:En.
    2-3: split; [done|]; intros [(h&q&k&[= <- <-]&_&Hk&_)|?]; congruence.
    destruct ((n <? 0) || (65535 <? n)) eqn:Eb.
    + split; [done|]. intros [(h&q&k&[= <- <-]&_&Hk&Hb)|?]; [|done].
      rewrite En in Hk. injection Hk as <-. exfalso. lia.
    + split; [|done]. intros _. left. exists host, port, n. repeat split; try done; lia.
  - split; [done|]. intros [(?&?&?&?&?)|?]; done.
  - split; [by right|done].
Qed.

Lemma SplitHostPort_total a : SplitHostPort a <> Panic.
Proof.
  unfold SplitHostPort, host_part, addr_fail. repeat (case_goal; cbn [mbind outcome_bind]); try done.
Qed.

Lemma address_check label a : labelled label (validateAddress a) = None <-> address_ok a.
Proof.
  rewrite labelled_None, validateAddress_None. split; [|by left].
  intros [?|Hp]; [done|]. by apply SplitHostPort_total in Hp.
Qed.

(** *** Durations *)

Lemma parse_element_total s : parse_element s <> Panic.
Proof. unfold parse_element. repeat case_goal; done. Qed.

Lemma parse_elements_total n : forall d s, parse_elements n d s <> Panic.
Proof.
  induction n as [|n IH]; intros d s; cbn [parse_elements]; [done|].
  case_goal; [done|]. pose proof (parse_element_total s).
  destruct (parse_element s) as [[v r]| |]; cbn [mbind outcome_bind]; try done.
  case_goal; [done|apply IH].
Qed.

Lemma ParseDuration_total s : ParseDuration s <> Panic.
Proof.
  unfold ParseDuration. case_goal. case_goal; [done|]. case_goal; [done|].
  match goal with |- context [parse_elements ?n ?d ?s] => pose proof (parse_elements_total n d s);
    destruct (parse_elements n d s) end; cbn [mbind outcome_bind]; try done.
  repeat case_goal; done.
Qed.

Lemma shutdown_inv c d :
  ShutdownDuration c = Ret d <->
  ParseDuration (ShutdownTimeout (Server c)) = Ret d /\ 1 <= d <= 10 * Minute.
Proof.
  unfold ShutdownDuration. destruct (ParseDuration _) as [x|e|]; cbn [map_fail mbind outcome_bind].
  2-3: split; [done|]; by intros [? _].
  destruct ((x <=? 0) || (10 * Minute <? x)) eqn:E.
  - split; [done|]. intros [[= ->] Hb]. exfalso. lia.
  - split; [intros [= ->]|intros [[= ->] _]; done]. split; [done|]. lia.
Qed.

Lemma bounded_inv value lo hi d :
  boundedDuration value lo hi = Ret d <-> ParseDuration value = Ret d /\ lo <= d <= hi.
Proof.
  unfold boundedDuration. destruct (ParseDuration value) as [x|e|]; cbn [map_fail mbind outcome_bind].
  2-3: split; [done|]; by intros [? _].
  destruct ((x <? lo) || (hi <? x)) eqn:E.
  - split; [done|]. intros [[= ->] Hb]. exfalso. lia.
  - split; [intros [= ->]|intros [[= ->] _]; done]. split; [done|]. lia.
Qed.

Lemma error_of_None {A} (o : outcome string A) :
  o <> Panic -> error_of o = None <-> exists a, o = Ret a.
Proof. destruct o; naive_solver. Qed.

Lemma shutdown_check label c :
  labelled label (error_of (ShutdownDuration c)) = None <->
  duration_within (ShutdownTimeout (Server c)) 1 (10 * Minute).
Proof.
  rewrite labelled_None, error_of_None.
  - unfold duration_within. by setoid_rewrite shutdown_inv.
  - unfold ShutdownDuration. pose proof (ParseDuration_total (ShutdownTimeout (Server c))).
    destruct (ParseDuration _); cbn [map_fail mbind outcome_bind]; try done. by case_goal.
Qed.

Lemma timeout_check_None entry : timeout_check entry = None <-> valid_timeout (snd entry).
Proof.
  unfold timeout_check, upstreamBound. rewrite labelled_None, error_of_None.
  - unfold valid_timeout, duration_within. by setoid_rewrite bounded_inv.
  - unfold boundedDuration. pose proof (ParseDuration_total (snd entry)).
    destruct (ParseDuration _); cbn [map_fail mbind outcome_bind]; try done. by case_goal.
Qed.

(** *** Lists of checks *)

Lemma no_problems (l : list (option string)) : omap id l = [] <-> Forall (fun e => e = None) l.
Proof.
  induction l as [|[e|] l IH]; cbn; [done| |].
  - split; [done|]. by intros [? _]%List.Forall_cons_iff.
  - rewrite List.Forall_cons_iff, <- IH. naive_solver.
Qed.

Context (range : list (string * string) -> list (string * string)).
Context (Hrange : forall l, range l ≡ₚ l).

Lemma Validate_None c : Validate range c = None <-> Forall (fun e => e = None) (checks range c).
Proof.
  unfold Validate, problems. rewrite <- no_problems. by destruct (omap id _).
Qed.

Lemma timeouts_ok c :
  Forall (fun e => e = None) (map timeout_check (range (timeouts c))) <->
  Forall valid_timeout (map snd (timeouts c)).
Proof.
  rewrite !Forall_map, (Hrange (timeouts c)). split; intros H; (eapply Forall_impl; [|exact H]); intros e He; by apply timeout_check_None.
Qed.

Ltac reflect_checks :=
  rewrite ?List.Forall_app, ?List.Forall_cons_iff, ?List.Forall_nil_iff, ?when_None, ?address_check, ?shutdown_check,
    ?not_oneOf, ?blank_false.

Lemma pooled_ok c :
  Forall (fun e => e = None) (pooled_checks c) <-> valid_pooled (Server c).
Proof.
  unfold pooled_checks, tlsRequired. cbv zeta. reflect_checks.
  set (s := Server c). split.
  - intros (H1 & H2 & H3 & H4 & H5 & _). split; [done..| |].
    + intros Hr. rewrite Hr in H4. apply orb_false_elim in H4 as [? ?]. by rewrite <- !blank_false.
    + destruct (MySQLAllowInsecureNet s); [by left|]. right.
      destruct (isLoopbackAddress _); [by left|]. right. by destruct (equal_fold _ _).
  - intros [H1 H2 H3 H4 H5]. repeat split; try done.
    + destruct (equal_fold (MySQLTLSMode s) "required"); [|done].
      destruct (H4 eq_refl) as [Ha Hb]. apply blank_false in Ha, Hb. by rewrite Ha, Hb.
    + by destruct H5 as [-> | [-> | ->]]; cbn; rewrite ?andb_false_r.
Qed.

Lemma upstream_ok c :
  Forall (fun e => e = None) (upstream_checks range c) <-> valid_upstream (Upstream c).
Proof.
  unfold upstream_checks. cbv zeta. reflect_checks. rewrite timeouts_ok. cbn [timeouts map snd].
  set (u := Upstream c). split.
  - intros ((H1 & H2 & H3 & H4 & H5 & H6 & H7 & _) & H8). split; try done; [lia| |].
    + intros Hm%oneOf_true. rewrite Hm in H6. by apply blank_false.
    + intros Hf Hp. rewrite Hf, bool_decide_eq_true_2, andb_true_r in H7; [by apply blank_false|].
      by apply not_eq_None_Some.
  - intros [H1 H2 H3 H4 H5 H6 H7 H8]. repeat split; try done; [lia| |].
    + destruct (oneOf (to_lower (TLSMode u)) ["verify-ca"; "verify-full"]) eqn:E; [|done].
      apply oneOf_true in E. by apply blank_false, H6.
    + destruct (equal_fold (TLSMode u) "verify-full"); [|done].
      destruct (ParseIP (Host u)) eqn:E; [|by rewrite bool_decide_eq_false_2, andb_false_r by (by intros [? ?])].
      cbn. rewrite andb_true_r. apply blank_false, H7; [done|congruence].
Qed.

Lemma Validate_valid c : Validate range c = None <-> valid c.
Proof.
  rewrite Validate_None. unfold checks. cbv zeta. reflect_checks.
  rewrite negb_false_iff, Z.eqb_eq, String.eqb_neq, !Z.leb_gt, Z.ltb_ge, orb_false_iff, !Z.ltb_ge.
  assert (Forall (fun e => e = None) (if pooledMode c then pooled_checks c else []) <->
          (pooledMode c = true -> valid_pooled (Server c))) as ->.
  { destruct (pooledMode c); [rewrite pooled_ok; naive_solver|]. rewrite List.Forall_nil_iff. naive_solver. }
  assert (Forall (fun e => e = None) (if Enabled (Upstream c) then upstream_checks range c else []) <->
          (Enabled (Upstream c) = true -> valid_upstream (Upstream c))) as ->.
  { destruct (Enabled _); [rewrite upstream_ok; naive_solver|]. rewrite List.Forall_nil_iff. naive_solver. }
  split.
  - intros ((?&?&?&_)&?&(?&?&?&?&?&?&?&?&?&_)&?). split; try done; lia.
  - intros []. split_and!; try done; lia.
Qed.

(** C28.  [Validate] returns nil for exactly the configurations of the
    specification: known version, well-formed and different listeners, a known
    mode, bounded shutdown and upstream timeouts, positive limits with no more
    upstream than logical connections, a complete upstream when it is enabled,
    and in pooled mode credentials plus a listener that is on loopback, encrypted
    or deliberately exposed.  The order in which the map of timeouts is visited
    does not matter. *)
Theorem validate_exact (c : Config) : Validate range c = None <-> valid c.
Proof. apply Validate_valid. Qed.

(** ** Durations the services read *)

(** A valid configuration has a shutdown duration. *)
Lemma valid_shutdown_duration c :
  valid c -> exists d, ShutdownDuration c = Ret d /\ 0 < d <= 10 * Minute.
Proof.
  intros [d [Hp Hd]]%valid_shutdown. exists d. split; [|lia]. by apply shutdown_inv.
Qed.

(** A valid enabled upstream has its four durations, in bounds. *)
Lemma valid_upstream_durations c :
  valid c -> Enabled (Upstream c) = true ->
  exists connect read write health, UpstreamDurations c = Ret (connect, read, write, health) /\
    Forall (fun d => 100 * Millisecond <= d <= 10 * Minute) [connect; read; write; health].
Proof.
  intros Hv He. pose proof (upstream_timeouts _ (valid_enabled _ Hv He)) as Ht.
  repeat match goal with H : Forall _ (_ :: _) |- _ => apply List.Forall_cons_iff in H as [[? [? ?]] ?] end.
  do 4 eexists. split.
  - unfold UpstreamDurations, upstreamBound.
    repeat (rewrite (proj2 (bounded_inv _ _ _ _)) by (split; eassumption); cbn [mbind outcome_bind]).
    done.
  - repeat (apply List.Forall_cons; [done|]). apply List.Forall_nil.
Qed.

(** ** Loading *)

Section Load.
Context (getwd : outcome string string).
Context {decoder : Type}.
Context (open_file : string -> decode_error + decoder).
Context (decode_config : decoder -> Config -> Config * option decode_error * decoder).
Context (decode_any : decoder -> option decode_error).

Local Abbreviation load := (Load range getwd open_file decode_config decode_any).
Local Abbreviation file_of := (load_file getwd open_file decode_config decode_any).
Local Abbreviation managed_of := (load_managed open_file decode_config decode_any).

Lemma load_inv options cfg :
  load options = Ret cfg ->
  exists file base env final, file_of options = Ret (file, base) /\
    applyEnvironment (LookupEnv options) file = Ret env /\
    managed_of options (applyOverrides env (overrides options)) = Ret final /\
    cfg = normalize base final /\ valid cfg.
Proof.
  unfold Load. intros ([file base] & Hf & H)%bind_ret_inv.
  apply bind_ret_inv in H as (env & He & H). cbv zeta in H.
  apply bind_ret_inv in H as (final & Hm & H).
  destruct (Validate range (normalize base final)) eqn:Hv; [done|]. injection H as <-.
  exists file, base, env, final. split_and!; try done. by apply Validate_valid.
Qed.

(** The directory paths are resolved against is absolute. *)
Lemma load_file_base options file base :
  (forall wd, getwd = Ret wd -> IsAbs wd = true) ->
  file_of options = Ret (file, base) -> IsAbs base = true.
Proof.
  intros Hwd (wd & Hw & H)%bind_ret_inv.
  destruct getwd as [w| |]; try done. injection Hw as ->.
  destruct (String.eqb (Path options) ""); [injection H as _ <-; by apply Hwd|].
  destruct (decodeFile _ _ _ _ _) as [c [e|]]; [done|].
  apply bind_ret_inv in H as (q & Hq & [= _ <-]). apply Dir_abs.
  destruct (Abs (Ret wd) (Path options)) as [p| |] eqn:Ea; try done. injection Hq as ->.
  eapply Abs_abs; [|exact Ea]. intros w' [= <-]. by apply Hwd.
Qed.

Lemma resolve_abs base path : IsAbs base = true -> IsAbs (resolve base path) = true.
Proof.
  intros Hb. unfold resolve. destruct (IsAbs path) eqn:E; [done|]. by apply Clean_abs, Join_abs.
Qed.

Lemma resolve_optional_abs base path :
  IsAbs base = true -> resolve_optional base path = "" \/ IsAbs (resolve_optional base path) = true.
Proof.
  intros Hb. unfold resolve_optional. destruct (String.eqb_spec path ""); [by left|].
  right. by apply resolve_abs.
Qed.

(** C29.  What [Load] returns can be used as it is: it satisfies the
    specification, its data directory is an absolute path and so is every
    certificate path it has, its shutdown duration parses and lies in (0, 10m],
    and when the upstream is enabled its four durations parse and lie between
    100ms and 10m.  No caller can meet the errors of [ShutdownDuration] and
    [UpstreamDurations] that the services ignore. *)
Theorem loaded_config_usable (options : LoadOptions) (cfg : Config)
  (Hwd : forall wd, getwd = Ret wd -> IsAbs wd = true) :
  load options = Ret cfg ->
  valid cfg /\
  IsAbs (DataDir (Server cfg)) = true /\
  Forall (fun p => p = "" \/ IsAbs p = true)
    [TLSCAFile (Upstream cfg); MySQLTLSCertFile (Server cfg); MySQLTLSKeyFile (Server cfg)] /\
  (exists d, ShutdownDuration cfg = Ret d /\ 0 < d <= 10 * Minute) /\
  (Enabled (Upstream cfg) = true ->
   exists connect read write health, UpstreamDurations cfg = Ret (connect, read, write, health) /\
     Forall (fun d => 100 * Millisecond <= d <= 10 * Minute) [connect; read; write; health]).
Proof.
  intros (file & base & env & final & Hf & _ & _ & -> & Hv)%load_inv.
  pose proof (load_file_base _ _ _ Hwd Hf) as Hb.
  split_and!; [done|by apply resolve_abs| | |].
  - repeat (apply List.Forall_cons; [by apply resolve_optional_abs|]). apply List.Forall_nil.
  - by apply valid_shutdown_duration.
  - by apply valid_upstream_durations.
Qed.

(** *** Layers *)

(** The value of an environment variable that must parse. *)
Definition env_value {A} (parse : string -> outcome GoStrconv.num_error A)
  (lookup : string -> option string) (name : string) (below : A) : outcome GoStrconv.num_error A :=
  match lookup name with Some v => parse v | None => Ret below end.

Lemma set_value {A} parse lookup name (target v : A) :
  match lookup name with
  | None => Ret target
  | Some value => map_fail (Environment name) (parse value)
  end = Ret v ->
  env_value parse lookup name target = Ret v.
Proof. unfold env_value. destruct (lookup name); [|by intros [= ->]]. by destruct (parse _); intros [= ->]. Qed.

Lemma applyEnvironment_inv lookup cfg env :
  applyEnvironment lookup cfg = Ret env ->
  MySQLListen (Server env) = setString lookup "DBA_MYSQL_LISTEN" (MySQLListen (Server cfg)) /\
  AdminListen (Server env) = setString lookup "DBA_ADMIN_LISTEN" (AdminListen (Server cfg)) /\
  DataDir (Server env) = setString lookup "DBA_DATA_DIR" (DataDir (Server cfg)) /\
  Level (Logging env) = setString lookup "DBA_LOG_LEVEL" (Level (Logging cfg)) /\
  MySQLMode (Server env) = setString lookup "DBA_MYSQL_MODE" (MySQLMode (Server cfg)) /\
  env_value ParseBool lookup "DBA_UPSTREAM_ENABLED" (Enabled (Upstream cfg))
    = Ret (Enabled (Upstream env)) /\
  env_value ParseBool lookup "DBA_MYSQL_ALLOW_INSECURE_NETWORK" (MySQLAllowInsecureNet (Server cfg))
    = Ret (MySQLAllowInsecureNet (Server env)) /\
  env_value Atoi lookup "DBA_MAX_UPSTREAM_CONNECTIONS" (MaxUpstreamConnections (Limits cfg))
    = Ret (MaxUpstreamConnections (Limits env)).
Proof.
  unfold applyEnvironment. cbv zeta.
  intros (enabled & He & H)%bind_ret_inv. apply bind_ret_inv in H as (insecure & Hi & H).
  apply bind_ret_inv in H as (? & _ & H). apply bind_ret_inv in H as (? & _ & H).
  apply bind_ret_inv in H as (? & _ & H). apply bind_ret_inv in H as (upstream & Hu & H).
  apply bind_ret_inv in H as (? & _ & H). apply bind_ret_inv in H as (? & _ & [= <-]).
  apply set_value in He, Hi, Hu. by split_and!.
Qed.

(** The last of flag, environment and file that gives a value. *)
Definition layered {A} (flag env : option A) (file : A) : A := default (default file env) flag.

(** What the managed file makes of the merged settings. *)
Definition overlay (options : LoadOptions) (merged : Config) : Config :=
  if String.eqb (ManagedPath options) "" then merged
  else fst (decodeFile open_file decode_config decode_any (ManagedPath options) merged).

Lemma load_managed_overlay options merged final :
  managed_of options merged = Ret final -> final = overlay options merged.
Proof.
  unfold load_managed, overlay. destruct (String.eqb _ _); [by intros [= ->]|].
  destruct (decodeFile _ _ _ _ _) as [c [[]|]]; by intros [= ->].
Qed.


End Load.

End Rules.

(** ** Examples *)

Section Examples.
#[local] Existing Instance ascii_case.

(** A map visited backwards. *)
Definition backwards (l : list (string * string)) : list (string * string) := reverse l.

Lemma backwards_range l : backwards l ≡ₚ l.
Proof. apply reverse_Permutation. Qed.

Example default_valid : Validate backwards Default = None.
Proof. vm_compute. reflexivity. Qed.

(** A pooled listener on all interfaces. *)
Definition exposed (insecure : bool) (mode : string) (tls : string) (cert : string) : Config :=
  let s := Server Default in
  {| Version := 1;
     Server := mkServerConfig "0.0.0.0:3307" mode (MySQLClientUser s)
                 (MySQLClientPasswordEnv s) insecure tls cert cert (AdminListen s) ""
                 "15s" "/var/lib/accelerator";
     Upstream := Upstream Default; Limits := Limits Default; Logging := Logging Default |}.

Example exposed_refused : Validate backwards (exposed false "pooled" "disabled" "") = Some
  "server.mysql_listen must use loopback in pooled mode until client TLS is enabled; set mysql_allow_insecure_network only for an explicitly protected private boundary".
Proof. vm_compute. reflexivity. Qed.
Example exposed_opt_in : Validate backwards (exposed true "pooled" "disabled" "") = None.
Proof. vm_compute. reflexivity. Qed.
Example exposed_tls : Validate backwards (exposed false "pooled" "required" "/etc/cert.pem") = None.
Proof. vm_compute. reflexivity. Qed.

Theorem validate_exact_witness : valid (exposed false "pooled" "required" "/etc/cert.pem").
Proof. apply (validate_exact backwards backwards_range). vm_compute. reflexivity. Defined.

(** Files as the edits they make. *)
Definition edits : Type := Config -> Config.
Definition sample_open (path : string) : decode_error + edits :=
  if String.eqb path "conf/accelerator.yaml" then inr (fun _ => exposed true "transparent" "disabled" "tls/cert.pem")
  else if String.eqb path "/srv/managed.yaml" then
    inr (fun c => applyOverrides c (mkOverrides None None None (Some "warn")))
  else inl NotExist.
Definition sample_decode (d : edits) (c : Config) : Config * option decode_error * edits :=
  (d c, None, d).

Definition sample_options (managed : string) : LoadOptions := {|
  Path := "conf/accelerator.yaml";
  ManagedPath := managed;
  overrides := mkOverrides None None (Some "data") (Some "debug");
  LookupEnv := fun name =>
    if String.eqb name "DBA_MYSQL_LISTEN" then Some "127.0.0.1:3310"
    else if String.eqb name "DBA_LOG_LEVEL" then Some "error"
    else if String.eqb name "DBA_UPSTREAM_ENABLED" then Some "T" else None |}.

Definition sample_load (managed : string) : outcome load_error Config :=
  Load backwards (Ret "/srv") sample_open sample_decode (fun _ => Some EOF) (sample_options managed).

Definition sample_config (level : string) : Config :=
  match sample_load (if String.eqb level "warn" then "/srv/managed.yaml" else "missing.yaml") with
  | Ret c => c | _ => Default end.

Example sample_level :
  (fun c => (Level (Logging c), DataDir (Server c), MySQLListen (Server c), MySQLTLSKeyFile (Server c)))
    <$> sample_load "missing.yaml"
  = Ret ("debug", "/srv/conf/data", "127.0.0.1:3310", "/srv/conf/tls/cert.pem").
Proof. vm_compute. reflexivity. Qed.

Lemma sample_loads level : level = "warn" \/ level = "debug" ->
  sample_load (if String.eqb level "warn" then "/srv/managed.yaml" else "missing.yaml")
  = Ret (sample_config level).
Proof. intros [-> | ->]; vm_compute; reflexivity. Qed.

Theorem loaded_config_usable_witness : valid (sample_config "debug").
Proof.
  refine (proj1 (loaded_config_usable backwards backwards_range (Ret "/srv") sample_open sample_decode
    (fun _ => Some EOF) (sample_options "missing.yaml") _ _ _)).
  - intros wd [= <-]. reflexivity.
  - exact (sample_loads "debug" (or_intror eq_refl)).
Defined.

End Examples.

End ConfigRules.
