(* ===== verification/Secrets.v ===== *)
(** * Secrets

    [internal/config/secret.go]: secrets are resolved from the environment, or
    from the files the environment names, apart from the printable configuration;
    what prints a secret prints a constant. *)

From stdpp Require Import base list numbers strings option.
From Stdlib Require Import ZArith Lia Ascii String.
From S2P Require Import Prelude GoStrings Config ConfigRules.

Module Secrets.
Import Config.Config.
Import ConfigRules.ConfigRules.
Local Open Scope string_scope.
Local Open Scope Z_scope.

Definition redacted : string := "[redacted]".

Record Secret := mkSecret { value : string }.

Definition Secret_String (s : Secret) : string := redacted.
Definition Secret_GoString (s : Secret) : string := redacted.
(** [json.Marshal] of the constant, which has no character to escape. *)
Definition MarshalJSON (s : Secret) : string :=
  String (char 34) (redacted ++ String (char 34) "").
Definition Reveal (s : Secret) : string := value s.

Record Secrets := mkSecrets {
  UpstreamPassword : Secret;
  ClientPassword : Secret;
  AdminToken : Secret
}.

Definition Secrets_String (s : Secrets) : string := redacted.
Definition Secrets_GoString (s : Secrets) : string := redacted.

Definition no_secret : Secret := mkSecret "".

(** ** Resolution *)

Inductive secret_error :=
| LookupRequired
| NotSet (name : string)
| NotSetOrEmpty (name : string)
| TooShort (name : string) (minimum : Z)
| EmptyNotAllowed (name : string)
| UnreadableFile (name err : string)
| FileTooLarge (name : string).

Definition len (s : string) : Z := Z.of_nat (String.length s).

(** The environment lookup is a closure that may keep state, as that of
    [ResolveEnvironmentSecrets] does; the state is threaded through. *)
Section Resolve.
Context {S : Type}.

Definition R (A : Type) : Type := S -> outcome secret_error A * S.

Definition ret {A} (a : A) : R A := fun s => (Ret a, s).
Definition fail {A} (e : secret_error) : R A := fun s => (Fail e, s).
Definition bind {A B} (m : R A) (k : A -> R B) : R B := fun s =>
  match m s with
  | (Ret a, s) => k a s
  | (Fail e, s) => (Fail e, s)
  | (Panic, s) => (Panic, s)
  end.

Context (lookup : string -> S -> option string * S).

(** A secret that must be present and have [minimum] bytes. *)
Definition required (name : string) (minimum : Z) : R Secret :=
  bind (fun s => let '(v, s) := lookup name s in (Ret v, s)) (fun v =>
  match v with
  | None => fail (NotSetOrEmpty name)
  | Some v =>
      if String.eqb v "" then fail (NotSetOrEmpty name)
      else if len v <? minimum then fail (TooShort name minimum)
      else ret (mkSecret v)
  end).

Definition resolve_admin (cfg : Config) : R Secret :=
  let name := trim_space (AdminTokenEnv (Server cfg)) in
  if String.eqb name "" then ret no_secret else required name 16.

Definition resolve_client (cfg : Config) : R Secret :=
  if pooledMode cfg then required (trim_space (MySQLClientPasswordEnv (Server cfg))) 12
  else ret no_secret.

Definition resolve_upstream (cfg : Config) : R Secret :=
  if negb (Enabled (Upstream cfg)) then ret no_secret else
  let name := trim_space (PasswordEnv (Upstream cfg)) in
  let allowed := AllowEmptyPassword (Upstream cfg) in
  bind (fun s => let '(v, s) := lookup name s in (Ret v, s)) (fun v =>
  match v with
  | None => if allowed then ret no_secret else fail (NotSet name)
  | Some v =>
      if String.eqb v "" && negb allowed then fail (EmptyNotAllowed name)
      else ret (mkSecret v)
  end).

Definition resolve (cfg : Config) : R Secrets :=
  bind (resolve_admin cfg) (fun admin =>
  bind (resolve_client cfg) (fun client =>
  bind (resolve_upstream cfg) (fun upstream =>
  ret {| UpstreamPassword := upstream; ClientPassword := client; AdminToken := admin |}))).
End Resolve.
Arguments R S A : clear implicits.

(** [ResolveSecrets]; [None] is a nil lookup. *)
Definition ResolveSecrets {S} (cfg : Config) (lookup : option (string -> S -> option string * S))
  : R S Secrets :=
  match lookup with
  | Some lookup => resolve lookup cfg
  | None =>
      if Enabled (Upstream cfg) || pooledMode cfg
         || negb (String.eqb (trim_space (AdminTokenEnv (Server cfg))) "")
      then fail LookupRequired
      else ret {| UpstreamPassword := no_secret; ClientPassword := no_secret;
                  AdminToken := no_secret |}
  end.

Section Environment.
(** [os.LookupEnv] and [os.ReadFile]. *)
Context (environ : string -> option string).
Context (read_file : string -> string + string).

(** What a secret file gives: its text without one line end. *)
Definition file_secret (data : string) : string :=
  trim_suffix (String carriage_return "") (trim_suffix (String newline "") data).

(** The closure of [ResolveEnvironmentSecrets]; its state is [lookupErr]. *)
Definition lookup_secret (name : string) (lookupErr : option secret_error)
  : option string * option secret_error :=
  match environ name with
  | Some v => (Some v, lookupErr)
  | None =>
      match environ (name ++ "_FILE") with
      | None => (None, lookupErr)
      | Some path =>
          if String.eqb (trim_space path) "" then (None, lookupErr) else
          match read_file path with
          | inl err => (None, Some (UnreadableFile name err))
          | inr data =>
              if Z.shiftl 64 10 <? len data then (None, Some (FileTooLarge name))
              else (Some (file_secret data), lookupErr)
          end
      end
  end.

Definition ResolveEnvironmentSecrets (cfg : Config) : outcome secret_error Secrets :=
  let '(secrets, lookupErr) := ResolveSecrets cfg (Some lookup_secret) None in
  match lookupErr with Some err => Fail err | None => secrets end.

(** ** Properties *)

(** The environment gives [name] the value [v], directly or by a file. *)
Definition given (name v : string) : Prop :=
  environ name = Some v \/
  (environ name = None /\ exists path data, environ (name ++ "_FILE") = Some path /\
     filled path /\ read_file path = inr data /\ len data <= 65536 /\ v = file_secret data).

(** It says nothing about [name]. *)
Definition absent (name : string) : Prop :=
  environ name = None /\ forall path, environ (name ++ "_FILE") = Some path -> trim_space path = "".

(** An error, once recorded, stays; a lookup without one found a value or
    nothing at all. *)
Lemma lookup_secret_inv name st o :
  lookup_secret name st = (o, None) ->
  st = None /\ match o with Some v => given name v | None => absent name end.
Proof.
  unfold lookup_secret, given, absent, filled. destruct (environ name) as [v|]; [intros [= <- ->]; auto|].
  destruct (environ (name ++ "_FILE")) as [path|] eqn:Ef.
  - destruct (String.eqb_spec (trim_space path) "").
    { intros [= <- ->]. split_and!; try done. by intros ? [= <-]. }
    destruct (read_file path) as [err|data] eqn:Er; [done|].
    destruct (Z.ltb_spec (Z.shiftl 64 10) (len data)) as [|Hl]; [done|].
    intros [= <- ->]. split; [done|]. right. split; [done|]. by exists path, data.
  - intros [= <- ->]. by split_and!.
Qed.

Lemma bind_inv {S A B} (m : R S A) (k : A -> R S B) s b s' :
  bind m k s = (Ret b, s') -> exists a s1, m s = (Ret a, s1) /\ k a s1 = (Ret b, s').
Proof. unfold bind. destruct (m s) as [[a|e|] s1]; try done. intros H. by exists a, s1. Qed.

Lemma required_inv name minimum st x :
  required lookup_secret name minimum st = (Ret x, None) ->
  st = None /\ given name (value x) /\ value x <> "" /\ minimum <= len (value x).
Proof.
  unfold required. intros (o & st1 & Ho & H)%bind_inv.
  destruct (lookup_secret name st) as [o' st2] eqn:El. injection Ho as -> ->.
  destruct o as [v|]; [|done]. destruct (String.eqb_spec v ""); [done|].
  destruct (Z.ltb_spec (len v) minimum); [done|]. injection H as <- ->.
  apply lookup_secret_inv in El as [-> Hg]. done.
Qed.


(** The administrator token: none when no variable is configured. *)
Definition admin_secret (cfg : Config) (s : Secret) : Prop :=
  let name := trim_space (AdminTokenEnv (Server cfg)) in
  (name = "" /\ s = no_secret) \/ (name <> "" /\ given name (value s) /\ 16 <= len (value s)).

(** The password clients prove: only in pooled mode. *)
Definition client_secret (cfg : Config) (s : Secret) : Prop :=
  let name := trim_space (MySQLClientPasswordEnv (Server cfg)) in
  (pooledMode cfg = false /\ s = no_secret) \/
  (pooledMode cfg = true /\ given name (value s) /\ 12 <= len (value s)).

(** The password of the upstream account: empty only where that is allowed. *)
Definition upstream_secret (cfg : Config) (s : Secret) : Prop :=
  let name := trim_space (PasswordEnv (Upstream cfg)) in
  (Enabled (Upstream cfg) = false /\ s = no_secret) \/
  (Enabled (Upstream cfg) = true /\ (value s = "" -> AllowEmptyPassword (Upstream cfg) = true) /\
   (given name (value s) \/ (value s = "" /\ absent name))).

Lemma resolve_admin_inv cfg st x :
  resolve_admin lookup_secret cfg st = (Ret x, None) -> st = None /\ admin_secret cfg x.
Proof.
  unfold resolve_admin, admin_secret. cbv zeta. destruct (String.eqb_spec (trim_space (AdminTokenEnv (Server cfg))) "").
  - intros [= <- ->]. auto.
  - intros (-> & Hg & _ & Hl)%required_inv. auto.
Qed.

Lemma resolve_client_inv cfg st x :
  resolve_client lookup_secret cfg st = (Ret x, None) -> st = None /\ client_secret cfg x.
Proof.
  unfold resolve_client, client_secret. cbv zeta. destruct (pooledMode cfg).
  - intros (-> & Hg & _ & Hl)%required_inv. auto.
  - intros [= <- ->]. auto.
Qed.

Lemma resolve_upstream_inv cfg st x :
  resolve_upstream lookup_secret cfg st = (Ret x, None) -> st = None /\ upstream_secret cfg x.
Proof.
  unfold resolve_upstream, upstream_secret. cbv zeta. set (name := trim_space _).
  destruct (Enabled (Upstream cfg)); [|intros [= <- ->]; auto]. cbn [negb].
  intros (o & st1 & Ho & H)%bind_inv.
  destruct (lookup_secret name st) as [o' st2] eqn:El. injection Ho as -> ->.
  destruct o as [v|].
  - destruct (String.eqb v "" && negb (AllowEmptyPassword (Upstream cfg))) eqn:E; [done|].
    injection H as <- ->. apply lookup_secret_inv in El as [-> Hg]. split; [done|]. right.
    split_and!; [done| |by left]. cbn [value]. intros ->. cbn in E. by destruct (AllowEmptyPassword _).
  - destruct (AllowEmptyPassword (Upstream cfg)); [|done]. injection H as <- ->.
    apply lookup_secret_inv in El as [-> Hg]. split; [done|]. right. split_and!; try done. by right.
Qed.

Lemma resolved_secrets (cfg : Config) (s : Secrets) :
  ResolveEnvironmentSecrets cfg = Ret s ->
  admin_secret cfg (AdminToken s) /\ client_secret cfg (ClientPassword s) /\
  upstream_secret cfg (UpstreamPassword s).
Proof.
  unfold ResolveEnvironmentSecrets, ResolveSecrets.
  destruct (resolve lookup_secret cfg None) as [o [e|]] eqn:E; [done|]. intros ->.
  unfold resolve in E. apply bind_inv in E as (a & s1 & Ha & E).
  apply bind_inv in E as (c & s2 & Hc & E). apply bind_inv in E as (u & s3 & Hu & [= <- ->]).
  apply resolve_upstream_inv in Hu as [-> Hu]. apply resolve_client_inv in Hc as [-> Hc].
  by apply resolve_admin_inv in Ha as [_ Ha].
Qed.

(** C20.  Resolved secrets are the ones the configuration asks for and are strong
    enough.  Each comes from the variable that is configured for it, or from the
    file named beside it, read completely and without its line end; the
    administrator token has at least 16 bytes and exists only if a variable is
    configured, the client password has at least 12 and exists only in pooled
    mode, the upstream password is empty only by explicit permission; and a
    secret file that cannot be read, or is larger than 64 KiB, is never taken for
    a missing secret: resolution fails, even where an empty password is allowed. *)
Theorem secrets_sound (cfg : Config) (s : Secrets) :
  ResolveEnvironmentSecrets cfg = Ret s ->
  admin_secret cfg (AdminToken s) /\ client_secret cfg (ClientPassword s) /\
  upstream_secret cfg (UpstreamPassword s).
Proof. apply resolved_secrets. Qed.

End Environment.

(** ** Examples *)

Definition sample_environ (name : string) : option string :=
  if String.eqb name "DBA_CLIENT_PASSWORD" then Some "correct horse"
  else if String.eqb name "DBA_UPSTREAM_PASSWORD_FILE" then Some "/run/secrets/db" else None.

Definition sample_files (path : string) : string + string :=
  if String.eqb path "/run/secrets/db" then inr ("s3cret" ++ String newline "")
  else inl "no such file".

Definition sample_pooled : Config :=
  let u := Upstream Default in
  {| Version := 1; Server := Server (exposed true "Pooled" "disabled" "");
     Upstream := mkUpstreamConfig true (Host u) 3306 (User u) (PasswordEnv u) false "app" "preferred"
                   "" "" "5s" "30s" "30s" "5s";
     Limits := Limits Default; Logging := Logging Default |}.

Definition sample_secrets : Secrets :=
  mkSecrets (mkSecret "s3cret") (mkSecret "correct horse") no_secret.

Example sample_resolution :
  ResolveEnvironmentSecrets sample_environ sample_files sample_pooled = Ret sample_secrets.
Proof. vm_compute. reflexivity. Qed.

(** An unreadable file is an error even though an empty password is allowed. *)
Example unreadable_file :
  ResolveEnvironmentSecrets
    (fun name => if String.eqb name "P_FILE" then Some "/gone" else None) sample_files
    {| Version := 1; Server := Server Default;
       Upstream := mkUpstreamConfig true "db" 3306 "u" "P" true "app" "preferred" "" "" "5s" "30s" "30s" "5s";
       Limits := Limits Default; Logging := Logging Default |}
  = Fail (UnreadableFile "P" "no such file").
Proof. vm_compute. reflexivity. Qed.

Theorem secrets_sound_witness :
  client_secret sample_environ sample_files sample_pooled (mkSecret "correct horse").
Proof.
  exact (proj1 (proj2 (secrets_sound sample_environ sample_files sample_pooled sample_secrets
    sample_resolution))).
Defined.

End Secrets.
