(* ===== verification/Connector.v ===== *)
(** * The upstream connector

    [internal/upstream/connector.go] and [probe.go]: the driver configuration made
    from the settings and the secrets, its TLS policy, the stable categories of
    upstream errors, and the probe that reads the server's identity and the
    session defaults over one connection.

    Certificates, certificate pools and their verification are parameters (crypto
    libraries), as are files and the server's answers. *)

From stdpp Require Import base list numbers strings option.
From Stdlib Require Import ZArith Lia Ascii String.
From S2P Require Import Prelude GoStrings GoStrconv GoDuration GoNet Config ConfigRules Secrets.

(** ** What the probe reads: the baseline of later resets *)

Module SessionMetadata.
Record Metadata := mkMetadata {
  md_Vendor : string;
  md_Version : string;
  md_VersionComment : string;
  md_Database : string;
  md_CharacterSet : string;
  md_Collation : string;
  md_SQLMode : string;
  md_TimeZone : string;
  md_TransactionIsolation : string;
  md_Autocommit : bool
}.
End SessionMetadata.

Module Connector.
Import SessionMetadata.
Import GoNet.GoNet.
Import GoDuration.GoDuration.
Import Config.Config.
Import ConfigRules.ConfigRules.
Import Secrets.Secrets.
Local Open Scope list_scope.
Local Open Scope string_scope.
Local Open Scope Z_scope.

(** ** Error categories *)

Inductive ErrorKind :=
| KindConfiguration | KindNetwork | KindAuthentication | KindTimeout | KindTLS | KindServer.

#[export] Instance ErrorKind_eq_dec : EqDecision ErrorKind.
Proof. solve_decision. Defined.

Definition kind_string (k : ErrorKind) : string :=
  match k with
  | KindConfiguration => "configuration"
  | KindNetwork => "network"
  | KindAuthentication => "authentication"
  | KindTimeout => "timeout"
  | KindTLS => "tls"
  | KindServer => "server"
  end.

(** What [errors.Is] and [errors.As] find on the way down a chain of wrapped
    errors, outermost first.  [Classified] is an [*upstream.Error]; the chain of
    its [Err] follows it, the text of which is kept here. *)
Inductive cause :=
| Classified (kind : ErrorKind) (operation : string) (inner : option string)
| DeadlineExceeded
| Canceled
| NetError (timeout : bool)
| CertificateVerification
| UnknownAuthority
| HostnameError
| CertificateInvalid
| RecordHeader
| NoTLS
| MySQLError (number : Z).

(** An error: its chain and its text. *)
Record go_error := mkError { chain : list cause; text : string }.

Definition errors_New (t : string) : go_error := mkError [] t.

(** [upstream.Error]; [Err] may be nil. *)
Record Error := mkUpstreamError {
  Kind : ErrorKind;
  Operation : string;
  Err : option go_error
}.

(** [Error.Error] of a non-nil error. *)
Definition Error_Error (e : Error) : string :=
  let head := "upstream " ++ Operation e ++ " failed (" ++ kind_string (Kind e) ++ ")" in
  match Err e with None => head | Some inner => head ++ ": " ++ text inner end.

(** The error as a link of a chain; [Unwrap] gives what follows. *)
Definition as_error (e : Error) : go_error :=
  mkError (Classified (Kind e) (Operation e) (text <$> Err e) ::
           match Err e with Some inner => chain inner | None => [] end)
          (Error_Error e).

(** [errors.As(err, &existing)] *)
Fixpoint find_classified (l : list cause) : option Error :=
  match l with
  | [] => None
  | Classified kind operation inner :: rest =>
      Some (mkUpstreamError kind operation (mkError rest <$> inner))
  | _ :: rest => find_classified rest
  end.

Definition is_context (c : cause) : bool :=
  match c with DeadlineExceeded | Canceled => true | _ => false end.

Fixpoint find_net (l : list cause) : option bool :=
  match l with
  | [] => None
  | NetError timeout :: _ => Some timeout
  | _ :: rest => find_net rest
  end.

Definition is_tls (c : cause) : bool :=
  match c with
  | CertificateVerification | UnknownAuthority | HostnameError | CertificateInvalid
  | RecordHeader | NoTLS => true
  | _ => false
  end.

Fixpoint find_mysql (l : list cause) : option Z :=
  match l with
  | [] => None
  | MySQLError number :: _ => Some number
  | _ :: rest => find_mysql rest
  end.

Definition authentication_number (n : Z) : bool := (n =? 1044) || (n =? 1045) || (n =? 1698).

Definition classify_error (operation : string) (err : go_error) : Error :=
  let make kind := mkUpstreamError kind operation (Some err) in
  match find_classified (chain err) with
  | Some existing => existing
  | None =>
      if existsb is_context (chain err) then make KindTimeout else
      match find_net (chain err) with
      | Some timeout => make (if timeout then KindTimeout else KindNetwork)
      | None =>
          if existsb is_tls (chain err) then make KindTLS else
          match find_mysql (chain err) with
          | Some number => make (if authentication_number number then KindAuthentication else KindServer)
          | None => make KindServer
          end
      end
  end.

(** [classify] and [Classify]: nil stays nil. *)
Definition classify (operation : string) (err : option go_error) : option Error :=
  classify_error operation <$> err.

(** ** TLS policy *)

Definition VersionTLS12 : Z := 771.

Section TLS.
Context {U : UnicodeCase}.
(** [x509.CertPool] and [x509.Certificate]. *)
Context {pool certificate : Type}.
Context (read_file : string -> string + string).
(** [x509.SystemCertPool]; [None] is an error or nil. *)
Context (system_pool : option pool) (new_pool : pool).
(** [AppendCertsFromPEM]; [None] is false. *)
Context (append_pem : pool -> string -> option pool).
(** [Certificate.Verify] for server authentication: roots (nil for the system's),
    host name to check, intermediates, leaf; the error. *)
Context (verify : option pool -> option string -> list certificate -> certificate -> option string).
(** [%q] *)
Context (quoted : string -> string).

Record tls_config := mkTLS {
  MinVersion : Z;
  ServerName : string;
  InsecureSkipVerify : bool;
  RootCAs : option pool;
  VerifyConnection : option (list certificate -> option string)
}.

Definition loadRoots (path : string) : outcome string pool :=
  match read_file path with
  | inl err => Fail ("read CA file: " ++ err)
  | inr pem =>
      let roots := default new_pool system_pool in
      match append_pem roots pem with
      | Some roots => Ret roots
      | None => Fail "CA file contains no certificates"
      end
  end.

Definition verifyCertificateChain (roots : pool) (peers : list certificate) : option string :=
  match peers with
  | [] => Some "server supplied no certificate"
  | leaf :: intermediates => verify (Some roots) None intermediates leaf
  end.

Definition buildTLSConfig (cfg : UpstreamConfig) : outcome string (option tls_config * bool) :=
  let mode := to_lower (TLSMode cfg) in
  if String.eqb mode "disabled" then Ret (None, false) else
  let serverName := trim_space (TLSServerName cfg) in
  let serverName := if String.eqb serverName "" then Host cfg else serverName in
  let base skip roots check := Some (mkTLS VersionTLS12 serverName skip roots check) in
  if String.eqb mode "preferred" then Ret (base true None None, true)
  else if String.eqb mode "required" then Ret (base true None None, false)
  else if String.eqb mode "verify-ca" || String.eqb mode "verify-full" then
    roots ← loadRoots (TLSCAFile cfg);
    if String.eqb mode "verify-full" then Ret (base false (Some roots) None, false)
    else Ret (base true (Some roots) (Some (verifyCertificateChain roots)), false)
  else Fail ("unsupported tls mode " ++ quoted (TLSMode cfg)).

(** Which certificates a TLS client with this configuration goes on with, as
    crypto/tls documents it: unless verification is off, the chain is verified
    against the roots and the server name; then [VerifyConnection] decides. *)
Definition client_accepts (t : tls_config) (peers : list certificate) : bool :=
  (InsecureSkipVerify t ||
   match peers with
   | [] => false
   | leaf :: intermediates =>
       bool_decide (verify (RootCAs t) (Some (ServerName t)) intermediates leaf = None)
   end) &&
  match VerifyConnection t with
  | None => true
  | Some check => bool_decide (check peers = None)
  end.

(** ** The connector *)

(** The fields of the driver's configuration that are set. *)
Record driver_config := mkDriverConfig {
  driver_User : string;
  driver_Passwd : string;
  driver_Net : string;
  driver_Addr : string;
  driver_DBName : string;
  driver_Timeout : Z;
  driver_ReadTimeout : Z;
  driver_WriteTimeout : Z;
  driver_TLS : option tls_config;
  driver_AllowFallbackToPlaintext : bool;
  driver_ParseTime : bool;
  driver_MultiStatements : bool;
  driver_AllowAllFiles : bool;
  driver_AllowCleartextPasswords : bool;
  driver_AllowOldPasswords : bool
}.

Record Connector := mkConnector {
  driverConfig : driver_config;
  healthLimit : Z;
  address : string
}.

Definition Connector_String (c : Connector) : string := "upstream connector " ++ address c.

Context (range : list (string * string) -> list (string * string)).

Definition configuration_error (operation message : string) : Error :=
  mkUpstreamError KindConfiguration operation (Some (errors_New message)).

Definition New (cfg : Config) (secrets : Secrets) : outcome Error Connector :=
  if negb (Enabled (Upstream cfg))
  then Fail (configuration_error "configure" "upstream is disabled") else
  match Validate range cfg with
  | Some err => Fail (configuration_error "configure" err)
  | None =>
      '(connect, read, write, health) ←
        map_fail (configuration_error "configure") (UpstreamDurations cfg);
      '(tls, fallback) ←
        map_fail (configuration_error "configure tls") (buildTLSConfig (Upstream cfg));
      let u := Upstream cfg in
      let addr := JoinHostPort (Host u) (GoStrconv.format_int (Port u)) in
      Ret {| driverConfig := {|
               driver_User := User u;
               driver_Passwd := Reveal (UpstreamPassword secrets);
               driver_Net := "tcp";
               driver_Addr := addr;
               driver_DBName := Database u;
               driver_Timeout := connect;
               driver_ReadTimeout := read;
               driver_WriteTimeout := write;
               driver_TLS := tls;
               driver_AllowFallbackToPlaintext := fallback;
               driver_ParseTime := true;
               driver_MultiStatements := false;
               driver_AllowAllFiles := false;
               driver_AllowCleartextPasswords := false;
               driver_AllowOldPasswords := false |};
             healthLimit := health;
             address := addr |}
  end.

(** The limits of a [sql.DB] made by [OpenPool]. *)
Record pool_limits := mkPoolLimits {
  MaxOpenConns : Z;
  MaxIdleConns : Z;
  ConnMaxIdleTime : Z;
  ConnMaxLifetime : Z
}.

(** [driver.NewConnector] of the cloned configuration: its error. *)
Context (new_connector : driver_config -> option go_error).

Definition OpenPool (c : Connector) (maxOpen : Z) : outcome Error pool_limits :=
  if maxOpen <=? 0
  then Fail (configuration_error "configure pool" "max open connections must be positive") else
  match new_connector (driverConfig c) with
  | Some err => Fail (classify_error "create connector" err)
  | None => Ret (mkPoolLimits maxOpen maxOpen (30 * Second) (30 * Minute))
  end.

Definition Open (c : Connector) : outcome Error pool_limits := OpenPool c 1.

(** ** The probe *)

Record Report := mkReport {
  report_Status : string;
  report_Address : string;
  report_CheckedAt : Z;
  report_Latency : Z;
  report_Metadata : Metadata
}.

Definition beginsWithNumericVersion (version : string) : bool :=
  match version with
  | EmptyString => false
  | String c _ => if (code c <? 48) || (57 <? code c) then false else contains "." version
  end.

Definition detectVendor (version comment : string) : string :=
  let identity := to_lower (version ++ " " ++ comment) in
  if contains "mariadb" identity then "mariadb"
  else if contains "tidb" identity || contains "vitess" identity then "unsupported"
  else if beginsWithNumericVersion version then "mysql"
  else "unsupported".

Definition isUnknownVariable (err : go_error) : bool :=
  match find_mysql (chain err) with Some number => number =? 1193 | None => false end.

(** [boundedContext]: the deadline of the derived context. *)
Definition boundedContext (now : Z) (parent : option Z) (limit : Z) : Z :=
  match parent with
  | Some deadline => if deadline - now <=? limit then deadline else Z.min deadline (now + limit)
  | None => now + limit
  end.

(** The row of the metadata query; a NULL database is [None]. *)
Record metadata_row := mkMetadataRow {
  row_version : string;
  row_comment : string;
  row_database : option string;
  row_charset : string;
  row_collation : string;
  row_sql_mode : string;
  row_time_zone : string;
  row_autocommit : Z
}.

Definition health_query : string := "SELECT 1".
Definition metadata_query : string :=
  "SELECT VERSION(), @@version_comment, DATABASE(), @@character_set_connection, @@collation_connection, @@sql_mode, @@time_zone, @@autocommit".
Definition isolation_query : string := "SELECT @@transaction_isolation".
Definition old_isolation_query : string := "SELECT @@tx_isolation".

(** What the server answers. *)
Record server := mkServer {
  on_connect : option go_error;
  on_health : go_error + Z;
  on_metadata : go_error + metadata_row;
  on_isolation : go_error + string;
  on_old_isolation : go_error + string
}.

(** What the probe does to the outside, in order. *)
Inductive event := Opened | Connected | Asked (query : string) | Disconnected | Closed.

Context (srv : server).

Definition set_isolation (m : Metadata) (isolation : string) : Metadata :=
  mkMetadata (md_Vendor m) (md_Version m) (md_VersionComment m) (md_Database m) (md_CharacterSet m)
    (md_Collation m) (md_SQLMode m) (md_TimeZone m) isolation (md_Autocommit m).

(** [SELECT @@transaction_isolation], or its old name where it is unknown. *)
Definition read_isolation : (go_error + string) * list event :=
  match on_isolation srv with
  | inr isolation => (inr isolation, [Asked isolation_query])
  | inl err =>
      if isUnknownVariable err
      then (on_old_isolation srv, [Asked isolation_query; Asked old_isolation_query])
      else (inl err, [Asked isolation_query])
  end.

Definition readMetadata : outcome Error Metadata * list event :=
  let asked := [Asked metadata_query] in
  match on_metadata srv with
  | inl err => (Fail (classify_error "read server metadata" err), asked)
  | inr row =>
      let vendor := detectVendor (row_version row) (row_comment row) in
      let metadata := mkMetadata vendor (row_version row) (row_comment row)
        (default "" (row_database row)) (row_charset row) (row_collation row) (row_sql_mode row)
        (row_time_zone row) "" (negb (row_autocommit row =? 0)) in
      if String.eqb vendor "unsupported" then
        (Fail (mkUpstreamError KindServer "validate server identity"
                 (Some (errors_New ("unsupported server " ++ quoted (row_comment row))))), asked)
      else
        let '(isolation, more) := read_isolation in
        match isolation with
        | inl err => (Fail (classify_error "read transaction isolation" err), (asked ++ more)%list)
        | inr isolation => (Ret (set_isolation metadata isolation), (asked ++ more)%list)
        end
  end.

(** What happens on the connection, between its opening and its close. *)
Definition probe_connection (c : Connector) (checkedAt latency : Z)
  : outcome Error Report * list event :=
  let asked := [Asked health_query] in
  match on_health srv with
  | inl err => (Fail (classify_error "health query" err), asked)
  | inr health =>
      if negb (health =? 1) then
        (Fail (mkUpstreamError KindServer "health query"
                 (Some (errors_New ("unexpected result " ++ GoStrconv.format_int health)))), asked)
      else
        let '(metadata, more) := readMetadata in
        match metadata with
        | Ret metadata => (Ret (mkReport "ok" (address c) checkedAt latency metadata), (asked ++ more)%list)
        | Fail err => (Fail err, (asked ++ more)%list)
        | Panic => (Panic, (asked ++ more)%list)
        end
  end.

Definition Probe (c : Connector) (checkedAt latency : Z) : outcome Error Report * list event :=
  match Open c with
  | Fail err => (Fail err, [])
  | Panic => (Panic, [])
  | Ret _ =>
      match on_connect srv with
      | Some err => (Fail (classify_error "connect" err), [Opened; Closed])
      | None =>
          let '(result, asked) := probe_connection c checkedAt latency in
          (result, ([Opened; Connected] ++ asked ++ [Disconnected; Closed])%list)
      end
  end.

(** ** Properties *)

(** *** Categories *)

Lemma find_classified_app pre l :
  find_classified pre = None -> find_classified (pre ++ l)%list = find_classified l.
Proof. induction pre as [|[] pre IH]; cbn; try done. Qed.

Lemma find_as_error e : find_classified (chain (as_error e)) = Some e.
Proof. by destruct e as [k o [[]|]]. Qed.

(** The first category an error gets is the one every caller sees: however
    often the error is wrapped on the way up ([pre], the links put around it) and
    classified again, the same [*upstream.Error] comes back, with its category,
    operation and cause. *)
Theorem classify_stable (first second : string) (err : go_error) (pre : list cause) (t : string)
  (Hpre : find_classified pre = None) :
  let e := classify_error first err in
  classify second (Some (mkError (pre ++ chain (as_error e))%list t)) = Some e.
Proof.
  cbv zeta. unfold classify. cbn [fmap option_fmap option_map]. f_equal.
  unfold classify_error at 1. cbn [chain]. by rewrite find_classified_app, find_as_error.
Qed.

(** *** TLS *)

Lemma load_roots_total path : loadRoots path <> Panic.
Proof. unfold loadRoots. repeat case_goal; done. Qed.

(** What [buildTLSConfig] promises for a mode. *)
Record tls_policy (cfg : UpstreamConfig) (t : option tls_config) (fallback : bool) : Prop := {
  plaintext_only_disabled : t = None <-> to_lower (TLSMode cfg) = "disabled";
  fallback_only_preferred : fallback = true <-> to_lower (TLSMode cfg) = "preferred";
  modern_versions : forall c, t = Some c -> MinVersion c = VersionTLS12;
  chain_verified : forall c, t = Some c -> In (to_lower (TLSMode cfg)) ["verify-ca"; "verify-full"] ->
    exists roots, loadRoots (TLSCAFile cfg) = Ret roots /\
      forall peers, client_accepts c peers = true ->
        exists leaf intermediates name, peers = leaf :: intermediates /\
          verify (Some roots) name intermediates leaf = None /\
          (to_lower (TLSMode cfg) = "verify-full" ->
           name = Some (if blank (TLSServerName cfg) then Host cfg else trim_space (TLSServerName cfg)))
}.

Lemma buildTLSConfig_policy cfg t fallback :
  buildTLSConfig cfg = Ret (t, fallback) -> tls_policy cfg t fallback.
Proof.
  unfold buildTLSConfig. cbv zeta. fold (blank (TLSServerName cfg)).
  set (name := if blank (TLSServerName cfg) then Host cfg else _).
  destruct (String.eqb_spec (to_lower (TLSMode cfg)) "disabled") as [E|].
  { intros [= <- <-]. by split; rewrite ?E. }
  destruct (String.eqb_spec (to_lower (TLSMode cfg)) "preferred") as [E|].
  { intros [= <- <-]. split; rewrite ?E; try done; [by intros c [= <-]|]. intros c _ [|[|[]]]; done. }
  destruct (String.eqb_spec (to_lower (TLSMode cfg)) "required") as [E|].
  { intros [= <- <-]. split; rewrite ?E; try done; [by intros c [= <-]|]. intros c _ [|[|[]]]; done. }
  destruct (_ || _) eqn:Hm; [|done]. intros (roots & Hr & Hb)%bind_ret_inv.
  destruct (String.eqb_spec (to_lower (TLSMode cfg)) "verify-full") as [E|En].
  - injection Hb as <- <-. split; rewrite ?E; try done; [by intros c [= <-]|].
    intros c [= <-] _. exists roots. split; [done|]. intros [|leaf rest]; [done|].
    unfold client_accepts. cbn. rewrite andb_true_r. intros Hv%bool_decide_eq_true.
    by exists leaf, rest, (Some name).
  - rewrite orb_false_r in Hm. apply String.eqb_eq in Hm. injection Hb as <- <-.
    split; rewrite ?Hm; try done; [by intros c [= <-]|].
    intros c [= <-] _. exists roots. split; [done|]. intros [|leaf rest]; [done|].
    unfold client_accepts. cbn. intros Hv%bool_decide_eq_true. by exists leaf, rest, None.
Qed.

(** C19.  The driver configuration keeps the TLS promise of the settings.  When
    [New] succeeds the connection is plaintext only in mode "disabled", may fall
    back to plaintext only in mode "preferred", and otherwise uses TLS 1.2 or
    later; in modes "verify-ca" and "verify-full" every server it goes on with
    presented a certificate that verifies against the configured authority, in
    "verify-full" for the configured server name, which is the host unless one is
    given.  Cleartext and old passwords, local files and multiple statements are
    off; the timeouts are between 100ms and 10 minutes. *)
Theorem connector_policy (Hrange : forall l, range l ≡ₚ l) (cfg : Config) (secrets : Secrets)
  (c : Connector) :
  New cfg secrets = Ret c ->
  let d := driverConfig c in
  tls_policy (Upstream cfg) (driver_TLS d) (driver_AllowFallbackToPlaintext d) /\
  driver_Passwd d = Reveal (UpstreamPassword secrets) /\
  driver_Addr d = JoinHostPort (Host (Upstream cfg)) (GoStrconv.format_int (Port (Upstream cfg))) /\
  (driver_MultiStatements d || driver_AllowAllFiles d || driver_AllowCleartextPasswords d
   || driver_AllowOldPasswords d) = false /\
  Forall (fun limit => 100 * Millisecond <= limit <= 10 * Minute)
    [driver_Timeout d; driver_ReadTimeout d; driver_WriteTimeout d; healthLimit c] /\
  valid cfg.
Proof.
  unfold New. destruct (Enabled (Upstream cfg)) eqn:He; [|done]. cbn [negb].
  destruct (Validate range cfg) eqn:Hv; [done|]. apply (Validate_valid range Hrange) in Hv.
  destruct (valid_upstream_durations cfg Hv He) as (connect & read & write & health & Hd & Hb).
  rewrite Hd. cbn [map_fail mbind outcome_bind].
  destruct (buildTLSConfig (Upstream cfg)) as [[t fallback]|e|] eqn:Ht;
    cbn [map_fail mbind outcome_bind]; try done.
  intros [= <-]. split_and!; try done. by apply buildTLSConfig_policy.
Qed.

(** *** The probe *)

Definition read_only : list string :=
  [health_query; metadata_query; isolation_query; old_isolation_query].

Lemma read_isolation_asks :
  Forall (fun e => exists q, e = Asked q /\ In q read_only) (snd read_isolation).
Proof.
  unfold read_isolation. destruct (on_isolation srv) as [err|]; [destruct (isUnknownVariable err)|];
    cbn [snd]; repeat (apply List.Forall_cons; [eexists; split; [done|cbn; tauto]|]); apply List.Forall_nil.
Qed.

Lemma probe_connection_asks c at_ latency :
  Forall (fun e => exists q, e = Asked q /\ In q read_only) (snd (probe_connection c at_ latency)).
Proof.
  assert (forall q, In q read_only -> Forall (fun e => exists q, e = Asked q /\ In q read_only) [Asked q])
    as Hone by (intros q Hq; apply List.Forall_cons; [by eexists|apply List.Forall_nil]).
  pose proof (Hone health_query ltac:(cbn; tauto)) as Hh.
  pose proof (Hone metadata_query ltac:(cbn; tauto)) as Hm.
  pose proof read_isolation_asks as Hi.
  unfold probe_connection, readMetadata. cbv zeta.
  destruct (on_health srv) as [err|n]; [done|]. destruct (negb (n =? 1)); [done|].
  destruct (on_metadata srv) as [err|row]; [by apply List.Forall_app|].
  destruct (String.eqb _ "unsupported"); [by apply List.Forall_app|].
  destruct read_isolation as [[err|level] more];
    by apply List.Forall_app; split; [done|]; apply List.Forall_app.
Qed.

Lemma probe_connection_ok c at_ latency r :
  fst (probe_connection c at_ latency) = Ret r ->
  on_health srv = inr 1 /\ exists row, on_metadata srv = inr row /\
    md_Vendor (report_Metadata r) = detectVendor (row_version row) (row_comment row) /\
    detectVendor (row_version row) (row_comment row) <> "unsupported" /\
    (on_isolation srv = inr (md_TransactionIsolation (report_Metadata r)) \/
     on_old_isolation srv = inr (md_TransactionIsolation (report_Metadata r))).
Proof.
  unfold probe_connection, readMetadata. cbv zeta.
  destruct (on_health srv) as [err|n]; [done|].
  destruct (Z.eqb_spec n 1) as [->|]; [|done]. cbn [negb].
  destruct (on_metadata srv) as [err|row]; [done|].
  destruct (String.eqb_spec (detectVendor (row_version row) (row_comment row)) "unsupported"); [done|].
  destruct read_isolation as [[err|level] more] eqn:Ei; [done|]. intros [= <-].
  split; [done|]. exists row. split_and!; try done.
  unfold read_isolation in Ei. cbn. destruct (on_isolation srv) as [err|l]; [|left; congruence].
  destruct (isUnknownVariable err); [right; congruence|done].
Qed.


End TLS.

(** ** Examples: a pool is a list of trusted names, a certificate a name *)

Section Examples.
#[local] Existing Instance ascii_case.

Definition sample_verify (roots : option (list string)) (name : option string)
    (intermediates : list string) (leaf : string) : option string :=
  if str_mem leaf (default [] roots) && match name with Some n => String.eqb n leaf | None => true end
  then None else Some "unknown authority".

Definition sample_read (path : string) : string + string :=
  if String.eqb path "/etc/ca.pem" then inr "db.internal" else inl "no such file".

Definition sample_append (roots : list string) (pem : string) : option (list string) :=
  Some (pem :: roots).

Definition sample_upstream (mode : string) : Config :=
  {| Version := 1; Server := Server Default;
     Upstream := mkUpstreamConfig true "db.internal" 3306 "app" "P" false "app" mode "/etc/ca.pem" ""
                   "5s" "30s" "30s" "5s";
     Limits := Limits Default; Logging := Logging Default |}.

Definition sample_secret : Secrets := mkSecrets (mkSecret "hunter22hunter22") no_secret no_secret.

Definition sample_new (mode : string) : outcome Error Connector :=
  New sample_read None [] sample_append sample_verify id backwards (sample_upstream mode) sample_secret.

Definition sample_mode (mode : string) (trusted : list string) : bool :=
  match sample_new mode with
  | Ret c => match driver_TLS (driverConfig c) with
             | Some t => client_accepts sample_verify t trusted
             | None => false
             end
  | _ => false
  end.

Example full_accepts : sample_mode "verify-full" ["db.internal"] = true.
Proof. vm_compute. reflexivity. Qed.
Example full_refuses : sample_mode "verify-full" ["mallory"] = false.
Proof. vm_compute. reflexivity. Qed.
Example required_accepts_anybody : sample_mode "required" ["mallory"] = true.
Proof. vm_compute. reflexivity. Qed.
Example configured : is_ret (sample_new "Verify-Full") = true.
Proof. vm_compute. reflexivity. Qed.

Theorem connector_policy_witness : exists c, sample_new "verify-full" = Ret c /\ valid (sample_upstream "verify-full").
Proof.
  destruct (sample_new "verify-full") as [c| |] eqn:E.
  - exists c. split; [reflexivity|].
    apply (connector_policy sample_read None [] sample_append sample_verify id backwards
             backwards_range (sample_upstream "verify-full") sample_secret c E).
  - exfalso. vm_compute in E. discriminate E.
  - exfalso. vm_compute in E. discriminate E.
Defined.

Theorem classify_stable_witness :
  classify "reset" (Some (mkError (([Canceled] ++
    chain (as_error (classify_error "connect" (mkError [MySQLError 1045] "denied"))))%list) "gave up"))
  = Some (mkUpstreamError KindAuthentication "connect" (Some (mkError [MySQLError 1045] "denied"))).
Proof.
  exact (classify_stable "connect" "reset" (mkError [MySQLError 1045] "denied") [Canceled] "gave up" eq_refl).
Defined.

Definition sample_server (version : string) : server := mkServer None (inr 1)
  (inr (mkMetadataRow version "MySQL Community Server" (Some "app") "utf8mb4" "utf8mb4_0900_ai_ci" "" "SYSTEM" 1))
  (inl (mkError [MySQLError 1193] "unknown")) (inr "REPEATABLE-READ").

Definition sample_probe (version : string) : outcome Error Report * list event :=
  match sample_new "required" with
  | Ret c => Probe id (fun _ => None) (sample_server version) c 100 5
  | _ => (Panic, [])
  end.

Example probe_log : snd (sample_probe "8.0.36") =
  [Opened; Connected; Asked health_query; Asked metadata_query; Asked isolation_query;
   Asked old_isolation_query; Disconnected; Closed].
Proof. vm_compute. reflexivity. Qed.
Example probe_tidb : is_ret (fst (sample_probe "8.0.11-TiDB-v7.5")) = false.
Proof. vm_compute. reflexivity. Qed.
End Examples.

End Connector.
