(* ===== verification/Concurrency.v ===== *)
(** * Concurrent components as transition systems

    The generic part of the models of code that runs in several goroutines: sums
    over the processes of a state, and what it means that a system reaches a goal
    under every schedule. *)

From stdpp Require Import base list numbers option.
From Stdlib Require Import ZArith Lia.
From S2P Require Import Prelude.

(** ** Sums over processes *)

Section Total.
Context {A : Type}.
Local Open Scope Z_scope.
Implicit Types (f g : A -> Z) (l : list A).

Definition total f l : Z := foldr (fun r acc => f r + acc) 0 l.

Lemma total_cons f x l : total f (x :: l) = f x + total f l.
Proof. reflexivity. Qed.

Lemma total_app f l k : total f (l ++ k) = total f l + total f k.
Proof. induction l as [|x l IH]; [done|]. rewrite <- app_comm_cons, !total_cons, IH. lia. Qed.

Lemma total_one f x : total f [x] = f x.
Proof. rewrite total_cons. apply Z.add_0_r. Qed.

Lemma total_alter f (g : A -> A) l i r :
  l !! i = Some r -> total f (alter g i l) = total f l - f r + f (g r).
Proof.
  revert i. induction l as [|x l IH]; intros [|i] H; try done; cbn in H.
  - injection H as ->. change (alter g 0%nat (r :: l)) with (g r :: l). rewrite !total_cons. lia.
  - change (alter g (S i) (x :: l)) with (x :: alter g i l). rewrite !total_cons, (IH i H). lia.
Qed.

Lemma total_nonneg f l : (forall r, 0 <= f r) -> 0 <= total f l.
Proof.
  intros Hf. induction l as [|x l IH]; [done|]. rewrite total_cons. specialize (Hf x). lia.
Qed.

Lemma total_le f g l : (forall r, r ∈ l -> f r <= g r) -> total f l <= total g l.
Proof.
  induction l as [|x l IH]; [done|]. intros Hf. rewrite !total_cons.
  pose proof (Hf x ltac:(by left)). assert (total f l <= total g l) by (apply IH; intros; apply Hf; by right).
  lia.
Qed.

Lemma total_zero f l : (forall r, r ∈ l -> f r = 0) -> total f l = 0.
Proof.
  induction l as [|x l IH]; [done|]. intros H. rewrite total_cons, H, IH; [done| |by left].
  intros r Hr. apply H. by right.
Qed.

Lemma total_fmap f (g : A -> A) l : (forall r, f (g r) = f r) -> total f (g <$> l) = total f l.
Proof. intros H. induction l as [|x l IH]; [done|]. rewrite fmap_cons, !total_cons, IH, H. done. Qed.

Lemma total_member f l r : (forall r, 0 <= f r) -> r ∈ l -> f r <= total f l.
Proof.
  intros Hf. induction l as [|x l IH]; [by intros ?%elem_of_nil|]. rewrite total_cons.
  pose proof (total_nonneg f l Hf). pose proof (Hf x).
  intros [->|Hr]%elem_of_cons; [lia|]. specialize (IH Hr). lia.
Qed.

Lemma total_add f g l : total (fun r => f r + g r) l = total f l + total g l.
Proof. induction l as [|x l IH]; [done|]. rewrite !total_cons, IH. lia. Qed.

(** At most the process at one place counts, and it counts once. *)
Lemma total_at_most_one f l i :
  (forall j r, l !! j = Some r -> f r <= if decide (j = i) then 1 else 0) -> total f l <= 1.
Proof.
  revert i. induction l as [|x l IH]; intros i H; [done|]. rewrite total_cons.
  pose proof (H 0%nat x eq_refl) as Hx. destruct i as [|i].
  - rewrite decide_True in Hx by done.
    assert (total f l <= 0); [|lia]. clear Hx IH.
    assert (forall r, r ∈ l -> f r <= 0) as Hl.
    { intros r [j Hj]%list_elem_of_lookup. specialize (H (S j) r Hj). by rewrite decide_False in H. }
    transitivity (total (fun _ => 0) l); [by apply total_le|]. by rewrite total_zero.
  - rewrite decide_False in Hx by done. assert (total f l <= 1); [|lia].
    apply (IH i). intros j r Hj. specialize (H (S j) r Hj).
    destruct (decide (j = i)) as [->|Hne]; [by rewrite decide_True in H|].
    by rewrite decide_False in H by congruence.
Qed.

End Total.

(** ** Processes of a list that change one at a time *)

Lemma Forall_alter_one {A} (P : A -> Prop) (g : A -> A) l i r :
  Forall P l -> l !! i = Some r -> P (g r) -> Forall P (alter g i l).
Proof. intros Hl Hi Hr. apply Forall_alter; [done|]. intros x Hx _. by simplify_eq. Qed.

(** ** Handing over

    An accept loop owns each process from its arrival until it starts it.  Of the
    processes of the list, those at a [first] place are what the loop has got and
    those at a [second] place what it has admitted; there is at most one. *)

Section Handover.
Context {A : Type} (first second : A -> Prop).
Implicit Types (got admitted : nat -> Prop) (l : list A).

Definition handover got admitted l : Prop :=
  (forall j x, l !! j = Some x -> (first x <-> got j) /\ (second x <-> admitted j)) /\
  (forall j, got j \/ admitted j -> (j < List.length l)%nat).

Lemma handover_iff got got' admitted admitted' l :
  (forall j, got j <-> got' j) -> (forall j, admitted j <-> admitted' j) ->
  handover got admitted l -> handover got' admitted' l.
Proof.
  intros Hg Ha [Hp Hb]. split.
  - intros j x Hj. rewrite <- Hg, <- Ha. by apply Hp.
  - intros j. rewrite <- Hg, <- Ha. apply Hb.
Qed.

(** The process at [i] moves. *)
Lemma handover_alter got got' admitted admitted' l i x (f : A -> A) :
  handover got admitted l -> l !! i = Some x ->
  (first (f x) <-> got' i) -> (second (f x) <-> admitted' i) ->
  (forall j, j <> i -> (got' j <-> got j) /\ (admitted' j <-> admitted j)) ->
  handover got' admitted' (alter f i l).
Proof.
  intros [Hp Hb] Hi Hw He Hj. split.
  - intros j y Hy. destruct (decide (j = i)) as [->|Hne].
    + rewrite list_lookup_alter, decide_True, Hi in Hy by done. cbn in Hy. by injection Hy as <-.
    + rewrite list_lookup_alter_ne in Hy by done. destruct (Hp j y Hy) as [H1 H2].
      destruct (Hj j Hne) as [J1 J2]. by rewrite H1, H2, J1, J2.
  - intros j Hj'. rewrite length_alter. destruct (decide (j = i)) as [->|Hne].
    + by apply lookup_lt_Some in Hi.
    + apply Hb. destruct (Hj j Hne) as [J1 J2]. by rewrite <- J1, <- J2.
Qed.

(** The loop, which had nothing, gets a new process. *)
Lemma handover_arrive got got' admitted admitted' l x :
  handover got admitted l -> (forall j, ~ got j) -> (forall j, ~ admitted j) ->
  first x -> ~ second x -> (forall j, got' j <-> j = List.length l) -> (forall j, ~ admitted' j) ->
  handover got' admitted' (l ++ [x]).
Proof.
  intros [Hp Hb] Hg Ha Hx Hnx Hg' Ha'. split.
  - intros j y [Hj|[Hj Hy]]%lookup_app_Some.
    + destruct (Hp j y Hj) as [P1 P2]. apply lookup_lt_Some in Hj. rewrite P1, P2, Hg'.
      pose proof (Hg j). pose proof (Ha j). pose proof (Ha' j). assert (j <> List.length l) by lia. tauto.
    + apply list_lookup_singleton_Some in Hy as [Hn <-]. rewrite Hg'. pose proof (Ha' j).
      assert (j = List.length l) by lia. tauto.
  - intros j [Hj|Hj]; [|by apply Ha' in Hj]. apply Hg' in Hj as ->. rewrite length_app. cbn. lia.
Qed.

Lemma handover_fmap got admitted l (f : A -> A) :
  (forall x, first (f x) <-> first x) -> (forall x, second (f x) <-> second x) ->
  handover got admitted l -> handover got admitted (f <$> l).
Proof.
  intros H1 H2 [Hp Hb]. split.
  - intros j y Hj. rewrite list_lookup_fmap in Hj.
    destruct (l !! j) as [x|] eqn:Ex; [|done]. injection Hj as <-. rewrite H1, H2. by apply Hp.
  - intros j Hj. rewrite length_fmap. by apply Hb.
Qed.

(** There is at most one process the loop has got. *)
Lemma one_first got admitted l (f : A -> Z) :
  handover got admitted l -> (forall j k, got j -> got k -> j = k) ->
  (forall x, (f x <= 1)%Z) -> (forall x, ~ first x -> (f x <= 0)%Z) ->
  (forall x, Decision (first x)) -> (total f l <= 1)%Z.
Proof.
  intros [Hp _] Huniq H1 H0 Hdec.
  assert ((exists i, got i /\ (i < List.length l)%nat) \/ forall j x, l !! j = Some x -> ~ first x) as [(i & Hi & _)|Hno].
  { clear H1 H0 f Huniq. revert got admitted Hp. induction l as [|y l IH]; intros got admitted Hp.
    - right. intros j x Hj. by rewrite lookup_nil in Hj.
    - destruct (Hdec y) as [Hy|Hy]; [left; exists 0%nat; split; [by apply (Hp 0%nat y eq_refl)|cbn; lia]|].
      destruct (IH (fun j => got (S j)) (fun j => admitted (S j))) as [(i & Hi & Hl)|Hn].
      + intros j x Hj. by apply (Hp (S j) x).
      + left. exists (S i). split; [done|cbn; lia].
      + right. intros [|j] x Hj; [by injection Hj as <-|by eapply Hn]. }
  - apply (total_at_most_one f l i). intros j x Hj. case_decide as Hd; [by apply H1|].
    apply H0. intros Hx. apply Hd. apply Huniq; [|done]. by apply (Hp j x Hj).
  - assert (total f l <= total (fun _ => 0) l)%Z as Hle.
    { apply total_le. intros x [j Hj]%list_elem_of_lookup. by eapply H0, Hno. }
    rewrite (total_zero (fun _ => 0%Z)) in Hle by done. lia.
Qed.
End Handover.

(** ** Reaching a goal under every schedule

    [step a s] is what action [a] does in state [s], if it is enabled.  Some
    actions are the system's own ([internal]): the runtime will take one of those
    that are enabled if nothing else happens.  The others are the environment's,
    which may never act. *)

Section System.
Context {State Action : Type}.
Context (step : Action -> State -> option State).
Context (internal : Action -> State -> bool).

(** Every schedule reaches the goal: as long as it has not, the system itself
    can go on, and whatever happens next, the goal is still reached. *)
Inductive eventually (P : State -> Prop) (s : State) : Prop :=
| eventually_now : P s -> eventually P s
| eventually_later :
    (exists a s', internal a s = true /\ step a s = Some s') ->
    (forall a s', step a s = Some s' -> eventually P s') -> eventually P s.

Inductive steps (s : State) : State -> Prop :=
| steps_refl : steps s s
| steps_next a t u : steps s t -> step a t = Some u -> steps s u.

(** A run of given actions. *)
Fixpoint run (actions : list Action) (s : State) : option State :=
  match actions with
  | [] => Some s
  | a :: rest => match step a s with Some s' => run rest s' | None => None end
  end.

Lemma steps_trans s t u : steps s t -> steps t u -> steps s u.
Proof. intros Hst. induction 1; [done|]. by eapply steps_next. Qed.

Lemma run_steps actions : forall s s', run actions s = Some s' -> steps s s'.
Proof.
  induction actions as [|a rest IH]; cbn; intros s s' H; [by injection H as ->; constructor|].
  destruct (step a s) as [t|] eqn:E; [|done].
  eapply steps_trans; [eapply steps_next; [apply steps_refl|exact E]|]. by apply IH.
Qed.

Lemma run_actions_app actions more s :
  run (actions ++ more) s = match run actions s with Some s' => run more s' | None => None end.
Proof. revert s. induction actions as [|a rest IH]; intros s; cbn; [done|]. by destruct (step a s). Qed.

Lemma steps_invariant (I : State -> Prop) s t :
  (forall a s s', I s -> step a s = Some s' -> I s') -> I s -> steps s t -> I t.
Proof. intros Hstep Hs. induction 1; [done|]. by eapply Hstep. Qed.

(** A measure that every action decreases, while the system is never stuck. *)
Lemma eventually_by_measure (I P : State -> Prop) (measure : State -> Z) :
  (forall s, I s -> (0 <= measure s)%Z) ->
  (forall s, I s -> P s \/ exists a s', internal a s = true /\ step a s = Some s') ->
  (forall a s s', I s -> step a s = Some s' -> I s' /\ (measure s' < measure s)%Z) ->
  forall s, I s -> eventually P s.
Proof.
  intros Hpos Hgo Hdown s Hs.
  remember (Z.to_nat (measure s)) as n eqn:Hn. revert s Hs Hn.
  induction n as [n IH] using lt_wf_ind. intros s Hs ->.
  destruct (Hgo s Hs) as [HP|Hstep]; [by apply eventually_now|]. apply eventually_later; [done|].
  intros a s' Ha. destruct (Hdown a s s' Hs Ha) as [Hs' Hlt].
  apply (IH (Z.to_nat (measure s'))); [|done..]. pose proof (Hpos s Hs). pose proof (Hpos s' Hs'). lia.
Qed.

(** A goal that is eventually reached is reached by the system alone. *)
Lemma eventually_reachable P s : eventually P s -> exists t, steps s t /\ P t.
Proof.
  induction 1 as [s HP|s (a & s' & _ & Ha) _ IH]; [by exists s; split; [constructor|]|].
  destruct (IH a s' Ha) as (t & Ht & HP). exists t. split; [|done].
  eapply steps_trans; [eapply steps_next; [apply steps_refl|exact Ha]|done].
Qed.

(** A state that is stuck short of the goal never gets there by itself. *)
Lemma stuck_not_eventually P s :
  ~ P s -> (forall a s', internal a s = true -> step a s <> Some s') -> ~ eventually P s.
Proof. intros HP Hno [?|(a & s' & Hi & Ha) _]; [done|]. by eapply Hno. Qed.

End System.
