(* ===== verification/Relay.v ===== *)
(** * The transparent relay ([internal/relay/relay.go])

    One goroutine accepts, one per admitted client dials the server and waits for
    two goroutines that copy the bytes, one watches the context, and [Shutdown] may
    be called at any time.  Sockets are numbered by the client they belong to; a
    client's record holds the program counter of its [handle] and its two sockets.
    Every channel operation, mutex section and socket call is one atomic step, and
    a run is any interleaving of steps. *)

From stdpp Require Import base list numbers strings option gmap.
From Stdlib Require Import ZArith Lia String.
From S2P Require Import Prelude GoStrings GoNet Concurrency.

Module Relay.
Import GoNet.GoNet.
Local Open Scope string_scope.
Local Open Scope list_scope.
Local Open Scope Z_scope.

(** ** The configuration *)

Record Config := mkConfig {
  ListenAddress : string;
  UpstreamAddress : string;
  MaxConnections : Z;
  DialTimeout : Z
}.

(** [New]: the checks before the server exists. *)
Definition check (config : Config) : outcome string unit :=
  _ ← map_fail (String.append "relay listen address: ") (SplitHostPort (ListenAddress config));
  _ ← map_fail (String.append "relay upstream address: ") (SplitHostPort (UpstreamAddress config));
  if MaxConnections config <=? 0 then Fail "relay max connections must be positive"
  else if DialTimeout config <=? 0 then Fail "relay dial timeout must be positive"
  else Ret tt.

(** ** State *)

(** A socket: not closed by this process, and in [s.conns]. *)
Record socket := mkSocket { is_open : bool; tracked : bool }.

(** A copying goroutine; a finished one has sent its error, which is
    [meaningfulCopyError] or not. *)
Inductive stream := Running | Ended (meaningful : bool).

(** The program counter of a client. *)
Inductive phase :=
| Waiting                                     (* returned by Accept *)
| Rejected                                    (* no slot: closed *)
| Entered                                     (* holds a slot, not yet in [s.conns] *)
| Dialing                                     (* [handle] runs, [DialContext] has not returned *)
| Dialed                                      (* connected, upstream not yet in [s.conns] *)
| Copying (up down : stream) (closed : bool)  (* waiting for results; both closed after the first *)
| Cleanup                                     (* before the deferred function *)
| Uncounted                                   (* [s.active.Add(-1)] done *)
| Freed                                       (* [<-s.sem] done *)
| Done.                                       (* [s.wg.Done] *)

Record link := mkLink { at_ : phase; client : socket; upstream : option socket }.

Inductive accept_loop :=
| Accepting
| Got (i : nat)         (* Accept returned client [i] *)
| HasSlot (i : nat)    (* its slot is taken *)
| Failing               (* Accept failed; before [s.stop()] *)
| Finished.             (* [close(s.done)] *)

Record server := mkServer {
  loop : accept_loop;
  listening : bool;
  links : list link;
  sem : Z;
  active : Z;
  accepted : Z;
  rejected : Z;
  dialErrors : Z;
  relayErrors : Z;
  clientToDBBytes : Z;
  dbToClientBytes : Z;
  runErr : option string;
  stopped : bool;         (* [stopOnce] *)
  cancelled : bool;       (* the context *)
  shutdown : bool         (* [Shutdown] has been called *)
}.

(** After [Start]. *)
Definition start : server :=
  mkServer Accepting true [] 0 0 0 0 0 0 0 0 None false false false.

(** ** Updates *)

Definition set_loop (l : accept_loop) (s : server) : server :=
  mkServer l (listening s) (links s) (sem s) (active s) (accepted s) (rejected s) (dialErrors s)
    (relayErrors s) (clientToDBBytes s) (dbToClientBytes s) (runErr s) (stopped s) (cancelled s) (shutdown s).

Definition set_links (l : list link) (s : server) : server :=
  mkServer (loop s) (listening s) l (sem s) (active s) (accepted s) (rejected s) (dialErrors s)
    (relayErrors s) (clientToDBBytes s) (dbToClientBytes s) (runErr s) (stopped s) (cancelled s) (shutdown s).

Definition update (i : nat) (f : link -> link) (s : server) : server := set_links (alter f i (links s)) s.

Definition add_slots (dsem dactive : Z) (s : server) : server :=
  mkServer (loop s) (listening s) (links s) (sem s + dsem) (active s + dactive) (accepted s) (rejected s)
    (dialErrors s) (relayErrors s) (clientToDBBytes s) (dbToClientBytes s) (runErr s) (stopped s)
    (cancelled s) (shutdown s).

Definition count_accepted (s : server) : server :=
  mkServer (loop s) (listening s) (links s) (sem s) (active s) (u64 (accepted s + 1)) (rejected s)
    (dialErrors s) (relayErrors s) (clientToDBBytes s) (dbToClientBytes s) (runErr s) (stopped s)
    (cancelled s) (shutdown s).

Definition count_rejected (s : server) : server :=
  mkServer (loop s) (listening s) (links s) (sem s) (active s) (accepted s) (u64 (rejected s + 1))
    (dialErrors s) (relayErrors s) (clientToDBBytes s) (dbToClientBytes s) (runErr s) (stopped s)
    (cancelled s) (shutdown s).

Definition count_errors (dials relays : Z) (s : server) : server :=
  mkServer (loop s) (listening s) (links s) (sem s) (active s) (accepted s) (rejected s)
    (u64 (dialErrors s + dials)) (u64 (relayErrors s + relays)) (clientToDBBytes s) (dbToClientBytes s)
    (runErr s) (stopped s) (cancelled s) (shutdown s).

Definition count_bytes (down : bool) (n : Z) (s : server) : server :=
  mkServer (loop s) (listening s) (links s) (sem s) (active s) (accepted s) (rejected s) (dialErrors s)
    (relayErrors s) (if down then clientToDBBytes s else u64 (clientToDBBytes s + n))
    (if down then u64 (dbToClientBytes s + n) else dbToClientBytes s)
    (runErr s) (stopped s) (cancelled s) (shutdown s).

(** [setRunError] *)
Definition setRunError (err : string) (s : server) : server :=
  mkServer (loop s) (listening s) (links s) (sem s) (active s) (accepted s) (rejected s) (dialErrors s)
    (relayErrors s) (clientToDBBytes s) (dbToClientBytes s)
    (match runErr s with None => Some err | Some _ => runErr s end) (stopped s) (cancelled s) (shutdown s).

(** [Close] on a socket, and membership in [s.conns]. *)
Definition close (k : socket) : socket := mkSocket false (tracked k).
Definition track (add : bool) (k : socket) : socket := mkSocket (is_open k) add.

Definition set_at (p : phase) (l : link) : link := mkLink p (client l) (upstream l).
Definition on_client (f : socket -> socket) (l : link) : link := mkLink (at_ l) (f (client l)) (upstream l).
Definition on_upstream (f : socket -> socket) (l : link) : link :=
  mkLink (at_ l) (client l) (f <$> upstream l).

(** [stop]: once, close the listener and every socket in [s.conns]. *)
Definition close_tracked (k : socket) : socket := if tracked k then close k else k.

Definition stop_link (l : link) : link := on_client close_tracked (on_upstream close_tracked l).

Definition do_stop (s : server) : server :=
  if stopped s then s else
  mkServer (loop s) false (stop_link <$> links s) (sem s) (active s) (accepted s) (rejected s)
    (dialErrors s) (relayErrors s) (clientToDBBytes s) (dbToClientBytes s) (runErr s) true
    (cancelled s) (shutdown s).

(** ** Steps *)

Inductive action :=
| Arrive                                   (* a client connects: Accept returns it *)
| AcceptFails (err : string)               (* Accept fails although the listener is open *)
| Cancel                                   (* the context is cancelled *)
| CallShutdown
| Stop                                     (* the context watcher or [Shutdown] runs [stop] *)
| LoopStep
| DialAnswers (i : nat) (ok : bool)
| HandlerStep (i : nat)
| StreamEnds (i : nat) (down meaningful : bool) (written : Z).

(** The next statement of [acceptLoop]. *)
Definition loop_step (c : Config) (s : server) : option server :=
  match loop s with
  | Accepting => if listening s then None else Some (set_loop Finished s)
  | Got i =>
      if sem s <? MaxConnections c
      then Some (set_loop (HasSlot i)
                   (update i (set_at Entered) (count_accepted (add_slots 1 1 s))))
      else Some (set_loop Accepting
                   (update i (fun l => set_at Rejected (on_client close l)) (count_rejected s)))
  | HasSlot i =>
      Some (set_loop Accepting (update i (fun l => set_at Dialing (on_client (track true) l)) s))
  | Failing => Some (set_loop Finished (do_stop s))
  | Finished => None
  end.

Definition finish_stream (down meaningful : bool) (p : phase) : option phase :=
  match p with
  | Copying u d closed =>
      match (if down then d else u) with
      | Running =>
          Some (if down then Copying u (Ended meaningful) closed else Copying (Ended meaningful) d closed)
      | Ended _ => None
      end
  | _ => None
  end.

(** The next statement of [handle]; [None] while it waits. *)
Definition handler_step (i : nat) (l : link) (s : server) : option server :=
  match at_ l with
  | Dialed => Some (update i (fun l => set_at (Copying Running Running false) (on_upstream (track true) l)) s)
  | Copying (Ended m) (Ended n) true =>
      Some (update i (fun l => set_at Cleanup (on_upstream (fun k => close (track false k)) l))
              (count_errors 0 (if m || n then 1 else 0) s))
  | Copying Running Running false | Copying _ _ true => None
  | Copying up down false =>
      Some (update i (fun l => set_at (Copying up down true) (on_client close (on_upstream close l))) s)
  | Cleanup =>
      Some (update i (fun l => set_at Uncounted (on_client (fun k => close (track false k)) l))
              (add_slots 0 (-1) s))
  | Uncounted => Some (update i (set_at Freed) (add_slots (-1) 0 s))
  | Freed => Some (update i (set_at Done) s)
  | _ => None
  end.

(** [DialContext] does not connect any more once its context has ended. *)
Definition step (c : Config) (a : action) (s : server) : option server :=
  match a with
  | Arrive =>
      match loop s with
      | Accepting =>
          if listening s
          then Some (set_loop (Got (List.length (links s)))
                       (set_links (links s ++ [mkLink Waiting (mkSocket true false) None]) s))
          else None
      | _ => None
      end
  | AcceptFails err =>
      match loop s with
      | Accepting =>
          if listening s then Some (set_loop Failing (setRunError ("accept relay client: " ++ err) s))
          else None
      | _ => None
      end
  | Cancel =>
      if cancelled s then None else
      Some (mkServer (loop s) (listening s) (links s) (sem s) (active s) (accepted s) (rejected s)
              (dialErrors s) (relayErrors s) (clientToDBBytes s) (dbToClientBytes s) (runErr s)
              (stopped s) true (shutdown s))
  | CallShutdown =>
      if shutdown s then None else
      Some (mkServer (loop s) (listening s) (links s) (sem s) (active s) (accepted s) (rejected s)
              (dialErrors s) (relayErrors s) (clientToDBBytes s) (dbToClientBytes s) (runErr s)
              (stopped s) (cancelled s) true)
  | Stop => if negb (stopped s) && (cancelled s || shutdown s) then Some (do_stop s) else None
  | LoopStep => loop_step c s
  | DialAnswers i ok =>
      l ← links s !! i;
      match at_ l with
      | Dialing =>
          if ok then
            if cancelled s then None
            else Some (update i (fun l => mkLink Dialed (client l) (Some (mkSocket true false))) s)
          else Some (update i (set_at Cleanup) (count_errors 1 0 s))
      | _ => None
      end
  | HandlerStep i => l ← links s !! i; handler_step i l s
  | StreamEnds i down meaningful written =>
      l ← links s !! i;
      p ← finish_stream down meaningful (at_ l);
      if written <? 0 then None
      else Some (update i (set_at p) (count_bytes down written s))
  end.

(** Copying from a socket that this process has closed ends by itself. *)
Definition forced (down : bool) (l : link) : bool :=
  negb (if down then match upstream l with Some k => is_open k | None => false end
        else is_open (client l)).

(** The actions the process takes by itself.  A dial returns after at most
    [DialTimeout]; arrivals, failures of Accept, cancellation, calls and the ends
    of streams on open sockets are up to others. *)
Definition internal (a : action) (s : server) : bool :=
  match a with
  | Stop | LoopStep | DialAnswers _ _ | HandlerStep _ => true
  | StreamEnds i down _ _ => match links s !! i with Some l => forced down l | None => false end
  | _ => false
  end.

Definition reachable (c : Config) (s : server) : Prop := steps (step c) start s.

(** What [Shutdown] waits for: the accept loop and every handler have ended. *)
Definition waited (s : server) : Prop :=
  loop s = Finished /\ Forall (fun l => at_ l = Done \/ at_ l = Rejected) (links s).

(** Nothing is left: no slot, no count, no open socket, nothing in [s.conns]. *)
Definition clean_socket (k : socket) : Prop := is_open k = false /\ tracked k = false.
Definition clean_link (l : link) : Prop :=
  clean_socket (client l) /\ forall k, upstream l = Some k -> clean_socket k.

Definition drained (s : server) : Prop :=
  waited s /\ listening s = false /\ sem s = 0 /\ active s = 0 /\ Forall clean_link (links s).

(** ** [Snapshot]: what the relay and the gateway report to the control API *)

Record Snapshot := mkSnapshot {
  Mode : string;
  snap_ListenAddress : string;
  snap_UpstreamAddress : string;
  Active : Z;
  DatabaseLinks : Z;
  IdleDatabaseLinks : Z;
  WaitingWork : Z;
  PinnedWork : Z;
  AcceptedTotal : Z;
  RejectedTotal : Z;
  DialErrorsTotal : Z;
  RelayErrorsTotal : Z;
  ClientToDBBytes : Z;
  DBToClientBytes : Z;
  ResetDiscardsTotal : Z;
  CommitGeneration : Z;
  RejectionReasons : gmap string Z;
  PinReasons : gmap string Z;
  snap_MaxConnections : Z;
  ClientTLSMode : string;
  ClientTLSExpires : option Z
}.

(** [bound] is the address of the open listener. *)
Definition snapshot (c : Config) (bound : string) (s : server) : Snapshot :=
  mkSnapshot "transparent-1-to-1" bound (UpstreamAddress c) (active s) (active s) 0 0 0 (accepted s)
    (rejected s) (dialErrors s) (relayErrors s) (clientToDBBytes s) (dbToClientBytes s) 0 0 ∅ ∅
    (MaxConnections c) "passthrough" None.

(** ** The invariant *)

Definition slot (l : link) : Z :=
  match at_ l with Entered | Dialing | Dialed | Copying _ _ _ | Cleanup | Uncounted => 1 | _ => 0 end.

Definition counted (l : link) : Z :=
  match at_ l with Entered | Dialing | Dialed | Copying _ _ _ | Cleanup => 1 | _ => 0 end.

(** Which sockets a client has at each place, and which of them are in [s.conns]. *)
Definition link_ok (l : link) : Prop :=
  match at_ l with
  | Waiting | Entered => tracked (client l) = false /\ upstream l = None
  | Rejected => clean_socket (client l) /\ upstream l = None
  | Dialing => tracked (client l) = true /\ upstream l = None
  | Dialed => tracked (client l) = true /\ exists k, upstream l = Some k /\ tracked k = false
  | Copying _ _ closed =>
      tracked (client l) = true /\ exists k, upstream l = Some k /\ tracked k = true /\
        (closed = true -> is_open (client l) = false /\ is_open k = false)
  | Cleanup => tracked (client l) = true /\ forall k, upstream l = Some k -> clean_socket k
  | Uncounted | Freed | Done => clean_link l
  end.

(** The accept loop holds exactly the client that is not handed over yet. *)
Definition pending_ok (lp : accept_loop) (ls : list link) : Prop :=
  handover (fun l => at_ l = Waiting) (fun l => at_ l = Entered)
    (fun j => lp = Got j) (fun j => lp = HasSlot j) ls.

Record inv (c : Config) (s : server) : Prop := {
  inv_sem : sem s = total slot (links s);
  inv_active : active s = total counted (links s);
  inv_max : sem s <= MaxConnections c;
  inv_links : Forall link_ok (links s);
  inv_pending : pending_ok (loop s) (links s);
  inv_listening : listening s = negb (stopped s);
  inv_finished : loop s = Finished -> stopped s = true
}.

Lemma relay_start_inv c : 0 <= MaxConnections c -> inv c start.
Proof.
  intros Hc. split; cbn; try done. split; [by intros j l Hj; rewrite lookup_nil in Hj|by intros j [?|?]].
Qed.

Lemma close_tracked_tracked k : tracked (close_tracked k) = tracked k.
Proof. unfold close_tracked. by destruct (tracked k) eqn:E. Qed.

Lemma close_tracked_closed k : is_open k = false -> is_open (close_tracked k) = false.
Proof. unfold close_tracked. by destruct (tracked k). Qed.

Lemma close_tracked_clean k : clean_socket k -> clean_socket (close_tracked k).
Proof. intros [H1 H2]. split; [by apply close_tracked_closed|by rewrite close_tracked_tracked]. Qed.

Lemma stop_link_ok l : link_ok l -> link_ok (stop_link l).
Proof.
  unfold link_ok, clean_link. cbn [at_ client upstream stop_link on_client on_upstream].
  assert (forall u : option socket, (forall k, u = Some k -> clean_socket k) ->
            forall k, close_tracked <$> u = Some k -> clean_socket k) as Hu.
  { intros [k|] H k' [= <-]. by apply close_tracked_clean, H. }
  destruct (at_ l) as [| | | | |up down closed| | | |]; rewrite ?close_tracked_tracked.
  1, 3, 4: by intros [-> ->].
  - intros [H ->]. split; [by apply close_tracked_clean|done].
  - intros [-> (k & -> & Hk)]. split; [done|]. exists (close_tracked k). by rewrite close_tracked_tracked.
  - intros [-> (k & -> & Hk & Hc)]. split; [done|]. exists (close_tracked k).
    rewrite close_tracked_tracked. split_and!; try done. intros E. destruct (Hc E).
    split; by apply close_tracked_closed.
  - intros [-> H]. split; [done|]. by apply Hu.
  - intros [H1 H2]. split; [by apply close_tracked_clean|by apply Hu].
  - intros [H1 H2]. split; [by apply close_tracked_clean|by apply Hu].
  - intros [H1 H2]. split; [by apply close_tracked_clean|by apply Hu].
Qed.

(** A client moves on; slots and counts change by what its places account for. *)
Lemma relay_inv_move c s s' i l f :
  inv c s -> links s !! i = Some l ->
  links s' = alter f i (links s) ->
  sem s' = sem s - slot l + slot (f l) -> active s' = active s - counted l + counted (f l) ->
  sem s' <= MaxConnections c -> link_ok (f l) ->
  pending_ok (loop s') (alter f i (links s)) ->
  listening s' = listening s -> stopped s' = stopped s -> (loop s' = Finished -> stopped s = true) ->
  inv c s'.
Proof.
  intros [I1 I2 I3 I4 I5 I6 I7] Hi Hl Hs Ha Hm Hk Hp Hli Hst Hf.
  split; rewrite ?Hl, ?Hli, ?Hst, ?(total_alter _ _ _ _ _ Hi); try done; [lia..|].
  by eapply Forall_alter_one.
Qed.

(** A handler moves on; the accept loop stays where it is. *)
Lemma inv_handler c s s' i l f :
  inv c s -> links s !! i = Some l -> links s' = alter f i (links s) ->
  at_ l <> Waiting -> at_ l <> Entered -> at_ (f l) <> Waiting -> at_ (f l) <> Entered ->
  sem s' = sem s - slot l + slot (f l) -> active s' = active s - counted l + counted (f l) ->
  slot (f l) <= slot l -> link_ok (f l) ->
  loop s' = loop s -> listening s' = listening s -> stopped s' = stopped s ->
  inv c s'.
Proof.
  intros Hv Hi Hl N1 N2 N3 N4 Hs Ha Hm Hk Hlo Hli Hst.
  pose proof (proj1 (inv_pending _ _ Hv) i l Hi) as [P1 P2].
  eapply relay_inv_move; try done.
  - pose proof (inv_max _ _ Hv). lia.
  - rewrite Hlo. eapply handover_alter; [by apply (inv_pending _ _ Hv)|done|tauto|tauto|done].
  - rewrite Hlo. by apply (inv_finished _ _ Hv).
Qed.

Lemma do_stop_inv c s : inv c s -> inv c (do_stop s).
Proof.
  intros Hv. unfold do_stop. destruct (stopped s) eqn:E; [done|].
  destruct Hv as [I1 I2 I3 I4 I5 I6 I7].
  split; cbn [sem active links loop listening stopped]; try done.
  - by rewrite total_fmap.
  - by rewrite total_fmap.
  - apply Forall_fmap. eapply List.Forall_impl; [|exact I4]. intros l. apply stop_link_ok.
  - by apply handover_fmap.
Qed.

(** *** Every step keeps the invariant *)

Lemma relay_arrive_inv c s s' : inv c s -> step c Arrive s = Some s' -> inv c s'.
Proof.
  cbn [step]. intros [I1 I2 I3 I4 I5 I6 I7] H. destruct (loop s) eqn:El; try done.
  destruct (listening s) eqn:Eo; [|done]. injection H as <-.
  split; cbn [set_loop set_links sem active links loop listening stopped]; try done.
  - rewrite total_app, total_one. cbn. lia.
  - rewrite total_app, total_one. cbn. lia.
  - apply Forall_app. split; [done|]. by apply Forall_singleton.
  - eapply handover_arrive; [exact I5|done..| |done]. intros j. split; [by intros [= ->]|by intros ->].
  - by rewrite Eo.
Qed.

Lemma relay_loop_step_inv c s s' : inv c s -> loop_step c s = Some s' -> inv c s'.
Proof.
  intros Hv H. unfold loop_step in H. pose proof (inv_pending _ _ Hv) as [Hp Hb].
  destruct (loop s) as [|i|i| |] eqn:El; try done.
  - destruct (listening s) eqn:Eo; [done|]. injection H as <-. destruct Hv as [I1 I2 I3 I4 I5 I6 I7].
    split; cbn [set_loop sem active links loop listening stopped]; try done.
    + rewrite El in I5. eapply handover_iff; [| |exact I5]; by split.
    + intros _. rewrite Eo in I6. by destruct (stopped s).
  - destruct (lookup_lt_is_Some_2 (links s) i (Hb i (or_introl eq_refl))) as [l Hl].
    pose proof (proj2 (proj1 (Hp i l Hl)) eq_refl) as Hw.
    assert (link_ok l) as Hk by (eapply Forall_lookup_1; [apply (inv_links _ _ Hv)|exact Hl]).
    unfold link_ok in Hk. rewrite Hw in Hk. destruct Hk as [Ht Hu].
    destruct (Z.ltb_spec (sem s) (MaxConnections c)); injection H as <-;
      (eapply (relay_inv_move c s); [done|exact Hl|reflexivity|..]); try done;
      cbn [set_loop update set_links count_accepted count_rejected add_slots sem active loop links];
      unfold slot, counted; rewrite ?Hw; cbn [at_ set_at on_client]; try lia.
    + eapply handover_alter; [exact (conj Hp Hb)|exact Hl|..]; cbn [at_ set_at].
      all: try by split. intros j Hj. by split; split; intros [= E].
    + apply (inv_max _ _ Hv).
    + eapply handover_alter; [exact (conj Hp Hb)|exact Hl|..]; cbn [at_ set_at].
      all: try by split. intros j Hj. by split; split; intros [= E].
  - destruct (lookup_lt_is_Some_2 (links s) i (Hb i (or_intror eq_refl))) as [l Hl].
    pose proof (proj2 (proj2 (Hp i l Hl)) eq_refl) as Hw.
    assert (link_ok l) as Hk by (eapply Forall_lookup_1; [apply (inv_links _ _ Hv)|exact Hl]).
    unfold link_ok in Hk. rewrite Hw in Hk. destruct Hk as [Ht Hu]. injection H as <-.
    (eapply (relay_inv_move c s); [done|exact Hl|reflexivity|..]); try done;
      cbn [set_loop update set_links sem active loop links];
      unfold slot, counted; rewrite ?Hw; cbn [at_ set_at on_client]; try lia.
    + apply (inv_max _ _ Hv).
    + eapply handover_alter; [exact (conj Hp Hb)|exact Hl|..]; cbn [at_ set_at].
      all: try by split. intros j Hj. by split; split; intros [= E].
  - injection H as <-. pose proof (do_stop_inv c s Hv) as [I1 I2 I3 I4 I5 I6 I7].
    assert (loop (do_stop s) = Failing) as El' by (unfold do_stop; by destruct (stopped s)).
    split; cbn [set_loop sem active links loop listening stopped]; try done.
    + rewrite El' in I5. eapply handover_iff; [| |exact I5]; by split.
    + intros _. unfold do_stop. by destruct (stopped s) eqn:E.
Qed.

Lemma accept_fails_inv c err s s' : inv c s -> step c (AcceptFails err) s = Some s' -> inv c s'.
Proof.
  cbn [step]. intros [I1 I2 I3 I4 I5 I6 I7] H. destruct (loop s) eqn:El; try done.
  destruct (listening s) eqn:Eo; [|done]. injection H as <-.
  split; cbn [set_loop setRunError sem active links loop listening stopped]; try done; [|by rewrite Eo].
  eapply handover_iff; [| |exact I5]; by split.
Qed.

Lemma links_ok c s i l : inv c s -> links s !! i = Some l -> link_ok l.
Proof. intros Hv Hi. exact (proj1 (Forall_lookup _ _) (inv_links _ _ Hv) i l Hi). Qed.

Lemma dial_inv c i ok s s' : inv c s -> step c (DialAnswers i ok) s = Some s' -> inv c s'.
Proof.
  cbn [step]. intros Hv H. destruct (links s !! i) as [l|] eqn:Hi; [|done]. cbn in H.
  pose proof (links_ok c s i l Hv Hi) as Hk. unfold link_ok in Hk.
  destruct (at_ l) eqn:Ea; try done. destruct Hk as [Ht Hu].
  destruct ok; [destruct (cancelled s); [done|]|]; injection H as <-;
    (eapply inv_handler; [exact Hv|exact Hi|reflexivity|by rewrite Ea|by rewrite Ea|done|done| | | | |done..]);
    unfold slot, counted, link_ok; rewrite ?Ea; cbn; try lia.
  - split; [done|]. by eexists.
  - split; [done|]. rewrite Hu. by intros.
Qed.

Lemma stream_inv c i down m w s s' : inv c s -> step c (StreamEnds i down m w) s = Some s' -> inv c s'.
Proof.
  cbn [step]. intros Hv H. destruct (links s !! i) as [l|] eqn:Hi; [|done]. cbn in H.
  pose proof (links_ok c s i l Hv Hi) as Hk. unfold link_ok in Hk.
  destruct (finish_stream down m (at_ l)) as [p|] eqn:Ef; [|done]. cbn in H.
  destruct (w <? 0); [done|]. injection H as <-.
  unfold finish_stream in Ef. destruct (at_ l) as [| | | | |up dn closed| | | |] eqn:Ea; try done.
  assert (exists u d, p = Copying u d closed) as (u & d & ->).
  { destruct down; [destruct dn|destruct up]; try done; injection Ef as <-; eauto. }
  (eapply inv_handler; [exact Hv|exact Hi|reflexivity|by rewrite Ea|by rewrite Ea|done|done| | | | |done..]);
    unfold slot, counted, link_ok; rewrite ?Ea; cbn; try lia. done.
Qed.

Lemma handler_inv c i s s' : inv c s -> step c (HandlerStep i) s = Some s' -> inv c s'.
Proof.
  cbn [step]. intros Hv H. destruct (links s !! i) as [l|] eqn:Hi; [|done]. cbn in H.
  pose proof (links_ok c s i l Hv Hi) as Hk. unfold link_ok in Hk. unfold handler_step in H.
  destruct (at_ l) as [| | | | |up dn closed| | | |] eqn:Ea; try done;
    [|destruct up, dn, closed; try done|..]; injection H as <-;
    (eapply inv_handler; [exact Hv|exact Hi|reflexivity|by rewrite Ea|by rewrite Ea|done|done| | | | |done..]);
    unfold slot, counted, link_ok; rewrite ?Ea; cbn; try lia; try done.
  all: destruct Hk as [Ht Hu].
  1-5: destruct Hu as (k & Hu & Hk); rewrite Hu; split; [done|].
  - by eexists.
  - exists (close k). by destruct Hk.
  - exists (close k). by destruct Hk.
  - intros k' [= <-]. done.
  - exists (close k). by destruct Hk.
  - by split.
Qed.

Lemma relay_step_inv c a s s' : inv c s -> step c a s = Some s' -> inv c s'.
Proof.
  intros Hv H. destruct a as [|err| | | | |i ok|i|i down m w].
  - by eapply relay_arrive_inv.
  - by eapply accept_fails_inv.
  - cbn in H. destruct (cancelled s); [done|]. injection H as <-. by destruct Hv; split.
  - cbn in H. destruct (shutdown s); [done|]. injection H as <-. by destruct Hv; split.
  - cbn in H. case_match; [|done]. injection H as <-. by apply do_stop_inv.
  - by eapply relay_loop_step_inv.
  - by eapply dial_inv.
  - by eapply handler_inv.
  - by eapply stream_inv.
Qed.

Lemma relay_reachable_inv c s : 0 <= MaxConnections c -> reachable c s -> inv c s.
Proof.
  intros Hc Hs. eapply (steps_invariant (step c) (inv c)); [|by apply relay_start_inv|exact Hs].
  intros a t t'. apply relay_step_inv.
Qed.

(** ** Bounds *)

Definition upstream_open (l : link) : Z :=
  match upstream l with Some k => Z.b2z (is_open k) | None => 0 end.

Definition client_open (l : link) : Z := Z.b2z (is_open (client l)).

Definition waiting (l : link) : Z := match at_ l with Waiting => 1 | _ => 0 end.

Lemma upstream_counted l : link_ok l -> upstream_open l <= counted l.
Proof.
  unfold link_ok, upstream_open, counted, clean_link. intros Hl.
  destruct (upstream l) as [k|] eqn:Eu; [|by destruct (at_ l)].
  destruct (at_ l); try (destruct (is_open k); cbn; lia); destruct Hl as [_ Hl]; try done.
  all: destruct (Hl k eq_refl) as [-> _]; cbn; lia.
Qed.

Lemma client_counted l : link_ok l -> client_open l <= counted l + waiting l.
Proof.
  unfold link_ok, client_open, counted, waiting, clean_link, clean_socket.
  destruct (at_ l); intros Hl; try (destruct (is_open (client l)); cbn; lia);
    destruct Hl as [[-> _] _]; cbn; lia.
Qed.

Lemma one_waiting lp ls : pending_ok lp ls -> total waiting ls <= 1.
Proof.
  intros Hp. eapply one_first; [exact Hp| | | |].
  - intros j k -> [= ->]. done.
  - intros l. unfold waiting. destruct (at_ l); lia.
  - intros l Hl. unfold waiting. destruct (at_ l) eqn:E; [by destruct Hl|lia..].
  - intros l. unfold Decision. destruct (at_ l); first [by left|by right].
Qed.

(** ** Draining *)

(** After [stop], a client whose socket is still open cannot get to a server any
    more: it is not dialled yet and the context is cancelled, or its handler is
    about to close it. *)
Definition quiet_link (ctx : bool) (l : link) : Prop :=
  is_open (client l) = true ->
  match at_ l with Waiting | Entered | Dialing => ctx = true | Cleanup => True | _ => False end.

Record quiet (c : Config) (s : server) : Prop := {
  quiet_inv : inv c s;
  quiet_stopped : stopped s = true;
  quiet_links : Forall (quiet_link (cancelled s)) (links s)
}.

Definition weight (p : phase) : Z :=
  match p with
  | Waiting => 11
  | Entered => 10
  | Dialing => 9
  | Dialed => 8
  | Copying up down closed =>
      4 + (match up with Running => 1 | _ => 0 end) + (match down with Running => 1 | _ => 0 end)
        + (if closed then 0 else 1)
  | Cleanup => 3
  | Uncounted => 2
  | Freed => 1
  | Done | Rejected => 0
  end.

Definition loop_weight (lp : accept_loop) : Z := match lp with Finished => 0 | _ => 1 end.

(** What is left to do once the listener is closed. *)
Definition work (s : server) : Z :=
  total (fun l => weight (at_ l)) (links s) + loop_weight (loop s)
  + Z.b2z (negb (cancelled s)) + Z.b2z (negb (shutdown s)).

Lemma weight_nonneg p : 0 <= weight p.
Proof. destruct p as [| | | | |[] [] []| | | |]; cbn; lia. Qed.

Lemma relay_work_nonneg s : 0 <= work s.
Proof.
  unfold work. pose proof (total_nonneg (fun l => weight (at_ l)) (links s) ltac:(intros; apply weight_nonneg)).
  assert (0 <= loop_weight (loop s)) by (by destruct (loop s)).
  destruct (cancelled s), (shutdown s); cbn; lia.
Qed.

(** A client moves on. *)
Lemma quiet_move s i l f s' :
  links s !! i = Some l -> links s' = alter f i (links s) ->
  Forall (quiet_link (cancelled s)) (links s) ->
  cancelled s' = cancelled s -> shutdown s' = shutdown s ->
  quiet_link (cancelled s) (f l) ->
  weight (at_ (f l)) + loop_weight (loop s') < weight (at_ l) + loop_weight (loop s) ->
  Forall (quiet_link (cancelled s')) (links s') /\ work s' < work s.
Proof.
  intros Hi Hl Hq Hc Hs Hf Hw. unfold work. rewrite Hl, Hc, Hs, (total_alter _ _ _ _ _ Hi).
  split; [by eapply Forall_alter_one|lia].
Qed.

Lemma quiet_lookup c s i l : quiet c s -> links s !! i = Some l -> quiet_link (cancelled s) l.
Proof. intros Hq Hi. exact (proj1 (Forall_lookup _ _) (quiet_links _ _ Hq) i l Hi). Qed.

Lemma quiet_listening c s : quiet c s -> listening s = false.
Proof. intros Hq. by rewrite (inv_listening _ _ (quiet_inv _ _ Hq)), (quiet_stopped _ _ Hq). Qed.

Lemma do_stop_again s : stopped s = true -> do_stop s = s.
Proof. unfold do_stop. by intros ->. Qed.

Lemma loop_step_quiet c s s' :
  quiet c s -> loop_step c s = Some s' ->
  Forall (quiet_link (cancelled s')) (links s') /\ work s' < work s.
Proof.
  intros Hq H. unfold loop_step in H. pose proof (inv_pending _ _ (quiet_inv _ _ Hq)) as [Hp Hb].
  pose proof (quiet_links _ _ Hq) as Hl.
  destruct (loop s) as [|i|i| |] eqn:El; try done.
  - rewrite (quiet_listening _ _ Hq) in H. injection H as <-. split; [done|].
    unfold work. cbn [set_loop links loop cancelled shutdown]. rewrite El. cbn. lia.
  - destruct (lookup_lt_is_Some_2 (links s) i (Hb i (or_introl eq_refl))) as [l Hi].
    pose proof (proj2 (proj1 (Hp i l Hi)) eq_refl) as Hw.
    pose proof (quiet_lookup _ _ _ _ Hq Hi) as Hk. unfold quiet_link in Hk. rewrite Hw in Hk.
    destruct (sem s <? MaxConnections c); injection H as <-;
      (eapply quiet_move; [exact Hi|reflexivity|done..| |]); cbn [set_loop loop]; rewrite ?El, ?Hw; cbn; try lia; done.
  - destruct (lookup_lt_is_Some_2 (links s) i (Hb i (or_intror eq_refl))) as [l Hi].
    pose proof (proj2 (proj2 (Hp i l Hi)) eq_refl) as Hw.
    pose proof (quiet_lookup _ _ _ _ Hq Hi) as Hk. unfold quiet_link in Hk. rewrite Hw in Hk.
    injection H as <-.
    (eapply quiet_move; [exact Hi|reflexivity|done..| |]); cbn [set_loop loop]; rewrite ?El, ?Hw; cbn; try lia; done.
  - injection H as <-. rewrite do_stop_again by apply (quiet_stopped _ _ Hq). split; [done|].
    unfold work. cbn [set_loop links loop cancelled shutdown]. rewrite El. cbn. lia.
Qed.

Lemma dial_quiet c i ok s s' :
  quiet c s -> step c (DialAnswers i ok) s = Some s' ->
  Forall (quiet_link (cancelled s')) (links s') /\ work s' < work s.
Proof.
  cbn [step]. intros Hq H. destruct (links s !! i) as [l|] eqn:Hi; [|done]. cbn in H.
  pose proof (quiet_lookup _ _ _ _ Hq Hi) as Hk. pose proof (quiet_links _ _ Hq) as Hl.
  unfold quiet_link in Hk. destruct (at_ l) eqn:Ea; try done.
  destruct ok; [destruct (cancelled s) eqn:Ec; [done|]|]; injection H as <-;
    (eapply quiet_move; [exact Hi|reflexivity|by rewrite ?Ec|done|done| |]); rewrite ?Ea; cbn; try lia; [|done].
  intros Ho. specialize (Hk Ho). congruence.
Qed.

Lemma stream_quiet c i down m w s s' :
  quiet c s -> step c (StreamEnds i down m w) s = Some s' ->
  Forall (quiet_link (cancelled s')) (links s') /\ work s' < work s.
Proof.
  cbn [step]. intros Hq H. destruct (links s !! i) as [l|] eqn:Hi; [|done]. cbn in H.
  pose proof (quiet_lookup _ _ _ _ Hq Hi) as Hk. pose proof (quiet_links _ _ Hq) as Hl.
  destruct (finish_stream down m (at_ l)) as [p|] eqn:Ef; [|done]. cbn in H.
  destruct (w <? 0); [done|]. injection H as <-. unfold quiet_link in Hk.
  unfold finish_stream in Ef. destruct (at_ l) as [| | | | |up dn closed| | | |] eqn:Ea; try done.
  (eapply quiet_move; [exact Hi|reflexivity|done|done|done| |]); rewrite ?Ea; cbn;
    destruct down; [destruct dn|destruct up|destruct dn|destruct up]; try done; injection Ef as <-;
    try done; cbn; lia.
Qed.

Lemma handler_quiet c i s s' :
  quiet c s -> step c (HandlerStep i) s = Some s' ->
  Forall (quiet_link (cancelled s')) (links s') /\ work s' < work s.
Proof.
  cbn [step]. intros Hq H. destruct (links s !! i) as [l|] eqn:Hi; [|done]. cbn in H.
  pose proof (quiet_lookup _ _ _ _ Hq Hi) as Hk. pose proof (quiet_links _ _ Hq) as Hl.
  pose proof (links_ok c s i l (quiet_inv _ _ Hq) Hi) as Ho. unfold link_ok, clean_link in Ho.
  unfold quiet_link in Hk. unfold handler_step in H.
  destruct (at_ l) as [| | | | |up dn closed| | | |] eqn:Ea; try done;
    [|destruct up, dn, closed; try done|..]; injection H as <-;
    (eapply quiet_move; [exact Hi|reflexivity|done|done|done| |]); rewrite ?Ea; cbn; try lia; try done.
Qed.

Lemma step_quiet c a s s' : quiet c s -> step c a s = Some s' -> quiet c s' /\ work s' < work s.
Proof.
  intros Hq H. pose proof (relay_step_inv c a s s' (quiet_inv _ _ Hq) H) as Hi.
  assert (stopped s' = true /\ Forall (quiet_link (cancelled s')) (links s') /\ work s' < work s)
    as (Hs & Hl & Hw); [|by split; [split|]].
  pose proof (quiet_listening _ _ Hq) as Ho. pose proof (quiet_stopped _ _ Hq) as Hs.
  assert (stopped s' = true) as Hs'.
  { pose proof (inv_listening _ _ Hi) as Hli. destruct (stopped s') eqn:E; [done|].
    exfalso. clear -H Ho Hs E Hli. destruct a; cbn [step] in H.
    - destruct (loop s); try done. by rewrite Ho in H.
    - destruct (loop s); try done. by rewrite Ho in H.
    - destruct (cancelled s); [done|]. injection H as <-. cbn in E. congruence.
    - destruct (shutdown s); [done|]. injection H as <-. cbn in E. congruence.
    - by rewrite Hs in H.
    - unfold loop_step in H. rewrite do_stop_again in H by done.
      destruct (loop s); try done; repeat case_hyp H; try done; injection H as <-; cbn in E; congruence.
    - destruct (links s !! i); [|done]. cbn in H. repeat case_hyp H; try done; injection H as <-; cbn in E; congruence.
    - destruct (links s !! i); [|done]. cbn in H. unfold handler_step in H.
      repeat case_hyp H; try done; injection H as <-; cbn in E; congruence.
    - destruct (links s !! i); [|done]. cbn in H. destruct (finish_stream _ _ _); [|done]. cbn in H.
      case_hyp H; [done|]. injection H as <-. cbn in E. congruence. }
  split; [done|]. destruct a as [|err| | | | |i ok|i|i down m w].
  - cbn in H. destruct (loop s); try done. by rewrite Ho in H.
  - cbn in H. destruct (loop s); try done. by rewrite Ho in H.
  - cbn in H. destruct (cancelled s) eqn:Ec; [done|]. injection H as <-. cbn [cancelled links].
    pose proof (quiet_links _ _ Hq) as Hk. rewrite Ec in Hk. split.
    + eapply List.Forall_impl; [|exact Hk]. intros l Hl Hopen. specialize (Hl Hopen). by destruct (at_ l).
    + unfold work. cbn [links loop cancelled shutdown]. rewrite Ec. cbn [negb Z.b2z]. lia.
  - cbn in H. destruct (shutdown s) eqn:Ec; [done|]. injection H as <-. split; [apply (quiet_links _ _ Hq)|].
    unfold work. cbn [links loop cancelled shutdown]. rewrite Ec. cbn [negb Z.b2z]. lia.
  - cbn in H. by rewrite Hs in H.
  - by eapply loop_step_quiet.
  - by eapply dial_quiet.
  - by eapply handler_quiet.
  - by eapply stream_quiet.
Qed.

(** *** The process can go on until everything is released *)

Definition ended (l : link) : Prop := at_ l = Done \/ at_ l = Rejected.

#[local] Instance ended_dec l : Decision (ended l).
Proof. destruct l as [[] ? ?]; first [by left; left|by left; right|by right; intros [?|?]]. Defined.

(** A client that has not ended makes a step of its own. *)
Lemma link_goes_on c s i l :
  quiet c s -> loop s = Finished -> links s !! i = Some l -> ~ ended l ->
  exists a s', internal a s = true /\ step c a s = Some s'.
Proof.
  intros Hq El Hi Hn. pose proof (inv_pending _ _ (quiet_inv _ _ Hq)) as [Hp _].
  pose proof (quiet_lookup _ _ _ _ Hq Hi) as Hk. pose proof (links_ok c s i l (quiet_inv _ _ Hq) Hi) as Ho.
  unfold quiet_link in Hk. unfold link_ok in Ho. destruct (Hp i l Hi) as [[P1 _] [P2 _]].
  assert (forall s', handler_step i l s = Some s' -> exists a s', internal a s = true /\ step c a s = Some s') as Hh.
  { intros s' Hs. exists (HandlerStep i), s'. split; [done|]. cbn [step]. by rewrite Hi. }
  assert (forall down p, finish_stream down false (at_ l) = Some p -> forced down l = true ->
            exists a s', internal a s = true /\ step c a s = Some s') as Hst.
  { intros down p Hf Hc. exists (StreamEnds i down false 0). eexists. split.
    - cbn [internal]. by rewrite Hi.
    - cbn [step]. rewrite Hi. cbn. by rewrite Hf. }
  destruct (at_ l) as [| | | | |up dn closed| | | |] eqn:Ea.
  - specialize (P1 eq_refl). congruence.
  - exfalso. apply Hn. by right.
  - specialize (P2 eq_refl). congruence.
  - exists (DialAnswers i false). eexists. split; [done|]. cbn [step]. rewrite Hi. cbn. by rewrite Ea.
  - eapply Hh. unfold handler_step. by rewrite Ea.
  - destruct Ho as (_ & k & Hu & _ & Hc). destruct (is_open (client l)) eqn:Eo; [by specialize (Hk eq_refl)|].
    destruct up; [by eapply (Hst false); [done|]; unfold forced; rewrite Eo|].
    destruct closed; [|eapply Hh; unfold handler_step; rewrite Ea; by destruct dn].
    destruct dn; [|eapply Hh; unfold handler_step; by rewrite Ea].
    destruct (Hc eq_refl) as [_ Hck]. by eapply (Hst true); [done|]; unfold forced; rewrite Hu, Hck.
  - eapply Hh. unfold handler_step. by rewrite Ea.
  - eapply Hh. unfold handler_step. by rewrite Ea.
  - eapply Hh. unfold handler_step. by rewrite Ea.
  - exfalso. apply Hn. by left.
Qed.

Lemma ended_clean l : link_ok l -> ended l -> clean_link l /\ slot l = 0 /\ counted l = 0.
Proof.
  unfold link_ok, slot, counted, clean_link. intros Hl [E|E]; rewrite E in *; [done|].
  destruct Hl as [Hc ->]. by split_and!.
Qed.

Lemma waited_drained c s : quiet c s -> waited s -> drained s.
Proof.
  intros Hq [Hl Hw]. pose proof (quiet_inv _ _ Hq) as Hv.
  assert (forall l, l ∈ links s -> clean_link l /\ slot l = 0 /\ counted l = 0) as Hc.
  { intros l Hin. apply ended_clean.
    - exact (proj1 (List.Forall_forall _ _) (inv_links _ _ Hv) l (proj1 (list_elem_of_In _ _) Hin)).
    - exact (proj1 (List.Forall_forall _ _) Hw l (proj1 (list_elem_of_In _ _) Hin)). }
  split_and!; [by split|by eapply quiet_listening| | |].
  - rewrite (inv_sem _ _ Hv). apply total_zero. intros l Hin. by apply Hc.
  - rewrite (inv_active _ _ Hv). apply total_zero. intros l Hin. by apply Hc.
  - apply List.Forall_forall. intros l Hin. apply Hc. by apply list_elem_of_In.
Qed.

Lemma quiet_progress c s :
  quiet c s -> drained s \/ exists a s', internal a s = true /\ step c a s = Some s'.
Proof.
  intros Hq. pose proof (inv_pending _ _ (quiet_inv _ _ Hq)) as [_ Hb].
  assert (forall s', loop_step c s = Some s' -> exists a s', internal a s = true /\ step c a s = Some s') as Hls.
  { intros s' Hs. by exists LoopStep, s'. }
  destruct (loop s) as [|i|i| |] eqn:El; unfold loop_step in Hls; rewrite El in Hls.
  - right. eapply Hls. by rewrite (quiet_listening _ _ Hq).
  - right. destruct (sem s <? MaxConnections c); by eapply Hls.
  - right. by eapply Hls.
  - right. by eapply Hls.
  - destruct (decide (Forall ended (links s))) as [Hw|Hw].
    + left. eapply waited_drained; [done|]. by split.
    + right. apply not_Forall_Exists in Hw; [|solve_decision].
      apply List.Exists_exists in Hw as (l & Hl & Hn).
      apply list_elem_of_In, list_elem_of_lookup in Hl as [i Hi]. by eapply link_goes_on.
Qed.

Lemma quiet_drains c s : quiet c s -> eventually (step c) internal drained s.
Proof.
  apply (eventually_by_measure (step c) internal (quiet c) drained work).
  - intros t _. apply relay_work_nonneg.
  - apply quiet_progress.
  - intros a t t'. apply step_quiet.
Qed.

(** *** The moment of the stop *)

(** [stop] finds every admitted client in [s.conns], or the context is cancelled
    so that no client it misses can be dialled. *)
Definition nobody_missed (s : server) : Prop :=
  cancelled s = true \/ (forall i, loop s <> Got i /\ loop s <> HasSlot i).

Lemma do_stop_quiet c s :
  inv c s -> stopped s = false -> nobody_missed s -> quiet c (do_stop s).
Proof.
  intros Hv Hs Hn. split; [by apply do_stop_inv|unfold do_stop; by rewrite Hs|].
  unfold do_stop. rewrite Hs. cbn [links cancelled]. apply List.Forall_forall. intros l' Hin.
  apply in_map_iff in Hin as (l & <- & Hin). apply list_elem_of_In, list_elem_of_lookup in Hin as [i Hi].
  pose proof (links_ok c s i l Hv Hi) as Ho. destruct (inv_pending _ _ Hv) as [Hp _].
  destruct (Hp i l Hi) as [[P1 _] [P2 _]]. unfold quiet_link. cbn [stop_link on_client on_upstream client at_].
  unfold link_ok, clean_link, clean_socket in Ho. unfold close_tracked.
  destruct (at_ l) eqn:Ea; destruct_and?; try (match goal with H : tracked (client l) = _ |- _ => rewrite H end); try done;
    try (intros ?; congruence).
  all: intros _; destruct Hn as [?|Hn]; [done|]; destruct (Hn i) as [N1 N2]; exfalso; eauto.
Qed.

Lemma stop_inversion c a s s' :
  step c a s = Some s' -> stopped s = false -> stopped s' = true ->
  s' = do_stop s \/ (s' = set_loop Finished (do_stop s) /\ loop s = Failing).
Proof.
  intros H Hs Hs'. destruct a; cbn [step] in H.
  - destruct (loop s); try done. case_hyp H; [|done]. injection H as <-. cbn in Hs'. congruence.
  - destruct (loop s); try done. case_hyp H; [|done]. injection H as <-. cbn in Hs'. congruence.
  - case_hyp H; [done|]. injection H as <-. cbn in Hs'. congruence.
  - case_hyp H; [done|]. injection H as <-. cbn in Hs'. congruence.
  - case_hyp H; [|done]. injection H as <-. by left.
  - unfold loop_step in H. destruct (loop s) eqn:El; try done; repeat case_hyp H; try done; injection H as <-;
      try (cbn in Hs'; congruence). by right.
  - destruct (links s !! i); [|done]. cbn in H. repeat case_hyp H; try done; injection H as <-; cbn in Hs'; congruence.
  - destruct (links s !! i); [|done]. cbn in H. unfold handler_step in H.
    repeat case_hyp H; try done; injection H as <-; cbn in Hs'; congruence.
  - destruct (links s !! i); [|done]. cbn in H. destruct (finish_stream _ _ _); [|done]. cbn in H.
    case_hyp H; [done|]. injection H as <-. cbn in Hs'. congruence.
Qed.


(** In every reachable state at most [MaxConnections] clients are admitted:
    the reported number of active clients is between zero and the number of taken
    slots, every open upstream connection belongs to an active client, and apart
    from one client that Accept has just returned, so does every open client
    connection. *)
Theorem relay_bounded (c : Config) (s : server) (Hmax : 0 <= MaxConnections c) (Hs : reachable c s) :
  0 <= active s <= sem s /\ sem s <= MaxConnections c /\
  total upstream_open (links s) <= active s /\ total client_open (links s) <= active s + 1.
Proof.
  pose proof (relay_reachable_inv c s Hmax Hs) as Hv.
  assert (forall l, l ∈ links s -> link_ok l) as Hok.
  { intros l Hin. exact (proj1 (List.Forall_forall _ _) (inv_links _ _ Hv) l (proj1 (list_elem_of_In _ _) Hin)). }
  rewrite (inv_active _ _ Hv). split_and!.
  - apply total_nonneg. intros l. unfold counted. by destruct (at_ l).
  - rewrite (inv_sem _ _ Hv). apply total_le. intros l _. unfold slot, counted. by destruct (at_ l).
  - apply (inv_max _ _ Hv).
  - apply total_le. intros l Hl. by apply upstream_counted, Hok.
  - pose proof (one_waiting _ _ (inv_pending _ _ Hv)).
    assert (total client_open (links s) <= total (fun l => counted l + waiting l) (links s)).
    { apply total_le. intros l Hl. by apply client_counted, Hok. }
    rewrite total_add in *. lia.
Qed.

(** ** A client that [stop] misses *)

Definition one_slot : Config := mkConfig "127.0.0.1:3307" "127.0.0.1:3306" 1 5000000000.

(** Accept has returned a client when [Shutdown] stops the server; the client is
    admitted afterwards, and as the context is not cancelled, it is connected. *)
Definition missed_schedule : list action :=
  [Arrive; CallShutdown; Stop; LoopStep; LoopStep; LoopStep; DialAnswers 0 true; HandlerStep 0].

Definition missed : server :=
  default start (run (step one_slot) missed_schedule start).

Lemma missed_reachable : reachable one_slot missed.
Proof. apply (run_steps _ missed_schedule). vm_compute. reflexivity. Qed.

(** [Shutdown] alone does not always complete.  There is a reachable state in
    which [stop] has run, the accept loop has ended and nothing is left for the
    relay to do, but a client and its server are still connected and being served:
    it was accepted before the listener was closed and registered after [stop] had
    closed the registered connections.  Nothing closes it any more; [Shutdown] waits
    until the client or the server hangs up, or its own deadline passes. *)
Theorem shutdown_misses_client :
  exists c s, reachable c s /\ shutdown s = true /\ stopped s = true /\ loop s = Finished /\
    active s = 1 /\ total upstream_open (links s) = 1 /\
    ~ eventually (step c) internal drained s.
Proof.
  exists one_slot, missed. split; [exact missed_reachable|].
  do 5 (split; [vm_compute; reflexivity|]). apply stuck_not_eventually.
  - intros (_ & _ & H & _). vm_compute in H. discriminate H.
  - intros a s' Hi H. destruct a as [|err| | | | |i ok|i|i down m w]; try discriminate Hi.
    1-2: vm_compute in H; discriminate H.
    1-2: destruct i as [|i]; vm_compute in H; discriminate H.
    destruct i as [|i], down; vm_compute in Hi; discriminate Hi.
Qed.

(** ** Witnesses *)

Definition normal_schedule : list action :=
  [Arrive; LoopStep; LoopStep; DialAnswers 0 true; HandlerStep 0; StreamEnds 0 false false 7; Cancel].

Definition busy : server := default start (run (step one_slot) normal_schedule start).

Lemma busy_reachable : reachable one_slot busy.
Proof. apply (run_steps _ normal_schedule). vm_compute. reflexivity. Qed.


Lemma relay_bounded_witness : active busy = 1 /\ active busy <= 1.
Proof.
  split; [vm_compute; reflexivity|].
  destruct (relay_bounded one_slot busy ltac:(vm_compute; discriminate) busy_reachable) as ((_ & H1) & H2 & _).
  exact (Z.le_trans _ _ _ H1 H2).
Defined.

End Relay.
