(* ===== verification/Listener.v ===== *)
(** * The listener of the pooled gateway ([internal/protocol/mysql/listener.go])

    [Server.Serve] accepts connections until its context ends or the listener
    fails, runs a handler in a goroutine for each, and takes everything down before
    it returns.  The accept loop, the goroutine that watches the context and the
    handlers run concurrently; every channel operation, mutex section and socket
    call is one atomic step.  What a handler does is not looked at: it may return at
    any time, and it returns once its connection has been closed under it, because
    then its reads and writes fail. *)

From stdpp Require Import base list numbers strings option.
From Stdlib Require Import ZArith Lia String.
From S2P Require Import Prelude GoDuration Concurrency.

Module Listener.
Import GoDuration.GoDuration.
Local Open Scope string_scope.
Local Open Scope list_scope.
Local Open Scope Z_scope.

(** ** The configuration *)

Record ListenerConfig := mkListenerConfig {
  MaxConnections : Z;
  MaxMessageBytes : Z;
  IdleTimeout : Z
}.

Definition validate (c : ListenerConfig) : option string :=
  if (MaxConnections c <=? 0) || (MaxMessageBytes c <=? 0) || (IdleTimeout c <=? 0)
  then Some "mysql listener limits must be positive" else None.

(** [NewServer]; the handler is nil or not. *)
Definition NewServer (c : ListenerConfig) (handler : bool) : option string :=
  match validate c with
  | Some err => Some err
  | None => if handler then None else Some "mysql listener handler is required"
  end.

(** ** State *)

Inductive phase :=
| Waiting        (* returned by Accept *)
| Refused        (* no token, or the context ended: closed *)
| Entered        (* holds a token *)
| Handling       (* in [s.connections], [Handle] runs *)
| Cleanup        (* [Handle] has returned *)
| Uncounted      (* closed, removed, [s.active.Add(-1)] *)
| Freed          (* [<-tokens] *)
| Done.          (* [wait.Done] *)

(** A connection with the number it was given, if it was admitted. *)
Record client := mkClient { at_ : phase; ID : Z; is_open : bool; tracked : bool }.

(** The goroutine of [Serve]; the result is the error it returns. *)
Inductive accept_loop :=
| Accepting
| BackingOff                      (* waiting for the timer or the context *)
| Got (i : nat)                   (* Accept returned client [i] *)
| HasSlot (i : nat)              (* its token is taken *)
| Leaving (result : option string)   (* before the deferred functions *)
| Draining (result : option string)  (* in [wait.Wait] *)
| Returned (result : option string).

Record server := mkServer {
  loop : accept_loop;
  listening : bool;
  clients : list client;
  tokens : Z;
  active : Z;
  nextID : Z;
  rejected : Z;
  backoff : Z;
  cancelled : bool;     (* [serveContext] is done *)
  watched : bool        (* the watcher has closed everything and ended *)
}.

Definition start : server := mkServer Accepting true [] 0 0 0 0 0 false false.

(** ** Updates *)

Definition set_loop (l : accept_loop) (s : server) : server :=
  mkServer l (listening s) (clients s) (tokens s) (active s) (nextID s) (rejected s) (backoff s)
    (cancelled s) (watched s).
Definition set_clients (l : list client) (s : server) : server :=
  mkServer (loop s) (listening s) l (tokens s) (active s) (nextID s) (rejected s) (backoff s)
    (cancelled s) (watched s).
Definition update (i : nat) (f : client -> client) (s : server) : server :=
  set_clients (alter f i (clients s)) s.
Definition add_tokens (dtokens dactive : Z) (s : server) : server :=
  mkServer (loop s) (listening s) (clients s) (tokens s + dtokens) (active s + dactive) (nextID s)
    (rejected s) (backoff s) (cancelled s) (watched s).
Definition set_backoff (b : Z) (s : server) : server :=
  mkServer (loop s) (listening s) (clients s) (tokens s) (active s) (nextID s) (rejected s) b
    (cancelled s) (watched s).
Definition count_id (s : server) : server :=
  mkServer (loop s) (listening s) (clients s) (tokens s) (active s) (u64 (nextID s + 1)) (rejected s)
    (backoff s) (cancelled s) (watched s).
Definition count_rejected (s : server) : server :=
  mkServer (loop s) (listening s) (clients s) (tokens s) (active s) (nextID s) (u64 (rejected s + 1))
    (backoff s) (cancelled s) (watched s).

Definition set_at (p : phase) (c : client) : client := mkClient p (ID c) (is_open c) (tracked c).
Definition close (c : client) : client := mkClient (at_ c) (ID c) false (tracked c).
Definition track (add : bool) (c : client) : client := mkClient (at_ c) (ID c) (is_open c) add.
Definition number (id : Z) (c : client) : client := mkClient (at_ c) id (is_open c) (tracked c).

Definition close_tracked (c : client) : client := if tracked c then close c else c.

(** [listener.Close] and [closeActive]. *)
Definition close_all (s : server) : server :=
  mkServer (loop s) false (close_tracked <$> clients s) (tokens s) (active s) (nextID s) (rejected s)
    (backoff s) (cancelled s) (watched s).

Definition set_cancelled (s : server) : server :=
  mkServer (loop s) (listening s) (clients s) (tokens s) (active s) (nextID s) (rejected s) (backoff s)
    true (watched s).
Definition set_watched (s : server) : server :=
  mkServer (loop s) (listening s) (clients s) (tokens s) (active s) (nextID s) (rejected s) (backoff s)
    (cancelled s) true.

(** The next delay after a temporary failure of Accept. *)
Definition next_backoff (b : Z) : Z :=
  let b := if b =? 0 then 5 * Millisecond else b * 2 in
  if Second <? b then Second else b.

(** ** Steps *)

Inductive action :=
| Arrive                                 (* Accept returns a connection *)
| AcceptTemporary                        (* Accept fails with a temporary error *)
| AcceptFails (err : string)             (* Accept fails for good *)
| Cancel                                 (* the context ends *)
| TimerFires
| Watch                                  (* the watcher sees the context end *)
| LoopStep (prefer_done : bool)          (* with both cases of the select ready, which one *)
| HandlerReturns (i : nat)
| CloseStep (i : nat).

(** The next statement of [Serve]; [None] while it waits. *)
Definition loop_step (c : ListenerConfig) (prefer_done : bool) (s : server) : option server :=
  match loop s with
  | Accepting => if listening s then None else Some (set_loop (Leaving None) s)
  | BackingOff => if cancelled s then Some (set_loop (Leaving None) s) else None
  | Got i =>
      let room := tokens s <? MaxConnections c in
      if cancelled s && (prefer_done || negb room)
      then Some (set_loop (Leaving None) (update i (fun k => set_at Refused (close k)) s))
      else if room
      then Some (set_loop (HasSlot i) (update i (set_at Entered) (add_tokens 1 0 s)))
      else Some (set_loop Accepting (update i (fun k => set_at Refused (close k)) (count_rejected s)))
  | HasSlot i =>
      Some (set_loop Accepting
              (update i (fun k => set_at Handling (track true (number (u64 (nextID s + 1)) k)))
                 (count_id (add_tokens 0 1 s))))
  | Leaving result => Some (set_loop (Draining result) (close_all (set_cancelled s)))
  | Draining result =>
      if forallb (fun k => match at_ k with Done | Refused => true | _ => false end) (clients s)
      then Some (set_loop (Returned result) s) else None
  | Returned _ => None
  end.

(** The deferred functions of a handler's goroutine. *)
Definition close_step (i : nat) (k : client) (s : server) : option server :=
  match at_ k with
  | Cleanup => Some (update i (fun k => set_at Uncounted (track false (close k))) (add_tokens 0 (-1) s))
  | Uncounted => Some (update i (set_at Freed) (add_tokens (-1) 0 s))
  | Freed => Some (update i (set_at Done) s)
  | _ => None
  end.

(** An answer of Accept, which an open listener gives while the loop waits. *)
Definition accepting (s : server) : bool :=
  match loop s with Accepting => listening s | _ => false end.

Definition step (c : ListenerConfig) (a : action) (s : server) : option server :=
  match a with
  | Arrive =>
      if accepting s
      then Some (set_loop (Got (List.length (clients s)))
                   (set_backoff 0 (set_clients (clients s ++ [mkClient Waiting 0 true false]) s)))
      else None
  | AcceptTemporary =>
      if accepting s then
        if cancelled s then Some (set_loop (Leaving None) s)
        else Some (set_loop BackingOff (set_backoff (next_backoff (backoff s)) s))
      else None
  | AcceptFails err =>
      if accepting s
      then Some (set_loop (Leaving (if cancelled s then None else Some err)) s) else None
  | Cancel => if cancelled s then None else Some (set_cancelled s)
  | TimerFires => match loop s with BackingOff => Some (set_loop Accepting s) | _ => None end
  | Watch => if cancelled s && negb (watched s) then Some (set_watched (close_all s)) else None
  | LoopStep prefer_done => loop_step c prefer_done s
  | HandlerReturns i =>
      k ← clients s !! i;
      match at_ k with Handling => Some (update i (set_at Cleanup) s) | _ => None end
  | CloseStep i => k ← clients s !! i; close_step i k s
  end.

(** What the process does by itself; a handler whose connection has been closed
    returns by itself. *)
Definition internal (a : action) (s : server) : bool :=
  match a with
  | TimerFires | Watch | LoopStep _ | CloseStep _ => true
  | HandlerReturns i => match clients s !! i with Some k => negb (is_open k) | None => false end
  | _ => false
  end.

Definition reachable (c : ListenerConfig) (s : server) : Prop := steps (step c) start s.

(** [Serve] has returned and nothing it started is left. *)
Definition ended (k : client) : Prop :=
  (at_ k = Done \/ at_ k = Refused) /\ is_open k = false /\ tracked k = false.

Definition finished (s : server) : Prop :=
  (exists result, loop s = Returned result) /\ listening s = false /\
  tokens s = 0 /\ active s = 0 /\ Forall ended (clients s).

(** ** One client's reads and transport *)

(** [Client.ReadMessage]: the deadline first, then the codec. *)
Definition ReadMessage {E A} (set_deadline : option E) (read : E + A) : E + A :=
  match set_deadline with Some err => inl err | None => read end.

Inductive transport := Plain | Secure.

(** [Client.UpgradeTLS]: the transport that later packets use, and the error. *)
Definition UpgradeTLS {E} (required : E) (config : bool) (set_deadline handshake clear_deadline : option E)
    (t : transport) : transport * option E :=
  if negb config then (t, Some required) else
  match set_deadline with
  | Some err => (t, Some err)
  | None =>
      match handshake with
      | Some err => (t, Some err)
      | None =>
          match clear_deadline with
          | Some err => (t, Some err)
          | None => (Secure, None)
          end
      end
  end.

(** ** The invariant *)

Definition token (k : client) : Z :=
  match at_ k with Entered | Handling | Cleanup | Uncounted => 1 | _ => 0 end.

Definition counted (k : client) : Z := match at_ k with Handling | Cleanup => 1 | _ => 0 end.

Definition client_ok (k : client) : Prop :=
  match at_ k with
  | Waiting | Entered => tracked k = false
  | Handling | Cleanup => tracked k = true
  | Refused | Uncounted | Freed | Done => is_open k = false /\ tracked k = false
  end.

Definition pending_ok (lp : accept_loop) (ks : list client) : Prop :=
  handover (fun k => at_ k = Waiting) (fun k => at_ k = Entered)
    (fun j => lp = Got j) (fun j => lp = HasSlot j) ks.

(** The loop has left: the deferred functions run or have run. *)
Definition taken_down (s : server) : Prop :=
  match loop s with Draining _ | Returned _ => True | _ => False end.

Record inv (c : ListenerConfig) (s : server) : Prop := {
  inv_tokens : tokens s = total token (clients s);
  inv_active : active s = total counted (clients s);
  inv_max : tokens s <= MaxConnections c;
  inv_clients : Forall client_ok (clients s);
  inv_pending : pending_ok (loop s) (clients s);
  inv_backoff : 0 <= backoff s <= Second;
  inv_down : taken_down s ->
    listening s = false /\ Forall (fun k => is_open k = false) (clients s);
  inv_returned : (exists r, loop s = Returned r) -> Forall (fun k => at_ k = Done \/ at_ k = Refused) (clients s)
}.

Lemma listener_start_inv c : 0 <= MaxConnections c -> inv c start.
Proof.
  intros Hc. split; cbn; try done. split; [by intros j l Hj; rewrite lookup_nil in Hj|by intros j [?|?]].
Qed.

Lemma close_tracked_at k : at_ (close_tracked k) = at_ k.
Proof. unfold close_tracked. by destruct (tracked k). Qed.

Lemma close_tracked_ok k : client_ok k -> client_ok (close_tracked k).
Proof.
  intros Hk. unfold close_tracked. destruct (tracked k) eqn:E; [|done].
  unfold client_ok in *. cbn [close at_ is_open tracked]. destruct (at_ k); try done; by destruct Hk.
Qed.

(** Closing everything changes no place. *)
Lemma close_all_inv c s : inv c s -> inv c (close_all s).
Proof.
  intros [I1 I2 I3 I4 I5 I6 I7 I8].
  assert (forall k, token (close_tracked k) = token k) as T by (intros k; unfold token; by rewrite close_tracked_at).
  assert (forall k, counted (close_tracked k) = counted k) as C by (intros k; unfold counted; by rewrite close_tracked_at).
  split; cbn [close_all tokens active clients loop listening backoff]; try done.
  - by rewrite total_fmap.
  - by rewrite total_fmap.
  - apply Forall_fmap. eapply List.Forall_impl; [|exact I4]. intros k. apply close_tracked_ok.
  - apply handover_fmap; [..|done]; intros k; by rewrite close_tracked_at.
  - intros Hd. destruct (I7 Hd) as [_ Hc]. split; [done|]. apply Forall_fmap. eapply List.Forall_impl; [|exact Hc].
    intros k Hk. cbn. unfold close_tracked. by destruct (tracked k).
  - intros Hr. apply Forall_fmap. eapply List.Forall_impl; [|exact (I8 Hr)]. intros k Hk. cbn. by rewrite close_tracked_at.
Qed.

(** A client moves on. *)
Lemma listener_inv_move c s s' i k f :
  inv c s -> clients s !! i = Some k -> clients s' = alter f i (clients s) ->
  tokens s' = tokens s - token k + token (f k) -> active s' = active s - counted k + counted (f k) ->
  tokens s' <= MaxConnections c -> client_ok (f k) ->
  pending_ok (loop s') (alter f i (clients s)) ->
  backoff s' = backoff s -> (taken_down s' -> taken_down s) -> (listening s' = listening s) ->
  (is_open k = false -> is_open (f k) = false) ->
  (forall r, loop s' <> Returned r) -> inv c s'.
Proof.
  intros [I1 I2 I3 I4 I5 I6 I7 I8] Hi Hl Hs Ha Hm Hk Hp Hb Hd Hli Ho Hr.
  split; rewrite ?Hl, ?Hb, ?Hli, ?(total_alter _ _ _ _ _ Hi); try done; [lia..| | |].
  - by eapply Forall_alter_one.
  - intros Ht. destruct (I7 (Hd Ht)) as [H1 H2]. split; [done|]. eapply Forall_alter_one; [done|done|].
    apply Ho. exact (proj1 (Forall_lookup _ _) H2 i k Hi).
  - intros [r E]. by destruct (Hr r).
Qed.

(** The loop goes somewhere else without a client in hand. *)
Lemma inv_loop c s s' :
  inv c s -> clients s' = clients s -> tokens s' = tokens s -> active s' = active s ->
  listening s' = listening s -> 0 <= backoff s' <= Second ->
  (forall j, loop s <> Got j /\ loop s <> HasSlot j /\ loop s' <> Got j /\ loop s' <> HasSlot j) ->
  (taken_down s' -> taken_down s) ->
  ((exists r, loop s' = Returned r) -> Forall (fun k => at_ k = Done \/ at_ k = Refused) (clients s)) ->
  inv c s'.
Proof.
  intros [I1 I2 I3 I4 I5 I6 I7 I8] Hc Ht Ha Hl Hb Hlo Hd Hr.
  split; rewrite ?Hc, ?Ht, ?Ha, ?Hl; try done; [|by intros ?%Hd%I7].
  eapply handover_iff; [| |exact I5]; intros j; destruct (Hlo j) as (?&?&?&?); by split.
Qed.

Lemma next_backoff_bounds b : 0 <= b <= Second -> 0 <= next_backoff b <= Second.
Proof.
  intros Hb. unfold next_backoff. cbv zeta. assert (5 * Millisecond <= Second) by (vm_compute; discriminate).
  assert (0 <= 5 * Millisecond) by (vm_compute; discriminate).
  destruct (b =? 0); case_goal; bool_props; lia.
Qed.

Lemma client_lookup c s i k : inv c s -> clients s !! i = Some k -> client_ok k.
Proof. intros Hv Hi. exact (proj1 (Forall_lookup _ _) (inv_clients _ _ Hv) i k Hi). Qed.

Lemma listener_arrive_inv c s s' : inv c s -> step c Arrive s = Some s' -> inv c s'.
Proof.
  cbn [step]. unfold accepting. intros [I1 I2 I3 I4 I5 I6 I7 I8] H. destruct (loop s) eqn:El; try done.
  destruct (listening s) eqn:Eo; [|done]. injection H as <-.
  split; cbn [set_loop set_clients set_backoff tokens active clients loop listening backoff]; try done.
  - rewrite total_app, total_one. cbn. lia.
  - rewrite total_app, total_one. cbn. lia.
  - apply Forall_app. split; [done|]. by apply Forall_singleton.
  - eapply handover_arrive; [exact I5|done..| |done]. intros j. split; [by intros [= ->]|by intros ->].
  - by intros [r [=]].
Qed.

(** The client the loop has in hand. *)
Lemma in_hand c s i :
  inv c s -> loop s = Got i \/ loop s = HasSlot i ->
  exists k, clients s !! i = Some k /\ at_ k = (match loop s with Got _ => Waiting | _ => Entered end) /\
    tracked k = false.
Proof.
  intros Hv Hl. destruct (inv_pending _ _ Hv) as [Hp Hb].
  destruct (lookup_lt_is_Some_2 (clients s) i (Hb i Hl)) as [k Hk]. exists k. split; [done|].
  destruct (Hp i k Hk) as [[_ P1] [_ P2]]. pose proof (client_lookup _ _ _ _ Hv Hk) as Ho.
  unfold client_ok in Ho. destruct Hl as [E|E]; rewrite E.
  - specialize (P1 E). by rewrite P1 in Ho.
  - specialize (P2 E). by rewrite P2 in Ho.
Qed.

Lemma listener_loop_step_inv c d s s' : inv c s -> loop_step c d s = Some s' -> inv c s'.
Proof.
  intros Hv H. unfold loop_step in H.
  destruct (loop s) as [| |i|i|r|r|r] eqn:El; try done.
  - destruct (listening s); [done|]. injection H as <-.
    eapply inv_loop; [exact Hv|done..|apply (inv_backoff _ _ Hv)|by intros; rewrite El|by intros []|by intros [? [=]]].
  - destruct (cancelled s); [|done]. injection H as <-.
    eapply inv_loop; [exact Hv|done..|apply (inv_backoff _ _ Hv)|by intros; rewrite El|by intros []|by intros [? [=]]].
  - destruct (in_hand c s i Hv (or_introl El)) as (k & Hk & Hw & Ht). rewrite El in Hw.
    pose proof (inv_max _ _ Hv) as Hm. pose proof (inv_pending _ _ Hv) as Hp. rewrite El in Hp.
    assert (forall lp, (forall j, lp <> Got j) -> (forall j, lp = HasSlot j <-> j = i /\ lp = HasSlot i) ->
      forall f, (at_ (f k) = Waiting <-> False) -> (at_ (f k) = Entered <-> lp = HasSlot i) ->
        pending_ok lp (alter f i (clients s))) as Hgo.
    { intros lp N1 N2 f F1 F2. eapply handover_alter; [exact Hp|exact Hk| |done|].
      - split; [by intros ?%F1|by intros ?%N1].
      - intros j Hj. split; split; [by intros ?%N1|by intros [= ->]|by intros [? _]%N2|done]. }
    assert (forall s', s' = set_loop (Leaving None) (update i (fun k => set_at Refused (close k)) s) \/
      s' = set_loop Accepting (update i (fun k => set_at Refused (close k)) (count_rejected s)) -> inv c s') as Hrefuse.
    { intros t [->| ->]; (eapply (listener_inv_move c s); [exact Hv|exact Hk|reflexivity|..]);
        unfold token, counted, client_ok, taken_down; rewrite ?Hw; cbn; try lia; try done;
        apply Hgo; try done; intros j; (split; [done|by intros [? ?]]). }
    destruct (cancelled s && (d || negb (tokens s <? MaxConnections c))).
    { injection H as <-. apply Hrefuse. by left. }
    destruct (Z.ltb_spec (tokens s) (MaxConnections c)); injection H as <-; [|apply Hrefuse; by right].
    (eapply (listener_inv_move c s); [exact Hv|exact Hk|reflexivity|..]);
      unfold token, counted, client_ok, taken_down; rewrite ?Hw; cbn; try lia; try done.
    apply Hgo; try done. intros j. split; [by intros [= ->]|by intros [-> _]].
  - destruct (in_hand c s i Hv (or_intror El)) as (k & Hk & Hw & Ht). rewrite El in Hw.
    pose proof (inv_max _ _ Hv) as Hm. pose proof (inv_pending _ _ Hv) as Hp. rewrite El in Hp.
    injection H as <-. (eapply (listener_inv_move c s); [exact Hv|exact Hk|reflexivity|..]);
      unfold token, counted, client_ok, taken_down; rewrite ?Hw; cbn; try lia; try done.
    eapply handover_alter; [exact Hp|exact Hk|done|done|]. intros j Hj. by split; split; intros [= E].
  - injection H as <-.
    assert (inv c (set_cancelled s)) as Hc by (by destruct Hv; split).
    pose proof (close_all_inv _ _ Hc) as [I1 I2 I3 I4 I5 I6 I7 I8].
    split; cbn [set_loop tokens active clients loop listening backoff]; try done; [| |by intros [? [=]]].
    + eapply handover_iff; [| |exact I5]; intros j; cbn [close_all set_cancelled loop]; by rewrite El.
    + intros _. split; [done|]. apply List.Forall_forall. intros k' Hin. cbn [close_all clients set_cancelled] in Hin.
      apply in_map_iff in Hin as (k & <- & Hin). apply list_elem_of_In, list_elem_of_lookup in Hin as [i Hi].
      pose proof (client_lookup _ _ _ _ Hv Hi) as Hk. destruct (inv_pending _ _ Hv) as [Hp _].
      destruct (Hp i k Hi) as [[P1 _] [P2 _]]. unfold close_tracked, client_ok in *.
      destruct (at_ k) eqn:Ea; try (by rewrite Hk); try (by rewrite (proj2 Hk), (proj1 Hk)).
      * specialize (P1 eq_refl). congruence.
      * specialize (P2 eq_refl). congruence.
  - destruct (forallb _ _) eqn:Ef; [|done]. injection H as <-.
    eapply inv_loop; [exact Hv|done..|apply (inv_backoff _ _ Hv)|by intros; rewrite El|by unfold taken_down; rewrite El|].
    intros _. apply List.Forall_forall. intros k Hin. rewrite forallb_forall in Ef. specialize (Ef k Hin).
    destruct (at_ k); try done; [by right|by left].
Qed.

Lemma client_step_inv c s s' i k f :
  inv c s -> clients s !! i = Some k -> clients s' = alter f i (clients s) ->
  at_ k <> Waiting -> at_ k <> Entered -> at_ k <> Done -> at_ k <> Refused ->
  at_ (f k) <> Waiting -> at_ (f k) <> Entered ->
  tokens s' = tokens s - token k + token (f k) -> active s' = active s - counted k + counted (f k) ->
  token (f k) <= token k -> client_ok (f k) -> (is_open k = false -> is_open (f k) = false) ->
  loop s' = loop s -> listening s' = listening s -> backoff s' = backoff s -> inv c s'.
Proof.
  intros Hv Hi Hl N1 N2 N3 N4 N5 N6 Ht Ha Hm Hk Ho Hlo Hli Hb.
  destruct (inv_pending _ _ Hv) as [Hp Hb'].
  eapply listener_inv_move; try done.
  - pose proof (inv_max _ _ Hv). lia.
  - rewrite Hlo. destruct (Hp i k Hi) as [P1 P2]. eapply handover_alter; [exact (conj Hp Hb')|done|tauto|tauto|done].
  - unfold taken_down. by rewrite Hlo.
  - intros r E. rewrite Hlo in E. pose proof (inv_returned _ _ Hv (ex_intro _ r E)) as Hr.
    by destruct (proj1 (Forall_lookup _ _) Hr i k Hi).
Qed.

Lemma listener_step_inv c a s s' : inv c s -> step c a s = Some s' -> inv c s'.
Proof.
  intros Hv H. destruct a as [| |err| | | |d|i|i].
  - by eapply listener_arrive_inv.
  - cbn [step] in H. unfold accepting in H. destruct (loop s) eqn:El; try done. destruct (listening s); [|done].
    destruct (cancelled s); injection H as <-; (eapply inv_loop; [exact Hv|done..| |by intros; rewrite El|by intros []|by intros [? [=]]]).
    + apply (inv_backoff _ _ Hv).
    + apply next_backoff_bounds, (inv_backoff _ _ Hv).
  - cbn [step] in H. unfold accepting in H. destruct (loop s) eqn:El; try done. destruct (listening s); [|done].
    injection H as <-. eapply inv_loop; [exact Hv|done..|apply (inv_backoff _ _ Hv)|by intros; rewrite El|by intros []|by intros [? [=]]].
  - cbn [step] in H. destruct (cancelled s); [done|]. injection H as <-. by destruct Hv; split.
  - cbn [step] in H. destruct (loop s) eqn:El; try done. injection H as <-.
    eapply inv_loop; [exact Hv|done..|apply (inv_backoff _ _ Hv)|by intros; rewrite El|by intros []|by intros [? [=]]].
  - cbn [step] in H. case_hyp H; [|done]. injection H as <-. apply close_all_inv in Hv. by destruct Hv; split.
  - by eapply listener_loop_step_inv.
  - cbn [step] in H. destruct (clients s !! i) as [k|] eqn:Hi; [|done]. cbn in H.
    pose proof (client_lookup _ _ _ _ Hv Hi) as Hk. unfold client_ok in Hk.
    destruct (at_ k) eqn:Ea; try done. injection H as <-.
    (eapply client_step_inv; [exact Hv|exact Hi|reflexivity|by rewrite Ea..| | | | | | | | | |]); try done;
      unfold token, counted, client_ok; rewrite ?Ea; cbn; try lia; done.
  - cbn [step] in H. destruct (clients s !! i) as [k|] eqn:Hi; [|done]. cbn in H.
    pose proof (client_lookup _ _ _ _ Hv Hi) as Hk. unfold client_ok in Hk. unfold close_step in H.
    destruct (at_ k) eqn:Ea; try done; injection H as <-;
      (eapply client_step_inv; [exact Hv|exact Hi|reflexivity|by rewrite Ea..| | | | | | | | | |]); try done;
      unfold token, counted, client_ok; rewrite ?Ea; cbn; try lia; done.
Qed.

Lemma listener_reachable_inv c s : 0 <= MaxConnections c -> reachable c s -> inv c s.
Proof.
  intros Hc Hs. eapply (steps_invariant (step c) (inv c)); [|by apply listener_start_inv|exact Hs].
  intros a t t'. apply listener_step_inv.
Qed.

(** ** Taking down *)

Definition weight (p : phase) : Z :=
  match p with
  | Waiting => 6 | Entered => 5 | Handling => 4 | Cleanup => 3 | Uncounted => 2 | Freed => 1
  | Done | Refused => 0
  end.

Definition loop_weight (lp : accept_loop) : Z :=
  match lp with
  | BackingOff => 4 | Accepting | Got _ | HasSlot _ => 3 | Leaving _ => 2 | Draining _ => 1
  | Returned _ => 0
  end.

(** What is left to do once the listener is closed. *)
Definition work (s : server) : Z :=
  total (fun k => weight (at_ k)) (clients s) + loop_weight (loop s)
  + Z.b2z (negb (cancelled s)) + Z.b2z (negb (watched s)).

Record closing (c : ListenerConfig) (s : server) : Prop := {
  closing_inv : inv c s;
  closing_listener : listening s = false
}.

Lemma listener_work_nonneg s : 0 <= work s.
Proof.
  unfold work. pose proof (total_nonneg (fun k => weight (at_ k)) (clients s) ltac:(intros k; cbn; by destruct (at_ k))).
  assert (0 <= loop_weight (loop s)) by (by destruct (loop s)).
  destruct (cancelled s), (watched s); cbn; lia.
Qed.

Lemma listener_work_move s s' i k f :
  clients s !! i = Some k -> clients s' = alter f i (clients s) ->
  cancelled s' = cancelled s -> watched s' = watched s ->
  weight (at_ (f k)) + loop_weight (loop s') < weight (at_ k) + loop_weight (loop s) -> work s' < work s.
Proof.
  intros Hi Hl Hc Hs Hw. unfold work. rewrite Hl, Hc, Hs, (total_alter _ _ _ _ _ Hi). lia.
Qed.

Lemma work_close_all s : work (close_all s) = work s.
Proof.
  unfold work. cbn [close_all clients loop cancelled watched]. rewrite total_fmap; [done|].
  intros k. by rewrite close_tracked_at.
Qed.

Lemma loop_step_work c d s s' : closing c s -> loop_step c d s = Some s' -> work s' < work s.
Proof.
  intros Hq H. unfold loop_step in H. pose proof (closing_inv _ _ Hq) as Hv.
  destruct (loop s) as [| |i|i|r|r|r] eqn:El; try done.
  - rewrite (closing_listener _ _ Hq) in H. injection H as <-. unfold work. cbn [set_loop clients loop cancelled watched].
    rewrite El. cbn [loop_weight]. lia.
  - destruct (cancelled s) eqn:Ec; [|done]. injection H as <-. unfold work. cbn [set_loop clients loop cancelled watched].
    rewrite El. cbn [loop_weight]. lia.
  - destruct (in_hand c s i Hv (or_introl El)) as (k & Hk & Hw & _). rewrite El in Hw.
    repeat case_hyp H; injection H as <-; (eapply listener_work_move; [exact Hk|reflexivity|done|done|]);
      cbn [set_loop loop]; rewrite El, Hw; cbn; lia.
  - destruct (in_hand c s i Hv (or_intror El)) as (k & Hk & Hw & _). rewrite El in Hw.
    injection H as <-; (eapply listener_work_move; [exact Hk|reflexivity|done|done|]);
      cbn [set_loop loop]; rewrite El, Hw; cbn; lia.
  - injection H as <-. pose proof (work_close_all (set_cancelled s)) as Hw.
    unfold work in *. cbn [set_loop close_all set_cancelled clients loop cancelled watched] in *.
    rewrite El in *. destruct (cancelled s), (watched s); cbn [loop_weight negb Z.b2z] in *; lia.
  - destruct (forallb _ _); [|done]. injection H as <-. unfold work. cbn [set_loop clients loop cancelled watched].
    rewrite El. cbn [loop_weight]. lia.
Qed.

Lemma step_closing c a s s' : closing c s -> step c a s = Some s' -> closing c s' /\ work s' < work s.
Proof.
  intros Hq H. pose proof (closing_listener _ _ Hq) as Ho. pose proof (closing_inv _ _ Hq) as Hv.
  assert (listening s' = false /\ work s' < work s) as [Hl Hw];
    [|split; [split; [by eapply listener_step_inv|done]|done]].
  assert (forall P : Prop, accepting s = true -> P) as Hno.
  { intros P. unfold accepting. destruct (loop s); try done. by rewrite Ho. }
  destruct a as [| |err| | | |d|i|i]; cbn [step] in H.
  - destruct (accepting s) eqn:E; [by apply Hno|done].
  - destruct (accepting s) eqn:E; [by apply Hno|done].
  - destruct (accepting s) eqn:E; [by apply Hno|done].
  - destruct (cancelled s) eqn:Ec; [done|]. injection H as <-. split; [done|].
    unfold work. cbn [set_cancelled clients loop cancelled watched]. rewrite Ec. cbn [negb Z.b2z]. lia.
  - destruct (loop s) eqn:El; try done. injection H as <-. split; [done|].
    unfold work. cbn [set_loop clients loop cancelled watched]. rewrite El. cbn [loop_weight]. lia.
  - destruct (cancelled s); [|done]. destruct (watched s) eqn:Ew; [done|]. injection H as <-. split; [done|].
    pose proof (work_close_all s) as Hw. unfold work in *.
    cbn [set_watched close_all clients loop cancelled watched] in *. rewrite Ew in Hw |- *. cbn [negb Z.b2z] in *. lia.
  - split; [|by eapply loop_step_work]. unfold loop_step in H.
    destruct (loop s); try done; repeat case_hyp H; try done; injection H as <-; done.
  - destruct (clients s !! i) as [k|] eqn:Hi; [|done]. cbn in H. destruct (at_ k) eqn:Ea; try done.
    injection H as <-. split; [done|]. eapply listener_work_move; [exact Hi|reflexivity|done|done|]. rewrite Ea. cbn. lia.
  - destruct (clients s !! i) as [k|] eqn:Hi; [|done]. cbn in H. unfold close_step in H.
    destruct (at_ k) eqn:Ea; try done; injection H as <-; (split; [done|]);
      (eapply listener_work_move; [exact Hi|reflexivity|done|done|]); rewrite Ea; cbn; lia.
Qed.

Lemma returned_finished c s r : inv c s -> loop s = Returned r -> finished s.
Proof.
  intros Hv El. destruct (inv_down _ _ Hv) as [Hl Ho]; [unfold taken_down; by rewrite El|].
  pose proof (inv_returned _ _ Hv (ex_intro _ r El)) as Hd.
  assert (forall k, k ∈ clients s -> ended k /\ token k = 0 /\ counted k = 0) as Hall.
  { intros k [i Hi]%list_elem_of_lookup. pose proof (client_lookup _ _ _ _ Hv Hi) as Hk.
    pose proof (proj1 (Forall_lookup _ _) Hd i k Hi) as He. unfold client_ok, token, counted, ended in *.
    destruct He as [E|E]; rewrite E in *; destruct Hk; split_and!; auto. }
  split_and!; [by exists r|done|..].
  - rewrite (inv_tokens _ _ Hv). apply total_zero. intros k Hk. by apply Hall.
  - rewrite (inv_active _ _ Hv). apply total_zero. intros k Hk. by apply Hall.
  - apply List.Forall_forall. intros k Hk. apply Hall. by apply list_elem_of_In.
Qed.

#[local] Instance phase_eq_dec : EqDecision phase.
Proof. solve_decision. Defined.

Lemma closing_progress c s :
  closing c s -> finished s \/ exists a s', internal a s = true /\ step c a s = Some s'.
Proof.
  intros Hq. pose proof (closing_inv _ _ Hq) as Hv. pose proof (inv_pending _ _ Hv) as [Hp _].
  assert (forall s', loop_step c false s = Some s' -> exists a s', internal a s = true /\ step c a s = Some s') as Hls.
  { intros s' Hs. by exists (LoopStep false), s'. }
  destruct (loop s) as [| |i|i|r|r|r] eqn:El; unfold loop_step in Hls; rewrite El in Hls.
  - right. eapply Hls. by rewrite (closing_listener _ _ Hq).
  - right. exists TimerFires. eexists. split; [done|]. cbn [step]. by rewrite El.
  - right. repeat case_hyp Hls; by eapply Hls.
  - right. by eapply Hls.
  - right. by eapply Hls.
  - right. destruct (forallb _ _) eqn:Ef; [by eapply Hls|]. clear Hls.
    apply not_true_iff_false in Ef. rewrite forallb_forall in Ef.
    destruct (decide (Forall (fun k => at_ k = Done \/ at_ k = Refused) (clients s))) as [Hd|Hd].
    { destruct Ef. intros k Hk. rewrite List.Forall_forall in Hd. by destruct (Hd k Hk) as [-> | ->]. }
    apply not_Forall_Exists in Hd; [|intros k; apply _].
    apply List.Exists_exists in Hd as (k & Hk & Hn). apply list_elem_of_In, list_elem_of_lookup in Hk as [i Hi].
    destruct (inv_down _ _ Hv) as [_ Ho]; [unfold taken_down; by rewrite El|].
    pose proof (proj1 (Forall_lookup _ _) Ho i k Hi) as Hok. cbn in Hok.
    destruct (Hp i k Hi) as [[P1 _] [P2 _]].
    destruct (at_ k) eqn:Ea.
    + by specialize (P1 eq_refl).
    + destruct Hn. by right.
    + by specialize (P2 eq_refl).
    + exists (HandlerReturns i). eexists. split; [cbn; by rewrite Hi, Hok|]. cbn [step]. rewrite Hi. cbn. by rewrite Ea.
    + exists (CloseStep i). eexists. split; [done|]. cbn [step]. rewrite Hi. cbn. unfold close_step. by rewrite Ea.
    + exists (CloseStep i). eexists. split; [done|]. cbn [step]. rewrite Hi. cbn. unfold close_step. by rewrite Ea.
    + exists (CloseStep i). eexists. split; [done|]. cbn [step]. rewrite Hi. cbn. unfold close_step. by rewrite Ea.
    + destruct Hn. by left.
  - left. by eapply returned_finished.
Qed.

(** C18.  Once its listener is closed, [Serve] ends and leaves nothing behind: under
    every schedule of the accept loop, the watcher and the handlers, and whatever
    clients and the timer do, it reaches a state where [Serve] has returned, every
    handler has ended and no connection, token or count is left.  A client that was
    accepted while the context ended is closed by the deferred functions, after the
    loop, so none is missed. *)
Theorem listener_ends (c : ListenerConfig) (s : server)
    (Hmax : 0 <= MaxConnections c) (Hs : reachable c s) (Hclosed : listening s = false) :
  eventually (step c) internal finished s.
Proof.
  apply (eventually_by_measure (step c) internal (closing c) finished work).
  - intros t _. apply listener_work_nonneg.
  - apply closing_progress.
  - intros a t t'. apply step_closing.
  - split; [by apply listener_reachable_inv|done].
Qed.

(** In every reachable state at most [MaxConnections] clients hold a token and
    the reported number of active connections is between zero and that; the delay
    between failing accepts is at most a second; and when [Serve] returns, with
    whatever error, nothing it started is left. *)
Theorem listener_bounded (c : ListenerConfig) (s : server) (Hmax : 0 <= MaxConnections c) (Hs : reachable c s) :
  0 <= active s <= tokens s /\ tokens s <= MaxConnections c /\ 0 <= backoff s <= Second /\
  forall r, loop s = Returned r -> finished s.
Proof.
  pose proof (listener_reachable_inv c s Hmax Hs) as Hv. split_and!.
  - rewrite (inv_active _ _ Hv). apply total_nonneg. intros k. unfold counted. by destruct (at_ k).
  - rewrite (inv_active _ _ Hv), (inv_tokens _ _ Hv). apply total_le. intros k _. unfold counted, token. by destruct (at_ k).
  - apply (inv_max _ _ Hv).
  - apply (inv_backoff _ _ Hv).
  - apply (inv_backoff _ _ Hv).
  - intros r. by eapply returned_finished.
Qed.

(** ** Witnesses *)

Definition two_slots : ListenerConfig := mkListenerConfig 2 67108864 300000000000.

(** A client is being handled, another has just been accepted when the context
    ends; its connection is closed only by the deferred functions. *)
Definition late_schedule : list action :=
  [AcceptTemporary; TimerFires; Arrive; LoopStep false; LoopStep false; Arrive; Cancel; Watch;
   LoopStep false; LoopStep false].

Definition late : server := default start (run (step two_slots) late_schedule start).

Lemma late_reachable : reachable two_slots late.
Proof. apply (run_steps _ late_schedule). vm_compute. reflexivity. Qed.

Lemma listener_ends_witness :
  active late = 2 /\ map is_open (clients late) = [false; true] /\
  eventually (step two_slots) internal finished late.
Proof.
  split; [vm_compute; reflexivity|]. split; [vm_compute; reflexivity|].
  apply (listener_ends two_slots late); [vm_compute; discriminate|exact late_reachable|vm_compute; reflexivity].
Defined.

Lemma listener_bounded_witness : active late = 2 /\ active late <= 2.
Proof.
  split; [vm_compute; reflexivity|].
  destruct (listener_bounded two_slots late ltac:(vm_compute; discriminate) late_reachable) as ((_ & H1) & H2 & _).
  exact (Z.le_trans _ _ _ H1 H2).
Defined.

End Listener.
