(* ===== verification/Lifecycle.v ===== *)
(** * Process lifecycle ([internal/lifecycle/state.go])

    The observable process state and its transition table.  [Manager] holds one
    [Snapshot]; [Transition] replaces it when [allowed] accepts the move and
    leaves it alone otherwise.  The mutex makes every call atomic, so a history
    of the manager is a sequence of calls. *)

From stdpp Require Import base list numbers strings option.
From Stdlib Require Import ZArith Lia.
From S2P Require Import Prelude.

Module Lifecycle.

Inductive State := Starting | Ready | Draining | Stopped | Failed.

#[export] Instance State_eq_dec : EqDecision State.
Proof. solve_decision. Defined.

(** The string values of the constants, used in the error text. *)
Definition state_string (s : State) : string :=
  match s with
  | Starting => "starting" | Ready => "ready" | Draining => "draining"
  | Stopped => "stopped" | Failed => "failed"
  end.

(** Instants are nanoseconds on the UTC time line; [time.Time.UTC] keeps the
    instant. *)
Record Snapshot := mkSnapshot { snap_state : State; snap_since : Z; snap_reason : string }.

(** [Manager]: the mutex-protected snapshot. *)
Record Manager := mkManager { snapshot : Snapshot }.

Definition New (now : Z) : Manager := mkManager (mkSnapshot Starting now "").

Definition IsLive (m : Manager) : bool := bool_decide (snap_state (snapshot m) <> Stopped).

Definition IsReady (m : Manager) : bool := bool_decide (snap_state (snapshot m) = Ready).

Definition allowed (current next : State) : bool :=
  if decide (current = next) then true else
  match current with
  | Starting =>
      bool_decide (next = Ready) || bool_decide (next = Draining)
      || bool_decide (next = Failed) || bool_decide (next = Stopped)
  | Ready => bool_decide (next = Draining) || bool_decide (next = Failed)
  | Draining => bool_decide (next = Stopped) || bool_decide (next = Failed)
  | Failed => bool_decide (next = Draining) || bool_decide (next = Stopped)
  | Stopped => false
  end.

(** [Transition] returns the new manager and the error, if any. *)
Definition Transition (m : Manager) (next : State) (reason : string) (now : Z)
  : Manager * option string :=
  if negb (allowed (snap_state (snapshot m)) next) then
    (m, Some ("illegal lifecycle transition from " +:+ state_string (snap_state (snapshot m))
              +:+ " to " +:+ state_string next))
  else (mkManager (mkSnapshot next now reason), None).

(** A history: the calls made on a manager, in the order the mutex admits
    them. *)
Record call := mkCall { call_next : State; call_reason : string; call_now : Z }.

Definition apply_call (m : Manager) (c : call) : Manager :=
  (Transition m (call_next c) (call_reason c) (call_now c)).1.

Definition run (m : Manager) (cs : list call) : Manager := foldl apply_call m cs.

(** Rank of a state along the intended order.  [Draining] and [Failed] share
    a rank: the table allows both directions between them. *)
Definition rank (s : State) : nat :=
  match s with Starting => 0 | Ready => 1 | Draining => 2 | Failed => 2 | Stopped => 3 end.

(** ** Lemmas *)

Lemma allowed_rank s t : allowed s t = true -> rank s <= rank t.
Proof. destruct s, t; vm_compute; intros; try discriminate; lia. Qed.

Lemma allowed_same_rank s t :
  allowed s t = true -> rank s = rank t -> s = t \/ rank s = 2.
Proof. destruct s, t; vm_compute; intros; try discriminate; auto. Qed.

Lemma apply_call_rank m c :
  rank (snap_state (snapshot m)) <= rank (snap_state (snapshot (apply_call m c))).
Proof.
  unfold apply_call, Transition. destruct (allowed _ _) eqn:Ha; simpl; [|lia].
  by apply allowed_rank.
Qed.

Lemma run_rank cs : forall m,
  rank (snap_state (snapshot m)) <= rank (snap_state (snapshot (run m cs))).
Proof.
  induction cs as [|c cs IH]; intros m; [simpl; lia|].
  etrans; [apply apply_call_rank|apply (IH (apply_call m c))].
Qed.

Lemma run_app m cs ds : run m (cs ++ ds) = run (run m cs) ds.
Proof. apply foldl_app. Qed.

(** Ready is the only state of rank 1, Stopped the only one of rank 3. *)
Lemma ready_rank s : rank s = 1 <-> s = Ready.
Proof. destruct s; split; simpl; congruence || lia. Qed.

Lemma stopped_rank s : 3 <= rank s <-> s = Stopped.
Proof. destruct s; split; simpl; congruence || lia. Qed.

Lemma isReady_iff m : IsReady m = true <-> snap_state (snapshot m) = Ready.
Proof. apply bool_decide_eq_true. Qed.

Lemma isLive_iff m : IsLive m = true <-> snap_state (snapshot m) <> Stopped.
Proof. apply bool_decide_eq_true. Qed.

(** ** Properties *)

(** Readiness is an interval of the process history.  In any history of
    [Transition] calls on a new manager, if the process is ready at two points
    it was ready at every point in between: once it drains, fails or stops it
    is never reported ready again, whatever transitions are attempted and
    however they interleave. *)
Theorem ready_is_convex (now : Z) (before between after : list call) :
  IsReady (run (New now) before) = true ->
  IsReady (run (New now) (before ++ between ++ after)) = true ->
  IsReady (run (New now) (before ++ between)) = true.
Proof.
  rewrite !isReady_iff, <- !ready_rank, !run_app. intros H1 H2.
  pose proof (run_rank between (run (New now) before)) as Hb.
  pose proof (run_rank after (run (run (New now) before) between)) as Ha. lia.
Qed.

Definition ready_example : list call :=
  [mkCall Ready "ready" 1; mkCall Starting "restart" 2; mkCall Ready "again" 3]%Z.

Theorem ready_is_convex_witness :
  IsReady (run (New 0) (take 1 ready_example ++ drop 1 (take 2 ready_example))) = true.
Proof.
  apply (ready_is_convex 0 (take 1 ready_example) (drop 1 (take 2 ready_example))
           (drop 2 ready_example)); vm_compute; reflexivity.
Defined.

(** [Transition] is atomic and stopping is final.  A refused transition
    leaves the snapshot as it was and returns an error; an accepted one
    installs exactly the requested state, reason and time; and from [Stopped]
    every history leaves the process stopped and not live. *)
Theorem transition_contract (m : Manager) (next : State) (reason : string) (now : Z) :
  let '(m', err) := Transition m next reason now in
  (err = None <-> allowed (snap_state (snapshot m)) next = true) /\
  (err = None -> snapshot m' = mkSnapshot next now reason) /\
  (err <> None -> m' = m) /\
  (snap_state (snapshot m) = Stopped -> forall cs, IsLive (run m' cs) = false).
Proof.
  unfold Transition. destruct (allowed _ _) eqn:Ha; simpl; split_and!; try done.
  - intros Hs cs. apply bool_decide_eq_false. intros Hn; apply Hn.
    rewrite Hs in Ha. apply allowed_rank, stopped_rank in Ha; subst next.
    apply stopped_rank.
    exact (run_rank cs (mkManager (mkSnapshot Stopped now reason))).
  - intros Hs cs. apply bool_decide_eq_false. intros Hn; apply Hn.
    apply stopped_rank. etrans; [|apply run_rank]. by rewrite Hs.
Qed.

End Lifecycle.
