(* ===== verification/Classify.v ===== *)
(** * SQL classification ([internal/engine/classify.go])

    [ClassifySQL] decides, from the text of one statement, which path of the
    gateway may run it.  It works on trimmed, upper-cased text and refuses what
    it does not know. *)

From stdpp Require Import base list numbers strings option.
From Stdlib Require Import ZArith Lia Ascii String.
From S2P Require Import Prelude GoStrings.

Module Classify.
Local Open Scope string_scope.

(** [StatementKind] is a string type: a value outside the constants is
    [OtherKind]. *)
Inductive StatementKind :=
| StatementEmpty | StatementRead | StatementWrite | StatementDDL
| StatementBegin | StatementCommit | StatementRollback | StatementSavepoint
| StatementAutocommitOn | StatementAutocommitOff | StatementSetNames
| StatementUseDatabase | StatementWarningCount | StatementUnsupported
| OtherKind (text : string).

#[export] Instance StatementKind_eq_dec : EqDecision StatementKind.
Proof. solve_decision. Defined.

Record Statement := mkStatement { st_kind : StatementKind; st_sql : string; st_reason : string }.

Definition single_quote : ascii := char 39.
Definition double_quote : ascii := char 34.
Definition backtick : ascii := char 96.
Definition backslash : ascii := char 92.
Definition semicolon : ascii := char 59.

Definition is_quote (c : ascii) : bool :=
  Ascii.eqb c single_quote || Ascii.eqb c double_quote || Ascii.eqb c backtick.

(** ** Leading comments

    The loop shortens [value] on every round; [String.length query] rounds are
    always enough ([strip_fuel_irrelevant]). *)

Definition dash_comment (value : string) : bool :=
  has_prefix "--" value &&
  ((String.length value =? 2)%nat ||
   match str_get 2 value with
   | Some c => Ascii.eqb c (char 32) || Ascii.eqb c tab
               || Ascii.eqb c carriage_return || Ascii.eqb c newline
   | None => false
   end).

Definition strip_step (value : string) : option string :=
  if has_prefix "/*" value then
    match go_find "*/" (str_drop 2 value) with
    | None => Some ""
    | Some e => Some (trim_space (str_drop (e + 4) value))
    end
  else if has_prefix "#" value || dash_comment value then
    match index_byte newline value with
    | None => Some ""
    | Some e => Some (trim_space (str_drop (e + 1) value))
    end
  else None.

Fixpoint strip_fuel (fuel : nat) (value : string) : string :=
  match fuel with
  | O => value
  | S f =>
      if String.eqb value "" then value else
      match strip_step value with
      | None => value
      | Some v => strip_fuel f v
      end
  end.

Definition stripLeadingComments (query : string) : string :=
  let value := trim_space query in strip_fuel (S (String.length value)) value.

(** ** Statement separators

    One pass with the open quote character, if any, and the escape flag. *)

Fixpoint separator_scan (quote : option ascii) (escaped : bool) (query : string) : bool :=
  match query with
  | EmptyString => false
  | String current rest =>
      match quote with
      | Some q =>
          if escaped then separator_scan quote false rest
          else if Ascii.eqb current backslash && negb (Ascii.eqb q backtick)
          then separator_scan quote true rest
          else if Ascii.eqb current q then separator_scan None false rest
          else separator_scan quote false rest
      | None =>
          if is_quote current then separator_scan (Some current) false rest
          else if Ascii.eqb current semicolon
                  && negb (String.eqb (stripLeadingComments rest) "")
          then true
          else separator_scan None false rest
      end
  end.

Definition hasMultipleStatements (query : string) : bool := separator_scan None false query.

(** ** Reads *)

Definition unsafe_fragments : list string :=
  ["GET_LOCK("; "RELEASE_LOCK("; "IS_FREE_LOCK("; "IS_USED_LOCK(";
   "LAST_INSERT_ID("; "FOUND_ROWS("; "ROW_COUNT("; "CONNECTION_ID(";
   "SQL_CALC_FOUND_ROWS"; " INTO OUTFILE"; " INTO DUMPFILE"].

Definition unsafeReadReason (upper : string) : string :=
  if existsb (fun fragment => contains fragment upper) unsafe_fragments then
    "connection-state or side-effect read is unsafe for a shared pool"
  else if contains "@" (replace_all "@@" "" upper) then
    "user variables are unsafe for a shared pool"
  else if has_prefix "SHOW WARNINGS" upper || has_prefix "SHOW ERRORS" upper
          || has_prefix "SHOW STATUS" upper || has_prefix "SHOW SESSION" upper then
    "connection-local diagnostics are unsafe for a shared pool"
  else "".

(** ** The classifier *)

(** [len(fields)]. *)
Definition nfields (fs : list string) : nat := List.length fs.

Definition field (n : nat) (fs : list string) : string := default "" (fs !! n).

(** [len(fields) == 1 || len(fields) == 2 && fields[1] == "WORK"] *)
Definition bare_or_work (fs : list string) : bool :=
  (nfields fs =? 1)%nat || (nfields fs =? 2)%nat && String.eqb (field 1 fs) "WORK".

Definition blank (c : ascii) : bool :=
  Ascii.eqb c (char 32) || Ascii.eqb c tab || Ascii.eqb c carriage_return || Ascii.eqb c newline.

Definition compact_set (upper : string) : string :=
  trim_prefix "SET" (trim_prefix "SET@@" (trim_prefix "SET@@SESSION."
    (trim_prefix "SETSESSION" (remove_bytes blank upper)))).

Definition classify_set (upper trimmed : string) (fs : list string) : Statement :=
  let compact := compact_set upper in
  if str_mem compact ["AUTOCOMMIT=1"; "AUTOCOMMIT=ON"] then
    mkStatement StatementAutocommitOn trimmed ""
  else if str_mem compact ["AUTOCOMMIT=0"; "AUTOCOMMIT=OFF"] then
    mkStatement StatementAutocommitOff trimmed ""
  else if (nfields fs =? 3)%nat && String.eqb (field 1 fs) "NAMES"
          && String.eqb (trim_set (fun c => Ascii.eqb c single_quote || Ascii.eqb c double_quote)
                           (field 2 fs)) "UTF8MB4" then
    mkStatement StatementSetNames trimmed ""
  else if (1 <? nfields fs)%nat && String.eqb (field 1 fs) "NAMES" then
    mkStatement StatementUnsupported trimmed "only SET NAMES utf8mb4 is safe in pooled mode"
  else mkStatement StatementUnsupported trimmed "session-changing SET is unsafe for a shared pool".

Definition classify_rollback (trimmed : string) (fs : list string) : Statement :=
  if (1 <? nfields fs)%nat
     && (String.eqb (field 1 fs) "TO"
         || String.eqb (field 1 fs) "WORK" && (2 <? nfields fs)%nat && String.eqb (field 2 fs) "TO")
  then mkStatement StatementSavepoint trimmed ""
  else if bare_or_work fs then mkStatement StatementRollback trimmed ""
  else mkStatement StatementUnsupported trimmed
         "ROLLBACK modifiers are not supported in pooled mode".

Definition read_words : list string := ["SELECT"; "SHOW"; "DESC"; "DESCRIBE"; "EXPLAIN"].
Definition write_words : list string := ["INSERT"; "UPDATE"; "DELETE"; "REPLACE"].
Definition ddl_words : list string := ["CREATE"; "ALTER"; "DROP"; "TRUNCATE"; "RENAME"].
Definition refused_words : list string :=
  ["CALL"; "LOAD"; "LOCK"; "UNLOCK"; "PREPARE"; "EXECUTE"; "DEALLOCATE"; "DO"; "HANDLER";
   "ANALYZE"; "OPTIMIZE"; "CHECK"; "REPAIR"; "RESET"; "KILL"].

(** The [switch fields[0]] of [ClassifySQL]; [fs] is not empty. *)
Definition classify_fields (upper trimmed : string) (fs : list string) : Statement :=
  let word := field 0 fs in
  let refuse reason := mkStatement StatementUnsupported trimmed reason in
  let accept kind := mkStatement kind trimmed "" in
  if str_mem word read_words then
    if String.eqb (join " " fs) "SHOW COUNT(*) WARNINGS" then accept StatementWarningCount
    else let reason := unsafeReadReason upper in
         if negb (String.eqb reason "") then refuse reason else accept StatementRead
  else if str_mem word write_words then
    if contains " RETURNING" upper then
      refuse "DML RETURNING result sets are not supported in pooled mode"
    else accept StatementWrite
  else if str_mem word ddl_words then
    if (1 <? nfields fs)%nat && String.eqb (field 1 fs) "TEMPORARY" then
      refuse "temporary objects are unsafe for a shared pool"
    else accept StatementDDL
  else if String.eqb word "BEGIN" then
    if bare_or_work fs then accept StatementBegin
    else refuse "transaction modifiers are not supported in pooled mode"
  else if String.eqb word "START" then
    if (nfields fs =? 2)%nat && String.eqb (field 1 fs) "TRANSACTION" then accept StatementBegin
    else refuse "transaction modifiers are not supported in pooled mode"
  else if String.eqb word "COMMIT" then
    if bare_or_work fs then accept StatementCommit
    else refuse "COMMIT modifiers are not supported in pooled mode"
  else if String.eqb word "ROLLBACK" then classify_rollback trimmed fs
  else if str_mem word ["SAVEPOINT"; "RELEASE"] then accept StatementSavepoint
  else if String.eqb word "USE" then accept StatementUseDatabase
  else if String.eqb word "SET" then classify_set upper trimmed fs
  else if String.eqb word "WITH" then
    refuse "common table expressions are not classified in this build"
  else if str_mem word refused_words then
    refuse "stateful or multi-result statement is not supported in pooled mode"
  else refuse "statement type is not supported in pooled mode".

Section Classifier.
Context {U : UnicodeCase}.

Definition ClassifySQL (query : string) : Statement :=
  let trimmed := trim_space query in
  if String.eqb trimmed "" then mkStatement StatementEmpty query "" else
  if hasMultipleStatements trimmed then
    mkStatement StatementUnsupported query "multiple statements are not enabled" else
  let trimmed := trim_space (trim_suffix ";" trimmed) in
  let visible := stripLeadingComments trimmed in
  if String.eqb visible "" then mkStatement StatementEmpty query "" else
  let upper := to_upper visible in
  let fs := fields upper in
  if (nfields fs =? 0)%nat then mkStatement StatementEmpty query ""
  else classify_fields upper trimmed fs.
End Classifier.

(** ** Lemmas on comments *)

Lemma strip_step_cases value v :
  strip_step value = Some v ->
  v = "" \/ exists n, 0 < n /\ v = trim_space (str_drop n value).
Proof.
  unfold strip_step. repeat case_goal; intros [= <-]; auto; right;
    eexists; (split; [|reflexivity]); lia.
Qed.

Lemma strip_step_shorter value v :
  value <> "" -> strip_step value = Some v -> String.length v < String.length value.
Proof.
  intros Hne [->|(n & Hn & ->)]%strip_step_cases; [destruct value; simpl; [done|lia]|].
  eapply Nat.le_lt_trans; [apply trim_space_length|]. rewrite str_drop_length.
  destruct value; simpl; [done|lia].
Qed.

Lemma strip_step_part value v : strip_step value = Some v -> part_of v value.
Proof.
  intros [->|(n & _ & ->)]%strip_step_cases; auto with accel.
  etrans; [apply trim_space_part|auto with accel].
Qed.

Lemma strip_fuel_done fuel value :
  String.length value <= fuel ->
  let v := strip_fuel fuel value in v = "" \/ strip_step v = None.
Proof.
  revert value; induction fuel as [|f IH]; intros value Hl; simpl.
  - left. destruct value; [done|simpl in Hl; lia].
  - destruct (String.eqb_spec value ""); [by left|].
    destruct (strip_step value) as [v|] eqn:E; [|by right].
    apply IH. apply strip_step_shorter in E; [lia|done].
Qed.

Lemma strip_fuel_part fuel value : part_of (strip_fuel fuel value) value.
Proof.
  revert value; induction fuel as [|f IH]; intros value; simpl; [done|].
  destruct (String.eqb value ""); [done|].
  destruct (strip_step value) as [v|] eqn:E; [|done].
  etrans; [apply IH|]. by apply strip_step_part.
Qed.

(** ** Lemmas on separators *)

(** The lexer state after reading a text: the open quote and the escape
    flag. *)
Fixpoint lex (quote : option ascii) (escaped : bool) (s : string) : option ascii * bool :=
  match s with
  | EmptyString => (quote, escaped)
  | String c r =>
      match quote with
      | Some q =>
          if escaped then lex quote false r
          else if Ascii.eqb c backslash && negb (Ascii.eqb q backtick) then lex quote true r
          else if Ascii.eqb c q then lex None false r
          else lex quote false r
      | None => if is_quote c then lex (Some c) false r else lex None false r
      end
  end.

(** An unquoted semicolon followed by visible text. *)
Definition separates (quote : option ascii) (escaped : bool) (query a b : string) : Prop :=
  query = a ++ String semicolon b /\ (lex quote escaped a).1 = None /\
  stripLeadingComments b <> "".

Definition separable (quote : option ascii) (escaped : bool) (query : string) : Prop :=
  exists a b, separates quote escaped query a b.

(** Reading one byte that is not a separator. *)
Lemma separable_step quote escaped q' e' c r :
  (forall a, lex quote escaped (String c a) = lex q' e' a) ->
  (c = semicolon -> quote = None -> stripLeadingComments r = "") ->
  separable quote escaped (String c r) <-> separable q' e' r.
Proof.
  intros Hlex Hno. split.
  - intros (a & b & Heq & Hl & Hs). destruct a as [|d a].
    + injection Heq as -> ->. cbn in Hl. subst quote. by destruct Hs; apply Hno.
    + injection Heq as -> Heq. exists a, b. unfold separates. by rewrite <- Hlex.
  - intros (a & b & -> & Hl & Hs). exists (String c a), b.
    unfold separates. by rewrite Hlex.
Qed.

Lemma separator_scan_spec query : forall quote escaped,
  separator_scan quote escaped query = true <-> separable quote escaped query.
Proof.
  induction query as [|c r IH]; intros quote escaped.
  { split; [done|]. intros ([] & b & [=] & _). }
  cbn [separator_scan]. destruct quote as [q|].
  - destruct escaped; [|destruct (Ascii.eqb c backslash && _) eqn:?;
      [|destruct (Ascii.eqb c q) eqn:?]];
      rewrite IH; symmetry; apply separable_step; try discriminate;
      intros a; cbn [lex]; repeat case_match; congruence.
  - destruct (is_quote c) eqn:Hq.
    { rewrite IH. symmetry. apply separable_step; [|by intros ->].
      intros a. cbn [lex]. by rewrite Hq. }
    assert (Hlex : forall a, lex None false (String c a) = lex None false a)
      by (intros a; cbn [lex]; by rewrite Hq).
    destruct (Ascii.eqb_spec c semicolon) as [->|Hne]; cbn [andb].
    + destruct (String.eqb_spec (stripLeadingComments r) "") as [He|He]; cbn [negb].
      * rewrite IH. symmetry. by apply separable_step.
      * split; [intros _|done]. by exists "", r.
    + rewrite IH. symmetry. by apply separable_step.
Qed.

(** ** Lemmas on user variables *)

Definition at_sign : ascii := char 64.

(** Every maximal run of at signs has even length: there are system variables
    only, no user variable.  [odd]: the run read so far is odd. *)
Fixpoint at_runs_even (odd : bool) (s : string) : bool :=
  match s with
  | EmptyString => negb odd
  | String c r =>
      if Ascii.eqb c at_sign then at_runs_even (negb odd) r
      else negb odd && at_runs_even false r
  end.

Lemma at_prefix c s : has_prefix "@" (String c s) = Ascii.eqb c at_sign.
Proof.
  unfold has_prefix. cbn [prefix]. change "064"%char with at_sign.
  destruct (ascii_dec at_sign c) as [<-|Hne]; [by destruct s|].
  symmetry. by apply Ascii.eqb_neq.
Qed.

Lemma at_pairs_removed fuel s :
  String.length s <= fuel ->
  contains "@" (replace_all_fuel fuel "@@" "" s) = negb (at_runs_even false s).
Proof.
  revert s; induction fuel as [|f IH]; intros [|c r] Hl; try done; [simpl in Hl; lia|].
  cbn [replace_all_fuel]. destruct (has_prefix "@@" (String c r)) eqn:Hp.
  - apply has_prefix_inv in Hp. cbn [String.length str_drop] in *.
    destruct r as [|d r]; [discriminate|]. injection Hp as -> ->.
    cbn in Hl. change ("" ++ ?x) with x. rewrite IH by lia. done.
  - rewrite contains_cons. cbn in Hl. rewrite IH by lia. cbn [at_runs_even].
    rewrite at_prefix. destruct (Ascii.eqb_spec c at_sign) as [->|Hne]; [|done].
    destruct r as [|d r]; [done|]. cbn [at_runs_even orb negb].
    destruct (Ascii.eqb_spec d at_sign) as [->|Hd]; [|done].
    exfalso. revert Hp. apply not_false_iff_true. apply (has_prefix_app "@@").
Qed.

Lemma user_variable_scan s : contains "@" (replace_all "@@" "" s) = negb (at_runs_even false s).
Proof. by apply at_pairs_removed. Qed.

(** ** Lemmas on the switch *)

Lemma nfields_1 fs : (nfields fs =? 1)%nat = true -> fs = [field 0 fs].
Proof. by destruct fs as [|? []]. Qed.

Lemma nfields_2 fs : (nfields fs =? 2)%nat = true -> fs = [field 0 fs; field 1 fs].
Proof. by destruct fs as [|? [|? []]]. Qed.

Ltac string_props :=
  repeat match goal with
  | H : String.eqb _ _ = true |- _ => apply String.eqb_eq in H
  | H : String.eqb _ _ = false |- _ => apply String.eqb_neq in H
  | H : str_mem _ _ = true |- _ => apply str_mem_true in H
  end.

Lemma bare_or_work_cases fs :
  bare_or_work fs = true -> fs = [field 0 fs] \/ fs = [field 0 fs; "WORK"].
Proof.
  unfold bare_or_work. intros [H|H]%orb_prop.
  - left. by apply nfields_1.
  - right. apply andb_prop in H as [H1 H2]. apply nfields_2 in H1. string_props. congruence.
Qed.

(** Closes the branches of the switch that lead to a control statement. *)
Ltac control_words :=
  repeat (case_goal; try discriminate); intros _; bool_props; string_props;
  match goal with
  | H : bare_or_work _ = true, W : field 0 _ = _ |- _ =>
      apply bare_or_work_cases in H as [H|H]; rewrite H, W; simpl; auto
  | H : nfields _ = 2, W : field 0 _ = _, V : field 1 _ = _ |- _ =>
      apply Nat.eqb_eq, nfields_2 in H; rewrite H, W, V; simpl; auto
  end.

Lemma classify_begin upper trimmed fs :
  st_kind (classify_fields upper trimmed fs) = StatementBegin <->
  In fs [["BEGIN"]; ["BEGIN"; "WORK"]; ["START"; "TRANSACTION"]].
Proof.
  split; [|intros H; repeat destruct H as [<-|H]; done].
  unfold classify_fields, classify_rollback, classify_set. cbv zeta.
  control_words.
Qed.

Lemma classify_commit upper trimmed fs :
  st_kind (classify_fields upper trimmed fs) = StatementCommit <->
  In fs [["COMMIT"]; ["COMMIT"; "WORK"]].
Proof.
  split; [|intros H; repeat destruct H as [<-|H]; done].
  unfold classify_fields, classify_rollback, classify_set. cbv zeta.
  control_words.
Qed.

Lemma classify_rollback_kind upper trimmed fs :
  st_kind (classify_fields upper trimmed fs) = StatementRollback <->
  In fs [["ROLLBACK"]; ["ROLLBACK"; "WORK"]].
Proof.
  split; [|intros H; repeat destruct H as [<-|H]; done].
  unfold classify_fields, classify_rollback, classify_set. cbv zeta.
  control_words.
Qed.

Lemma classify_read upper trimmed fs :
  st_kind (classify_fields upper trimmed fs) = StatementRead <->
  In (field 0 fs) read_words /\ join " " fs <> "SHOW COUNT(*) WARNINGS" /\
  unsafeReadReason upper = "".
Proof.
  unfold classify_fields, classify_rollback, classify_set. cbv zeta.
  rewrite <- str_mem_true. destruct (str_mem (field 0 fs) read_words).
  - destruct (String.eqb_spec (join " " fs) "SHOW COUNT(*) WARNINGS"); [naive_solver|].
    destruct (String.eqb_spec (unsafeReadReason upper) ""); cbn [negb]; naive_solver.
  - split; [|by intros []]. repeat (case_goal; try discriminate).
Qed.

Lemma classify_fields_shape upper trimmed fs :
  let s := classify_fields upper trimmed fs in
  st_sql s = trimmed /\ st_kind s <> StatementEmpty /\
  (st_kind s = StatementUnsupported <-> st_reason s <> "") /\
  (forall text, st_kind s <> OtherKind text).
Proof.
  cbv zeta. unfold classify_fields, classify_rollback, classify_set. cbv zeta.
  repeat case_goal; bool_props; string_props; split_and!; try done; split; congruence.
Qed.

Lemma unsafeReadReason_none upper :
  unsafeReadReason upper = "" <->
  (forall fragment, In fragment unsafe_fragments -> ~ part_of fragment upper) /\
  at_runs_even false upper = true /\
  (forall p, In p ["SHOW WARNINGS"; "SHOW ERRORS"; "SHOW STATUS"; "SHOW SESSION"] ->
     has_prefix p upper = false).
Proof.
  unfold unsafeReadReason. rewrite user_variable_scan.
  destruct (existsb _ _) eqn:E1.
  { split; [discriminate|]. intros [H _]. apply existsb_exists in E1 as (f & Hf & Hc).
    destruct (H f Hf). by apply contains_spec. }
  destruct (at_runs_even false upper) eqn:E2; cbn [negb]; [|split; [done|by intros (_&?&_)]].
  assert (Hfr : forall f, In f unsafe_fragments -> ~ part_of f upper).
  { intros f Hf Hp. apply contains_spec in Hp.
    assert (existsb (fun fragment => contains fragment upper) unsafe_fragments = true)
      by (apply existsb_exists; eauto). congruence. }
  destruct (_ || _ || _ || _) eqn:E3; (split; [try done|try done]).
  - intros (_ & _ & H). rewrite !H in E3 by (cbn; auto). done.
  - intros _. bool_props. split_and!; [done|done|].
    intros p Hp. cbn in Hp. naive_solver.
Qed.

(** The view of a query the classifier works on. *)
Definition body (query : string) : string := trim_space (trim_suffix ";" (trim_space query)).

Section Views.
Context {U : UnicodeCase}.

Definition visible_upper (query : string) : string :=
  to_upper (stripLeadingComments (body query)).
Definition words (query : string) : list string := fields (visible_upper query).

Definition one_statement (query : string) : Prop :=
  ~ separable None false (trim_space query).

Lemma classify_words query :
  one_statement query -> words query <> [] ->
  ClassifySQL query = classify_fields (visible_upper query) (body query) (words query).
Proof.
  intros Hone Hw. unfold ClassifySQL. cbv zeta.
  destruct (String.eqb_spec (trim_space query) "") as [He|_].
  { destruct Hw. unfold words, visible_upper, body. by rewrite He. }
  destruct (hasMultipleStatements _) eqn:Hm.
  { destruct Hone. by apply separator_scan_spec. }
  fold (body query).
  destruct (String.eqb_spec (stripLeadingComments (body query)) "") as [He|_].
  { destruct Hw. unfold words, visible_upper. by rewrite He. }
  fold (visible_upper query). fold (words query).
  destruct (nfields (words query) =? 0)%nat eqn:Hn; [|done].
  destruct Hw. apply Nat.eqb_eq in Hn. by apply nil_length_inv.
Qed.

Lemma classify_no_words query :
  one_statement query -> words query = [] ->
  ClassifySQL query = mkStatement StatementEmpty query "".
Proof.
  intros Hone Hw. unfold ClassifySQL. cbv zeta.
  destruct (String.eqb_spec (trim_space query) "") as [He|_]; [done|].
  destruct (hasMultipleStatements _) eqn:Hm.
  { destruct Hone. by apply separator_scan_spec. }
  fold (body query).
  destruct (String.eqb_spec (stripLeadingComments (body query)) "") as [He|_]; [done|].
  fold (visible_upper query). fold (words query). by rewrite Hw.
Qed.

Lemma classify_multiple query :
  ~ one_statement query ->
  ClassifySQL query =
    mkStatement StatementUnsupported query "multiple statements are not enabled".
Proof.
  intros Hn. unfold ClassifySQL. cbv zeta.
  destruct (String.eqb_spec (trim_space query) "") as [He|_].
  { destruct Hn. unfold one_statement. rewrite He. intros ([] & ? & [=] & _). }
  destruct (hasMultipleStatements _) eqn:Hm; [done|].
  destruct Hn. intros Hs. apply separator_scan_spec in Hs.
  unfold hasMultipleStatements in Hm. congruence.
Qed.

Lemma one_statement_dec query : one_statement query \/ ~ one_statement query.
Proof.
  unfold one_statement. rewrite <- separator_scan_spec.
  destruct (separator_scan _ _ _); naive_solver.
Qed.

(** A kind other than empty and unsupported comes from the switch. *)
Lemma classify_kind query k :
  k <> StatementEmpty -> k <> StatementUnsupported ->
  st_kind (ClassifySQL query) = k <->
  one_statement query /\
  st_kind (classify_fields (visible_upper query) (body query) (words query)) = k /\
  words query <> [].
Proof.
  intros H1 H2. destruct (one_statement_dec query) as [Ho|Ho].
  - destruct (decide (words query = [])) as [Hw|Hw].
    + rewrite classify_no_words by done. cbn. naive_solver.
    + rewrite classify_words by done. naive_solver.
  - rewrite classify_multiple by done. cbn. naive_solver.
Qed.
End Views.

(** ** Properties *)

(** C36.  Transaction control is recognised exactly.  A query is classified as
    BEGIN, COMMIT or ROLLBACK if and only if it is a single statement whose
    visible words, upper-cased, are one of the listed forms; no modifier, no
    extra word and no second statement gets through, and no listed form is
    missed.  The forwarded SQL is the trimmed body, a statement is refused
    exactly when a reason is given, and no kind outside the constants is ever
    produced. *)
Theorem transaction_control_exact {U : UnicodeCase} (query : string) :
  let s := ClassifySQL query in
  (st_kind s = StatementBegin <->
     one_statement query /\
     In (words query) [["BEGIN"]; ["BEGIN"; "WORK"]; ["START"; "TRANSACTION"]]) /\
  (st_kind s = StatementCommit <->
     one_statement query /\ In (words query) [["COMMIT"]; ["COMMIT"; "WORK"]]) /\
  (st_kind s = StatementRollback <->
     one_statement query /\ In (words query) [["ROLLBACK"]; ["ROLLBACK"; "WORK"]]) /\
  (st_kind s = StatementUnsupported <-> st_reason s <> "") /\
  (st_kind s <> StatementEmpty -> one_statement query -> st_sql s = body query) /\
  (forall text, st_kind s <> OtherKind text).
Proof.
  cbv zeta.
  assert (Hne : forall l, ~ In [] l -> In (words query) l -> words query <> [])
    by (intros l Hl Hi He; rewrite He in Hi; auto).
  split_and!; try (rewrite classify_kind by done;
    rewrite ?classify_begin, ?classify_commit, ?classify_rollback_kind;
    split; [by intros (? & ? & _)|]; intros [Ho Hi]; split_and!; try done;
    revert Hi; apply Hne; cbn; intuition discriminate).
  all: destruct (one_statement_dec query) as [Ho|Ho];
    [destruct (decide (words query = [])) as [Hw|Hw];
      [rewrite classify_no_words by done|rewrite classify_words by done;
       pose proof (classify_fields_shape (visible_upper query) (body query) (words query)) as
         (Hs & He & Hr & Ht)]
    |rewrite classify_multiple by done]; cbn; try done.
Qed.

(** What a read may contain.  A query is classified as a read if and only
    if it is a single statement that starts with SELECT, SHOW, DESC, DESCRIBE
    or EXPLAIN, is not the warning count, contains none of the listed
    connection-state fragments anywhere in its upper-cased text, uses at signs
    only in pairs (system variables, never a user variable), and is not one of
    the connection-local SHOW forms. *)
Theorem read_is_connection_neutral {U : UnicodeCase} (query : string) :
  st_kind (ClassifySQL query) = StatementRead <->
  one_statement query /\
  In (field 0 (words query)) read_words /\
  join " " (words query) <> "SHOW COUNT(*) WARNINGS" /\
  (forall fragment, In fragment unsafe_fragments -> ~ part_of fragment (visible_upper query)) /\
  at_runs_even false (visible_upper query) = true /\
  (forall p, In p ["SHOW WARNINGS"; "SHOW ERRORS"; "SHOW STATUS"; "SHOW SESSION"] ->
     has_prefix p (visible_upper query) = false).
Proof.
  rewrite classify_kind by done. rewrite classify_read, unsafeReadReason_none.
  split; [by intros (? & (? & ? & ? & ? & ?) & _)|].
  intros (? & Hw & ? & ? & ? & ?). split_and!; try done.
  intros He. rewrite He in Hw. cbn in Hw. intuition discriminate.
Qed.


(** Comment stripping terminates with a result that is finished.  What is
    left does not start with a comment any more (or is empty), and it is a
    contiguous part of the query: nothing is rewritten, only removed from the
    ends. *)
Theorem strip_comments_complete (query : string) :
  let v := stripLeadingComments query in
  (v = "" \/ strip_step v = None) /\ part_of v query.
Proof.
  unfold stripLeadingComments. cbv zeta. split.
  - apply strip_fuel_done. lia.
  - etrans; [apply strip_fuel_part|apply trim_space_part].
Qed.

(** Gaps of the classifier.  Text that the lists of refused forms mean to
    catch but that is spelled so that they do not: a temporary table under OR
    REPLACE, a lock function with a space before its parenthesis, a user
    variable in a write, and a second statement behind a quote in a comment. *)
Lemma classifier_gaps :
  let kind q := st_kind (@ClassifySQL ascii_case q) in
  kind "CREATE OR REPLACE TEMPORARY TABLE t (id INT)" = StatementDDL /\
  kind "SELECT GET_LOCK ('a', 1)" = StatementRead /\
  kind "INSERT INTO t VALUES (@a := 1)" = StatementWrite /\
  kind "SELECT 1 /* ' */; DROP TABLE t /* ' */" = StatementRead.
Proof. vm_compute. auto. Qed.

End Classify.
