(* ===== verification/Logical.v ===== *)
(** * Logical client sessions ([internal/session/logical.go])

    [Logical] is the state from which the gateway decides whether a client may
    share an upstream connection.  Methods with a pointer receiver are state
    passing functions; the maps of prepared identifiers are finite sets. *)

From stdpp Require Import base list numbers strings option gmap.
From Stdlib Require Import ZArith Lia.
From S2P Require Import Prelude GoStrings Classify.
Import Classify.

Module Logical.
Local Open Scope string_scope.
Local Open Scope list_scope.

Inductive ReuseState := Multiplexable | Replayable | Pinned | Poisoned.

Inductive PinReason :=
| PinNone | PinTransaction | PinAutocommitOff | PinPrepared | PinUserVariable
| PinTemporary | PinLock | PinPoisoned.

#[export] Instance ReuseState_eq_dec : EqDecision ReuseState.
Proof. solve_decision. Defined.
#[export] Instance PinReason_eq_dec : EqDecision PinReason.
Proof. solve_decision. Defined.

Record Baseline := mkBaseline {
  bl_Database : string; bl_Isolation : string; bl_Charset : string;
  bl_Collation : string; bl_TimeZone : string; bl_SQLMode : string }.

#[export] Instance Baseline_eq_dec : EqDecision Baseline.
Proof. solve_decision. Defined.

(** [Prepared] is a map to the empty struct, that is a set of identifiers.
    Every field but [baseline] is assigned by [Reset]. *)
Record Logical := mkLogical {
  baseline : Baseline;
  Database : string;
  Autocommit : bool;
  InTransaction : bool;
  Isolation : string;
  ReadOnly : bool;
  Charset : string;
  Collation : string;
  TimeZone : string;
  SQLMode : string;
  Warnings : Z;
  LastInsertID : Z;
  Prepared : gset Z;
  UserVariables : bool;
  TemporaryState : bool;
  LockRisk : bool;
  poisoned : bool }.

#[export] Instance Logical_eq_dec : EqDecision Logical.
Proof. solve_decision. Defined.

(** Errors; all of them wrap [ErrIllegalTransition]. *)
Inductive illegal :=
| TransactionActive
| SavepointOutside
| NotApplicable (k : StatementKind)
| UnknownKind (k : StatementKind)
| EmptyDatabase
| ZeroPreparedID
| DuplicatePreparedID.

(** ** Field updates *)

Definition set_result (w i : Z) (s : Logical) : Logical :=
  mkLogical (baseline s) (Database s) (Autocommit s) (InTransaction s) (Isolation s)
    (ReadOnly s) (Charset s) (Collation s) (TimeZone s) (SQLMode s) w i (Prepared s)
    (UserVariables s) (TemporaryState s) (LockRisk s) (poisoned s).

Definition set_tx (ac tx : bool) (s : Logical) : Logical :=
  mkLogical (baseline s) (Database s) ac tx (Isolation s)
    (ReadOnly s) (Charset s) (Collation s) (TimeZone s) (SQLMode s) (Warnings s)
    (LastInsertID s) (Prepared s) (UserVariables s) (TemporaryState s) (LockRisk s) (poisoned s).

Definition set_names (db cs : string) (s : Logical) : Logical :=
  mkLogical (baseline s) db (Autocommit s) (InTransaction s) (Isolation s)
    (ReadOnly s) cs (Collation s) (TimeZone s) (SQLMode s) (Warnings s) (LastInsertID s)
    (Prepared s) (UserVariables s) (TemporaryState s) (LockRisk s) (poisoned s).

Definition set_prepared (p : gset Z) (s : Logical) : Logical :=
  mkLogical (baseline s) (Database s) (Autocommit s) (InTransaction s) (Isolation s)
    (ReadOnly s) (Charset s) (Collation s) (TimeZone s) (SQLMode s) (Warnings s)
    (LastInsertID s) p (UserVariables s) (TemporaryState s) (LockRisk s) (poisoned s).

(** [Poison] *)
Definition Poison (s : Logical) : Logical :=
  mkLogical (baseline s) (Database s) (Autocommit s) (InTransaction s) (Isolation s)
    (ReadOnly s) (Charset s) (Collation s) (TimeZone s) (SQLMode s) (Warnings s)
    (LastInsertID s) (Prepared s) (UserVariables s) (TemporaryState s) (LockRisk s) true.

(** ** Methods *)

Definition Reset (s : Logical) : Logical :=
  let b := baseline s in
  mkLogical b (bl_Database b) true false (bl_Isolation b) false (bl_Charset b)
    (bl_Collation b) (bl_TimeZone b) (bl_SQLMode b) 0 0 ∅ false false false false.

(** [NewLogical] resets a zero value that holds only the baseline. *)
Definition NewLogical (b : Baseline) : Logical :=
  Reset (mkLogical b "" false false "" false "" "" "" "" 0 0 ∅ false false false false).

Definition Apply (s : Logical) (statement : Statement) : Logical * option illegal :=
  let s := set_result 0 0 s in
  match st_kind statement with
  | StatementRead | StatementWrite | StatementDDL | StatementWarningCount => (s, None)
  | StatementBegin =>
      if InTransaction s then (s, Some TransactionActive)
      else (set_tx (Autocommit s) true s, None)
  | StatementCommit | StatementRollback => (set_tx (Autocommit s) false s, None)
  | StatementSavepoint =>
      if negb (InTransaction s) then (s, Some SavepointOutside) else (s, None)
  | StatementAutocommitOff => (set_tx false (InTransaction s) s, None)
  | StatementAutocommitOn => (set_tx true false s, None)
  | StatementSetNames => (set_names (Database s) "utf8mb4" s, None)
  | StatementUseDatabase => (s, None)
  | StatementEmpty | StatementUnsupported => (s, Some (NotApplicable (st_kind statement)))
  | OtherKind _ => (Poison s, Some (UnknownKind (st_kind statement)))
  end.

Definition SelectDatabase (s : Logical) (database : string) : Logical * option illegal :=
  if String.eqb database "" then (s, Some EmptyDatabase)
  else (set_names database (Charset s) s, None).

Definition SetResult (s : Logical) (warnings lastInsertID : Z) : Logical :=
  set_result warnings lastInsertID s.

Definition AddPrepared (s : Logical) (id : Z) : Logical * option illegal :=
  if (id =? 0)%Z then (s, Some ZeroPreparedID)
  else if decide (id ∈ Prepared s) then (s, Some DuplicatePreparedID)
  else (set_prepared ({[id]} ∪ Prepared s) s, None).

Definition RemovePrepared (s : Logical) (id : Z) : Logical * bool :=
  if decide (id ∈ Prepared s) then (set_prepared (Prepared s ∖ {[id]}) s, true)
  else (s, false).

(** The sixth case of the [switch]: a setting differs from the baseline. *)
Definition drifted (s : Logical) : bool :=
  let b := baseline s in
  negb (String.eqb (Database s) (bl_Database b)) || negb (String.eqb (Isolation s) (bl_Isolation b))
  || ReadOnly s || negb (String.eqb (Charset s) (bl_Charset b))
  || negb (String.eqb (Collation s) (bl_Collation b))
  || negb (String.eqb (TimeZone s) (bl_TimeZone b)) || negb (String.eqb (SQLMode s) (bl_SQLMode b)).

Definition Reuse (s : Logical) : ReuseState * PinReason :=
  if poisoned s then (Poisoned, PinPoisoned)
  else if InTransaction s then (Pinned, PinTransaction)
  else if negb (Autocommit s) then (Pinned, PinAutocommitOff)
  else if (0 <? size (Prepared s))%nat then (Pinned, PinPrepared)
  else if UserVariables s then (Pinned, PinUserVariable)
  else if TemporaryState s then (Pinned, PinTemporary)
  else if LockRisk s then (Pinned, PinLock)
  else if drifted s then (Replayable, PinNone)
  else (Multiplexable, PinNone).

Definition Disconnect (s : Logical) : Logical := Reset s.

(** ** Histories *)

Definition apply_all (s : Logical) (l : list Statement) : Logical :=
  foldl (fun s st => (Apply s st).1) s l.

Definition ends_transaction (st : Statement) : bool :=
  match st_kind st with
  | StatementCommit | StatementRollback | StatementAutocommitOn => true
  | _ => false
  end.

Definition begins (st : Statement) : bool :=
  match st_kind st with StatementBegin => true | _ => false end.

(** ** Lemmas *)

Lemma apply_all_snoc s l st : apply_all s (l ++ [st]) = (Apply (apply_all s l) st).1.
Proof. unfold apply_all. by rewrite foldl_app. Qed.

(** One statement: the transaction flag. *)
Lemma apply_in_transaction s st :
  InTransaction (Apply s st).1 =
    if begins st then true else if ends_transaction st then false else InTransaction s.
Proof.
  destruct st as [[] ? ?]; unfold Apply, begins, ends_transaction; cbn;
    try done; by destruct (InTransaction s) eqn:E; cbn; rewrite ?E.
Qed.

Lemma apply_poisoned s st :
  poisoned (Apply s st).1 =
    match st_kind st with OtherKind _ => true | _ => poisoned s end.
Proof.
  destruct st as [[] ? ?]; unfold Apply; cbn; try done; by destruct (InTransaction s).
Qed.

Lemma drifted_false s :
  drifted s = false <->
  Database s = bl_Database (baseline s) /\ Isolation s = bl_Isolation (baseline s) /\
  ReadOnly s = false /\ Charset s = bl_Charset (baseline s) /\
  Collation s = bl_Collation (baseline s) /\ TimeZone s = bl_TimeZone (baseline s) /\
  SQLMode s = bl_SQLMode (baseline s).
Proof.
  unfold drifted. rewrite !orb_false_iff, !negb_false_iff, !String.eqb_eq. tauto.
Qed.

(** The state in which every connection is shareable: baseline settings and
    nothing held, whatever the last result was. *)
Lemma multiplexable_iff s :
  Reuse s = (Multiplexable, PinNone) <->
  s = set_result (Warnings s) (LastInsertID s) (NewLogical (baseline s)).
Proof.
  split.
  - unfold Reuse. repeat (case_goal; try discriminate). intros _.
    bool_props. rewrite drifted_false in *. destruct_and!.
    assert (Prepared s = ∅) by (apply leibniz_equiv, size_empty_iff; lia).
    destruct s; cbn in *. subst. done.
  - intros ->. unfold Reuse. cbn. rewrite size_empty. cbn.
    rewrite (proj2 (drifted_false _)) by done. done.
Qed.

Lemma held_prepared s id :
  id ∈ Prepared s -> (Reuse s).1 = Pinned \/ (Reuse s).1 = Poisoned.
Proof.
  intros Hid. unfold Reuse. destruct (poisoned s), (InTransaction s), (Autocommit s); auto.
  destruct (Nat.ltb_spec 0 (size (Prepared s))) as [_|Hs]; [by left|].
  assert (size (Prepared s) = 0) as Hz%size_empty_inv by lia. set_solver.
Qed.

(** ** Properties *)

(** A connection is multiplexable exactly when the session carries no
    state.  [Reuse] answers [Multiplexable] if and only if the session equals a
    freshly created one with the same baseline, up to the warning count and
    last insert id of the last statement; so no pinned, replayable or poisoned
    session is ever taken for a shareable one, and a session that has returned
    to the baseline is never kept. *)
Theorem multiplexable_is_fresh (s : Logical) :
  ((Reuse s).1 = Multiplexable <->
   s = set_result (Warnings s) (LastInsertID s) (NewLogical (baseline s))) /\
  (forall b, (Reuse (NewLogical b)).1 = Multiplexable) /\
  Disconnect s = NewLogical (baseline s).
Proof.
  split_and!.
  - rewrite <- multiplexable_iff. unfold Reuse. repeat case_goal; naive_solver.
  - intros b. by rewrite (proj2 (multiplexable_iff (NewLogical b))).
  - done.
Qed.

(** The transaction flag is the history's.  After any sequence of
    statements, accepted or refused, a new session is in a transaction if and
    only if some BEGIN of the history has no COMMIT, ROLLBACK or SET
    AUTOCOMMIT=1 after it; while it is, the session is pinned for the
    transaction or poisoned, never shared or replayed. *)
Theorem in_transaction_iff_open_begin (b : Baseline) (history : list Statement) :
  let s := apply_all (NewLogical b) history in
  (InTransaction s = true <->
   exists before st after, history = before ++ st :: after /\ begins st = true /\
     Forall (fun st' => ends_transaction st' = false) after) /\
  (InTransaction s = true ->
   Reuse s = (Pinned, PinTransaction) \/ Reuse s = (Poisoned, PinPoisoned)).
Proof.
  cbv zeta. split.
  2: { intros Htx. unfold Reuse. rewrite Htx. destruct (poisoned _); auto. }
  induction history as [|st history IH] using rev_ind.
  { split; [done|]. by intros ([|? ?] & ? & ? & [=] & _). }
  rewrite apply_all_snoc, apply_in_transaction.
  destruct (begins st) eqn:Hb.
  { split; [intros _|done]. by exists history, st, []. }
  split.
  - destruct (ends_transaction st) eqn:He; [done|]. intros Htx.
    apply IH in Htx as (before & st0 & after & -> & Hb0 & Hf).
    exists before, st0, (after ++ [st]). rewrite <- app_assoc.
    split_and!; [done|done|]. apply Forall_app. auto.
  - intros (before & st0 & after & Heq & Hb0 & Hf).
    induction after as [|st1 after _] using rev_ind.
    { apply app_inj_tail in Heq as [_ ->]. congruence. }
    rewrite app_comm_cons, app_assoc in Heq. apply app_inj_tail in Heq as [-> ->].
    apply Forall_app in Hf as [Hf Hl]. rewrite (Forall_inv Hl).
    apply IH. by exists before, st0, after.
Qed.

Definition base0 : Baseline := mkBaseline "app" "" "utf8mb4" "" "" "".

Definition pinned_history : list Statement :=
  [mkStatement StatementAutocommitOff "" ""; mkStatement StatementBegin "" "";
   mkStatement StatementSavepoint "" ""].

Theorem in_transaction_iff_open_begin_witness :
  Reuse (apply_all (NewLogical base0) pinned_history) = (Pinned, PinTransaction) \/
  Reuse (apply_all (NewLogical base0) pinned_history) = (Poisoned, PinPoisoned).
Proof. apply (in_transaction_iff_open_begin base0 pinned_history). reflexivity. Defined.

(** Statement transitions fail closed.  Every call clears the last result.
    A refused statement changes nothing else, except that a kind the session
    does not know also poisons it; once poisoned, no statement history makes
    the session reusable again, only a reset does; and an accepted statement
    never touches the baseline, the prepared identifiers or the settings other
    than the character set. *)
Theorem apply_fails_closed (s : Logical) (st : Statement) :
  let '(s', err) := Apply s st in
  (err <> None -> s' = set_result 0 0 s \/
     (exists text, st_kind st = OtherKind text) /\ s' = Poison (set_result 0 0 s)) /\
  (poisoned s = true -> forall l, Reuse (apply_all s' l) = (Poisoned, PinPoisoned)) /\
  (baseline s' = baseline s /\ Prepared s' = Prepared s /\ Database s' = Database s /\
   Warnings s' = 0%Z /\ LastInsertID s' = 0%Z).
Proof.
  destruct (Apply s st) as [s' err] eqn:E. split_and!.
  2: { intros Hp l. assert (Hp' : poisoned (apply_all s' l) = true).
       { assert (poisoned s' = true).
         { replace s' with ((Apply s st).1) by by rewrite E.
           rewrite apply_poisoned. by case_match. }
         clear E Hp. revert s' H. induction l as [|st' l IH]; intros s' Hs'; [done|].
         apply IH. rewrite apply_poisoned. by case_match. }
       unfold Reuse. by rewrite Hp'. }
  all: destruct st as [[] ? ?]; unfold Apply in E; cbn in E;
    try destruct (InTransaction s); injection E as <- <-; cbn; try done; eauto.
Qed.

Theorem apply_fails_closed_witness :
  let s := Poison (NewLogical base0) in
  let st := mkStatement (OtherKind "future-command") "" "" in
  Reuse (apply_all (Apply s st).1 [mkStatement StatementCommit "" ""]) = (Poisoned, PinPoisoned).
Proof.
  cbv zeta.
  destruct (Apply (Poison (NewLogical base0)) (mkStatement (OtherKind "future-command") "" ""))
    as [s' err] eqn:E.
  pose proof (apply_fails_closed (Poison (NewLogical base0))
    (mkStatement (OtherKind "future-command") "" "")) as H.
  rewrite E in H. destruct H as (_ & H & _). exact (H eq_refl _).
Defined.

(** Prepared identifiers are allocated once.  [AddPrepared] accepts
    exactly the non-zero identifiers that are not in use; a session that holds
    one is pinned (or poisoned); and removing it again restores the session,
    so that closing the last statement releases the pin. *)
Theorem prepared_add_remove (s : Logical) (id : Z) :
  let '(s', err) := AddPrepared s id in
  (err = None <-> id <> 0%Z /\ id ∉ Prepared s) /\
  (err <> None -> s' = s) /\
  (err = None -> (Reuse s').1 = Pinned \/ (Reuse s').1 = Poisoned) /\
  (err = None -> RemovePrepared s' id = (s, true)).
Proof.
  unfold AddPrepared. destruct (Z.eqb_spec id 0); [split_and!; naive_solver|].
  destruct (decide (id ∈ Prepared s)) as [Hin|Hin]; [split_and!; naive_solver|].
  split_and!; [naive_solver|done|intros _|intros _].
  - apply (held_prepared _ id). cbn. set_solver.
  - unfold RemovePrepared. cbn. destruct (decide _) as [_|Hn]; [|set_solver].
    f_equal. destruct s; unfold set_prepared; cbn in *. f_equal. set_solver.
Qed.

Theorem prepared_add_remove_witness :
  RemovePrepared (AddPrepared (NewLogical base0) 7).1 7 = (NewLogical base0, true).
Proof.
  destruct (AddPrepared (NewLogical base0) 7) as [s' err] eqn:E.
  pose proof (prepared_add_remove (NewLogical base0) 7) as H.
  rewrite E in H. destruct H as (Ha & _ & _ & Hr). apply Hr, Ha. split; [lia|].
  vm_compute. intros H; inversion H.
Defined.

End Logical.
