(* ===== verification/Codec.v ===== *)
(** * The MySQL packet codec ([internal/protocol/mysql/codec.go])

    A logical message is a run of frames: three bytes of length, one byte of
    sequence, the payload part.  A frame shorter than [framePayload] ends the
    message.

    A reader is the list of bytes that will still arrive and the error that
    follows them ([io.EOF] or another).  A writer is the list of bytes sent and
    a script of how the coming [Write] calls behave, so that short writes and
    failures are inputs of the model; a call beyond the script accepts
    everything. *)

From stdpp Require Import base list numbers option.
From coqutil Require Import Byte.
From Stdlib Require Import ZArith Lia.
From S2P Require Import Prelude.

Module Codec.
Local Open Scope Z_scope.

Definition HeaderBytes : nat := 4.
Definition MaxFramePayload : Z := 2 ^ 24 - 1.
Definition DefaultMaxPacket : Z := 64 * 2 ^ 20.

(** ** Readers and writers *)

Inductive io_error := EOF | ErrUnexpectedEOF | ErrShortWrite | OtherIO (code : Z).

Record reader := mkReader { pending : list byte; ending : io_error }.

(** [io.ReadFull(reader, buf)] with a buffer of [n] bytes. *)
Definition read_full (n : nat) (r : reader) : outcome io_error (list byte * reader) :=
  if (n <=? length (pending r))%nat then
    Ret (take n (pending r), mkReader (drop n (pending r)) (ending r))
  else match pending r, ending r with
       | _ :: _, EOF => Fail ErrUnexpectedEOF
       | _, e => Fail e
       end.

(** One [Write] call accepts at most [accepted] bytes and returns [failed]. *)
Record write_step := mkStep { accepted : nat; failed : option io_error }.
Record writer := mkWriter { sent : list byte; script : list write_step }.

Definition do_write (w : writer) (data : list byte) : nat * option io_error * writer :=
  match script w with
  | [] => (length data, None, mkWriter (sent w ++ data) [])
  | st :: rest =>
      let n := Nat.min (accepted st) (length data) in
      (n, failed st, mkWriter (sent w ++ take n data) rest)
  end.

(** ** Codec *)

Inductive codec_error :=
| ErrIO (e : io_error)
| ErrSequence (got want : Z)
| ErrMessageTooLarge
| ErrInvalidCodec.

Record Message := mkMessage {
  Sequence : Z; NextSequence : Z; Frames : nat; Payload : list byte }.

Record Codec := mkCodec { maxMessageBytes : Z; framePayload : Z }.

Definition newCodec (maxMessageBytes framePayload : Z) : outcome codec_error Codec :=
  if (maxMessageBytes <=? 0) || (framePayload <=? 0) || (MaxFramePayload <? framePayload)
  then Fail ErrInvalidCodec
  else Ret (mkCodec maxMessageBytes framePayload).

Definition NewCodec (maxMessageBytes : Z) : outcome codec_error Codec :=
  newCodec maxMessageBytes MaxFramePayload.

Definition header_length (header : list byte) : outcome codec_error Z :=
  h0 ← go_index header 0; h1 ← go_index header 1; h2 ← go_index header 2;
  Ret (Z.lor (Z.lor (bval h0) (Z.shiftl (bval h1) 8)) (Z.shiftl (bval h2) 16)).

(** The body of the [for] loop of [ReadMessage]; [inl] continues with the next
    frame, [inr] returns the message. *)
Definition read_frame (c : Codec) (message : Message) (expected : Z) (r : reader)
  : outcome codec_error (Message * Z * reader + Message * reader) :=
  '(header, r) ← map_fail ErrIO (read_full HeaderBytes r);
  length_ ← header_length header;
  h3 ← go_index header 3;
  let sequence := bval h3 in
  let '(message, expected) :=
    if (Frames message =? 0)%nat
    then (mkMessage sequence (NextSequence message) (Frames message) (Payload message), sequence)
    else (message, expected) in
  if negb (sequence =? expected) then Fail (ErrSequence sequence expected) else
  if maxMessageBytes c - Z.of_nat (length (Payload message)) <? length_
  then Fail ErrMessageTooLarge else
  '(chunk, r) ← map_fail ErrIO (read_full (Z.to_nat length_) r);
  let message := mkMessage (Sequence message) (NextSequence message) (S (Frames message))
                   (Payload message ++ chunk) in
  let expected := u8 (expected + 1) in
  if length_ <? framePayload c
  then Ret (inr (mkMessage (Sequence message) expected (Frames message) (Payload message), r))
  else Ret (inl (message, expected, r)).

(** The loop; [None] means the fuel ran out, which [read_message_terminates]
    excludes for the fuel of [ReadMessage]. *)
Fixpoint read_frames (fuel : nat) (c : Codec) (message : Message) (expected : Z) (r : reader)
  : option (outcome codec_error (Message * reader)) :=
  match fuel with
  | O => None
  | S f =>
      match read_frame c message expected r with
      | Ret (inr result) => Some (Ret result)
      | Ret (inl (message, expected, r)) => read_frames f c message expected r
      | Fail e => Some (Fail e)
      | Panic => Some Panic
      end
  end.

Definition ReadMessage (c : Codec) (r : reader) : option (outcome codec_error (Message * reader)) :=
  read_frames (S (length (pending r))) c (mkMessage 0 0 0 []) 0 r.

(** [writeAll]: every round either fails or makes progress, so [length data]
    rounds are enough. *)
Fixpoint writeAll_fuel (fuel : nat) (w : writer) (data : list byte) : writer * option io_error :=
  match data, fuel with
  | [], _ => (w, None)
  | _ :: _, O => (w, None)
  | _ :: _, S f =>
      match do_write w data with
      | (_, Some err, w) => (w, Some err)
      | (written, None, w) =>
          if (written <=? 0)%nat then (w, Some ErrShortWrite)
          else writeAll_fuel f w (drop written data)
      end
  end.

Definition writeAll (w : writer) (data : list byte) : writer * option io_error :=
  writeAll_fuel (length data) w data.

(** [PutUint32(header, uint32(len))] and then [header[3] = sequence]. *)
Definition frame_header (sequence len : Z) : list byte :=
  <[3%nat := zbyte sequence]> (le_bytes 4 (u32 len)).

Definition writeFrame (w : writer) (sequence : Z) (payload : list byte)
  : writer * option codec_error :=
  if MaxFramePayload <? Z.of_nat (length payload) then (w, Some ErrMessageTooLarge) else
  match writeAll w (frame_header sequence (Z.of_nat (length payload))) with
  | (w, Some err) => (w, Some (ErrIO err))
  | (w, None) =>
      match writeAll w payload with
      | (w, Some err) => (w, Some (ErrIO err))
      | (w, None) => (w, None)
      end
  end.

(** The loop over full frames and the closing short frame; [fuel] bounds the
    number of full frames. *)
Fixpoint write_frames (fuel : nat) (c : Codec) (w : writer) (sequence : Z) (remaining : list byte)
  : writer * Z * option codec_error :=
  if framePayload c <=? Z.of_nat (length remaining) then
    match fuel with
    | O => (w, sequence, None)
    | S f =>
        let n := Z.to_nat (framePayload c) in
        match writeFrame w sequence (take n remaining) with
        | (w, Some err) => (w, sequence, Some err)
        | (w, None) => write_frames f c w (u8 (sequence + 1)) (drop n remaining)
        end
    end
  else
    match writeFrame w sequence remaining with
    | (w, Some err) => (w, sequence, Some err)
    | (w, None) => (w, u8 (sequence + 1), None)
    end.

Definition WriteMessage (c : Codec) (w : writer) (sequence : Z) (payload : list byte)
  : writer * Z * option codec_error :=
  if maxMessageBytes c <? Z.of_nat (length payload) then (w, sequence, Some ErrMessageTooLarge)
  else write_frames (length payload) c w sequence payload.

(** ** Specification of the wire format *)

(** Number of full frames and the wire bytes of a message. *)
Definition full_frames (fp : Z) (payload : list byte) : nat :=
  Z.to_nat (Z.of_nat (length payload) / fp).

Fixpoint wire_frames (full : nat) (fp : Z) (sequence : Z) (payload : list byte) : list byte :=
  match full with
  | O => frame_header sequence (Z.of_nat (length payload)) ++ payload
  | S k =>
      let n := Z.to_nat fp in
      frame_header sequence fp ++ take n payload ++
      wire_frames k fp (u8 (sequence + 1)) (drop n payload)
  end.

Definition wire (c : Codec) (sequence : Z) (payload : list byte) : list byte :=
  wire_frames (full_frames (framePayload c) payload) (framePayload c) sequence payload.

(** What [newCodec] guarantees. *)
Definition valid_codec (c : Codec) : Prop :=
  0 < maxMessageBytes c /\ 0 < framePayload c <= MaxFramePayload.

(** A writer whose coming calls all make progress without an error. *)
Definition progressing (w : writer) : Prop :=
  Forall (fun st => (0 < accepted st)%nat /\ failed st = None) (script w).

(** ** Lemmas on headers *)

Lemma header_explicit sequence len :
  frame_header sequence len =
    [zbyte (u32 len); zbyte (Z.shiftr (u32 len) 8);
     zbyte (Z.shiftr (Z.shiftr (u32 len) 8) 8); zbyte sequence].
Proof. reflexivity. Qed.

Lemma header_size sequence len : length (frame_header sequence len) = 4%nat.
Proof. reflexivity. Qed.

Lemma header_length_le b0 b1 b2 b3 :
  header_length [b0; b1; b2; b3] = Ret (le_value [b0; b1; b2]).
Proof.
  unfold header_length, go_index, le_value. cbn [lookup list_lookup bind_ret mbind outcome_bind].
  f_equal. change (LittleEndianList.le_combine [b0; b1; b2]) with
    (Z.lor (bval b0) (Z.shiftl (Z.lor (bval b1) (Z.shiftl (Z.lor (bval b2) (Z.shiftl 0 8)) 8)) 8)).
  rewrite Z.shiftl_0_l, Z.lor_0_r, Z.shiftl_lor, Z.shiftl_shiftl, Z.lor_assoc by lia. done.
Qed.

Lemma u32_small z : 0 <= z < 2 ^ 24 -> u32 z = z.
Proof. intros. apply Z.mod_small. lia. Qed.

Lemma header_decodes sequence len :
  0 <= len < 2 ^ 24 -> header_length (frame_header sequence len) = Ret len.
Proof.
  intros Hl. rewrite header_explicit, header_length_le, u32_small by done. f_equal.
  change [zbyte len; zbyte (Z.shiftr len 8); zbyte (Z.shiftr (Z.shiftr len 8) 8)]
    with (le_bytes 3 len).
  apply le_value_bytes. lia.
Qed.

(** A four-byte header is the header of the values it decodes to. *)
Lemma header_encodes b0 b1 b2 b3 :
  frame_header (bval b3) (le_value [b0; b1; b2]) = [b0; b1; b2; b3].
Proof.
  pose proof (le_value_bound [b0; b1; b2]) as Hb. cbn in Hb.
  rewrite header_explicit, u32_small by lia.
  pose proof (le_bytes_value [b0; b1; b2]) as He.
  change (length [b0; b1; b2]) with 3%nat in He.
  remember (le_value [b0; b1; b2]) as v. clear Heqv Hb.
  change (le_bytes 3 v) with
    [zbyte v; zbyte (Z.shiftr v 8); zbyte (Z.shiftr (Z.shiftr v 8) 8)] in He.
  rewrite zbyte_bval. congruence.
Qed.

(** ** Lemmas on reading *)

Lemma read_full_app n bs rest e :
  length bs = n -> read_full n (mkReader (bs ++ rest) e) = Ret (bs, mkReader rest e).
Proof.
  intros <-. unfold read_full. cbn [pending ending].
  rewrite (proj2 (Nat.leb_le _ _)) by (rewrite length_app; lia).
  by rewrite take_length_app, drop_length_app.
Qed.

Lemma read_full_inv n r bs r' :
  read_full n r = Ret (bs, r') ->
  length bs = n /\ r = mkReader (bs ++ pending r') (ending r').
Proof.
  unfold read_full. destruct (Nat.leb_spec n (length (pending r))); [|by repeat case_goal].
  intros [= <- <-]. split; [rewrite length_take; lia|].
  cbn. rewrite take_drop. by destruct r.
Qed.

Lemma read_full_no_panic n r : no_panic (read_full n r).
Proof. unfold read_full. repeat case_goal; auto with accel. Qed.

(** The sequence number a frame has to carry. *)
Definition expects (m : Message) (expected sequence : Z) : Prop :=
  Frames m <> 0%nat -> sequence = expected.

(** What a frame does to the message under assembly. *)
Definition add_frame (m : Message) (sequence : Z) (chunk : list byte) : Message :=
  mkMessage (if (Frames m =? 0)%nat then sequence else Sequence m) (NextSequence m)
    (S (Frames m)) (Payload m ++ chunk).

Definition frame_result (c : Codec) (m : Message) (sequence : Z) (chunk : list byte) (r : reader)
  : Message * Z * reader + Message * reader :=
  let m' := add_frame m sequence chunk in
  let next := u8 (sequence + 1) in
  if Z.of_nat (length chunk) <? framePayload c
  then inr (mkMessage (Sequence m') next (Frames m') (Payload m'), r)
  else inl (m', next, r).

Lemma read_frame_ok c m expected sequence chunk rest e :
  0 <= sequence < 256 -> expects m expected sequence ->
  Z.of_nat (length chunk) < 2 ^ 24 ->
  Z.of_nat (length (Payload m)) + Z.of_nat (length chunk) <= maxMessageBytes c ->
  read_frame c m expected
    (mkReader (frame_header sequence (Z.of_nat (length chunk)) ++ chunk ++ rest) e) =
  Ret (frame_result c m sequence chunk (mkReader rest e)).
Proof.
  intros Hs He Hl Hm. unfold read_frame, HeaderBytes.
  rewrite read_full_app by apply header_size. cbn [map_fail mbind outcome_bind].
  rewrite header_decodes by lia. cbn [mbind outcome_bind].
  change (go_index (frame_header sequence (Z.of_nat (length chunk))) 3)
    with (Ret (E := codec_error) (zbyte sequence)).
  cbn [mbind outcome_bind]. rewrite bval_zbyte_small by done.
  assert (Hcm : (maxMessageBytes c - Z.of_nat (length (Payload m)) <? Z.of_nat (length chunk))
                = false) by (apply Z.ltb_ge; lia).
  unfold frame_result, add_frame.
  destruct (Nat.eqb_spec (Frames m) 0) as [Hz|Hz];
    [|rewrite (He Hz)]; rewrite Z.eqb_refl; cbn [negb Payload]; rewrite Hcm;
    rewrite read_full_app by lia; cbn [map_fail mbind outcome_bind]; by case_goal.
Qed.

Lemma read_frame_inv c m expected r out :
  read_frame c m expected r = Ret out ->
  exists sequence chunk r',
    0 <= sequence < 256 /\ expects m expected sequence /\
    Z.of_nat (length chunk) < 2 ^ 24 /\
    Z.of_nat (length (Payload m)) + Z.of_nat (length chunk) <= maxMessageBytes c /\
    r = mkReader (frame_header sequence (Z.of_nat (length chunk)) ++ chunk ++ pending r')
          (ending r') /\
    out = frame_result c m sequence chunk r'.
Proof.
  unfold read_frame. intros H.
  apply bind_ret_inv in H as ([header r1] & Hh & H).
  destruct (read_full HeaderBytes r) as [[h r1']| |] eqn:Hr; try discriminate.
  injection Hh as -> ->. apply read_full_inv in Hr as [Hlen ->].
  destruct header as [|b0 [|b1 [|b2 [|b3 []]]]]; try discriminate Hlen. clear Hlen.
  rewrite header_length_le in H. cbn [mbind outcome_bind go_index lookup list_lookup] in H.
  pose proof (le_value_bound [b0; b1; b2]) as Hb. cbn [length] in Hb.
  pose proof (header_encodes b0 b1 b2 b3) as Henc.
  set (len := le_value [b0; b1; b2]) in *. clearbody len.
  pose proof (bval_range b3) as H3.
  destruct (if (Frames m =? 0)%nat then _ else _) as [m1 ex] eqn:Hm.
  destruct (bval b3 =? ex) eqn:Hseq; cbn [negb] in H; [|discriminate].
  apply Z.eqb_eq in Hseq.
  destruct (_ <? len) eqn:Hmax; [discriminate|]. apply Z.ltb_ge in Hmax.
  apply bind_ret_inv in H as ([chunk r2] & Hc & H).
  destruct (read_full (Z.to_nat len) r1) as [[ch r2']| |] eqn:Hr; try discriminate.
  injection Hc as -> ->. apply read_full_inv in Hr as [Hlen ->].
  assert (len = Z.of_nat (length chunk)) as -> by lia.
  exists (bval b3), chunk, r2. unfold frame_result, add_frame, expects.
  destruct (Nat.eqb_spec (Frames m) 0) as [Hz|Hz]; injection Hm as <- <-;
    cbn [Payload Sequence NextSequence Frames] in *;
    (split_and!; [lia|lia|congruence|lia|lia|cbn; by rewrite Henc|]);
    try rewrite <- Hseq in H; destruct (_ <? _); by injection H as <-.
Qed.

Lemma read_frame_no_panic c m expected r : no_panic (read_frame c m expected r).
Proof.
  unfold read_frame.
  apply bind_no_panic; [apply map_fail_no_panic, read_full_no_panic|intros [h r1] Hr].
  destruct (read_full HeaderBytes r) as [[h' r1']| |] eqn:E; try discriminate.
  injection Hr as <- <-. apply read_full_inv in E as [Hlen _].
  destruct h' as [|b0 [|b1 [|b2 [|b3 []]]]]; try discriminate Hlen.
  rewrite header_length_le. cbn [mbind outcome_bind go_index lookup list_lookup].
  destruct (if (Frames m =? 0)%nat then _ else _) as [m1 ex].
  repeat case_goal; auto with accel;
    (apply bind_no_panic; [apply map_fail_no_panic, read_full_no_panic|intros [? ?] _]);
    repeat case_goal; auto with accel.
Qed.

(** Every frame consumes at least its header. *)
Lemma read_frame_progress c m expected r m' ex' r' :
  read_frame c m expected r = Ret (inl (m', ex', r')) ->
  (length (pending r') + 4 <= length (pending r))%nat.
Proof.
  intros (seq & chunk & r1 & _ & _ & _ & _ & -> & Ho)%read_frame_inv.
  unfold frame_result in Ho. cbv zeta in Ho. destruct (_ <? _); [discriminate|].
  injection Ho as -> -> ->. cbn. rewrite !length_app, header_size. lia.
Qed.

Lemma read_frames_total fuel c : forall m expected r,
  (length (pending r) < fuel)%nat -> is_Some (read_frames fuel c m expected r).
Proof.
  induction fuel as [|f IH]; intros m expected r Hf; [lia|].
  cbn [read_frames]. destruct (read_frame c m expected r) as [[[[m' ex'] r']|]| |] eqn:E; eauto.
  apply read_frame_progress in E. apply IH. lia.
Qed.

Lemma read_frames_no_panic fuel c : forall m expected r,
  read_frames fuel c m expected r <> Some Panic.
Proof.
  induction fuel as [|f IH]; intros m expected r; [done|].
  cbn [read_frames]. pose proof (read_frame_no_panic c m expected r) as Hn.
  destruct (read_frame c m expected r) as [[[[m' ex'] r']|]| |]; try done.
Qed.

(** ** Lemmas on the frame count *)

Lemma full_frames_0 fp payload :
  0 < fp -> full_frames fp payload = 0%nat <-> Z.of_nat (length payload) < fp.
Proof.
  intros Hfp. unfold full_frames.
  pose proof (Z.div_pos (Z.of_nat (length payload)) fp ltac:(lia) Hfp).
  split; intros H1.
  - assert (Z.of_nat (length payload) / fp = 0) as H2 by lia.
    apply Z.div_small_iff in H2; lia.
  - rewrite Z.div_small by lia. done.
Qed.

Lemma full_frames_S fp chunk payload :
  0 < fp -> Z.of_nat (length chunk) = fp ->
  full_frames fp (chunk ++ payload) = S (full_frames fp payload).
Proof.
  intros Hfp Hc. unfold full_frames. rewrite length_app, Nat2Z.inj_add, Hc.
  replace (fp + Z.of_nat (length payload)) with (Z.of_nat (length payload) + 1 * fp) by lia.
  rewrite Z.div_add by lia.
  pose proof (Z.div_pos (Z.of_nat (length payload)) fp ltac:(lia) Hfp). lia.
Qed.

Lemma full_frames_split fp payload k :
  0 < fp -> full_frames fp payload = S k ->
  let n := Z.to_nat fp in
  fp <= Z.of_nat (length payload) /\ Z.of_nat (length (take n payload)) = fp /\
  full_frames fp (drop n payload) = k.
Proof.
  intros Hfp Hk. cbv zeta.
  assert (Hle : fp <= Z.of_nat (length payload)).
  { destruct (Z_lt_le_dec (Z.of_nat (length payload)) fp) as [Hlt|]; [|done].
    apply full_frames_0 in Hlt; [congruence|done]. }
  assert (Ht : Z.of_nat (length (take (Z.to_nat fp) payload)) = fp)
    by (rewrite length_take; lia).
  split_and!; [done|done|].
  rewrite <- (take_drop (Z.to_nat fp) payload), full_frames_S in Hk by done. congruence.
Qed.

(** ** Reading what the format describes *)

Lemma u8_step seq k : u8 (u8 (seq + 1) + Z.of_nat k + 1) = u8 (seq + Z.of_nat (S k) + 1).
Proof.
  unfold u8. rewrite <- Z.add_assoc, Zplus_mod_idemp_l. f_equal. lia.
Qed.

Lemma read_frames_wire c k : valid_codec c -> forall fuel m expected sequence payload rest e,
  full_frames (framePayload c) payload = k -> (k < fuel)%nat ->
  0 <= sequence < 256 -> expects m expected sequence ->
  Z.of_nat (length (Payload m)) + Z.of_nat (length payload) <= maxMessageBytes c ->
  read_frames fuel c m expected
    (mkReader (wire_frames k (framePayload c) sequence payload ++ rest) e) =
  Some (Ret (mkMessage (if (Frames m =? 0)%nat then sequence else Sequence m)
               (u8 (sequence + Z.of_nat k + 1)) (Frames m + k + 1) (Payload m ++ payload),
             mkReader rest e)).
Proof.
  intros [Hmax Hfp]. induction k as [|k IH]; intros fuel m expected sequence payload rest e
    Hk Hfuel Hseq Hex Hlen; (destruct fuel as [|fuel]; [lia|]); cbn [wire_frames read_frames].
  - apply full_frames_0 in Hk; [|lia]. rewrite <- app_assoc.
    rewrite read_frame_ok by (done || unfold MaxFramePayload in *; lia).
    unfold frame_result, add_frame. cbv zeta.
    rewrite (proj2 (Z.ltb_lt _ _)) by done. cbn. by rewrite Z.add_0_r, Nat.add_0_r, Nat.add_1_r.
  - apply full_frames_split in Hk as (Hle & Ht & Hd); [|lia]. cbv zeta.
    rewrite <- !app_assoc, <- Ht at 1.
    rewrite read_frame_ok by (done || unfold MaxFramePayload in *; lia).
    unfold frame_result. cbv zeta. rewrite Ht, Z.ltb_irrefl.
    rewrite IH; [|done|lia|unfold u8; apply Z.mod_pos_bound; lia|done|].
    + rewrite u8_step. cbn [add_frame Frames Sequence Payload Nat.eqb].
      rewrite <- app_assoc, take_drop. do 4 f_equal. lia.
    + cbn [add_frame Payload]. rewrite length_app, length_drop, Nat2Z.inj_add, Ht. lia.
Qed.

(** ** What was read is in the format

    With the frame size of [NewCodec] a full frame is the longest frame there
    is, so an accepted byte sequence is the encoding of its payload. *)
Lemma read_frames_inv c fuel : framePayload c = MaxFramePayload ->
  forall m expected r m' r',
  read_frames fuel c m expected r = Some (Ret (m', r')) ->
  exists sequence payload,
    0 <= sequence < 256 /\ expects m expected sequence /\
    Z.of_nat (length (Payload m)) + Z.of_nat (length payload) <= maxMessageBytes c /\
    let k := full_frames (framePayload c) payload in
    r = mkReader (wire_frames k (framePayload c) sequence payload ++ pending r') (ending r') /\
    m' = mkMessage (if (Frames m =? 0)%nat then sequence else Sequence m)
           (u8 (sequence + Z.of_nat k + 1)) (Frames m + k + 1) (Payload m ++ payload).
Proof.
  intros Hfp. assert (Hpos : 0 < framePayload c) by (rewrite Hfp; done).
  induction fuel as [|f IH]; intros m expected r m' r'; [discriminate|].
  cbn [read_frames]. destruct (read_frame c m expected r) as [out| |] eqn:E; try discriminate.
  apply read_frame_inv in E as (seq & chunk & r1 & Hs & Hex & Hl & Hm & -> & ->).
  unfold frame_result. cbv zeta.
  destruct (Z.ltb_spec (Z.of_nat (length chunk)) (framePayload c)) as [Hlt|Hge].
  - intros [= <- <-]. exists seq, chunk. cbv zeta.
    assert (full_frames (framePayload c) chunk = 0%nat) as -> by (by apply full_frames_0).
    split_and!; try (done || lia). f_equal; [f_equal; lia|cbn; lia].
  - intros (seq' & rest & Hs' & Hex' & Hm' & Hr1 & ->)%IH. cbv zeta in Hr1.
    rewrite (Hex' ltac:(done)) in *. subst r1. cbn [pending ending].
    assert (Hc : Z.of_nat (length chunk) = framePayload c)
      by (rewrite Hfp in *; unfold MaxFramePayload in *; lia).
    exists seq, (chunk ++ rest). cbv zeta. rewrite (full_frames_S _ _ rest) by done.
    cbn [add_frame Payload] in Hm'. rewrite length_app in Hm'.
    split_and!; try (done || lia); [rewrite length_app; lia| |].
    + cbn [wire_frames]. cbv zeta.
      assert (Z.to_nat (framePayload c) = length chunk) as -> by lia.
      rewrite take_length_app, drop_length_app, Hc, <- !app_assoc. done.
    + cbn [add_frame Frames Sequence Payload Nat.eqb]. rewrite u8_step, <- app_assoc.
      f_equal. lia.
Qed.

(** ** Writing *)

(** The call moved [w] to [w'] by sending a prefix of [bytes], all of it when
    it reports success; a writer that makes progress never fails. *)
Definition delivers {E} (w : writer) (bytes : list byte) (w' : writer) (err : option E) : Prop :=
  (exists p q, bytes = p ++ q /\ sent w' = sent w ++ p /\ (err = None -> q = [])) /\
  (progressing w -> err = None /\ progressing w').

Lemma delivers_nil {E} w : delivers w [] w (@None E).
Proof. split; [exists [], []; by rewrite !app_nil_r|done]. Qed.

Lemma delivers_app {E F} w w1 w2 a b (e : option E) :
  delivers w a w1 (@None F) -> delivers w1 b w2 e -> delivers w (a ++ b) w2 e.
Proof.
  intros [(p & q & -> & H1 & Hq) Hp1] [(p' & q' & -> & H2 & Hq') Hp2].
  rewrite (Hq eq_refl), app_nil_r in *. split.
  - exists (p ++ p'), q'. rewrite H2, H1, !app_assoc. done.
  - intros Hw. apply Hp2, Hp1, Hw.
Qed.

Lemma delivers_err {E F} w w1 a b (e : F) (e' : E) :
  delivers w a w1 (Some e) -> delivers w (a ++ b) w1 (Some e').
Proof.
  intros [(p & q & -> & H1 & _) Hp]. split.
  - exists p, (q ++ b). by rewrite app_assoc.
  - intros Hw. by destruct (Hp Hw).
Qed.

Lemma delivers_map_err {E F} w w1 a (e : F) (e' : E) :
  delivers w a w1 (Some e) -> delivers w a w1 (Some e').
Proof. intros H. rewrite <- (app_nil_r a). by eapply delivers_err. Qed.

Lemma writeAll_delivers fuel w data :
  (length data <= fuel)%nat ->
  let '(w', err) := writeAll_fuel fuel w data in delivers w data w' err.
Proof.
  revert w data; induction fuel as [|f IH]; intros w data Hl;
    (destruct data as [|d data]; [apply delivers_nil|]); [cbn in Hl; lia|].
  set (l := d :: data) in *. cbn [writeAll_fuel].
  change (match l with [] => (w, None) | _ => _ end) with
    (match do_write w l with
     | (_, Some err, w) => (w, Some err)
     | (written, None, w) =>
         if (written <=? 0)%nat then (w, Some ErrShortWrite)
         else writeAll_fuel f w (drop written l)
     end).
  unfold do_write. destruct w as [out [|[n fl] rest]]; cbn [script sent accepted failed].
  - rewrite (proj2 (Nat.leb_gt _ _)) by (subst l; cbn; lia).
    rewrite drop_all.
    replace (writeAll_fuel f (mkWriter (out ++ l) []) []) with
      (mkWriter (out ++ l) [], @None io_error) by (by destruct f).
    split; [exists l, []; by rewrite !app_nil_r|]. intros _. split; [done|constructor].
  - set (k := Nat.min n (length l)). destruct fl as [err|].
    + split.
      * exists (take k l), (drop k l). by rewrite take_drop.
      * intros Hp. by apply Forall_inv in Hp as [_ Hp].
    + destruct (Nat.leb_spec k 0) as [Hk|Hk].
      * split; [exists [], l; split_and!; [done| |done]|].
        -- assert (k = 0%nat) as -> by lia. done.
        -- intros Hp. apply Forall_inv in Hp as [Hp _]. subst l k. cbn in *. lia.
      * specialize (IH (mkWriter (out ++ take k l) rest) (drop k l)).
        destruct (writeAll_fuel f _ _) as [w' err].
        rewrite <- (take_drop k l).
        eapply delivers_app; [|apply IH; rewrite length_drop; lia].
        split; [exists (take k l), []; by rewrite !app_nil_r|].
        intros Hp. split; [done|by apply Forall_inv_tail in Hp].
        Unshelve. exact unit.
Qed.

Lemma writeFrame_delivers w sequence payload :
  Z.of_nat (length payload) <= MaxFramePayload ->
  let '(w', err) := writeFrame w sequence payload in
  delivers w (frame_header sequence (Z.of_nat (length payload)) ++ payload) w' err.
Proof.
  intros Hl. unfold writeFrame. rewrite (proj2 (Z.ltb_ge _ _)) by done. unfold writeAll.
  pose proof (writeAll_delivers _ w (frame_header sequence (Z.of_nat (length payload)))
                (le_n _)) as H1.
  destruct (writeAll_fuel _ w _) as [w1 [e1|]]; [by eapply delivers_err|].
  pose proof (writeAll_delivers _ w1 payload (le_n _)) as H2.
  destruct (writeAll_fuel _ w1 payload) as [w2 [e2|]]; (eapply delivers_app; [exact H1|]).
  - by eapply delivers_map_err.
  - destruct H2 as [(p & q & H & Hs & Hq) Hp]. split; [exists p, q|]; tauto.
Qed.

(** After [j] frames the sequence number is [sequence + j]; the frame in which
    an error occurs is not counted. *)
Lemma write_frames_delivers c k : valid_codec c -> forall fuel w sequence payload,
  full_frames (framePayload c) payload = k -> (k <= fuel)%nat ->
  let '(w', seq', err) := write_frames fuel c w sequence payload in
  delivers w (wire_frames k (framePayload c) sequence payload) w' err /\
  (err = None -> seq' = u8 (sequence + Z.of_nat k + 1)).
Proof.
  intros [Hmax Hfp]. induction k as [|k IH]; intros fuel w sequence payload Hk Hf.
  - apply full_frames_0 in Hk; [|lia]. cbn [wire_frames].
    pose proof (writeFrame_delivers w sequence payload) as H. unfold MaxFramePayload in *.
    specialize (H ltac:(lia)).
    destruct fuel as [|fuel]; cbn [write_frames]; rewrite (proj2 (Z.leb_gt _ _)) by done;
      destruct (writeFrame _ _ _) as [w' [e|]]; (split; [done|]); [done| |done|];
      intros _; by rewrite Z.add_0_r.
  - apply full_frames_split in Hk as (Hle & Ht & Hd); [|lia].
    destruct fuel as [|fuel]; [lia|]. cbn [wire_frames write_frames]. cbv zeta.
    rewrite (proj2 (Z.leb_le _ _)) by done.
    pose proof (writeFrame_delivers w sequence (take (Z.to_nat (framePayload c)) payload)) as H.
    rewrite Ht in H. specialize (H ltac:(lia)). rewrite app_assoc.
    destruct (writeFrame _ _ _) as [w1 [e|]]; [split; [by eapply delivers_err|done]|].
    specialize (IH fuel w1 (u8 (sequence + 1)) _ Hd ltac:(lia)).
    destruct (write_frames fuel _ _ _ _) as [[w2 s2] e2]. destruct IH as [H2 Hs].
    split; [by eapply delivers_app|]. intros He. by rewrite (Hs He), u8_step.
Qed.

Lemma full_frames_le fp payload : 0 < fp -> (full_frames fp payload <= length payload)%nat.
Proof.
  intros Hfp. unfold full_frames.
  pose proof (Z.div_le_upper_bound (Z.of_nat (length payload)) fp
                (Z.of_nat (length payload)) Hfp ltac:(nia)). lia.
Qed.

Lemma wire_frames_length k fp sequence payload :
  (4 * S k <= length (wire_frames k fp sequence payload))%nat.
Proof.
  revert sequence payload; induction k as [|k IH]; intros; cbn [wire_frames]; cbv zeta;
    rewrite !length_app, header_size; [lia|].
  specialize (IH (u8 (sequence + 1)) (drop (Z.to_nat fp) payload)). lia.
Qed.

Lemma newCodec_valid max fp c : newCodec max fp = Ret c ->
  valid_codec c /\ maxMessageBytes c = max /\ framePayload c = fp.
Proof.
  unfold newCodec. case_goal; [discriminate|]. intros [= <-]. bool_props.
  unfold valid_codec. cbn. lia.
Qed.

(** ** Properties *)

(** C38.  Writing and then reading a message gives the message back.  For every
    codec [newCodec] accepts, every payload within its limit (any number of
    frames, including the empty closing frame after an exact multiple), every
    sequence number and every writer that makes progress, however it splits
    the bytes into short writes, [WriteMessage] succeeds and returns the next
    sequence number, and [ReadMessage] of the bytes it sent, followed by
    anything, returns the same payload, sequence numbers and frame count and
    leaves exactly what follows. *)
Theorem write_read_roundtrip (max fp sequence : Z) (c : Codec) (w : writer)
    (payload rest : list byte) (e : io_error) :
  newCodec max fp = Ret c ->
  Z.of_nat (length payload) <= max ->
  0 <= sequence < 256 ->
  progressing w ->
  exists bytes w',
    let next := u8 (sequence + Z.of_nat (full_frames fp payload) + 1) in
    WriteMessage c w sequence payload = (w', next, None) /\
    sent w' = sent w ++ bytes /\
    ReadMessage c (mkReader (bytes ++ rest) e) =
      Some (Ret (mkMessage sequence next (full_frames fp payload + 1) payload,
                 mkReader rest e)).
Proof.
  intros (Hv & <- & <-)%newCodec_valid Hl Hs Hw.
  exists (wire c sequence payload). unfold WriteMessage, wire.
  rewrite (proj2 (Z.ltb_ge _ _)) by done.
  pose proof (write_frames_delivers c _ Hv (length payload) w sequence payload eq_refl) as H.
  specialize (H (full_frames_le _ _ (proj1 (proj2 Hv)))).
  destruct (write_frames _ _ _ _ _) as [[w' s'] err].
  destruct H as [[(p & q & Hpq & Hsent & Hq) Hp] Hseq].
  destruct (Hp Hw) as [-> _]. rewrite (Hq eq_refl), app_nil_r in Hpq. subst p.
  exists w'. cbv zeta. split_and!; [by rewrite Hseq|done|].
  unfold ReadMessage.
  rewrite (read_frames_wire c _ Hv); [done|done| |done|by intros []|cbn; lia].
  - pose proof (wire_frames_length (full_frames (framePayload c) payload) (framePayload c)
      sequence payload). cbn [pending]. rewrite length_app. lia.
Qed.

Theorem write_read_roundtrip_witness :
  let c := mkCodec 10 2 in
  let payload := [Byte.x01; Byte.x02; Byte.x03; Byte.x04] in
  let w := mkWriter [] [mkStep 1 None; mkStep 9 None; mkStep 1 None] in
  exists bytes w',
    WriteMessage c w 255 payload = (w', 2, None) /\ sent w' = [] ++ bytes /\
    ReadMessage c (mkReader (bytes ++ [Byte.x07]) EOF) =
      Some (Ret (mkMessage 255 2 3 payload, mkReader [Byte.x07] EOF)).
Proof.
  cbv zeta.
  apply (write_read_roundtrip 10 2 255 (mkCodec 10 2)
    (mkWriter [] [mkStep 1 None; mkStep 9 None; mkStep 1 None])
    [Byte.x01; Byte.x02; Byte.x03; Byte.x04] [Byte.x07] EOF).
  - reflexivity.
  - cbn; lia.
  - lia.
  - repeat constructor.
Defined.

(** Reading always ends, within the limit, and accepts one encoding only.
    For the codec of [NewCodec] and any incoming bytes, [ReadMessage] returns a
    message or an error and never panics; an accepted message is no longer than
    the limit, its sequence number is a byte, and the bytes consumed are exactly
    the encoding of its payload, so no two byte sequences are read as the same
    message at the same sequence number. *)
Theorem read_message_sound (max : Z) (c : Codec) (r : reader) :
  NewCodec max = Ret c ->
  exists o, ReadMessage c r = Some o /\ o <> Panic /\
    forall m r', o = Ret (m, r') ->
      Z.of_nat (length (Payload m)) <= max /\ 0 <= Sequence m < 256 /\
      r = mkReader (wire c (Sequence m) (Payload m) ++ pending r') (ending r') /\
      NextSequence m = u8 (Sequence m + Z.of_nat (Frames m)).
Proof.
  intros (Hv & <- & Hfp)%newCodec_valid. unfold ReadMessage.
  destruct (read_frames_total (S (length (pending r))) c (mkMessage 0 0 0 []) 0 r) as [o Ho];
    [lia|].
  exists o. split; [done|]. split.
  { intros ->. by eapply read_frames_no_panic. }
  intros m r' ->. apply (read_frames_inv c _ Hfp) in Ho as (s & p & Hs & _ & Hm & Hr & ->).
  cbn [Payload Sequence NextSequence Frames Nat.eqb app length] in *.
  split_and!; try (done || lia). f_equal. lia.
Qed.

Theorem read_message_sound_witness :
  exists o, ReadMessage (mkCodec 4 MaxFramePayload)
    (mkReader [Byte.x05; Byte.x00; Byte.x00; Byte.x00] EOF) = Some o /\ o <> Panic.
Proof.
  destruct (read_message_sound 4 (mkCodec 4 MaxFramePayload)
    (mkReader [Byte.x05; Byte.x00; Byte.x00; Byte.x00] EOF)) as (o & Ho & Hn & _);
    [reflexivity|]. exists o. split; [exact Ho|exact Hn].
Defined.

(** A failing write never sends anything but a beginning of the message.
    For every writer, with any pattern of short writes and failures, the bytes
    [WriteMessage] adds are a prefix of the encoding of the payload, the whole
    encoding when it reports success, and an over-long payload is refused
    before a byte is sent. *)
Theorem write_sends_prefix (max fp sequence : Z) (c : Codec) (w : writer) (payload : list byte) :
  newCodec max fp = Ret c ->
  let '(w', seq', err) := WriteMessage c w sequence payload in
  exists p q,
    wire c sequence payload = p ++ q /\ sent w' = sent w ++ p /\
    (err = None -> q = [] /\ seq' = u8 (sequence + Z.of_nat (full_frames fp payload) + 1)) /\
    (max < Z.of_nat (length payload) -> p = [] /\ err = Some ErrMessageTooLarge).
Proof.
  intros (Hv & <- & <-)%newCodec_valid. unfold WriteMessage.
  destruct (Z.ltb_spec (maxMessageBytes c) (Z.of_nat (length payload))) as [Hlt|Hge].
  { exists [], (wire c sequence payload). rewrite app_nil_r. naive_solver. }
  pose proof (write_frames_delivers c _ Hv (length payload) w sequence payload eq_refl) as H.
  specialize (H (full_frames_le _ _ (proj1 (proj2 Hv)))).
  destruct (write_frames _ _ _ _ _) as [[w' s'] err].
  destruct H as [[(p & q & Hpq & Hsent & Hq) _] Hseq].
  exists p, q. split_and!; [done|done|auto|lia].
Qed.

Theorem write_sends_prefix_witness :
  let w := mkWriter [] [mkStep 2 None; mkStep 1 (Some (OtherIO 32))] in
  exists p q, wire (mkCodec 8 4) 0 [Byte.x09] = p ++ q /\
    sent (WriteMessage (mkCodec 8 4) w 0 [Byte.x09]).1.1 = [] ++ p.
Proof.
  cbv zeta.
  pose proof (write_sends_prefix 8 4 0 (mkCodec 8 4)
    (mkWriter [] [mkStep 2 None; mkStep 1 (Some (OtherIO 32))]) [Byte.x09] eq_refl) as H.
  destruct (WriteMessage _ _ _ _) as [[w' s'] err].
  destruct H as (p & q & H1 & H2 & _). exists p, q. split; [exact H1|exact H2].
Defined.

End Codec.
