(* ===== verification/Response.v ===== *)
(** * Server packets ([internal/protocol/mysql/response.go])

    The payload of each packet the gateway sends, byte for byte.  Unsigned
    integers are [Z]; [le_bytes n] is [binary.LittleEndian.AppendUint(8n)]. *)

From stdpp Require Import base list numbers strings option.
From coqutil Require Import Byte.
From Stdlib Require Import ZArith Lia.
From S2P Require Import Prelude GoStrings.

Module Response.
Local Open Scope Z_scope.
Local Open Scope list_scope.

(** Command bytes. *)
Definition CommandQuit : Z := 0x01.
Definition CommandInitDB : Z := 0x02.
Definition CommandQuery : Z := 0x03.
Definition CommandPing : Z := 0x0e.
Definition CommandStmtPrepare : Z := 0x16.
Definition CommandStmtExecute : Z := 0x17.
Definition CommandStmtSendLongData : Z := 0x18.
Definition CommandStmtClose : Z := 0x19.
Definition CommandStmtReset : Z := 0x1a.
Definition CommandStmtFetch : Z := 0x1c.

Definition ServerStatusInTransaction : Z := 0x0001.
Definition ServerStatusAutocommit : Z := 0x0002.

(** Column types. *)
Definition ColumnTypeDecimal : Z := 0x00.
Definition ColumnTypeTiny : Z := 0x01.
Definition ColumnTypeShort : Z := 0x02.
Definition ColumnTypeLong : Z := 0x03.
Definition ColumnTypeFloat : Z := 0x04.
Definition ColumnTypeDouble : Z := 0x05.
Definition ColumnTypeNull : Z := 0x06.
Definition ColumnTypeTimestamp : Z := 0x07.
Definition ColumnTypeLongLong : Z := 0x08.
Definition ColumnTypeInt24 : Z := 0x09.
Definition ColumnTypeDate : Z := 0x0a.
Definition ColumnTypeTime : Z := 0x0b.
Definition ColumnTypeDateTime : Z := 0x0c.
Definition ColumnTypeYear : Z := 0x0d.
Definition ColumnTypeVarChar : Z := 0x0f.
Definition ColumnTypeBit : Z := 0x10.
Definition ColumnTypeJSON : Z := 0xf5.
Definition ColumnTypeNewDecimal : Z := 0xf6.
Definition ColumnTypeEnum : Z := 0xf7.
Definition ColumnTypeSet : Z := 0xf8.
Definition ColumnTypeTinyBlob : Z := 0xf9.
Definition ColumnTypeMediumBlob : Z := 0xfa.
Definition ColumnTypeLongBlob : Z := 0xfb.
Definition ColumnTypeBlob : Z := 0xfc.
Definition ColumnTypeVarString : Z := 0xfd.
Definition ColumnTypeString : Z := 0xfe.
Definition ColumnTypeGeometry : Z := 0xff.

Definition ColumnFlagNotNull : Z := 0x0001.
Definition ColumnFlagUnsigned : Z := 0x0020.
Definition ColumnFlagBinary : Z := 0x0080.

Definition DefaultCharsetID : Z := 45.

Record ColumnDefinition := mkColumn {
  col_Schema : string; col_Table : string; col_OriginalTable : string;
  col_Name : string; col_OriginalName : string;
  col_Charset : Z; col_Length : Z; col_Type : Z; col_Flags : Z; col_Decimals : Z }.

(** ** Length-encoded values *)

Definition AppendLengthEncodedInteger (target : list byte) (value : Z) : list byte :=
  if value <? 0xfb then target ++ [zbyte value]
  else if value <=? 0xffff then target ++ [zbyte 0xfc] ++ le_bytes 2 value
  else if value <=? 0xffffff then
    target ++ [zbyte 0xfd; zbyte value; zbyte (Z.shiftr value 8); zbyte (Z.shiftr value 16)]
  else target ++ [zbyte 0xfe] ++ le_bytes 8 value.

Definition AppendLengthEncodedBytes (target value : list byte) : list byte :=
  AppendLengthEncodedInteger target (Z.of_nat (length value)) ++ value.

(** ** Payloads *)

Definition OKPayload (affectedRows lastInsertID status warnings : Z) : list byte :=
  let payload := [zbyte 0x00] in
  let payload := AppendLengthEncodedInteger payload affectedRows in
  let payload := AppendLengthEncodedInteger payload lastInsertID in
  payload ++ le_bytes 2 status ++ le_bytes 2 warnings.

Definition ErrorPayload (code : Z) (sqlState message : string) : list byte :=
  let sqlState := if (String.length sqlState =? 5)%nat then sqlState else "HY000"%string in
  [zbyte 0xff] ++ le_bytes 2 code ++ [zbyte 35] ++ bytes_of sqlState ++ bytes_of message.

Definition PrepareOKPayload (statementID columns parameters warnings : Z) : list byte :=
  [zbyte 0x00] ++ le_bytes 4 statementID ++ le_bytes 2 columns ++ le_bytes 2 parameters
  ++ [zbyte 0x00] ++ le_bytes 2 warnings.

Definition EOFPayload (status warnings : Z) : list byte :=
  [zbyte 0xfe] ++ le_bytes 2 warnings ++ le_bytes 2 status.

Definition ColumnCountPayload (count : Z) : list byte := AppendLengthEncodedInteger [] count.

Definition ColumnDefinitionPayload (column : ColumnDefinition) : list byte :=
  let charset := if col_Charset column =? 0 then DefaultCharsetID else col_Charset column in
  let length_ := if col_Length column =? 0 then 1024 else col_Length column in
  let payload := AppendLengthEncodedBytes [] (bytes_of "def") in
  let payload := AppendLengthEncodedBytes payload (bytes_of (col_Schema column)) in
  let payload := AppendLengthEncodedBytes payload (bytes_of (col_Table column)) in
  let payload := AppendLengthEncodedBytes payload (bytes_of (col_OriginalTable column)) in
  let payload := AppendLengthEncodedBytes payload (bytes_of (col_Name column)) in
  let payload := AppendLengthEncodedBytes payload (bytes_of (col_OriginalName column)) in
  payload ++ [zbyte 0x0c] ++ le_bytes 2 charset ++ le_bytes 4 length_ ++ [zbyte (col_Type column)]
  ++ le_bytes 2 (col_Flags column) ++ [zbyte (col_Decimals column); zbyte 0; zbyte 0].

(** [TextRowPayload]: [nulls] may be shorter than [values]. *)
Fixpoint text_row (payload : list byte) (values : list (list byte)) (nulls : list bool)
  : list byte :=
  match values with
  | [] => payload
  | value :: values =>
      let is_null := match nulls with b :: _ => b | [] => false end in
      text_row (if is_null then payload ++ [zbyte 0xfb] else AppendLengthEncodedBytes payload value)
        values (tail nulls)
  end.

Definition TextRowPayload (values : list (list byte)) (nulls : list bool) : list byte :=
  text_row [] values nulls.

(** ** Lemmas *)

(** The encoding proper, without the accumulator. *)
Definition lenenc (value : Z) : list byte := AppendLengthEncodedInteger [] value.
Definition lenenc_bytes (value : list byte) : list byte := lenenc (Z.of_nat (length value)) ++ value.

Lemma append_lenenc target value : AppendLengthEncodedInteger target value = target ++ lenenc value.
Proof. unfold lenenc, AppendLengthEncodedInteger. by repeat case_goal. Qed.

Lemma append_lenenc_bytes target value :
  AppendLengthEncodedBytes target value = target ++ lenenc_bytes value.
Proof. unfold AppendLengthEncodedBytes, lenenc_bytes. by rewrite append_lenenc, <- app_assoc. Qed.

Definition cell (value : list byte) (is_null : bool) : list byte :=
  if is_null then [zbyte 0xfb] else lenenc_bytes value.

Fixpoint cells (values : list (list byte)) (nulls : list bool) : list (list byte) :=
  match values with
  | [] => []
  | value :: values =>
      cell value (match nulls with b :: _ => b | [] => false end) :: cells values (tail nulls)
  end.

Lemma text_row_cells values : forall payload nulls,
  text_row payload values nulls = payload ++ concat (cells values nulls).
Proof.
  induction values as [|v values IH]; intros payload nulls; cbn [text_row cells concat].
  - by rewrite app_nil_r.
  - rewrite IH. unfold cell. destruct nulls as [|[] nulls]; cbn [tail];
      rewrite ?append_lenenc_bytes, <- !app_assoc; done.
Qed.

(** First byte and size of a length-encoded integer. *)
Lemma lenenc_head value :
  0 <= value < 2 ^ 64 ->
  exists b rest, lenenc value = b :: rest /\
    bval b <> 0xff /\ bval b <> 0xfb /\
    (bval b = 0xfe -> length rest = 8%nat) /\
    (value < 0xfb -> bval b = value) /\ (bval b = 0 -> value = 0).
Proof.
  intros Hv. unfold lenenc, AppendLengthEncodedInteger.
  destruct (Z.ltb_spec value 0xfb); [|destruct (Z.leb_spec value 0xffff);
    [|destruct (Z.leb_spec value 0xffffff)]]; cbn [app]; do 2 eexists;
    (split; [reflexivity|]); rewrite bval_zbyte_small by lia;
    split_and!; try (lia || done); intros; apply le_bytes_length.
Qed.

(** The encoder by cases on the size. *)
Lemma lenenc_value v :
  0 <= v < 2 ^ 64 ->
  lenenc v = if v <? 0xfb then [zbyte v]
    else if v <=? 0xffff then zbyte 0xfc :: le_bytes 2 v
    else if v <=? 0xffffff then zbyte 0xfd :: le_bytes 3 v
    else zbyte 0xfe :: le_bytes 8 v.
Proof. intros Hv. unfold lenenc, AppendLengthEncodedInteger. by repeat case_goal. Qed.

End Response.
