(* ===== verification/Handshake.v ===== *)
(** * The connection handshake ([internal/protocol/mysql/handshake.go],
      [capability.go])

    The server greeting, the parser of the client's response and the capability
    check.  The byte cursor is state passing; an index or slice out of range
    would be [Panic], and running out of loop fuel is [Panic] too, so that the
    absence of panics covers termination. *)

From stdpp Require Import base list numbers strings option gmap.
From coqutil Require Import Byte.
From Stdlib Require Import ZArith Lia.
From S2P Require Import Prelude GoStrings Response.
Import Response.

Module Handshake.
Local Open Scope Z_scope.
Local Open Scope list_scope.

(** ** Capabilities *)

Definition ClientLongPassword : Z := 2 ^ 0.
Definition ClientFoundRows : Z := 2 ^ 1.
Definition ClientLongFlag : Z := 2 ^ 2.
Definition ClientConnectWithDB : Z := 2 ^ 3.
Definition ClientCompress : Z := 2 ^ 5.
Definition ClientLocalFiles : Z := 2 ^ 7.
Definition ClientProtocol41 : Z := 2 ^ 9.
Definition ClientSSL : Z := 2 ^ 11.
Definition ClientTransactions : Z := 2 ^ 13.
Definition ClientSecureConnection : Z := 2 ^ 15.
Definition ClientMultiStatements : Z := 2 ^ 16.
Definition ClientMultiResults : Z := 2 ^ 17.
Definition ClientPSMultiResults : Z := 2 ^ 18.
Definition ClientPluginAuth : Z := 2 ^ 19.
Definition ClientConnectAttrs : Z := 2 ^ 20.
Definition ClientPluginAuthLenencClientData : Z := 2 ^ 21.
Definition ClientSessionTrack : Z := 2 ^ 23.
Definition ClientDeprecateEOF : Z := 2 ^ 24.
Definition ClientZstdCompressionAlgorithm : Z := 2 ^ 26.
Definition ClientRememberOptions : Z := 2 ^ 31.

(** Bitwise or of a list of flags. *)
Definition flags (l : list Z) : Z := foldr Z.lor 0 l.

Definition DefaultServerCapabilities : Z :=
  flags [ClientLongPassword; ClientLongFlag; ClientConnectWithDB; ClientProtocol41;
         ClientTransactions; ClientSecureConnection; ClientMultiResults; ClientPSMultiResults;
         ClientPluginAuth; ClientConnectAttrs; ClientPluginAuthLenencClientData;
         ClientSessionTrack; ClientDeprecateEOF].

Definition has (capabilities flag : Z) : bool := negb (Z.land capabilities flag =? 0).

(** ** Configuration *)

Record HandshakeConfig := mkConfig {
  ServerVersion : string; ConnectionID : Z; Capabilities : Z; CharsetID : Z;
  Status : Z; AuthPlugin : string; MaxAttributesBytes : Z }.

Definition DefaultAuthPlugin : string := "caching_sha2_password".

Definition DefaultHandshakeConfig (connectionID : Z) : HandshakeConfig :=
  mkConfig "DatabaseAccelerator-0.0.2" connectionID DefaultServerCapabilities
    DefaultCharsetID ServerStatusAutocommit DefaultAuthPlugin (16 * 2 ^ 10).

Record Handshake := mkHandshake { config : HandshakeConfig; seed : list byte }.

Inductive handshake_error :=
| ErrMalformedHandshake
| ErrUnsupportedCapability (what : string)
| ErrUnsupportedCharset
| ErrConfiguration (what : string).

Definition supportedCharset (charset : Z) : bool :=
  existsb (Z.eqb charset) [8; 33; 45; 46; 224; 255].

(** [strings.ContainsRune(s, 0)] *)
Definition contains_nul (s : string) : bool :=
  existsb (fun b => bval b =? 0) (bytes_of s).

(** [random] is what [rand.Read] puts into the 20 bytes of the seed, or its
    failure. *)
Definition NewHandshake (cfg : HandshakeConfig) (random : option (list byte))
  : outcome handshake_error Handshake :=
  if contains_nul (ServerVersion cfg) || String.eqb (ServerVersion cfg) "" then
    Fail (ErrConfiguration "mysql server version is invalid")
  else if contains_nul (AuthPlugin cfg) || String.eqb (AuthPlugin cfg) "" then
    Fail (ErrConfiguration "mysql auth plugin is invalid")
  else if MaxAttributesBytes cfg <=? 0 then
    Fail (ErrConfiguration "mysql max attributes bytes must be positive")
  else if negb (supportedCharset (CharsetID cfg)) then Fail ErrUnsupportedCharset
  else match random with
       | None => Fail (ErrConfiguration "generate mysql auth seed")
       | Some bytes =>
           Ret (mkHandshake cfg (map (fun b => if bval b =? 0 then zbyte 1 else b) bytes))
       end.

(** ** Greeting *)

Definition appendNullTerminated (target : list byte) (value : string) : list byte :=
  target ++ bytes_of value ++ [zbyte 0].

Definition GreetingPayload (h : Handshake) : list byte :=
  let capabilities := u32 (Capabilities (config h)) in
  let payload := [zbyte 10] in
  let payload := appendNullTerminated payload (ServerVersion (config h)) in
  let payload := payload ++ le_bytes 4 (ConnectionID (config h)) in
  let payload := payload ++ take 8 (seed h) ++ [zbyte 0] in
  let payload := payload ++ [zbyte capabilities; zbyte (Z.shiftr capabilities 8)] in
  let payload := payload ++ [zbyte (CharsetID (config h))] in
  let payload := payload ++ [zbyte (Status (config h)); zbyte (Z.shiftr (Status (config h)) 8)] in
  let payload := payload ++ [zbyte (Z.shiftr capabilities 16); zbyte (Z.shiftr capabilities 24)] in
  let payload := payload ++ [zbyte (Z.of_nat (length (seed h)) + 1)] in
  let payload := payload ++ repeat (zbyte 0) 10 in
  let payload := payload ++ drop 8 (seed h) ++ [zbyte 0] in
  appendNullTerminated payload (AuthPlugin (config h)).

(** ** Byte cursor

    A method with an [ok] result returns an option; the cursor moves only on
    success. *)

Record byteCursor := mkCursor { data : list byte; offset : nat }.

Definition newByteCursor (data : list byte) : byteCursor := mkCursor data 0.

Definition remaining (c : byteCursor) : Z := Z.of_nat (length (data c)) - Z.of_nat (offset c).

Definition advance (n : nat) (c : byteCursor) : byteCursor := mkCursor (data c) (offset c + n).

Definition cursor_result (A : Type) : Type := outcome handshake_error (option A * byteCursor).

Definition skip (length_ : Z) (c : byteCursor) : bool * byteCursor :=
  if (length_ <? 0) || (remaining c <? length_) then (false, c)
  else (true, advance (Z.to_nat length_) c).

Definition c_byte (c : byteCursor) : cursor_result byte :=
  if remaining c <? 1 then Ret (None, c)
  else value ← go_index (data c) (offset c); Ret (Some value, advance 1 c).

Definition c_uint32 (c : byteCursor) : cursor_result Z :=
  if remaining c <? 4 then Ret (None, c)
  else bs ← go_slice (data c) (offset c) (offset c + 4);
       Ret (Some (le_value bs), advance 4 c).

Definition c_bytes (length_ : Z) (c : byteCursor) : cursor_result (list byte) :=
  if (length_ <? 0) || (remaining c <? length_) then Ret (None, c)
  else let n := Z.to_nat length_ in
       bs ← go_slice (data c) (offset c) (offset c + n);
       Ret (Some bs, advance n c).

(** The index of the first NUL at or after [index]. *)
Fixpoint find_nul (l : list byte) (index : nat) : option nat :=
  match l with
  | [] => None
  | b :: l => if bval b =? 0 then Some index else find_nul l (S index)
  end.

Definition nullTerminated (c : byteCursor) : cursor_result string :=
  match find_nul (drop (offset c) (data c)) (offset c) with
  | None => Ret (None, c)
  | Some index =>
      value ← go_slice (data c) (offset c) index;
      Ret (Some (string_of value), mkCursor (data c) (index + 1))
  end.

(** [if !ok { return ErrMalformedHandshake }] *)
Definition or_malformed {A} (r : cursor_result A) : outcome handshake_error (A * byteCursor) :=
  '(v, c) ← r;
  match v with Some a => Ret (a, c) | None => Fail ErrMalformedHandshake end.

Definition lenEncodedInt (c : byteCursor) : outcome handshake_error (Z * byteCursor) :=
  '(first, c) ← or_malformed (c_byte c);
  if bval first =? 0xfc then
    '(value, c) ← or_malformed (c_bytes 2 c); Ret (le_value value, c)
  else if bval first =? 0xfd then
    '(value, c) ← or_malformed (c_bytes 3 c);
    v0 ← go_index value 0; v1 ← go_index value 1; v2 ← go_index value 2;
    Ret (Z.lor (Z.lor (bval v0) (Z.shiftl (bval v1) 8)) (Z.shiftl (bval v2) 16), c)
  else if bval first =? 0xfe then
    '(value, c) ← or_malformed (c_bytes 8 c); Ret (le_value value, c)
  else if (bval first =? 0xfb) || (bval first =? 0xff) then Fail ErrMalformedHandshake
  else Ret (bval first, c).

Definition lenEncodedBytes (c : byteCursor) : outcome handshake_error (list byte * byteCursor) :=
  '(length_, c) ← lenEncodedInt c;
  if (remaining c <? length_) || (2 ^ 63 - 1 <? length_) then Fail ErrMalformedHandshake
  else or_malformed (c_bytes length_ c).

(** ** Response *)

Record HandshakeResponse := mkResponse {
  ClientCapabilities : Z; Negotiated : Z; MaxPacketBytes : Z; ResponseCharsetID : Z;
  Username : string; AuthResponse : list byte; ResponseDatabase : string;
  ResponseAuthPlugin : string; Attributes : gmap string string; WantsTLS : bool }.

Definition required_flags : Z :=
  flags [ClientProtocol41; ClientSecureConnection; ClientPluginAuth].

Definition permitted_client_only : Z :=
  flags [ClientSSL; ClientFoundRows; ClientLocalFiles; ClientMultiStatements;
         ClientMultiResults; ClientPSMultiResults; ClientSessionTrack; ClientRememberOptions].

Definition validateCapabilities (h : Handshake) (client charset : Z)
  : outcome handshake_error unit :=
  if negb (Z.land client required_flags =? required_flags) then
    Fail (ErrUnsupportedCapability "required protocol flags")
  else if negb (Z.land client (flags [ClientCompress; ClientZstdCompressionAlgorithm]) =? 0) then
    Fail (ErrUnsupportedCapability "compression")
  else
    let unsupported := Z.ldiff client (Capabilities (config h)) in
    if negb (Z.ldiff unsupported permitted_client_only =? 0) then
      Fail (ErrUnsupportedCapability "unknown requested flag")
    else if negb (supportedCharset charset) then Fail ErrUnsupportedCharset
    else Ret tt.

(** The attribute loop. *)
Fixpoint parse_attributes (fuel : nat) (c : byteCursor) (attributes : gmap string string)
  : outcome handshake_error (gmap string string) :=
  if remaining c <=? 0 then Ret attributes else
  match fuel with
  | O => Panic
  | S f =>
      '(key, c) ← lenEncodedBytes c;
      '(value, c) ← lenEncodedBytes c;
      if (length key =? 0)%nat then Fail ErrMalformedHandshake
      else parse_attributes f c (<[string_of key := string_of value]> attributes)
  end.

(** The three encodings of the authentication response. *)
Definition parse_auth (capabilities : Z) (c : byteCursor)
  : outcome handshake_error (list byte * byteCursor) :=
  if has capabilities ClientPluginAuthLenencClientData then lenEncodedBytes c
  else if has capabilities ClientSecureConnection then
    '(length_, c) ← or_malformed (c_byte c); or_malformed (c_bytes (bval length_) c)
  else
    '(text, c) ← or_malformed (nullTerminated c); Ret (bytes_of text, c).

(** A field that is present when its flag is. *)
Definition optional_string (present : bool) (c : byteCursor)
  : outcome handshake_error (string * byteCursor) :=
  if present then or_malformed (nullTerminated c) else Ret (""%string, c).

Definition parse_attribute_block (h : Handshake) (present : bool) (c : byteCursor)
  : outcome handshake_error (gmap string string * byteCursor) :=
  if present then
    '(block, c) ← lenEncodedBytes c;
    if MaxAttributesBytes (config h) <? Z.of_nat (length block) then Fail ErrMalformedHandshake
    else attributes ← parse_attributes (length block) (newByteCursor block) ∅;
         Ret (attributes, c)
  else Ret (∅, c).

Definition ParseResponse (h : Handshake) (payload : list byte)
  : outcome handshake_error HandshakeResponse :=
  if (length payload <? 32)%nat then Fail ErrMalformedHandshake else
  let cursor := newByteCursor payload in
  '(capabilities, cursor) ← or_malformed (c_uint32 cursor);
  '(maxPacket, cursor) ← or_malformed (c_uint32 cursor);
  '(charset, cursor) ← or_malformed (c_byte cursor);
  let '(ok, cursor) := skip 23 cursor in
  if negb ok then Fail ErrMalformedHandshake else
  let charset := bval charset in
  _ ← validateCapabilities h capabilities charset;
  let negotiated := Z.land capabilities (Capabilities (config h)) in
  if (remaining cursor =? 0) && has capabilities ClientSSL then
    if negb (has (Capabilities (config h)) ClientSSL) then
      Fail (ErrUnsupportedCapability "tls")
    else Ret (mkResponse capabilities negotiated maxPacket charset "" [] "" "" ∅ true)
  else
  '(username, cursor) ← or_malformed (nullTerminated cursor);
  '(authResponse, cursor) ← parse_auth capabilities cursor;
  '(database, cursor) ← optional_string (has capabilities ClientConnectWithDB) cursor;
  '(plugin, cursor) ← optional_string (has capabilities ClientPluginAuth) cursor;
  '(attributes, cursor) ← parse_attribute_block h (has capabilities ClientConnectAttrs) cursor;
  if negb (remaining cursor =? 0) then Fail ErrMalformedHandshake else
  let plugin := if String.eqb plugin "" then AuthPlugin (config h) else plugin in
  Ret (mkResponse capabilities negotiated maxPacket charset username authResponse database
         plugin attributes false).

(** [SafeConnectionAttributes] *)
Definition safe_attribute_names : list string :=
  ["_client_name"; "_client_version"; "program_name"; "platform"]%string.

Definition SafeConnectionAttributes (attributes : gmap string string) : gmap string string :=
  map_imap (fun key value =>
    if negb (str_mem key safe_attribute_names) then None
    else Some (if (128 <? String.length value)%nat then str_take 128 value else value))
    attributes.

(** ** What a client sends

    The reference encoder of a login, from the protocol description: it is what
    [ParseResponse] has to invert. *)

Record client_login := mkLogin {
  cl_capabilities : Z; cl_max_packet : Z; cl_charset : Z; cl_user : string;
  cl_auth : list byte; cl_database : string; cl_plugin : string;
  cl_attributes : list (string * string) }.

Definition encode_attribute (kv : string * string) : list byte :=
  lenenc_bytes (bytes_of kv.1) ++ lenenc_bytes (bytes_of kv.2).

Definition encode_attributes (l : list (string * string)) : list byte :=
  concat (map encode_attribute l).

Definition encode_auth (capabilities : Z) (auth : list byte) : list byte :=
  if has capabilities ClientPluginAuthLenencClientData then lenenc_bytes auth
  else zbyte (Z.of_nat (length auth)) :: auth.

Definition encode_optional (present : bool) (s : string) : list byte :=
  if present then bytes_of s ++ [zbyte 0] else [].

Definition encode_login (l : client_login) : list byte :=
  let caps := cl_capabilities l in
  le_bytes 4 caps ++ le_bytes 4 (cl_max_packet l) ++ [zbyte (cl_charset l)] ++
  repeat (zbyte 0) 23 ++
  (bytes_of (cl_user l) ++ [zbyte 0]) ++
  encode_auth caps (cl_auth l) ++
  encode_optional (has caps ClientConnectWithDB) (cl_database l) ++
  encode_optional (has caps ClientPluginAuth) (cl_plugin l) ++
  (if has caps ClientConnectAttrs then lenenc_bytes (encode_attributes (cl_attributes l)) else []).

Definition attribute_map (l : list (string * string)) (m : gmap string string) : gmap string string :=
  foldl (fun m kv => <[kv.1 := kv.2]> m) m l.

(** ** Cursor lemmas *)

(** The cursor between [pre] and [rest]. *)
Definition between (pre rest : list byte) : byteCursor := mkCursor (pre ++ rest) (length pre).

Lemma between_data pre rest : data (between pre rest) = pre ++ rest.
Proof. reflexivity. Qed.

Lemma between_offset pre rest : offset (between pre rest) = length pre.
Proof. reflexivity. Qed.

Lemma between_remaining pre rest : remaining (between pre rest) = Z.of_nat (length rest).
Proof. unfold remaining, between. cbn. rewrite length_app. lia. Qed.

Lemma between_advance pre mid rest :
  advance (length mid) (between pre (mid ++ rest)) = between (pre ++ mid) rest.
Proof. unfold advance, between. cbn. by rewrite length_app, app_assoc. Qed.

Lemma slice_mid {E} (pre mid rest : list byte) :
  go_slice (E := E) (pre ++ mid ++ rest) (length pre) (length pre + length mid) = Ret mid.
Proof.
  rewrite go_slice_ok by (rewrite ?length_app; lia).
  replace (length pre + length mid - length pre)%nat with (length mid) by lia.
  by rewrite drop_length_app, take_length_app.
Qed.

Lemma c_bytes_between mid pre rest :
  c_bytes (Z.of_nat (length mid)) (between pre (mid ++ rest)) =
  Ret (Some mid, between (pre ++ mid) rest).
Proof.
  unfold c_bytes. rewrite between_remaining, length_app.
  rewrite (proj2 (Z.ltb_ge (Z.of_nat (length mid)) 0)) by lia.
  rewrite (proj2 (Z.ltb_ge _ (Z.of_nat (length mid)))) by lia. cbn [orb]. cbv zeta.
  rewrite Nat2Z.id. rewrite !between_data, !between_offset.
  rewrite slice_mid. cbn [mbind outcome_bind]. by rewrite between_advance.
Qed.

Lemma c_byte_between b pre rest :
  c_byte (between pre (b :: rest)) = Ret (Some b, between (pre ++ [b]) rest).
Proof.
  unfold c_byte. rewrite between_remaining. cbn [length].
  rewrite (proj2 (Z.ltb_ge _ _)) by lia. unfold go_index. rewrite between_data, between_offset.
  rewrite list_lookup_middle by done. cbn [mbind outcome_bind].
  by rewrite <- (between_advance pre [b] rest).
Qed.

Lemma c_uint32_between v pre rest :
  0 <= v < 2 ^ 32 ->
  c_uint32 (between pre (le_bytes 4 v ++ rest)) = Ret (Some v, between (pre ++ le_bytes 4 v) rest).
Proof.
  intros Hv. unfold c_uint32. rewrite between_remaining, length_app, le_bytes_length.
  rewrite (proj2 (Z.ltb_ge _ _)) by lia. rewrite !between_data, !between_offset.
  rewrite <- (le_bytes_length 4 v) at 2. rewrite slice_mid. cbn [mbind outcome_bind].
  rewrite le_value_bytes by lia. rewrite <- between_advance, le_bytes_length. done.
Qed.

Lemma find_nul_app l rest i :
  forallb (fun b => negb (bval b =? 0)) l = true ->
  find_nul (l ++ zbyte 0 :: rest) i = Some (i + length l)%nat.
Proof.
  revert i; induction l as [|b l IH]; intros i; cbn [forallb app find_nul length].
  - intros _. cbn. f_equal. lia.
  - intros [Hb Hl]%andb_prop. apply negb_true_iff in Hb. rewrite Hb, IH by done. f_equal. lia.
Qed.

(** A string without NUL bytes. *)
Definition no_nul (s : string) : Prop := contains_nul s = false.

Lemma no_nul_forallb s :
  no_nul s -> forallb (fun b => negb (bval b =? 0)) (bytes_of s) = true.
Proof.
  unfold no_nul, contains_nul. induction (bytes_of s) as [|b l IH]; [done|]. cbn.
  destruct (bval b =? 0); [done|]. exact IH.
Qed.

Lemma nullTerminated_between s pre rest :
  no_nul s ->
  nullTerminated (between pre ((bytes_of s ++ [zbyte 0]) ++ rest)) =
  Ret (Some s, between (pre ++ bytes_of s ++ [zbyte 0]) rest).
Proof.
  intros Hs%no_nul_forallb. unfold nullTerminated, between. cbn [data offset].
  rewrite drop_length_app, <- app_assoc. cbn [app]. rewrite find_nul_app by done.
  rewrite slice_mid. cbn [mbind outcome_bind]. rewrite string_of_bytes_of.
  do 3 f_equal; [|rewrite !length_app; cbn; lia].
  by rewrite <- !app_assoc.
Qed.

(** The cursor reads back every length-encoded integer. *)
Lemma lenEncodedInt_between v pre rest :
  0 <= v < 2 ^ 64 ->
  lenEncodedInt (between pre (lenenc v ++ rest)) = Ret (v, between (pre ++ lenenc v) rest).
Proof.
  intros Hv. rewrite (lenenc_value v Hv). unfold lenEncodedInt.
  destruct (Z.ltb_spec v 0xfb); [|destruct (Z.leb_spec v 0xffff);
    [|destruct (Z.leb_spec v 0xffffff)]]; cbn [app]; rewrite c_byte_between;
    cbn [or_malformed mbind outcome_bind]; rewrite ?bval_zbyte_small by lia.
  - rewrite !(proj2 (Z.eqb_neq v _)) by lia. done.
  - cbn [Z.eqb Pos.eqb]. rewrite (c_bytes_between (le_bytes 2 v)).
    cbn [or_malformed mbind outcome_bind]. rewrite le_value_bytes by lia. by rewrite <- app_assoc.
  - cbn [Z.eqb Pos.eqb]. rewrite (c_bytes_between (le_bytes 3 v)).
    cbn [or_malformed mbind outcome_bind]. change (le_bytes 3 v) with
      [zbyte v; zbyte (Z.shiftr v 8); zbyte (Z.shiftr (Z.shiftr v 8) 8)].
    cbn [go_index lookup list_lookup mbind outcome_bind]. rewrite three_bytes.
    change [zbyte v; zbyte (Z.shiftr v 8); zbyte (Z.shiftr (Z.shiftr v 8) 8)] with (le_bytes 3 v).
    rewrite le_value_bytes by lia. by rewrite <- app_assoc.
  - cbn [Z.eqb Pos.eqb]. rewrite (c_bytes_between (le_bytes 8 v)).
    cbn [or_malformed mbind outcome_bind]. rewrite le_value_bytes by lia. by rewrite <- app_assoc.
Qed.

Lemma lenEncodedBytes_between mid pre rest :
  Z.of_nat (length mid) < 2 ^ 63 ->
  lenEncodedBytes (between pre (lenenc_bytes mid ++ rest)) =
  Ret (mid, between (pre ++ lenenc_bytes mid) rest).
Proof.
  intros Hl. unfold lenEncodedBytes, lenenc_bytes. rewrite <- app_assoc.
  rewrite lenEncodedInt_between by lia. cbn [mbind outcome_bind].
  rewrite between_remaining, length_app.
  rewrite (proj2 (Z.ltb_ge _ (Z.of_nat (length mid)))) by lia.
  rewrite (proj2 (Z.ltb_ge (2 ^ 63 - 1) _)) by lia. cbn [orb].
  rewrite c_bytes_between. cbn [or_malformed mbind outcome_bind]. by rewrite <- app_assoc.
Qed.

(** ** Safety of the cursor *)

Definition wf (c : byteCursor) : Prop := (offset c <= length (data c))%nat.

(** From a well-formed cursor the step does not panic and, when it succeeds,
    moves at least [n] bytes forward inside the same data. *)
Definition moves {A} (n : nat) (c : byteCursor) (r : outcome handshake_error (A * byteCursor)) : Prop :=
  r <> Panic /\
  forall a c', r = Ret (a, c') ->
    data c' = data c /\ (offset c + n <= offset c')%nat /\ wf c'.

Lemma moves_bind {A B} n m c (r : outcome handshake_error (A * byteCursor))
    (k : A * byteCursor -> outcome handshake_error (B * byteCursor)) :
  moves n c r ->
  (forall a c', r = Ret (a, c') -> wf c' -> moves m c' (k (a, c'))) ->
  moves (n + m) c (r ≫= k).
Proof.
  intros [Hp Hr] Hk. destruct r as [[a c']| |]; cbn; [|by split|by destruct Hp].
  destruct (Hr a c' eq_refl) as (Hd & Ho & Hw).
  destruct (Hk a c' eq_refl Hw) as [Hp' Hr'].
  split; [done|]. intros b c2 H2. destruct (Hr' b c2 H2) as (Hd' & Ho' & Hw').
  split_and!; [congruence|lia|done].
Qed.

Lemma moves_bind0 {A B} c (r : outcome handshake_error (A * byteCursor))
    (k : A * byteCursor -> outcome handshake_error (B * byteCursor)) :
  moves 0 c r ->
  (forall a c', r = Ret (a, c') -> wf c' -> moves 0 c' (k (a, c'))) ->
  moves 0 c (r ≫= k).
Proof. apply (moves_bind 0 0). Qed.

Lemma moves_ret {A} (a : A) c : wf c -> moves 0 c (Ret (a, c)).
Proof. intros Hw. split; [done|]. intros ? ? [= <- <-]. split_and!; [done|lia|done]. Qed.

Lemma moves_fail {A} n c e : moves (A := A) n c (Fail e).
Proof. by split. Qed.

Lemma moves_weaken {A} n m c (r : outcome handshake_error (A * byteCursor)) :
  (m <= n)%nat -> moves n c r -> moves m c r.
Proof. intros Hn [Hp Hr]. split; [done|]. intros a c' H. destruct (Hr a c' H) as (?&?&?).
  split_and!; [done|lia|done]. Qed.

Lemma c_byte_moves c : wf c -> moves 1 c (or_malformed (c_byte c)).
Proof.
  unfold wf, c_byte, remaining. intros Hw. destruct (Z.ltb_spec (Z.of_nat (length (data c)) - Z.of_nat (offset c)) 1); [apply moves_fail|].
  destruct (go_index_ok (E := handshake_error) (data c) (offset c)) as [b ->]; [lia|].
  cbn. split; [done|]. intros ? ? [= <- <-]. unfold wf. cbn. split_and!; [done|lia|lia].
Qed.

Lemma c_bytes_moves n c : wf c -> moves 0 c (or_malformed (c_bytes n c)).
Proof.
  unfold wf, c_bytes, remaining. intros Hw.
  destruct (_ || _) eqn:E; [apply moves_fail|]. bool_props.
  rewrite go_slice_ok by lia. cbn. split; [done|].
  intros ? ? [= <- <-]. unfold wf. cbn. split_and!; [done|lia|lia].
Qed.

Lemma c_bytes_length n c bs c' :
  or_malformed (c_bytes n c) = Ret (bs, c') -> length bs = Z.to_nat n.
Proof.
  unfold c_bytes. destruct (_ || _); [discriminate|]. cbv zeta.
  destruct (go_slice _ _ _) as [l| |] eqn:E; cbn; [|discriminate..].
  intros [= <- _]. apply go_slice_length in E as [-> _]. lia.
Qed.

Lemma c_uint32_moves c : wf c -> moves 0 c (or_malformed (c_uint32 c)).
Proof.
  unfold wf, c_uint32, remaining. intros Hw. destruct (_ <? 4) eqn:E; [apply moves_fail|].
  bool_props. rewrite go_slice_ok by lia. cbn. split; [done|].
  intros ? ? [= <- <-]. unfold wf. cbn. split_and!; [done|lia|lia].
Qed.

Lemma find_nul_range l : forall i k, find_nul l i = Some k -> (i <= k < i + length l)%nat.
Proof.
  induction l as [|b l IH]; intros i k; cbn; [done|].
  destruct (bval b =? 0); [intros [= <-]; lia|]. intros H%IH. lia.
Qed.

Lemma nullTerminated_moves c : wf c -> moves 0 c (or_malformed (nullTerminated c)).
Proof.
  unfold wf, nullTerminated. intros Hw.
  destruct (find_nul _ _) as [k|] eqn:E; [|apply moves_fail].
  apply find_nul_range in E. rewrite length_drop in E.
  rewrite go_slice_ok by lia. cbn. split; [done|].
  intros ? ? [= <- <-]. unfold wf. cbn. split_and!; [done|lia|lia].
Qed.

Lemma sized_int_moves {B} (n : Z) c (k : list byte * byteCursor -> outcome handshake_error (B * byteCursor)) :
  wf c ->
  (forall v c', length v = Z.to_nat n -> wf c' -> moves 0 c' (k (v, c'))) ->
  moves 0 c (or_malformed (c_bytes n c) ≫= k).
Proof.
  intros Hw Hk. apply moves_bind0; [by apply c_bytes_moves|]. intros v c' Hv Hw'.
  apply Hk; [|done]. by apply c_bytes_length in Hv.
Qed.

Lemma lenEncodedInt_moves c : wf c -> moves 1 c (lenEncodedInt c).
Proof.
  intros Hw. unfold lenEncodedInt. apply (moves_bind 1 0); [by apply c_byte_moves|].
  intros b c1 _ Hw1. destruct (bval b =? 0xfc); [|destruct (bval b =? 0xfd)];
    [| |destruct (bval b =? 0xfe)].
  - apply sized_int_moves; [done|]. intros v c2 _ Hw2. by apply moves_ret.
  - apply sized_int_moves; [done|]. intros v c2 Hv Hw2.
    destruct v as [|v0 [|v1 [|v2 [|]]]]; try discriminate Hv. by apply moves_ret.
  - apply sized_int_moves; [done|]. intros v c2 _ Hw2. by apply moves_ret.
  - case_goal; [apply moves_fail|by apply moves_ret].
Qed.

Lemma lenEncodedBytes_moves c : wf c -> moves 1 c (lenEncodedBytes c).
Proof.
  intros Hw. unfold lenEncodedBytes. apply (moves_bind 1 0); [by apply lenEncodedInt_moves|].
  intros n c1 _ Hw1. case_goal; [apply moves_fail|by apply c_bytes_moves].
Qed.

Lemma parse_attributes_no_panic fuel : forall c m,
  wf c -> (length (data c) <= fuel + offset c)%nat -> no_panic (parse_attributes fuel c m).
Proof.
  induction fuel as [|f IH]; intros c m Hw Hf; unfold wf in Hw; cbn [parse_attributes];
    unfold remaining; destruct (Z.leb_spec (Z.of_nat (length (data c)) - Z.of_nat (offset c)) 0);
    try done; [lia|].
  destruct (lenEncodedBytes_moves c Hw) as [Hp Hr].
  destruct (lenEncodedBytes c) as [[k c1]| |]; [|done..].
  destruct (Hr k c1 eq_refl) as (Hd1 & Ho1 & Hw1). cbn [mbind outcome_bind].
  destruct (lenEncodedBytes_moves c1 Hw1) as [Hp1 Hr1].
  destruct (lenEncodedBytes c1) as [[v c2]| |]; [|done..].
  destruct (Hr1 v c2 eq_refl) as (Hd2 & Ho2 & Hw2). cbn [mbind outcome_bind].
  case_goal; [done|]. apply IH; [done|]. rewrite Hd2, Hd1. lia.
Qed.

Lemma parse_attribute_block_moves h b c : wf c -> moves 0 c (parse_attribute_block h b c).
Proof.
  intros Hw. unfold parse_attribute_block. destruct b; [|by apply moves_ret].
  apply (moves_weaken 1 0), (moves_bind 1 0); [lia|by apply lenEncodedBytes_moves|].
  intros block c1 _ Hw1. case_goal; [apply moves_fail|].
  pose proof (parse_attributes_no_panic (length block) (newByteCursor block) ∅) as Hn.
  destruct (parse_attributes _ _ _) eqn:E; cbn; [by apply moves_ret|apply moves_fail|].
  by destruct Hn; [unfold wf; cbn; lia|cbn; lia|].
Qed.

Lemma parse_auth_moves caps c : wf c -> moves 0 c (parse_auth caps c).
Proof.
  intros Hw. unfold parse_auth. repeat case_goal.
  - apply (moves_weaken 1 0); [lia|by apply lenEncodedBytes_moves].
  - apply (moves_weaken 1 0), (moves_bind 1 0); [lia|by apply c_byte_moves|].
    intros b c1 _ Hw1. by apply c_bytes_moves.
  - apply moves_bind0; [by apply nullTerminated_moves|]. intros t c1 _ Hw1. by apply moves_ret.
Qed.

Lemma optional_string_moves b c : wf c -> moves 0 c (optional_string b c).
Proof.
  intros Hw. destruct b; [by apply nullTerminated_moves|by apply moves_ret].
Qed.

(** [parse m c k]: one step of the parser followed by the rest. *)
Lemma moves_no_panic {A B} c (r : outcome handshake_error (A * byteCursor))
    (k : A * byteCursor -> outcome handshake_error B) :
  moves 0 c r -> (forall a c', wf c' -> no_panic (k (a, c'))) -> no_panic (r ≫= k).
Proof.
  intros [Hp Hr] Hk. destruct r as [[a c']| |]; cbn; [|auto with accel|by destruct Hp].
  apply Hk. by destruct (Hr a c' eq_refl) as (_ & _ & Hw).
Qed.

Lemma parse_response_no_panic h payload : no_panic (ParseResponse h payload).
Proof.
  unfold ParseResponse. case_goal; [auto with accel|].
  apply (moves_no_panic (newByteCursor payload));
    [apply c_uint32_moves; unfold wf; cbn; lia|intros caps c1 Hw1].
  apply (moves_no_panic c1); [by apply c_uint32_moves|intros max c2 Hw2].
  apply (moves_no_panic c2);
    [apply (moves_weaken 1 0); [lia|by apply c_byte_moves]|intros cs c3 Hw3].
  unfold skip. destruct (_ || _) eqn:E; cbn [negb]; [auto with accel|].
  assert (Hw4 : wf (advance (Z.to_nat 23) c3)).
  { bool_props. unfold wf, remaining, advance in *. cbn. lia. }
  revert Hw4. generalize (advance (Z.to_nat 23) c3). intros c4 Hw4.
  apply bind_no_panic.
  { unfold validateCapabilities. repeat case_goal; auto with accel. }
  intros _ _. case_goal; [case_goal; auto with accel|].
  apply (moves_no_panic c4); [by apply nullTerminated_moves|intros u c5 Hw5].
  apply (moves_no_panic c5); [by apply parse_auth_moves|intros a c6 Hw6].
  apply (moves_no_panic c6); [by apply optional_string_moves|intros d c7 Hw7].
  apply (moves_no_panic c7); [by apply optional_string_moves|intros pl c8 Hw8].
  apply (moves_no_panic c8); [by apply parse_attribute_block_moves|intros at_ c9 Hw9].
  case_goal; auto with accel.
Qed.

(** ** The login round trip *)

Lemma string_nil_bytes : bytes_of "" = [].
Proof. reflexivity. Qed.

Lemma optional_string_between present s pre rest :
  no_nul s ->
  optional_string present (between pre (encode_optional present s ++ rest)) =
  Ret (if present then s else ""%string, between (pre ++ encode_optional present s) rest).
Proof.
  intros Hs. unfold optional_string, encode_optional. destruct present.
  - by rewrite nullTerminated_between.
  - cbn [app]. by rewrite app_nil_r.
Qed.

Lemma parse_auth_between caps auth pre rest :
  has caps ClientSecureConnection = true -> (length auth <= 255)%nat ->
  parse_auth caps (between pre (encode_auth caps auth ++ rest)) =
  Ret (auth, between (pre ++ encode_auth caps auth) rest).
Proof.
  intros Hc Hl. unfold parse_auth, encode_auth.
  destruct (has caps ClientPluginAuthLenencClientData).
  - rewrite lenEncodedBytes_between by lia. done.
  - rewrite Hc. cbn [app]. rewrite c_byte_between. cbn [or_malformed mbind outcome_bind].
    rewrite bval_zbyte_small by lia. rewrite c_bytes_between.
    cbn [or_malformed mbind outcome_bind]. by rewrite <- app_assoc.
Qed.

(** An attribute list the parser accepts: no empty key. *)
Definition keyed (kv : string * string) : Prop := kv.1 <> ""%string.

Definition attributes_size (l : list (string * string)) : nat := length (encode_attributes l).

Lemma lenenc_bytes_length bs : (length bs <= length (lenenc_bytes bs))%nat.
Proof. unfold lenenc_bytes. rewrite length_app. lia. Qed.

Lemma lenenc_bytes_pos bs : (0 < length (lenenc_bytes bs))%nat.
Proof.
  unfold lenenc_bytes, lenenc, AppendLengthEncodedInteger.
  repeat case_goal; cbn [app length]; lia.
Qed.

Lemma bytes_of_nonempty s : s <> ""%string -> (length (bytes_of s) =? 0)%nat = false.
Proof. intros Hs. apply Nat.eqb_neq. destruct s; [done|]. rewrite bytes_of_length. cbn. lia. Qed.

Lemma parse_attributes_between l : forall fuel pre m,
  Forall keyed l -> Z.of_nat (attributes_size l) < 2 ^ 63 ->
  (attributes_size l <= fuel)%nat ->
  parse_attributes fuel (between pre (encode_attributes l)) m = Ret (attribute_map l m).
Proof.
  unfold attributes_size.
  induction l as [|[k v] l IH]; intros fuel pre m Hk Hs Hf.
  - destruct fuel; cbn [parse_attributes]; rewrite between_remaining; reflexivity.
  - inversion Hk as [|? ? Hk1 Hk2]; subst. clear Hk.
    change (encode_attributes ((k, v) :: l)) with
      ((lenenc_bytes (bytes_of k) ++ lenenc_bytes (bytes_of v)) ++ encode_attributes l) in *.
    rewrite <- !app_assoc in *.
    pose proof (lenenc_bytes_pos (bytes_of k)). pose proof (lenenc_bytes_length (bytes_of k)).
    pose proof (lenenc_bytes_length (bytes_of v)).
    rewrite !length_app in Hs, Hf. destruct fuel as [|fuel]; [lia|]. cbn [parse_attributes].
    rewrite between_remaining, !length_app, (proj2 (Z.leb_gt _ 0)) by lia.
    rewrite lenEncodedBytes_between by lia. cbn [mbind outcome_bind].
    rewrite lenEncodedBytes_between by lia. cbn [mbind outcome_bind].
    rewrite bytes_of_nonempty by done. rewrite IH by (done || lia).
    by rewrite !string_of_bytes_of.
Qed.

Lemma parse_attribute_block_between h present l pre rest :
  Forall keyed l -> Z.of_nat (attributes_size l) < 2 ^ 63 ->
  (present = true -> Z.of_nat (attributes_size l) <= MaxAttributesBytes (config h)) ->
  let block := if present then lenenc_bytes (encode_attributes l) else [] in
  parse_attribute_block h present (between pre (block ++ rest)) =
  Ret (if present then attribute_map l ∅ else ∅, between (pre ++ block) rest).
Proof.
  intros Hk Hs Hm block. unfold parse_attribute_block, block. destruct present.
  - rewrite lenEncodedBytes_between by (unfold attributes_size in *; lia).
    cbn [mbind outcome_bind]. rewrite (proj2 (Z.ltb_ge _ _)) by (by apply Hm).
    change (newByteCursor (encode_attributes l)) with (between [] (encode_attributes l)).
    rewrite parse_attributes_between by (done || lia). done.
  - cbn [app]. by rewrite app_nil_r.
Qed.

(** The reads of the fixed header of a response. *)
Lemma parse_header caps max charset rest
    (k : Z -> Z -> byte -> byteCursor -> outcome handshake_error HandshakeResponse) :
  0 <= caps < 2 ^ 32 -> 0 <= max < 2 ^ 32 ->
  let header := le_bytes 4 caps ++ le_bytes 4 max ++ [zbyte charset] ++ repeat (zbyte 0) 23 in
  ('(c, cursor) ← or_malformed (c_uint32 (newByteCursor (header ++ rest)));
   '(m, cursor) ← or_malformed (c_uint32 cursor);
   '(b, cursor) ← or_malformed (c_byte cursor);
   let '(ok, cursor) := skip 23 cursor in
   if negb ok then Fail ErrMalformedHandshake else k c m b cursor) =
  k caps max (zbyte charset) (between header rest).
Proof.
  intros Hc Hm header. unfold header.
  set (z := repeat (zbyte 0) 23). rewrite <- !app_assoc.
  change (newByteCursor ?l) with (between [] l).
  rewrite c_uint32_between by done. cbn [or_malformed mbind outcome_bind].
  rewrite c_uint32_between by done. cbn [or_malformed mbind outcome_bind].
  cbn [app]. rewrite c_byte_between. cbn [or_malformed mbind outcome_bind].
  unfold skip. rewrite between_remaining, length_app.
  change (length z) with 23%nat. rewrite (proj2 (Z.ltb_ge _ 23)) by lia.
  change ((23 <? 0) || false) with false. cbn [negb].
  change (Z.to_nat 23) with (length z). rewrite between_advance.
  by rewrite <- !app_assoc.
Qed.

(** What the parser needs of a login. *)
Record acceptable (h : Handshake) (l : client_login) : Prop := {
  acc_caps : 0 <= cl_capabilities l < 2 ^ 32;
  acc_max : 0 <= cl_max_packet l < 2 ^ 32;
  acc_charset : 0 <= cl_charset l < 256;
  acc_valid : validateCapabilities h (cl_capabilities l) (cl_charset l) = Ret tt;
  acc_user : no_nul (cl_user l);
  acc_database : no_nul (cl_database l);
  acc_plugin : no_nul (cl_plugin l);
  acc_auth : (length (cl_auth l) <= 255)%nat;
  acc_keys : Forall keyed (cl_attributes l);
  acc_size : Z.of_nat (attributes_size (cl_attributes l)) < 2 ^ 63;
  acc_limit : has (cl_capabilities l) ClientConnectAttrs = true ->
    Z.of_nat (attributes_size (cl_attributes l)) <= MaxAttributesBytes (config h) }.

Lemma land_flag caps all flag :
  Z.land caps all = all -> Z.land all flag = flag -> 0 < flag -> has caps flag = true.
Proof.
  intros Hc Hf Hp. unfold has. apply negb_true_iff, Z.eqb_neq.
  assert (Z.land caps flag = flag) as ->; [|lia].
  rewrite <- Hf, Z.land_assoc, Hc. done.
Qed.

Lemma validate_ret h caps charset u :
  validateCapabilities h caps charset = Ret u ->
  Z.land caps required_flags = required_flags /\
  Z.land caps (flags [ClientCompress; ClientZstdCompressionAlgorithm]) = 0 /\
  Z.ldiff (Z.ldiff caps (Capabilities (config h))) permitted_client_only = 0 /\
  supportedCharset charset = true.
Proof.
  unfold validateCapabilities. intros H.
  do 4 (case_hyp H; [discriminate H|]). bool_props. done.
Qed.

(** C35.  The parser inverts the encoder: for every login a client may send
    under the server's capability rules, parsing its encoding returns the
    client's own fields, the negotiated capabilities (the intersection), the
    attribute list as a map (later duplicates win), the default plugin when the
    client names none, and consumes the payload to its last byte. *)
Theorem login_roundtrip (h : Handshake) (l : client_login) (H : acceptable h l) :
  let caps := cl_capabilities l in
  ParseResponse h (encode_login l) =
  Ret (mkResponse caps (Z.land caps (Capabilities (config h))) (cl_max_packet l) (cl_charset l)
    (cl_user l) (cl_auth l)
    (if has caps ClientConnectWithDB then cl_database l else "")
    (if String.eqb (cl_plugin l) "" then AuthPlugin (config h) else cl_plugin l)
    (if has caps ClientConnectAttrs then attribute_map (cl_attributes l) ∅ else ∅) false).
Proof.
  destruct H as [Hcaps Hmax Hcs Hv Hu Hd Hpl Ha Hk Hs Hlim]. intros caps.
  destruct (validate_ret _ _ _ _ Hv) as (Hreq & _).
  assert (Hsec : has caps ClientSecureConnection = true) by (by eapply land_flag).
  assert (Hplug : has caps ClientPluginAuth = true) by (by eapply land_flag).
  unfold ParseResponse, encode_login. rewrite !length_app, !le_bytes_length. cbn [length].
  rewrite (proj2 (Nat.ltb_ge _ 32)) by (rewrite repeat_length; lia). cbv zeta.
  match goal with |- context [newByteCursor (?a ++ ?b ++ ?c ++ ?d ++ ?rest)] =>
    replace (a ++ b ++ c ++ d ++ rest) with ((a ++ b ++ c ++ d) ++ rest)
      by (rewrite <- !app_assoc; reflexivity) end.
  rewrite parse_header by done. rewrite bval_zbyte_small by done. rewrite Hv.
  cbn [mbind outcome_bind]. rewrite between_remaining, !length_app. cbn [length].
  rewrite (proj2 (Z.eqb_neq _ 0)) by lia. cbn [andb].
  rewrite nullTerminated_between by done. cbn [or_malformed mbind outcome_bind].
  rewrite parse_auth_between by done. cbn [mbind outcome_bind].
  rewrite optional_string_between by done. cbn [mbind outcome_bind].
  rewrite optional_string_between by done. cbn [mbind outcome_bind].
  match goal with |- context [between ?p (if ?b then ?x else [])] =>
    replace (between p (if b then x else [])) with (between p ((if b then x else []) ++ []))
      by (by rewrite app_nil_r) end.
  rewrite parse_attribute_block_between by done. cbn [mbind outcome_bind].
  rewrite between_remaining. cbn [length Z.of_nat Z.eqb negb]. fold caps. by rewrite Hplug.
Qed.
(** A login with a database, a plugin name and two attributes. *)
Definition sample_login : client_login :=
  mkLogin (Z.lor DefaultServerCapabilities ClientFoundRows) (2 ^ 24) 45 "app"
    (map zbyte [1; 2; 3]) "orders" "mysql_native_password"
    [("_client_name", "libmysql"); ("program_name", "shop")]%string.

Definition sample_handshake : Handshake :=
  mkHandshake (DefaultHandshakeConfig 7) (map (fun i => zbyte (Z.of_nat i + 1)) (seq 0 20)).

Lemma login_roundtrip_witness :
  acceptable sample_handshake sample_login /\
  Negotiated (mkResponse (cl_capabilities sample_login)
    (Z.land (cl_capabilities sample_login) (Capabilities (config sample_handshake))) 0 0 "" [] "" "" ∅ false)
    = DefaultServerCapabilities /\
  is_ret (ParseResponse sample_handshake (encode_login sample_login)) = true.
Proof.
  assert (H : acceptable sample_handshake sample_login).
  { split; try (vm_compute; repeat constructor; congruence); by repeat constructor. }
  split; [exact H|]. split; [vm_compute; reflexivity|].
  rewrite (login_roundtrip sample_handshake sample_login H). reflexivity.
Defined.

(** ** Soundness of the parser *)

(** What the handshake guarantees of an accepted response. *)
Record negotiated (h : Handshake) (r : HandshakeResponse) : Prop := {
  neg_required : Z.land (ClientCapabilities r) required_flags = required_flags;
  neg_uncompressed :
    Z.land (ClientCapabilities r) (flags [ClientCompress; ClientZstdCompressionAlgorithm]) = 0;
  neg_known :
    Z.ldiff (Z.ldiff (ClientCapabilities r) (Capabilities (config h))) permitted_client_only = 0;
  neg_intersection : Negotiated r = Z.land (ClientCapabilities r) (Capabilities (config h));
  neg_charset : supportedCharset (ResponseCharsetID r) = true;
  neg_tls : WantsTLS r = true ->
    has (Capabilities (config h)) ClientSSL = true /\ Username r = ""%string /\ AuthResponse r = [];
  neg_plugin : WantsTLS r = false -> ResponseAuthPlugin r = ""%string -> AuthPlugin (config h) = ""%string }.

Lemma plugin_default (p d : string) : (if String.eqb p "" then d else p) = ""%string -> d = ""%string.
Proof. destruct (String.eqb_spec p ""); [done|]. intros ->. done. Qed.

Lemma parse_response_negotiated h payload r :
  ParseResponse h payload = Ret r -> negotiated h r.
Proof.
  unfold ParseResponse. destruct (_ <? 32)%nat; [discriminate|]. cbv zeta.
  intros (caps & c1 & _ & H)%bind_pair_ret. apply bind_pair_ret in H as (max & c2 & _ & H).
  apply bind_pair_ret in H as (cs & c3 & _ & H).
  destruct (skip 23 c3) as [ok c4]. destruct ok; [|discriminate]. cbn [negb] in H.
  apply bind_ret_inv in H as (u & Hv & H). apply validate_ret in Hv as (Hr & Hc & Hk & Hs).
  destruct (_ && _) in H.
  - destruct (has (Capabilities (config h)) ClientSSL) eqn:Hssl; [|discriminate].
    injection H as <-. split; by try done.
  - apply bind_pair_ret in H as (user & c5 & _ & H).
    apply bind_pair_ret in H as (auth & c6 & _ & H).
    apply bind_pair_ret in H as (db & c7 & _ & H).
    apply bind_pair_ret in H as (plugin & c8 & _ & H).
    apply bind_pair_ret in H as (attrs & c9 & _ & H).
    destruct (negb _) in H; [discriminate|]. injection H as <-.
    split; cbn; try done. intros _. apply plugin_default.
Qed.

(** Whatever bytes arrive, the handshake parser terminates without an
    out-of-range access, and a response it accepts has the required protocol
    flags, requests no compression and no flag outside the server's or the
    tolerated ones, has a supported character set, is negotiated to the
    intersection with the server's capabilities, and asks for TLS only when the
    server offers it, before any user name was read. *)
Theorem parse_response_safe (h : Handshake) (payload : list byte) :
  match ParseResponse h payload with
  | Ret r => negotiated h r
  | Fail _ => True
  | Panic => False
  end.
Proof.
  pose proof (parse_response_no_panic h payload) as Hp. unfold no_panic in Hp.
  destruct (ParseResponse h payload) as [r| |] eqn:E; [|done|by destruct Hp].
  by eapply parse_response_negotiated.
Qed.

(** ** The greeting, read by a client *)

Record greeting := mkGreeting {
  g_version : string; g_connection : Z; g_seed : list byte; g_capabilities : Z;
  g_charset : Z; g_status : Z; g_plugin : string }.

(** Protocol::HandshakeV10 as a client reads it. *)
Definition read_greeting (payload : list byte) : outcome handshake_error (greeting * byteCursor) :=
  '(protocol, c) ← or_malformed (c_byte (newByteCursor payload));
  if negb (bval protocol =? 10) then Fail ErrMalformedHandshake else
  '(version, c) ← or_malformed (nullTerminated c);
  '(connection, c) ← or_malformed (c_uint32 c);
  '(seed1, c) ← or_malformed (c_bytes 8 c);
  '(_, c) ← or_malformed (c_byte c);
  '(low, c) ← or_malformed (c_bytes 2 c);
  '(charset, c) ← or_malformed (c_byte c);
  '(status, c) ← or_malformed (c_bytes 2 c);
  '(high, c) ← or_malformed (c_bytes 2 c);
  '(auth_length, c) ← or_malformed (c_byte c);
  '(_, c) ← or_malformed (c_bytes 10 c);
  '(seed2, c) ← or_malformed (c_bytes (bval auth_length - 1 - 8) c);
  '(_, c) ← or_malformed (c_byte c);
  '(plugin, c) ← or_malformed (nullTerminated c);
  Ret (mkGreeting version connection (seed1 ++ seed2) (le_value (low ++ high))
         (bval charset) (le_value status) plugin, c).

Lemma two_bytes z : [zbyte z; zbyte (Z.shiftr z 8)] = le_bytes 2 z.
Proof. reflexivity. Qed.

Lemma four_bytes z :
  [zbyte z; zbyte (Z.shiftr z 8)] ++ [zbyte (Z.shiftr z 16); zbyte (Z.shiftr z 24)] = le_bytes 4 z.
Proof.
  change (le_bytes 4 z) with [zbyte z; zbyte (Z.shiftr z 8); zbyte (Z.shiftr (Z.shiftr z 8) 8);
    zbyte (Z.shiftr (Z.shiftr (Z.shiftr z 8) 8) 8)].
  by rewrite !Z.shiftr_shiftr by lia.
Qed.

Lemma c_bytes_n n mid pre rest :
  Z.of_nat (length mid) = n ->
  c_bytes n (between pre (mid ++ rest)) = Ret (Some mid, between (pre ++ mid) rest).
Proof. intros <-. apply c_bytes_between. Qed.

(** One field read from a cursor that stands before it. *)
Ltac cursor_next :=
  first [ rewrite nullTerminated_between by done
        | rewrite c_uint32_between by done
        | rewrite c_byte_between
        | rewrite c_bytes_n by (rewrite ?le_bytes_length; first [done|lia]) ];
  cbn [or_malformed mbind outcome_bind].

Lemma new_handshake_inv cfg random h :
  NewHandshake cfg (Some random) = Ret h ->
  config h = cfg /\ length (seed h) = length random /\
  Forall (fun b => bval b <> 0) (seed h) /\
  no_nul (ServerVersion cfg) /\ no_nul (AuthPlugin cfg) /\ supportedCharset (CharsetID cfg) = true.
Proof.
  unfold NewHandshake. intros H. do 4 (case_hyp H; [discriminate H|]). injection H as <-. bool_props.
  cbn. rewrite length_map. split_and!; try done. apply Forall_map, Forall_true. intros b.
  destruct (Z.eqb_spec (bval b) 0); done.
Qed.

Lemma greeting_shape h :
  GreetingPayload h =
  [zbyte 10] ++ (bytes_of (ServerVersion (config h)) ++ [zbyte 0]) ++
  le_bytes 4 (ConnectionID (config h)) ++ take 8 (seed h) ++ [zbyte 0] ++
  le_bytes 2 (u32 (Capabilities (config h))) ++ [zbyte (CharsetID (config h))] ++
  le_bytes 2 (Status (config h)) ++
  [zbyte (Z.shiftr (u32 (Capabilities (config h))) 16);
   zbyte (Z.shiftr (u32 (Capabilities (config h))) 24)] ++
  [zbyte (Z.of_nat (length (seed h)) + 1)] ++ repeat (zbyte 0) 10 ++ drop 8 (seed h) ++ [zbyte 0] ++
  (bytes_of (AuthPlugin (config h)) ++ [zbyte 0]) ++ [].
Proof.
  unfold GreetingPayload, appendNullTerminated. cbv zeta. rewrite !two_bytes, app_nil_r.
  by rewrite <- !app_assoc.
Qed.

Lemma charset_byte c : supportedCharset c = true -> 0 <= c < 256.
Proof.
  unfold supportedCharset. cbn [existsb]. intros H.
  repeat (apply orb_prop in H as [H|H]; [apply Z.eqb_eq in H; lia|]). discriminate.
Qed.

(** A greeting built by [NewHandshake] from 20 random bytes is read back
    by a client exactly: server version, connection id, the whole 20-byte seed
    (which contains no zero byte, so a client that reads it as a C string reads
    all of it), both halves of the capability word, character set, status and
    plugin name, with no byte left over. *)
Theorem greeting_roundtrip cfg random h :
  NewHandshake cfg (Some random) = Ret h -> length random = 20%nat ->
  0 <= ConnectionID cfg < 2 ^ 32 -> 0 <= Status cfg < 2 ^ 16 ->
  Forall (fun b => bval b <> 0) (seed h) /\
  exists c, read_greeting (GreetingPayload h) =
    Ret (mkGreeting (ServerVersion cfg) (ConnectionID cfg) (seed h) (u32 (Capabilities cfg))
           (CharsetID cfg) (Status cfg) (AuthPlugin cfg), c) /\
    remaining c = 0.
Proof.
  intros Hn Hlen Hid Hst. apply new_handshake_inv in Hn as (Hcfg & Hseed & Hz & Hv & Hpl & Hcs).
  apply charset_byte in Hcs. split; [done|]. rewrite greeting_shape, Hcfg. rewrite Hlen in Hseed.
  assert (Hs1 : length (take 8 (seed h)) = 8%nat) by (rewrite length_take; lia).
  assert (Hs2 : length (drop 8 (seed h)) = 12%nat) by (rewrite length_drop; lia).
  rewrite Hseed. unfold read_greeting. set (z := repeat (zbyte 0) 10).
  change (newByteCursor ?l) with (between [] l). eexists. cbn [app].
  cursor_next. rewrite bval_zbyte_small by lia. cbn [Z.eqb Pos.eqb negb]. do 7 cursor_next.
  change (?a :: ?b :: ?l) with ([a; b] ++ l). do 3 cursor_next.
  rewrite !bval_zbyte_small by lia. do 3 cursor_next.
  assert (0 <= u32 (Capabilities cfg) < 2 ^ 32) by (by apply Z.mod_pos_bound).
  rewrite take_drop, <- (two_bytes (u32 _)), four_bytes, !le_value_bytes by lia.
  split; [reflexivity|]. by rewrite between_remaining.
Qed.

Lemma greeting_roundtrip_witness :
  exists h, NewHandshake (DefaultHandshakeConfig 9) (Some (map (fun i => zbyte (Z.of_nat i)) (seq 0 20))) = Ret h /\
  length (GreetingPayload h) = 93%nat /\
  exists c, read_greeting (GreetingPayload h) =
    Ret (mkGreeting "DatabaseAccelerator-0.0.2"%string 9 (seed h) (u32 DefaultServerCapabilities)
           45 ServerStatusAutocommit DefaultAuthPlugin, c) /\ remaining c = 0.
Proof.
  eexists. split; [reflexivity|]. split; [vm_compute; reflexivity|].
  refine (proj2 (greeting_roundtrip (DefaultHandshakeConfig 9)
    (map (fun i => zbyte (Z.of_nat i)) (seq 0 20)) _ eq_refl eq_refl _ _)); cbn; unfold ServerStatusAutocommit; lia.
Defined.

End Handshake.
