(* ===== verification/Wire.v ===== *)
(** * Server responses as a client reads them
      ([internal/protocol/mysql/response.go])

    Reference decoders, written from the protocol description with the byte
    cursor of [Handshake], for the payloads that [Response] builds, and the
    theorems that the encoders are inverted by them. *)

From stdpp Require Import base list numbers strings option gmap.
From coqutil Require Import Byte.
From Stdlib Require Import ZArith Lia.
From S2P Require Import Prelude GoStrings Response Handshake.
Import Response Handshake.

Module Wire.
Local Open Scope Z_scope.
Local Open Scope list_scope.

(** ** Packet kinds in a result set *)

Inductive packet_kind := OkPacket | ErrPacket | EofPacket | DataPacket.
#[export] Instance packet_kind_eq_dec : EqDecision packet_kind.
Proof. solve_decision. Defined.

(** A client that is reading rows looks at the first byte and the size: 0xff is
    an error, 0xfe with fewer than nine bytes ends the rows, all else is data. *)
Definition row_packet_kind (payload : list byte) : packet_kind :=
  match payload with
  | [] => DataPacket
  | b :: _ =>
      if bval b =? 0xff then ErrPacket
      else if (bval b =? 0xfe) && (length payload <? 9)%nat then EofPacket
      else DataPacket
  end.

(** The first answer to a command: 0x00 is OK as well. *)
Definition first_packet_kind (payload : list byte) : packet_kind :=
  match payload with
  | b :: _ => if bval b =? 0x00 then OkPacket else row_packet_kind payload
  | [] => DataPacket
  end.

(** ** Decoders *)

Definition read_cell (c : byteCursor) : outcome handshake_error (option (list byte) * byteCursor) :=
  '(first, c1) ← or_malformed (c_byte c);
  if bval first =? 0xfb then Ret (None, c1)
  else '(value, c) ← lenEncodedBytes c; Ret (Some value, c).

Fixpoint read_row (columns : nat) (c : byteCursor)
  : outcome handshake_error (list (option (list byte)) * byteCursor) :=
  match columns with
  | O => Ret ([], c)
  | S n => '(value, c) ← read_cell c; '(row, c) ← read_row n c; Ret (value :: row, c)
  end.

Definition read_ok (payload : list byte) : outcome handshake_error (Z * Z * Z * Z * byteCursor) :=
  '(_, c) ← or_malformed (c_byte (newByteCursor payload));
  '(affected, c) ← lenEncodedInt c;
  '(last, c) ← lenEncodedInt c;
  '(status, c) ← or_malformed (c_bytes 2 c);
  '(warnings, c) ← or_malformed (c_bytes 2 c);
  Ret (affected, last, le_value status, le_value warnings, c).

(** Code, SQL state and the message, which runs to the end. *)
Definition read_error (payload : list byte) : outcome handshake_error (Z * string * string) :=
  '(_, c) ← or_malformed (c_byte (newByteCursor payload));
  '(code, c) ← or_malformed (c_bytes 2 c);
  '(marker, c) ← or_malformed (c_byte c);
  if negb (bval marker =? 35) then Fail ErrMalformedHandshake else
  '(state, c) ← or_malformed (c_bytes 5 c);
  '(message, _) ← or_malformed (c_bytes (remaining c) c);
  Ret (le_value code, string_of state, string_of message).

Definition read_lenenc_string (c : byteCursor) : outcome handshake_error (string * byteCursor) :=
  '(value, c) ← lenEncodedBytes c; Ret (string_of value, c).

Definition read_column (payload : list byte) : outcome handshake_error (ColumnDefinition * byteCursor) :=
  '(_, c) ← read_lenenc_string (newByteCursor payload);
  '(schema, c) ← read_lenenc_string c;
  '(table, c) ← read_lenenc_string c;
  '(org_table, c) ← read_lenenc_string c;
  '(name, c) ← read_lenenc_string c;
  '(org_name, c) ← read_lenenc_string c;
  '(fixed, c) ← lenEncodedInt c;
  if negb (fixed =? 12) then Fail ErrMalformedHandshake else
  '(charset, c) ← or_malformed (c_bytes 2 c);
  '(length_, c) ← or_malformed (c_bytes 4 c);
  '(type, c) ← or_malformed (c_byte c);
  '(flags_, c) ← or_malformed (c_bytes 2 c);
  '(decimals, c) ← or_malformed (c_byte c);
  '(_, c) ← or_malformed (c_bytes 2 c);
  Ret (mkColumn schema table org_table name org_name (le_value charset) (le_value length_)
         (bval type) (le_value flags_) (bval decimals), c).

(** ** Rows *)

(** What a row of values and NULL marks means. *)
Fixpoint shown (values : list (list byte)) (nulls : list bool) : list (option (list byte)) :=
  match values with
  | [] => []
  | value :: values =>
      (if match nulls with b :: _ => b | [] => false end then None else Some value)
        :: shown values (tail nulls)
  end.

Definition sized (value : list byte) : Prop := Z.of_nat (length value) < 2 ^ 63.

Lemma lenenc_bytes_head value :
  sized value ->
  exists b rest, lenenc_bytes value = b :: rest /\ bval b <> 0xff /\ bval b <> 0xfb /\
    (bval b = 0xfe -> (8 <= length rest)%nat).
Proof.
  unfold sized. intros Hs. unfold lenenc_bytes.
  destruct (lenenc_head (Z.of_nat (length value))) as (b & rest & -> & Hff & Hfb & Hfe & _); [lia|].
  exists b, (rest ++ value). split_and!; try done. intros He%Hfe. rewrite length_app. lia.
Qed.

Lemma read_cell_between value (is_null : bool) pre rest :
  sized value ->
  read_cell (between pre (cell value is_null ++ rest)) =
  Ret (if is_null then None else Some value, between (pre ++ cell value is_null) rest).
Proof.
  intros Hs. unfold read_cell, cell. destruct is_null.
  - cbn [app]. rewrite c_byte_between. reflexivity.
  - destruct (lenenc_bytes_head value Hs) as (b & tl & Hb & _ & Hfb & _).
    rewrite Hb at 1. cbn [app]. rewrite c_byte_between. cbn [or_malformed mbind outcome_bind].
    rewrite (proj2 (Z.eqb_neq _ _)) by done. by rewrite lenEncodedBytes_between.
Qed.

Lemma read_row_between values : forall nulls pre rest,
  Forall sized values ->
  read_row (length values) (between pre (concat (cells values nulls) ++ rest)) =
  Ret (shown values nulls, between (pre ++ concat (cells values nulls)) rest).
Proof.
  induction values as [|v values IH]; intros nulls pre rest Hs; cbn [length read_row cells concat shown].
  - cbn [app]. by rewrite app_nil_r.
  - inversion Hs; subst. rewrite <- app_assoc, read_cell_between by done. cbn [mbind outcome_bind].
    rewrite IH by done. cbn [mbind outcome_bind]. by rewrite <- app_assoc.
Qed.

(** A text row is decoded to exactly the values that were sent, with a
    NULL where the mark was set (a missing mark means not NULL), and the decoder
    ends at the end of the payload. *)
Theorem text_row_roundtrip (values : list (list byte)) (nulls : list bool) (Hs : Forall sized values) :
  let payload := TextRowPayload values nulls in
  read_row (length values) (newByteCursor payload) =
  Ret (shown values nulls, mkCursor payload (length payload)).
Proof.
  intros payload. unfold payload, TextRowPayload. rewrite text_row_cells. cbn [app].
  pose proof (read_row_between values nulls [] [] Hs) as H. rewrite app_nil_r in H.
  change (between [] ?l) with (newByteCursor l) in H. rewrite H. cbn [app].
  unfold between. by rewrite app_nil_r.
Qed.

Lemma text_row_roundtrip_witness :
  let values := map bytes_of ["42"; ""; "ignored"; "x"]%string in
  Forall sized values /\
  read_row 4 (newByteCursor (TextRowPayload values [false; false; true])) =
  Ret ([Some (bytes_of "42"); Some []; None; Some (bytes_of "x")],
       mkCursor (TextRowPayload values [false; false; true]) 7).
Proof.
  intros values. assert (H : Forall sized values) by (repeat constructor).
  split; [exact H|]. exact (text_row_roundtrip values [false; false; true] H).
Defined.

(** The packets of a result set cannot be taken for one another: a row of
    at least one column is never read as an error or as the end of the rows,
    whatever its bytes are; EOF and error packets are read as what they are;
    and OK is the only first answer read as OK. *)
Theorem result_packets_distinct :
  (forall values nulls, values <> [] -> Forall sized values ->
     row_packet_kind (TextRowPayload values nulls) = DataPacket) /\
  (forall status warnings, row_packet_kind (EOFPayload status warnings) = EofPacket) /\
  (forall code state message, first_packet_kind (ErrorPayload code state message) = ErrPacket) /\
  (forall affected last status warnings,
     first_packet_kind (OKPayload affected last status warnings) = OkPacket) /\
  (forall count, 0 < count < 2 ^ 64 -> first_packet_kind (ColumnCountPayload count) = DataPacket).
Proof.
  split_and!.
  - intros values nulls Hne Hs. unfold TextRowPayload. rewrite text_row_cells. cbn [app].
    destruct Hs as [|v values Hv _]; [done|]. cbn [cells concat]. unfold cell. case_goal.
    + reflexivity.
    + destruct (lenenc_bytes_head v Hv) as (b & tl & -> & Hff & _ & Hfe). unfold row_packet_kind.
      cbn [app length]. rewrite (proj2 (Z.eqb_neq _ 0xff)) by done.
      destruct (Z.eqb_spec (bval b) 0xfe) as [He|]; [|done].
      rewrite length_app, (proj2 (Nat.ltb_ge _ 9)); [done|]. specialize (Hfe He). lia.
  - reflexivity.
  - reflexivity.
  - intros. unfold OKPayload. rewrite !append_lenenc. reflexivity.
  - intros count Hc. change (ColumnCountPayload count) with (lenenc count).
    destruct (lenenc_head count) as (b & rest & -> & Hff & _ & Hfe & _ & H0); [lia|].
    unfold first_packet_kind, row_packet_kind. cbn [length].
    rewrite (proj2 (Z.eqb_neq _ 0)) by lia. rewrite (proj2 (Z.eqb_neq _ 0xff)) by done.
    destruct (Z.eqb_spec (bval b) 0xfe) as [He|]; [|done]. by rewrite (Hfe He).
Qed.

(** ** Status packets and column definitions *)

Ltac lenenc_next :=
  first [ rewrite lenEncodedInt_between by lia | rewrite lenEncodedBytes_between by lia | cursor_next ];
  cbn [or_malformed mbind outcome_bind].

Lemma c_bytes_rest mid pre :
  c_bytes (remaining (between pre mid)) (between pre mid) = Ret (Some mid, between (pre ++ mid) []).
Proof.
  rewrite between_remaining. pose proof (c_bytes_between mid pre []) as H.
  by rewrite app_nil_r in H.
Qed.

Definition u16_range (z : Z) : Prop := 0 <= z < 2 ^ 16.

(** OK and error packets carry their fields: the affected rows and the last
    insert id over the whole unsigned 64-bit range, the 16-bit status and
    warning count, and for an error the code, a SQL state that is always five
    bytes (an ill-formed one is replaced by HY000), and the whole message. *)
Theorem status_packets_roundtrip :
  (forall affected last status warnings,
     0 <= affected < 2 ^ 64 -> 0 <= last < 2 ^ 64 -> u16_range status -> u16_range warnings ->
     exists c, read_ok (OKPayload affected last status warnings) =
       Ret (affected, last, status, warnings, c) /\ remaining c = 0) /\
  (forall code state message,
     u16_range code ->
     read_error (ErrorPayload code state message) =
       Ret (code, if (String.length state =? 5)%nat then state else "HY000"%string, message)).
Proof.
  unfold u16_range. split.
  - intros a l s w Ha Hl Hs Hw. unfold OKPayload, read_ok. rewrite !append_lenenc, <- !app_assoc.
    change (newByteCursor ?l) with (between [] l). eexists. cbn [app].
    rewrite <- (app_nil_r (le_bytes 2 w)). do 5 lenenc_next.
    rewrite !le_value_bytes by lia. split; [done|]. by rewrite between_remaining.
  - intros code st msg Hc. unfold ErrorPayload, read_error. set (state := if (String.length st =? 5)%nat then st else "HY000"%string).
    assert (Hst : length (bytes_of state) = 5%nat).
    { rewrite bytes_of_length. unfold state. destruct (Nat.eqb_spec (String.length st) 5); done. }
    change (newByteCursor ?l) with (between [] l). cbn [app]. do 3 lenenc_next. cbn [negb Z.eqb Pos.eqb].
    change (bval (zbyte 35) =? 35) with true. cbn [negb]. rewrite c_bytes_n by lia. cbn [or_malformed mbind outcome_bind].
    rewrite c_bytes_rest. cbn [or_malformed mbind outcome_bind].
    rewrite le_value_bytes by lia. by rewrite !string_of_bytes_of.
Qed.

Lemma status_packets_roundtrip_witness :
  read_error (ErrorPayload 1040 "0800" "Too many connections") =
    Ret (1040, "HY000"%string, "Too many connections"%string) /\
  exists c, read_ok (OKPayload (2 ^ 64 - 1) 300 2 1) = Ret (2 ^ 64 - 1, 300, 2, 1, c) /\ remaining c = 0.
Proof.
  destruct status_packets_roundtrip as [Hok Herr]. split.
  - apply (Herr 1040 "0800"%string). unfold u16_range. lia.
  - apply (Hok (2 ^ 64 - 1) 300 2 1); unfold u16_range; lia.
Defined.

(** The values a client sees for a column: zero means the default. *)
Definition with_defaults (column : ColumnDefinition) : ColumnDefinition :=
  mkColumn (col_Schema column) (col_Table column) (col_OriginalTable column)
    (col_Name column) (col_OriginalName column)
    (if col_Charset column =? 0 then DefaultCharsetID else col_Charset column)
    (if col_Length column =? 0 then 1024 else col_Length column)
    (col_Type column) (col_Flags column) (col_Decimals column).

Definition name_sized (s : string) : Prop := Z.of_nat (String.length s) < 2 ^ 63.

Record column_ranges (c : ColumnDefinition) : Prop := {
  cr_names : Forall name_sized
    [col_Schema c; col_Table c; col_OriginalTable c; col_Name c; col_OriginalName c];
  cr_charset : u16_range (col_Charset c);
  cr_length : 0 <= col_Length c < 2 ^ 32;
  cr_type : 0 <= col_Type c < 256;
  cr_flags : u16_range (col_Flags c);
  cr_decimals : 0 <= col_Decimals c < 256 }.

Lemma read_lenenc_string_between s pre rest :
  name_sized s ->
  read_lenenc_string (between pre (lenenc_bytes (bytes_of s) ++ rest)) =
  Ret (s, between (pre ++ lenenc_bytes (bytes_of s)) rest).
Proof.
  unfold name_sized. intros Hs. unfold read_lenenc_string.
  rewrite lenEncodedBytes_between by (rewrite bytes_of_length; lia).
  cbn [mbind outcome_bind]. by rewrite string_of_bytes_of.
Qed.

(** A column definition is decoded to the column that was sent, with the
    default character set and length in place of zeros, and nothing is left
    over. *)
Theorem column_definition_roundtrip (column : ColumnDefinition) (H : column_ranges column) :
  exists c, read_column (ColumnDefinitionPayload column) = Ret (with_defaults column, c) /\
    remaining c = 0.
Proof.
  destruct H as [Hn Hcs Hl Ht Hf Hd]. unfold u16_range in *.
  do 5 (inversion Hn as [|? ? ? Hn']; subst; clear Hn; rename Hn' into Hn).
  unfold ColumnDefinitionPayload, read_column. cbv zeta. rewrite !append_lenenc_bytes, <- !app_assoc.
  set (charset := if col_Charset column =? 0 then DefaultCharsetID else col_Charset column).
  set (len := if col_Length column =? 0 then 1024 else col_Length column).
  assert (0 <= charset < 2 ^ 16) by (unfold charset, DefaultCharsetID; case_goal; lia).
  assert (0 <= len < 2 ^ 32) by (unfold len; case_goal; lia).
  change (newByteCursor ?l) with (between [] l). eexists. cbn [app].
  do 6 (rewrite read_lenenc_string_between by done; cbn [mbind outcome_bind]).
  change (zbyte 12 :: ?l) with (lenenc 12 ++ l). lenenc_next. cbn [Z.eqb Pos.eqb negb].
  do 2 lenenc_next. cbn [app]. lenenc_next. lenenc_next. lenenc_next.
  change [zbyte 0; zbyte 0] with ([zbyte 0; zbyte 0] ++ []). lenenc_next.
  rewrite !le_value_bytes by lia. rewrite !bval_zbyte_small by lia.
  split; [reflexivity|]. by rewrite between_remaining.
Qed.

Definition sample_column : ColumnDefinition :=
  mkColumn "shop" "o" "orders" "n" "count" 0 0 3 0x20 0.

Lemma column_definition_roundtrip_witness :
  column_ranges sample_column /\
  exists c, read_column (ColumnDefinitionPayload sample_column) =
    Ret (mkColumn "shop" "o" "orders" "n" "count" 45 1024 3 0x20 0, c) /\ remaining c = 0.
Proof.
  assert (H : column_ranges sample_column).
  { split; unfold u16_range; cbn; try lia. repeat constructor. }
  split; [exact H|]. exact (column_definition_roundtrip sample_column H).
Defined.

End Wire.
