(* ===== verification/NativeAuth.v ===== *)
(** * Native password authentication ([internal/protocol/mysql/auth.go]) and the
      negotiated session ([internal/session/negotiated.go])

    The code calls [crypto/sha1]; the hash is written out here (FIPS 180-4) on
    32-bit words kept in [Z], so that tokens can be computed. *)

From stdpp Require Import base list numbers strings option gmap.
From coqutil Require Import Byte.
From Stdlib Require Import ZArith Lia.
From S2P Require Import Prelude GoStrings Response Handshake.
Import Handshake.

(** ** SHA-1 *)

Module Sha1.
Local Open Scope Z_scope.
Local Open Scope list_scope.

Definition add (a b : Z) : Z := u32 (a + b).
Definition rotl (n w : Z) : Z := u32 (Z.lor (Z.shiftl w n) (Z.shiftr w (32 - n))).
Definition be_bytes (n : nat) (z : Z) : list byte := rev (le_bytes n z).
Definition be_value (bs : list byte) : Z := le_value (rev bs).

(** One, zeros up to 56 modulo 64, and the bit length. *)
Definition pad (message : list byte) : list byte :=
  let n := length message in
  message ++ [zbyte 0x80] ++ repeat (zbyte 0) ((119 - n mod 64) mod 64) ++
  be_bytes 8 (Z.of_nat n * 8).

Fixpoint chunks (fuel n : nat) (l : list byte) : list (list byte) :=
  match fuel, l with
  | O, _ | _, [] => []
  | S f, _ => take n l :: chunks f n (drop n l)
  end.

(** The message schedule, newest word first. *)
Fixpoint expand (k : nat) (w : list Z) : list Z :=
  match k with
  | O => w
  | S k =>
      expand k (rotl 1 (Z.lxor (Z.lxor (nth 2 w 0) (nth 7 w 0)) (Z.lxor (nth 13 w 0) (nth 15 w 0))) :: w)
  end.

Definition choose (t : nat) (b c d : Z) : Z * Z :=
  if (t <? 20)%nat then (Z.lor (Z.land b c) (Z.land (Z.lxor b 0xffffffff) d), 0x5a827999)
  else if (t <? 40)%nat then (Z.lxor b (Z.lxor c d), 0x6ed9eba1)
  else if (t <? 60)%nat then
    (Z.lor (Z.land b c) (Z.lor (Z.land b d) (Z.land c d)), 0x8f1bbcdc)
  else (Z.lxor b (Z.lxor c d), 0xca62c1d6).

Fixpoint rounds (t : nat) (w : list Z) (s : Z * Z * Z * Z * Z) : Z * Z * Z * Z * Z :=
  match w with
  | [] => s
  | wt :: w =>
      let '(a, b, c, d, e) := s in
      let '(f, k) := choose t b c d in
      rounds (S t) w (add (add (add (rotl 5 a) f) (add e k)) wt, a, rotl 30 b, c, d)
  end.

Definition block (s : Z * Z * Z * Z * Z) (chunk : list byte) : Z * Z * Z * Z * Z :=
  let w := rev (expand 64 (rev (map be_value (chunks 16 4 chunk)))) in
  let '(a, b, c, d, e) := rounds 0 w s in
  let '(h0, h1, h2, h3, h4) := s in
  (add h0 a, add h1 b, add h2 c, add h3 d, add h4 e).

Definition sum (message : list byte) : list byte :=
  let padded := pad message in
  let '(h0, h1, h2, h3, h4) :=
    fold_left block (chunks (length padded) 64 padded)
      (0x67452301, 0xefcdab89, 0x98badcfe, 0x10325476, 0xc3d2e1f0) in
  be_bytes 4 h0 ++ be_bytes 4 h1 ++ be_bytes 4 h2 ++ be_bytes 4 h3 ++ be_bytes 4 h4.

Definition Size : nat := 20.

Lemma sum_length message : length (sum message) = Size.
Proof.
  unfold sum. cbv zeta. destruct (fold_left _ _ _) as [[[[a b] c] d] e].
  unfold be_bytes. by rewrite !length_app, !length_rev, !le_bytes_length.
Qed.

(** The test vectors of FIPS 180. *)
Example sha1_empty : map bval (sum []) =
  [0xda; 0x39; 0xa3; 0xee; 0x5e; 0x6b; 0x4b; 0x0d; 0x32; 0x55;
   0xbf; 0xef; 0x95; 0x60; 0x18; 0x90; 0xaf; 0xd8; 0x07; 0x09].
Proof. vm_compute. reflexivity. Qed.

Example sha1_abc : map bval (sum (bytes_of "abc")) =
  [0xa9; 0x99; 0x3e; 0x36; 0x47; 0x06; 0x81; 0x6a; 0xba; 0x3e;
   0x25; 0x71; 0x78; 0x50; 0xc2; 0x6c; 0x9c; 0xd0; 0xd8; 0x9d].
Proof. vm_compute. reflexivity. Qed.

Example sha1_two_blocks :
  map bval (take 4 (sum (bytes_of "abcdbcdecdefdefgefghfghighijhijkijkljklmklmnlmnomnopnopq")))
  = [0x84; 0x98; 0x3e; 0x44].
Proof. vm_compute. reflexivity. Qed.

End Sha1.

(** ** Tokens and verifiers *)

Module NativeAuth.
Local Open Scope list_scope.

Definition NativePasswordPlugin : string := "mysql_native_password".

Definition xor_byte (a b : byte) : byte := zbyte (Z.lxor (bval a) (bval b)).

(** [for index := range a { out[index] = a[index] ^ b[index] }] on arrays of the
    same size. *)
Definition xor_bytes (a b : list byte) : list byte := zip_with xor_byte a b.

Definition NativePasswordToken (password : string) (seed : list byte) : list byte :=
  if String.eqb password "" then [] else
  let stage1 := Sha1.sum (bytes_of password) in
  let stage2 := Sha1.sum stage1 in
  let challenge := seed ++ stage2 in
  let scramble := Sha1.sum challenge in
  xor_bytes stage1 scramble.

Definition NativePasswordVerifier (password : string) : list byte :=
  if String.eqb password "" then [] else
  let stage1 := Sha1.sum (bytes_of password) in
  Sha1.sum stage1.

(** [subtle.ConstantTimeCompare(a, b) == 1] *)
Definition ConstantTimeCompare (a b : list byte) : bool := bool_decide (map bval a = map bval b).

Definition NativePasswordVerifierMatches (response verifier seed : list byte) : bool :=
  if (length verifier =? 0)%nat then (length response =? 0)%nat else
  if negb (length response =? Sha1.Size)%nat || negb (length verifier =? Sha1.Size)%nat then false else
  let challenge := seed ++ verifier in
  let scramble := Sha1.sum challenge in
  let candidateStage1 := xor_bytes response scramble in
  let candidateVerifier := Sha1.sum candidateStage1 in
  ConstantTimeCompare candidateVerifier verifier.

Definition NativePasswordMatches (response : list byte) (password : string) (seed : list byte) : bool :=
  NativePasswordVerifierMatches response (NativePasswordVerifier password) seed.

(** ** Lemmas *)

Lemma lxor_bound n a b :
  (0 <= a < 2 ^ n -> 0 <= b < 2 ^ n -> 0 <= Z.lxor a b < 2 ^ n)%Z.
Proof.
  intros Ha Hb. assert (H0 : (0 <= Z.lxor a b)%Z) by (apply Z.lxor_nonneg; lia). split; [done|].
  destruct (Z.eq_dec (Z.lxor a b) 0) as [->|Hne]; [lia|].
  apply Z.log2_lt_pow2; [lia|]. eapply Z.le_lt_trans; [apply Z.log2_lxor; lia|].
  assert (Hlog : forall x, (0 <= x < 2 ^ n)%Z -> (x <> 0 -> Z.log2 x < n)%Z).
  { intros x Hx Hx0. apply Z.log2_lt_pow2; lia. }
  assert (Hn : (0 < n)%Z).
  { destruct (Z.eq_dec a 0) as [->|]; [rewrite Z.lxor_0_l in Hne|];
      [apply (Z.le_lt_trans _ (Z.log2 b))|apply (Z.le_lt_trans _ (Z.log2 a))]; auto using Z.log2_nonneg. }
  destruct (Z.eq_dec a 0) as [->|], (Z.eq_dec b 0) as [->|]; change (Z.log2 0) with 0%Z;
    apply Z.max_lub_lt; auto.
Qed.

Lemma xor_byte_involutive a b : xor_byte (xor_byte a b) b = a.
Proof.
  apply bval_inj. unfold xor_byte.
  pose proof (lxor_bound 8 (bval a) (bval b) (bval_range a) (bval_range b)) as H.
  rewrite (bval_zbyte_small _ H), Z.lxor_assoc, Z.lxor_nilpotent, Z.lxor_0_r.
  apply bval_zbyte_small, bval_range.
Qed.

Lemma xor_bytes_involutive a b : length a = length b -> xor_bytes (xor_bytes a b) b = a.
Proof.
  revert b. induction a as [|x a IH]; intros [|y b] H; try done. cbn. injection H as H.
  f_equal; [apply xor_byte_involutive|by apply IH].
Qed.

Lemma xor_bytes_length a b : length a = length b -> length (xor_bytes a b) = length a.
Proof. intros H. unfold xor_bytes. rewrite length_zip_with. lia. Qed.

Lemma compare_true a b : ConstantTimeCompare a b = true <-> a = b.
Proof.
  unfold ConstantTimeCompare. rewrite bool_decide_eq_true. split; [|by intros ->].
  revert b. induction a as [|x a IH]; intros [|y b] H; try done. injection H as H1 H2.
  f_equal; [by apply bval_inj|by apply IH].
Qed.

(** What a client must know to answer a challenge for the verifier: a first
    stage hash [stage1] whose hash is the verifier. *)
Definition proves (response verifier seed : list byte) : Prop :=
  exists stage1, length stage1 = Sha1.Size /\ Sha1.sum stage1 = verifier /\
    response = xor_bytes stage1 (Sha1.sum (seed ++ verifier)).

Lemma matches_verifier (response verifier seed : list byte) :
  NativePasswordVerifierMatches response verifier seed = true <->
  (verifier = [] /\ response = []) \/ (verifier <> [] /\ proves response verifier seed).
Proof.
  unfold NativePasswordVerifierMatches. destruct (decide (verifier = [])) as [->|Hne].
  { cbn [length Nat.eqb]. rewrite Nat.eqb_eq, length_zero_iff_nil.
    split; [by left|]. intros [[_ H]|[H _]]; done. }
  rewrite (proj2 (Nat.eqb_neq (length verifier) 0)) by (by rewrite length_zero_iff_nil).
  destruct (Nat.eqb_spec (length response) Sha1.Size) as [Hr|Hr]; cbn [negb orb];
    [destruct (Nat.eqb_spec (length verifier) Sha1.Size) as [Hv|Hv]; cbn [negb]|].
  - rewrite compare_true. set (mask := Sha1.sum (seed ++ verifier)).
    assert (Hm : length response = length mask) by (unfold mask; rewrite Sha1.sum_length; done).
    split.
    + intros H. right. split; [done|]. exists (xor_bytes response mask).
      split_and!; [by rewrite xor_bytes_length|done|by rewrite xor_bytes_involutive].
    + intros [[? _]|[_ (stage1 & Hl & Hs & ->)]]; [done|].
      fold mask. rewrite xor_bytes_involutive; [done|]. unfold mask. by rewrite Sha1.sum_length.
  - split; [done|]. intros [[? _]|[_ (stage1 & _ & <- & _)]]; [done|].
    by rewrite Sha1.sum_length in Hv.
  - split; [done|]. intros [[? _]|[_ (stage1 & Hl & _ & ->)]]; [done|].
    destruct Hr. rewrite xor_bytes_length; [done|]. by rewrite Sha1.sum_length.
Qed.

(** The verifier check is exact: with an empty verifier only the empty
    response is accepted, and otherwise a response is accepted if and only if
    it is the challenge mask of some 20-byte preimage of the verifier.  In
    particular a response of any other length than 20 is refused, and so is
    every response to a verifier that is not itself a hash. *)
Theorem verifier_matches_iff (response verifier seed : list byte) :
  NativePasswordVerifierMatches response verifier seed = true <->
  (verifier = [] /\ response = []) \/ (verifier <> [] /\ proves response verifier seed).
Proof. apply matches_verifier. Qed.

(** The client's token for a password is accepted by the server's verifier
    of the same password, for every password (the empty one included) and every
    seed; and the verifier of a non-empty password never accepts the empty
    response. *)
Theorem token_accepted (password : string) (seed : list byte) :
  NativePasswordMatches (NativePasswordToken password seed) password seed = true /\
  (password <> ""%string -> NativePasswordMatches [] password seed = false).
Proof.
  unfold NativePasswordMatches. split.
  - apply matches_verifier. unfold NativePasswordToken, NativePasswordVerifier.
    destruct (String.eqb_spec password ""); [by left|]. right.
    set (stage1 := Sha1.sum (bytes_of password)). split.
    + intros Hnil. apply (f_equal length) in Hnil. by rewrite Sha1.sum_length in Hnil.
    + exists stage1. split_and!; [apply Sha1.sum_length|done|done].
  - intros Hp. unfold NativePasswordVerifier. rewrite (proj2 (String.eqb_neq _ _) Hp).
    unfold NativePasswordVerifierMatches. by rewrite !Sha1.sum_length.
Qed.

End NativeAuth.

(** ** The negotiated session *)

Module Negotiated.

Record Negotiated := mkNegotiated {
  n_Capabilities : Z; n_MaxPacket : Z; n_CharsetID : Z; n_Username : string;
  n_Database : string; n_AuthPlugin : string; n_Attributes : gmap string string }.

Definition FromHandshake (response : HandshakeResponse) : Negotiated :=
  mkNegotiated (Handshake.Negotiated response) (MaxPacketBytes response)
    (ResponseCharsetID response) (Username response) (ResponseDatabase response)
    (ResponseAuthPlugin response) (SafeConnectionAttributes (Attributes response)).

Lemma take_long n s : (String.length s <= n)%nat -> str_take n s = s.
Proof.
  revert n. induction s as [|c s IH]; intros [|n] H; cbn in *; try done; [lia|].
  f_equal. apply IH. lia.
Qed.

Lemma take_128 s : (if (128 <? String.length s)%nat then str_take 128 s else s) = str_take 128 s.
Proof. destruct (Nat.ltb_spec 128 (String.length s)); [done|]. by rewrite take_long. Qed.

(** The session keeps of the client's connection attributes only the four
    names that identify the client program, each cut to 128 bytes: whatever else
    the client sent (credentials in custom attributes, host names, long
    strings) is gone. *)
Theorem session_attributes_safe (response : HandshakeResponse) (key value : string) :
  n_Attributes (FromHandshake response) !! key = Some value <->
  In key safe_attribute_names /\
  exists sent, Attributes response !! key = Some sent /\
    value = str_take 128 sent.
Proof.
  unfold FromHandshake, SafeConnectionAttributes. cbn [n_Attributes]. rewrite map_lookup_imap, <- str_mem_true.
  destruct (Attributes response !! key) as [sent|]; cbn [mbind option_bind];
    [|split; [done|intros (_ & ? & ? & _); done]].
  destruct (str_mem key safe_attribute_names); cbn [negb]; [|by split; [|intros [? _]]].
  rewrite take_128. split; [intros [= <-]; eauto|intros (_ & ? & [= <-] & ->); done].
Qed.

End Negotiated.
