(* ===== verification/AuthLimit.v ===== *)
(** * The limiter of failed logins ([internal/gateway/auth_limit.go])

    One shared table of attempts under a mutex, so that every method is one
    atomic step and a run is a sequence of them.  Times are nanoseconds in [Z];
    the zero time is [None].  The order in which a Go map is ranged over is not
    specified: it is a parameter, any permutation of the entries. *)

From stdpp Require Import base list numbers strings option gmap sorting.
From Stdlib Require Import ZArith Lia.
From S2P Require Import Prelude GoStrings.

Module AuthLimit.
Local Open Scope list_scope.
Local Open Scope Z_scope.

(** ** State *)

Record authAttempt := mkAttempt {
  failures : Z; windowStart : Z; blockedUntil : option Z; lastSeen : Z }.

Record authLimiter := mkLimiter {
  attempts : gmap string authAttempt; maxFailures : Z; window : Z; lockout : Z; maxEntries : Z }.

Definition defaultAuthFailures : Z := 5.
Definition minute : Z := 60 * 10 ^ 9.
Definition defaultAuthWindow : Z := minute.
Definition defaultAuthLockout : Z := minute.
Definition defaultAuthEntries : Z := 4096.

Definition newAuthLimiter : authLimiter :=
  mkLimiter ∅ defaultAuthFailures defaultAuthWindow defaultAuthLockout defaultAuthEntries.

Definition with_attempts (f : gmap string authAttempt -> gmap string authAttempt) (l : authLimiter)
  : authLimiter :=
  mkLimiter (f (attempts l)) (maxFailures l) (window l) (lockout l) (maxEntries l).

Definition authKey (remoteAddress : string) : string :=
  match split_host_port remoteAddress with
  | Some (host, _) => if String.eqb host "" then remoteAddress else host
  | None => remoteAddress
  end.

(** ** Methods *)

(** [!blockedUntil.IsZero() && now.Before(blockedUntil)] *)
Definition blocked (now : Z) (a : authAttempt) : bool :=
  match blockedUntil a with Some t => now <? t | None => false end.

Definition allowed (now : Z) (remoteAddress : string) (l : authLimiter) : bool * authLimiter :=
  let key := authKey remoteAddress in
  match attempts l !! key with
  | None => (true, l)
  | Some attempt =>
      if blocked now attempt then
        let attempt :=
          mkAttempt (failures attempt) (windowStart attempt) (blockedUntil attempt) now in
        (false, with_attempts <[key := attempt]> l)
      else if window l <=? now - windowStart attempt then (true, with_attempts (delete key) l)
      else (true, l)
  end.

Section Iteration.
(** The order in which [range] visits a map. *)
Variable range : gmap string authAttempt -> list (string * authAttempt).

(** One step of the loop: the key kept so far and its last-seen time. *)
Definition older (best : string * Z) (entry : string * authAttempt) : string * Z :=
  let '(oldestKey, oldest) := best in
  let '(key, attempt) := entry in
  if String.eqb oldestKey "" || (lastSeen attempt <? oldest) then (key, lastSeen attempt) else best.

Definition evictOldest (l : authLimiter) : authLimiter :=
  let '(oldestKey, _) := foldl older (""%string, 0) (range (attempts l)) in
  with_attempts (delete oldestKey) l.

(** The entry a failed login leaves for its address. *)
Definition next_attempt (l : authLimiter) (now : Z) (found : option authAttempt) : authAttempt :=
  let fresh := mkAttempt 0 now None 0 in
  let attempt :=
    match found with
    | None => fresh
    | Some a => if window l <=? now - windowStart a then fresh else a
    end in
  let count := failures attempt + 1 in
  mkAttempt count (windowStart attempt)
    (if maxFailures l <=? count then Some (now + lockout l) else blockedUntil attempt) now.

Definition failure (now : Z) (remoteAddress : string) (l : authLimiter) : authLimiter :=
  let key := authKey remoteAddress in
  let found := attempts l !! key in
  let evicted :=
    match found with
    | None => if maxEntries l <=? Z.of_nat (size (attempts l)) then evictOldest l else l
    | Some _ => l
    end in
  with_attempts <[key := next_attempt l now found]> evicted.

Definition success (remoteAddress : string) (l : authLimiter) : authLimiter :=
  with_attempts (delete (authKey remoteAddress)) l.

(** ** Runs *)

Inductive event :=
| Asked (now : Z) (remoteAddress : string)
| Failed (now : Z) (remoteAddress : string)
| Succeeded (remoteAddress : string).

Definition handle (l : authLimiter) (e : event) : authLimiter :=
  match e with
  | Asked now a => (allowed now a l).2
  | Failed now a => failure now a l
  | Succeeded a => success a l
  end.

Definition run (l : authLimiter) (trace : list event) : authLimiter := foldl handle l trace.

Lemma run_snoc l trace e : run l (trace ++ [e]) = handle (run l trace) e.
Proof. unfold run. by rewrite foldl_app. Qed.

(** The configuration never changes. *)
Definition same_limits (l k : authLimiter) : Prop :=
  maxFailures l = maxFailures k /\ window l = window k /\ lockout l = lockout k /\
  maxEntries l = maxEntries k.

Lemma evict_limits l : same_limits (evictOldest l) l.
Proof. unfold evictOldest. by destruct (foldl _ _ _). Qed.

Lemma handle_limits l e : same_limits (handle l e) l.
Proof.
  destruct e as [now a|now a|a]; cbn.
  - unfold allowed. by repeat case_goal.
  - unfold failure. cbv zeta. repeat case_goal; done || apply evict_limits.
  - done.
Qed.

Lemma run_limits trace l : same_limits (run l trace) l.
Proof.
  induction trace as [|e trace IH] using rev_ind; [done|]. rewrite run_snoc.
  pose proof (handle_limits (run l trace) e). unfold same_limits in *. intuition congruence.
Qed.

(** ** The table is bounded *)

Hypothesis range_entries : forall m, range m ≡ₚ map_to_list m.

(** The loop ends on a key it has seen. *)
Lemma foldl_older entries : forall best,
  (foldl older best entries = best) \/
  (exists a, (foldl older best entries).1 = a.1 /\ a ∈ entries).
Proof.
  induction entries as [|[k a] entries IH]; intros [k0 t0]; [by left|]. cbn [foldl older].
  destruct (_ || _).
  - right. destruct (IH (k, lastSeen a)) as [->|(b & Hb & Hin)].
    + exists (k, a). split; [done|]. by left.
    + exists b. split; [done|]. by right.
  - destruct (IH (k0, t0)) as [->|(b & Hb & Hin)]; [by left|right].
    exists b. split; [done|]. by right.
Qed.

Lemma evicted_key l :
  attempts l <> ∅ -> exists k a, attempts l !! k = Some a /\
    attempts (evictOldest l) = delete k (attempts l).
Proof.
  intros Hne. unfold evictOldest.
  destruct (range (attempts l)) as [|[k0 a0] entries] eqn:Er.
  { pose proof (range_entries (attempts l)) as Hp. rewrite Er in Hp.
    apply Permutation_nil in Hp. by apply map_to_list_empty_iff in Hp. }
  assert (Hin : forall e, e ∈ (k0, a0) :: entries -> attempts l !! e.1 = Some e.2).
  { intros [k a] He. apply elem_of_map_to_list. by rewrite <- (range_entries (attempts l)), Er. }
  cbn [foldl older String.eqb orb].
  destruct (foldl_older entries (k0, lastSeen a0)) as [->|([k a] & Hk & He)].
  - exists k0, a0. split; [apply (Hin (k0, a0)); by left|done].
  - exists k, a. split; [apply (Hin (k, a)); by right|].
    destruct (foldl _ _ _) as [k1 t1]. cbn in *. by subst.
Qed.

Definition bounded (l : authLimiter) : Prop := Z.of_nat (size (attempts l)) <= maxEntries l.

Lemma size_insert_le (m : gmap string authAttempt) k a : (size (<[k:=a]> m) <= S (size m))%nat.
Proof. rewrite map_size_insert. destruct (m !! k); cbn; lia. Qed.

Lemma failure_bounded now a l : 0 < maxEntries l -> bounded l -> bounded (failure now a l).
Proof.
  unfold bounded, failure. intros Hmax Hb. cbv zeta.
  destruct (attempts l !! authKey a) as [at_|] eqn:Ek.
  - cbn. rewrite map_size_insert, Ek. done.
  - destruct (Z.leb_spec (maxEntries l) (Z.of_nat (size (attempts l)))) as [Hfull|Hroom].
    + cbn; destruct (evict_limits l) as (_ & _ & _ & ->).
      destruct (evicted_key l) as (k & b & Hk & Hd).
      { intros He. rewrite He, map_size_empty in Hfull. lia. }
      cbn. rewrite Hd. pose proof (size_insert_le (delete k (attempts l)) (authKey a)) as Hs.
        assert (size (attempts l) <> 0%nat) by lia.
      eapply Z.le_trans; [apply inj_le, Hs|]. rewrite map_size_delete, Hk. cbn. lia.
    + cbn. rewrite map_size_insert, Ek. lia.
Qed.

Lemma handle_bounded l e : 0 < maxEntries l -> bounded l -> bounded (handle l e).
Proof.
  intros Hmax Hb. destruct e as [now a|now a|a]; cbn [handle].
  - unfold allowed, bounded in *. destruct (attempts l !! authKey a) eqn:Ek; [|done].
    repeat case_goal; cbn; [|rewrite map_size_delete, Ek; lia|done].
    by rewrite map_size_insert, Ek.
  - by apply failure_bounded.
  - unfold bounded, success in *. cbn. rewrite map_size_delete. case_goal; cbn; lia.
Qed.

(** However many addresses fail to log in, in any interleaving of the
    limiter's methods, the table never holds more than [maxEntries] entries:
    a new address evicts one before it is inserted. *)
Theorem attempts_bounded (l : authLimiter) (trace : list event)
    (Hmax : 0 < maxEntries l) (Hb : bounded l) :
  Z.of_nat (size (attempts (run l trace))) <= maxEntries l.
Proof.
  assert (H : bounded (run l trace)).
  { induction trace as [|e trace IH] using rev_ind; [done|]. rewrite run_snoc.
    apply handle_bounded; [|done]. by destruct (run_limits trace l) as (_ & _ & _ & ->). }
  unfold bounded in H. by destruct (run_limits trace l) as (_ & _ & _ & <-).
Qed.

(** ** When an address is locked out *)

(** The times of the failures of an address since its last success. *)
Definition failure_step (key : string) (times : list Z) (e : event) : list Z :=
  match e with
  | Asked _ _ => times
  | Failed now a => if String.eqb (authKey a) key then times ++ [now] else times
  | Succeeded a => if String.eqb (authKey a) key then [] else times
  end.

Definition failure_times (key : string) (trace : list event) : list Z :=
  foldl (failure_step key) [] trace.

Lemma failure_times_snoc key trace e :
  failure_times key (trace ++ [e]) = failure_step key (failure_times key trace) e.
Proof. unfold failure_times. by rewrite foldl_app. Qed.

(** The entry [a] records the failures [ts]. *)
Record records (l : authLimiter) (ts : list Z) (a : authAttempt) : Prop := {
  rec_count : failures a = Z.of_nat (length ts);
  rec_start : head ts = Some (windowStart a);
  rec_window : Forall (fun t => t - windowStart a < window l) ts;
  rec_block : blockedUntil a =
    if maxFailures l <=? Z.of_nat (length ts) then (fun t => t + lockout l) <$> last ts else None }.

Lemma records_fresh l now :
  0 < window l -> records l [now] (next_attempt l now None).
Proof. intros Hw. split; cbn; [done..| |done]. repeat constructor. lia. Qed.

Lemma records_next l ts a now :
  records l ts a -> now - windowStart a < window l ->
  records l (ts ++ [now]) (next_attempt l now (Some a)).
Proof.
  intros [Hc Hs Hw Hb] Hn. unfold next_attempt. rewrite (proj2 (Z.leb_gt _ _)) by done. cbv zeta.
  assert (Hlen : Z.of_nat (length (ts ++ [now])) = failures a + 1) by (rewrite length_app, Hc; cbn; lia).
  split; cbn [failures windowStart blockedUntil].
  - by rewrite Hlen.
  - destruct ts; done.
  - apply Forall_app. split; [done|]. by repeat constructor.
  - rewrite Hlen, last_snoc, Hb, Hc. repeat (case_goal; bool_props); try done; lia.
Qed.

Lemma records_limits l k ts a : same_limits l k -> records k ts a -> records l ts a.
Proof. intros (H1 & H2 & H3 & _) [Hc Hs Hw Hb]. split; rewrite ?H1, ?H2, ?H3; done. Qed.

Lemma records_seen l ts a now :
  records l ts a ->
  records l ts (mkAttempt (failures a) (windowStart a) (blockedUntil a) now).
Proof. intros [Hc Hs Hw Hb]. by split. Qed.

(** What the table knows of an address is a suffix of its failures. *)
Definition known (l : authLimiter) (key : string) (times : list Z) : Prop :=
  forall a, attempts l !! key = Some a -> exists ts, ts `suffix_of` times /\ records l ts a.

Lemma evict_lookup l key a :
  attempts (evictOldest l) !! key = Some a -> attempts l !! key = Some a.
Proof.
  unfold evictOldest. destruct (foldl _ _ _) as [k t]. cbn. intros H.
  by apply lookup_delete_Some in H as [_ H].
Qed.

Lemma suffix_snoc {A} (l k : list A) x : l `suffix_of` k -> (l ++ [x]) `suffix_of` (k ++ [x]).
Proof. intros [p ->]. exists p. by rewrite app_assoc. Qed.

Lemma failure_known now a key l times :
  0 < window l -> known l key times ->
  known (failure now a l) key (failure_step key times (Failed now a)).
Proof.
  intros Hw Hk b Hb. cbn [failure_step].
  assert (Hl : same_limits (failure now a l) l) by apply (handle_limits l (Failed now a)).
  unfold failure in Hb. cbv zeta in Hb. cbn in Hb.
  destruct (String.eqb_spec (authKey a) key) as [He|He].
  - rewrite He, lookup_insert_eq in Hb. injection Hb as <-.
    assert (Hfresh : exists ts, ts `suffix_of` times ++ [now] /\
      records l ts (next_attempt l now None)).
    { exists [now]. split; [by exists times|]. by apply records_fresh. }
    assert (exists ts, ts `suffix_of` times ++ [now] /\
      records l ts (next_attempt l now (attempts l !! key))) as (ts & Hts & Hr).
    { destruct (attempts l !! key) as [c|] eqn:Ec; [|done].
      destruct (Z.leb_spec (window l) (now - windowStart c)) as [Hx|Hx].
      - unfold next_attempt. rewrite (proj2 (Z.leb_le _ _)) by done. exact Hfresh.
      - destruct (Hk c Ec) as (ts & Hts & Hr). exists (ts ++ [now]).
        split; [by apply suffix_snoc|]. by apply records_next. }
    exists ts. split; [done|]. by eapply records_limits.
  - rewrite lookup_insert_ne in Hb by done.
    assert (Hb' : attempts l !! key = Some b).
    { destruct (attempts l !! authKey a); [done|]. case_hyp Hb; [by apply evict_lookup|done]. }
    destruct (Hk b Hb') as (ts & Hts & Hr). exists ts. split; [done|]. by eapply records_limits.
Qed.

Lemma asked_attempts now a l key :
  attempts (allowed now a l).2 !! key = attempts l !! key \/
  attempts (allowed now a l).2 !! key = None \/
  exists b, attempts l !! key = Some b /\
    attempts (allowed now a l).2 !! key =
      Some (mkAttempt (failures b) (windowStart b) (blockedUntil b) now).
Proof.
  unfold allowed. destruct (attempts l !! authKey a) as [b|] eqn:Eb; [|by left].
  destruct (decide (authKey a = key)) as [<-|Hne]; repeat case_goal; cbn.
  - right; right. exists b. by rewrite lookup_insert_eq.
  - right; left. by rewrite lookup_delete_eq.
  - by left.
  - left. by rewrite lookup_insert_ne.
  - left. by rewrite lookup_delete_ne.
  - by left.
Qed.

Lemma handle_known l key times e :
  0 < window l -> known l key times -> known (handle l e) key (failure_step key times e).
Proof.
  intros Hw Hk. destruct e as [now a|now a|a].
  - cbn [handle failure_step]. intros c Hc. pose proof (handle_limits l (Asked now a)) as Hl.
    cbn [handle] in Hl.
    destruct (asked_attempts now a l key) as [He|[He|(b & Hb & He)]]; rewrite He in Hc; [|done|].
    + destruct (Hk c Hc) as (ts & Hts & Hr). exists ts. split; [done|]. by eapply records_limits.
    + injection Hc as <-. destruct (Hk b Hb) as (ts & Hts & Hr). exists ts. split; [done|].
      eapply records_limits; [done|]. by apply records_seen.
  - by apply failure_known.
  - cbn [handle failure_step]. intros c Hc. cbn in Hc.
    apply lookup_delete_Some in Hc as [Hne Hc].
    rewrite (proj2 (String.eqb_neq _ _)) by done.
    destruct (Hk c Hc) as (ts & Hts & Hr). exists ts. split; [done|].
    by eapply records_limits; [apply (handle_limits l (Succeeded a))|].
Qed.

Lemma run_known l trace key :
  0 < window l -> attempts l = ∅ -> known (run l trace) key (failure_times key trace).
Proof.
  intros Hw He. induction trace as [|e trace IH] using rev_ind.
  - intros a Ha. cbn in Ha. by rewrite He in Ha.
  - rewrite run_snoc, failure_times_snoc. apply handle_known; [|done].
    by destruct (run_limits trace l) as (_ & -> & _).
Qed.

(** No false lockout: whatever happened before, an address is refused only
    if its latest failures since its last success - at least [maxFailures] of
    them, all within one window of the first - are what the table recorded, and
    the last of them is less than [lockout] ago. *)
Theorem no_false_lockout (l : authLimiter) (trace : list event) (now : Z) (address : string)
    (Hw : 0 < window l) (He : attempts l = ∅)
    (Hr : (allowed now address (run l trace)).1 = false) :
  exists first ts final,
    ts `suffix_of` failure_times (authKey address) trace /\
    head ts = Some first /\ Forall (fun t => t - first < window l) ts /\
    maxFailures l <= Z.of_nat (length ts) /\
    last ts = Some final /\ now < final + lockout l.
Proof.
  unfold allowed in Hr. destruct (attempts _ !! _) as [a|] eqn:Ea; [|discriminate Hr].
  destruct (blocked now a) eqn:Eb; [|by destruct (_ <=? _) in Hr].
  destruct (run_known l trace _ Hw He a Ea) as (ts & Hts & [Hc Hs Hwin Hb]).
  destruct (run_limits trace l) as (H1 & H2 & H3 & _). rewrite H1, H3 in Hb. rewrite H2 in Hwin.
  unfold blocked in Eb. destruct (blockedUntil a) as [t|]; [|discriminate]. bool_props.
  destruct (Z.leb_spec (maxFailures l) (Z.of_nat (length ts))); [|discriminate].
  destruct (last ts) as [final|] eqn:Ef; [|discriminate]. injection Hb as ->.
  exists (windowStart a), ts, final. done.
Qed.

(** ** The lockout is enforced *)

(** Every event of [key] before [deadline] and none of them a success. *)
Definition attack_event (key : string) (deadline : Z) (e : event) : Prop :=
  match e with
  | Asked t a | Failed t a => authKey a = key -> t < deadline
  | Succeeded a => authKey a <> key
  end.

(** The table holds exactly the failures [times] of [key]. *)
Definition tracks (l : authLimiter) (key : string) (times : list Z) : Prop :=
  match times with
  | [] => attempts l !! key = None
  | _ => exists a, attempts l !! key = Some a /\ records l times a
  end.

Lemma tracks_some l key times a :
  times <> [] -> attempts l !! key = Some a -> records l times a -> tracks l key times.
Proof. destruct times; [done|]. intros _ H1 H2. by exists a. Qed.

Lemma failure_room now a l :
  Z.of_nat (size (attempts l)) < maxEntries l ->
  failure now a l =
  with_attempts <[authKey a := next_attempt l now (attempts l !! authKey a)]> l.
Proof.
  intros Hr. unfold failure. cbv zeta. destruct (attempts l !! authKey a); [done|].
  by rewrite (proj2 (Z.leb_gt _ _)).
Qed.

Lemma handle_size l e :
  Z.of_nat (size (attempts l)) < maxEntries l ->
  (size (attempts (handle l e)) <= S (size (attempts l)))%nat.
Proof.
  intros Hr. destruct e as [now a|now a|a]; cbn [handle].
  - unfold allowed. destruct (attempts l !! authKey a) eqn:Ek; [|cbn; lia].
    repeat case_goal; cbn; rewrite ?map_size_insert, ?map_size_delete, ?Ek; cbn; lia.
  - rewrite failure_room by done. apply size_insert_le.
  - cbn. rewrite map_size_delete. case_goal; cbn; lia.
Qed.

Lemma asked_kept now a l key b :
  attempts l !! key = Some b -> (authKey a = key -> now - windowStart b < window l) ->
  exists c, attempts (allowed now a l).2 !! key = Some c /\
    forall ts, records l ts b -> records l ts c.
Proof.
  intros Hb Hn. destruct (asked_attempts now a l key) as [He|[He|(c & Hc & He)]]; rewrite He.
  - by exists b.
  - exfalso. revert He. unfold allowed. destruct (attempts l !! authKey a) as [c|] eqn:Ec; [|cbn; congruence].
    destruct (decide (authKey a = key)) as [Hk|Hk].
    + rewrite Hk in Ec. assert (c = b) as -> by congruence. rewrite Hk.
      destruct (blocked now b); cbn; [by rewrite lookup_insert_eq|].
      rewrite (proj2 (Z.leb_gt _ _)) by auto. cbn. congruence.
    + destruct (blocked now c); [|destruct (_ <=? _)]; cbn;
        rewrite ?lookup_insert_ne, ?lookup_delete_ne, Hb by done; discriminate.
  - assert (c = b) as -> by congruence. eexists. split; [done|]. intros ts. apply records_seen.
Qed.

Lemma handle_tracks l key times first e :
  0 < window l -> Z.of_nat (size (attempts l)) < maxEntries l ->
  attack_event key (first + window l) e ->
  (forall t, head times = Some t -> t = first) ->
  tracks l key times -> tracks (handle l e) key (failure_step key times e).
Proof.
  intros Hw Hroom He Hf Ht. pose proof (handle_limits l e) as Hl.
  assert (Hlate : forall a t, records l times a -> t < first + window l -> t - windowStart a < window l).
  { intros a t [_ Hs _ _] H. rewrite (Hf _ Hs). lia. }
  destruct e as [now a|now a|a]; cbn [handle failure_step attack_event] in *.
  - unfold tracks in *. destruct times as [|t0 times].
    + destruct (asked_attempts now a l key) as [->|[->|(b & Hb & _)]]; congruence.
    + destruct Ht as (b & Hb & Hr).
      destruct (asked_kept now a l key b Hb) as (c & Hc & Hcr); [eauto|].
      exists c. split; [done|]. exact (records_limits _ _ _ _ Hl (Hcr _ Hr)).
  - rewrite failure_room in * by done. destruct (String.eqb_spec (authKey a) key) as [Hk|Hk].
    + eapply tracks_some; [by destruct times|cbn; rewrite Hk; apply lookup_insert_eq|].
      eapply records_limits; [exact Hl|]. unfold tracks in Ht. destruct times as [|t0 times].
      * rewrite Ht. by apply records_fresh.
      * destruct Ht as (b & Hb & Hr). rewrite Hb. apply records_next; eauto.
    + unfold tracks in *. cbn. rewrite lookup_insert_ne by done. destruct times; [done|].
      destruct Ht as (b & Hb & Hr). exists b. split; [done|]. exact (records_limits _ _ _ _ Hl Hr).
  - rewrite (proj2 (String.eqb_neq _ _)) by done. unfold tracks in *. cbn.
    rewrite lookup_delete_ne by done. destruct times; [done|].
    destruct Ht as (b & Hb & Hr). exists b. split; [done|]. exact (records_limits _ _ _ _ Hl Hr).
Qed.

Lemma run_tracks l trace key first :
  0 < window l -> attempts l !! key = None ->
  Z.of_nat (size (attempts l)) + Z.of_nat (length trace) <= maxEntries l ->
  Forall (attack_event key (first + window l)) trace ->
  (forall t, head (failure_times key trace) = Some t -> t = first) ->
  tracks (run l trace) key (failure_times key trace) /\
  Z.of_nat (size (attempts (run l trace))) <= Z.of_nat (size (attempts l)) + Z.of_nat (length trace).
Proof.
  intros Hw Hk. induction trace as [|e trace IH] using rev_ind; intros Hroom He Hf; [done + (split; [done|cbn; lia])|].
  rewrite length_app in *. cbn [length] in *. apply Forall_app in He as [He1 He2].
  rewrite run_snoc, failure_times_snoc in *.
  assert (Hf1 : forall t, head (failure_times key trace) = Some t -> t = first).
  { intros t Ht. apply Hf. destruct e; cbn [failure_step]; [done| |].
    - destruct (failure_times key trace); [done|]. by case_goal.
    - inversion He2 as [|? ? Hs _]. cbn in Hs. by rewrite (proj2 (String.eqb_neq _ _)). }
  destruct IH as [Ht Hsz]; [lia|done|done|].
  destruct (run_limits trace l) as (_ & Hwin & _ & Hmax). split.
  - apply (handle_tracks _ _ _ first); [by rewrite Hwin|lia| |done|done].
    rewrite Hwin. by inversion He2.
  - pose proof (handle_size (run l trace) e). lia.
Qed.

(** The lockout is enforced: as long as the table has room, whatever other
    addresses do and however often the attacker asks in between, once an address
    has failed [maxFailures] times within one window of its first failure, every
    login attempt before its last failure plus [lockout] is refused. *)
Theorem lockout_enforced (l : authLimiter) (trace : list event) (address : string)
    (first final now : Z)
    (Hw : 0 < window l) (Hnew : attempts l !! authKey address = None)
    (Hroom : Z.of_nat (size (attempts l)) + Z.of_nat (length trace) <= maxEntries l)
    (Hevents : Forall (attack_event (authKey address) (first + window l)) trace)
    (Hfirst : head (failure_times (authKey address) trace) = Some first)
    (Hmany : maxFailures l <= Z.of_nat (length (failure_times (authKey address) trace)))
    (Hfinal : last (failure_times (authKey address) trace) = Some final)
    (Hnow : now < final + lockout l) :
  (allowed now address (run l trace)).1 = false.
Proof.
  destruct (run_tracks l trace (authKey address) first Hw Hnew Hroom Hevents) as [Ht _]; [congruence|].
  destruct (run_limits trace l) as (H1 & _ & H3 & _). unfold tracks in Ht.
  destruct (failure_times _ _) as [|t0 ts]; [done|]. destruct Ht as (a & Ha & [_ _ _ Hb]).
  rewrite H1, H3, Hfinal, (proj2 (Z.leb_le _ _)) in Hb by done. cbn in Hb.
  unfold allowed. rewrite Ha. unfold blocked. rewrite Hb, (proj2 (Z.ltb_lt _ _)) by done. done.
Qed.

End Iteration.

(** ** Witnesses: five failures from two ports of one host *)

Definition sample_attack : list event :=
  [Failed 0 "10.0.0.7:4000"; Failed 1 "10.0.0.7:4001"; Asked 2 "10.0.0.7:4002"; Succeeded "10.0.0.8:1";
   Failed 3 "10.0.0.7:4002"; Failed 4 "10.0.0.9:7"; Failed 5 "10.0.0.7:4003"; Failed 6 "10.0.0.7:4004"]%string.

Lemma attempts_bounded_witness :
  let l := mkLimiter ∅ 5 minute minute 1 in
  0 < maxEntries l /\ Z.of_nat (size (attempts (run map_to_list l sample_attack))) <= 1.
Proof.
  intros l. split; [done|].
  apply (attempts_bounded map_to_list (fun m => Permutation_refl _) l sample_attack); [done|].
  vm_compute. discriminate.
Defined.

Lemma no_false_lockout_witness :
  (allowed 7 "10.0.0.7:5000" (run map_to_list newAuthLimiter sample_attack)).1 = false /\
  exists first ts final,
    ts `suffix_of` failure_times "10.0.0.7" sample_attack /\
    head ts = Some first /\ Forall (fun t => t - first < minute) ts /\
    5 <= Z.of_nat (length ts) /\ last ts = Some final /\ 7 < final + minute.
Proof.
  assert (H : (allowed 7 "10.0.0.7:5000" (run map_to_list newAuthLimiter sample_attack)).1 = false)
    by (vm_compute; reflexivity).
  split; [exact H|].
  exact (no_false_lockout map_to_list newAuthLimiter sample_attack 7 "10.0.0.7:5000" eq_refl eq_refl H).
Defined.

Lemma lockout_enforced_witness :
  (allowed (6 + minute - 1) "10.0.0.7:5000" (run map_to_list newAuthLimiter sample_attack)).1 = false /\
  (allowed (6 + minute) "10.0.0.7:5000" (run map_to_list newAuthLimiter sample_attack)).1 = true.
Proof.
  split; [|vm_compute; reflexivity].
  apply (lockout_enforced map_to_list newAuthLimiter sample_attack "10.0.0.7:5000" 0 6);
    try reflexivity; try discriminate.
  repeat constructor; try done.
Defined.


End AuthLimit.
