(* ===== verification/PreparedCodec.v ===== *)
(** * Binary values of prepared statements ([internal/gateway/prepared.go])

    The decoder of COM_STMT_EXECUTE arguments, the encoder of binary result
    rows and the parameter counter.  Values are those [database/sql] exchanges;
    text and binary forms of floating-point numbers are the interface
    [FloatText], every theorem holds for all of its instances. *)

From stdpp Require Import base list numbers strings option gmap.
From coqutil Require Import Byte.
From Stdlib Require Import ZArith Lia Ascii.
From S2P Require Import Prelude GoStrings GoStrconv GoTime Response.
Import GoStrconv GoTime Response.

(** ** Values *)

Module Values.

(** A [float64]: its own bits, or a [float32] that was widened. *)
Inductive go_float := Double (bits : Z) | Single (bits : Z).

(** The dynamic type of an [any] that holds a column or an argument. *)
Inductive value :=
| VNil
| VInt (z : Z)
| VUint (z : Z)
| VFloat (f : go_float)
| VBytes (bs : list byte)
| VString (s : string)
| VTime (t : Z)
| VBool (b : bool).

#[export] Instance go_float_eq_dec : EqDecision go_float.
Proof. solve_decision. Defined.
#[export] Instance value_eq_dec : EqDecision value.
Proof. solve_decision. Defined.

(** [strconv.ParseFloat] and [fmt.Sprint] of a float. *)
Class FloatText := {
  ParseFloat : Z -> string -> outcome num_error Z;
  format_float : go_float -> string }.

Section Text.
Context {F : FloatText} {U : UnicodeCase}.

(** [fmt.Sprint] of a value. *)
Definition sprint (v : value) : string :=
  match v with
  | VInt z => format_int z
  | VUint z => format_uint z
  | VFloat f => format_float f
  | VString s => s
  | VBool b => if b then "true" else "false"
  | _ => ""
  end.

Definition textValue (v : value) (databaseType : string) : list byte * bool :=
  match v with
  | VNil => ([], true)
  | VBytes bs => (bs, false)
  | VString s => (bytes_of s, false)
  | VTime t =>
      let upper := to_upper databaseType in
      if String.eqb upper "DATE" then (bytes_of (format_date t), false)
      else if String.eqb upper "TIME" then (bytes_of (format_clock t), false)
      else (bytes_of (format_datetime t), false)
  | VBool b => (bytes_of (if b then "1" else "0"), false)
  | VInt _ | VUint _ | VFloat _ => (bytes_of (sprint v), false)
  end.
End Text.
End Values.
Import Values.

(** ** Arguments *)

Module Arguments.
Local Open Scope Z_scope.
Local Open Scope list_scope.

Record preparedParameterType := mkType { fieldType : Z; unsigned : bool }.

(** The part of a [preparedStatement] the codec uses. *)
Record parameters := mkParameters {
  parameterCount : Z;
  parameterTypes : list preparedParameterType;
  longData : gmap Z (list byte) }.

Abbreviation decoder := (outcome string).

(** The [require] closure. *)
Definition require (payload : list byte) (position size : Z) : decoder (list byte) :=
  if (size <? 0) || (Z.of_nat (length payload) - position <? size) then Fail "value is truncated"%string
  else go_slice payload (Z.to_nat position) (Z.to_nat (position + size)).

Definition at_ (payload : list byte) (position : Z) : decoder Z :=
  bval <$> go_index payload (Z.to_nat position).

Definition slice (payload : list byte) (lo hi : Z) : decoder (list byte) :=
  go_slice payload (Z.to_nat lo) (Z.to_nat hi).

Definition len (payload : list byte) : Z := Z.of_nat (length payload).

Definition decodePreparedDateTime (payload : list byte) (position : Z) : decoder (value * Z) :=
  if len payload <=? position then Fail "temporal length is truncated"%string else
  length_ ← at_ payload position;
  let position := position + 1 in
  if length_ =? 0 then Ret (VBytes (bytes_of "0000-00-00"), position) else
  if (negb (length_ =? 4) && negb (length_ =? 7) && negb (length_ =? 11))
     || (len payload - position <? length_)
  then Fail "temporal value is malformed"%string else
  year ← le_value <$> slice payload position (position + 2);
  month ← at_ payload (position + 2);
  day ← at_ payload (position + 3);
  clock ← (if 7 <=? length_ then
             hour ← at_ payload (position + 4);
             minute ← at_ payload (position + 5);
             second ← at_ payload (position + 6);
             Ret (hour, minute, second)
           else Ret (0, 0, 0));
  microseconds ← (if length_ =? 11 then le_value <$> slice payload (position + 7) (position + 11)
                  else Ret 0);
  let '(hour, minute, second) := clock in
  Ret (VTime (Date year month day hour minute second (microseconds * 1000)), position + length_).

Definition decodePreparedTime (payload : list byte) (position : Z) : decoder (value * Z) :=
  if len payload <=? position then Fail "time length is truncated"%string else
  length_ ← at_ payload position;
  let position := position + 1 in
  if length_ =? 0 then Ret (VBytes (bytes_of "00:00:00"), position) else
  if (negb (length_ =? 8) && negb (length_ =? 12)) || (len payload - position <? length_)
  then Fail "time value is malformed"%string else
  sign ← at_ payload position;
  let negative := negb (sign =? 0) in
  days ← le_value <$> slice payload (position + 1) (position + 5);
  hour ← at_ payload (position + 5);
  let hours := days * 24 + hour in
  minute ← at_ payload (position + 6);
  second ← at_ payload (position + 7);
  let value := (pad_uint 2 hours ++ ":" ++ pad_uint 2 minute ++ ":" ++ pad_uint 2 second)%string in
  value ← (if length_ =? 12 then
             micros ← le_value <$> slice payload (position + 8) (position + 12);
             Ret (value ++ "." ++ pad_uint 6 micros)%string
           else Ret value);
  let value := if negative then String (char 45) value else value in
  Ret (VBytes (bytes_of value), position + length_).

(** The length and the position after it. *)
Definition read_length (payload : list byte) (position first : Z) : decoder (Z * Z) :=
  if first =? 0xfc then
    if len payload - position <? 2 then Fail "length-encoded uint16 is truncated"%string else
    v ← le_value <$> slice payload position (position + 2); Ret (v, position + 2)
  else if first =? 0xfd then
    if len payload - position <? 3 then Fail "length-encoded uint24 is truncated"%string else
    b0 ← at_ payload position; b1 ← at_ payload (position + 1); b2 ← at_ payload (position + 2);
    Ret (Z.lor (Z.lor b0 (Z.shiftl b1 8)) (Z.shiftl b2 16), position + 3)
  else if first =? 0xfe then
    if len payload - position <? 8 then Fail "length-encoded uint64 is truncated"%string else
    v ← le_value <$> slice payload position (position + 8); Ret (v, position + 8)
  else if 0xfb <=? first then Fail "invalid length-encoded prefix"%string
  else Ret (first, position).

Definition readPreparedLengthEncoded (payload : list byte) (position : Z)
  : decoder (list byte * Z) :=
  if len payload <=? position then Fail "length-encoded value is truncated"%string else
  first ← at_ payload position;
  '(length_, position) ← read_length payload (position + 1) first;
  if len payload - position <? length_ then Fail "length-encoded bytes are truncated"%string else
  bs ← slice payload position (position + length_);
  Ret (bs, position + length_).

(** The integer cases: [size] bytes, unsigned or sign-extended. *)
Definition decode_integer (payload : list byte) (position size : Z) (is_unsigned : bool)
  : decoder (value * Z) :=
  raw ← le_value <$> require payload position size;
  Ret (if is_unsigned then VUint raw else VInt (signed (8 * size) raw), position + size).

Definition one_of (t : Z) (l : list Z) : bool := existsb (Z.eqb t) l.

Definition decodePreparedParameter (payload : list byte) (position : Z) (t : preparedParameterType)
  : decoder (value * Z) :=
  if fieldType t =? ColumnTypeNull then Ret (VNil, position)
  else if fieldType t =? ColumnTypeTiny then decode_integer payload position 1 (unsigned t)
  else if one_of (fieldType t) [ColumnTypeShort; ColumnTypeYear] then
    decode_integer payload position 2 (unsigned t)
  else if one_of (fieldType t) [ColumnTypeLong; ColumnTypeInt24] then
    decode_integer payload position 4 (unsigned t)
  else if fieldType t =? ColumnTypeLongLong then decode_integer payload position 8 (unsigned t)
  else if fieldType t =? ColumnTypeFloat then
    raw ← le_value <$> require payload position 4; Ret (VFloat (Single raw), position + 4)
  else if fieldType t =? ColumnTypeDouble then
    raw ← le_value <$> require payload position 8; Ret (VFloat (Double raw), position + 8)
  else if one_of (fieldType t) [ColumnTypeDate; ColumnTypeDateTime; ColumnTypeTimestamp] then
    decodePreparedDateTime payload position
  else if fieldType t =? ColumnTypeTime then decodePreparedTime payload position
  else
    '(bs, next) ← readPreparedLengthEncoded payload position; Ret (VBytes bs, next).

(** The type array, [n] entries from [position]. *)
Fixpoint read_types (payload : list byte) (n : nat) (position : Z)
  : decoder (list preparedParameterType) :=
  match n with
  | O => Ret []
  | S n =>
      t ← at_ payload position;
      flag ← at_ payload (position + 1);
      rest ← read_types payload n (position + 2);
      Ret (mkType t (negb (Z.land flag 0x80 =? 0)) :: rest)
  end.

(** [nulls[index/8]&(1<<uint(index%8)) != 0] *)
Definition null_bit (nulls : list byte) (index : Z) : decoder bool :=
  b ← at_ nulls (index / 8); Ret (negb (Z.land b (Z.shiftl 1 (index mod 8)) =? 0)).

(** [fmt.Errorf("prepared parameter %d: %w", index, err)] *)
Definition parameter_error (index : Z) (text : string) : string :=
  ("prepared parameter " ++ format_int index ++ ": " ++ text)%string.

(** The values of [n] parameters from [index]. *)
Fixpoint read_values (payload nulls : list byte) (long : gmap Z (list byte))
    (types : list preparedParameterType) (n : nat) (index position : Z) : decoder (list value * Z) :=
  match n with
  | O => Ret ([], position)
  | S n =>
      is_null ← null_bit nulls index;
      '(v, position) ←
        (if (is_null : bool) then Ret (VNil, position) else
         match long !! u16 index with
         | Some bs => Ret (VBytes bs, position)
         | None =>
             t ← go_index types (Z.to_nat index);
             map_fail (parameter_error index) (decodePreparedParameter payload position t)
         end);
      '(vs, position) ← read_values payload nulls long types n (index + 1) position;
      Ret (v :: vs, position)
  end.

(** The statement comes back with the types the packet carried, also when a
    value then turns out to be malformed. *)
Definition decodeArguments (p : parameters) (payload : list byte)
  : decoder (list value) * parameters :=
  if parameterCount p =? 0 then (Ret [], p) else
  let count := Z.to_nat (parameterCount p) in
  let position := 10 in
  let nullBytes := (parameterCount p + 7) / 8 in
  if len payload <? position + nullBytes + 1 then
    (Fail "prepared execute null bitmap is truncated"%string, p) else
  match slice payload position (position + nullBytes), at_ payload (position + nullBytes) with
  | Ret nulls, Ret newTypes =>
      let position := position + nullBytes + 1 in
      let finish (types : list preparedParameterType) (position : Z) : decoder (list value) :=
        '(arguments, position) ← read_values payload nulls (longData p) types count 0 position;
        if negb (position =? len payload) then
          Fail "prepared execute contains trailing value bytes"%string
        else Ret arguments in
      if negb (newTypes =? 0) then
        if len payload <? position + 2 * parameterCount p then
          (Fail "prepared execute type array is truncated"%string, p) else
        if (length (parameterTypes p) <? count)%nat then (Panic, p) else
        match read_types payload count position with
        | Ret types =>
            let types := types ++ drop count (parameterTypes p) in
            (finish types (position + 2 * parameterCount p),
             mkParameters (parameterCount p) types (longData p))
        | Fail e => (Fail e, p)
        | Panic => (Panic, p)
        end
      else if existsb (fun t => fieldType t =? 0) (parameterTypes p) then
        (Fail "prepared execute omitted its first type array"%string, p)
      else (finish (parameterTypes p) position, p)
  | _, _ => (Panic, p)
  end.

(** ** Safety *)

(** A step of the decoder from [position]: it does not panic, and if it returns,
    it has moved forward inside the payload. *)
Definition stays {A} (payload : list byte) (position : Z) (r : decoder (A * Z)) : Prop :=
  r <> Panic /\ forall a next, r = Ret (a, next) -> position <= next <= len payload.

Lemma stays_ret {A} payload position (a : A) next :
  position <= next <= len payload -> stays payload position (Ret (a, next)).
Proof. intros H. split; [done|]. intros ? ? [= <- <-]. done. Qed.

Lemma stays_fail {A} payload position e : stays (A := A) payload position (Fail e).
Proof. by split. Qed.

Lemma stays_bind {A B} payload position (r : decoder (A * Z)) (k : A * Z -> decoder (B * Z)) :
  stays payload position r ->
  (forall a next, r = Ret (a, next) -> position <= next <= len payload ->
     stays payload next (k (a, next))) ->
  stays payload position (r ≫= k).
Proof.
  intros [Hp Hr] Hk. destruct r as [[a next]| |]; cbn; [|by split|by destruct Hp].
  pose proof (Hr a next eq_refl) as Hn. destruct (Hk a next eq_refl Hn) as [Hp' Hr'].
  split; [done|]. intros b next' H%Hr'. lia.
Qed.

Lemma stays_map_fail {A} payload position f (r : decoder (A * Z)) :
  stays payload position r -> stays payload position (map_fail f r).
Proof.
  intros [Hp Hr]. destruct r as [[a next]| |]; cbn; [|by split|by destruct Hp].
  split; [done|]. intros b next' [= <- <-]. by apply (Hr a).
Qed.

Lemma at_ok payload position :
  0 <= position < len payload -> exists v, at_ payload position = Ret v /\ 0 <= v < 256.
Proof.
  unfold len, at_. intros H.
  destruct (go_index_ok (E := string) payload (Z.to_nat position)) as [b ->]; [lia|].
  exists (bval b). split; [done|apply bval_range].
Qed.

Lemma slice_ok payload lo hi :
  0 <= lo <= hi -> hi <= len payload ->
  exists bs, slice payload lo hi = Ret bs /\ Z.of_nat (length bs) = hi - lo.
Proof.
  unfold len, slice. intros Hlo Hhi. rewrite go_slice_ok by lia. eexists. split; [done|].
  rewrite length_take, length_drop. lia.
Qed.

(** Opens the next read of a decoder whose position is in range. *)
Ltac read_next :=
  match goal with
  | |- context [at_ ?p ?i] =>
      let v := fresh "v" in let Hv := fresh "Hv" in
      destruct (at_ok p i) as (v & -> & Hv); [lia|]; cbn [mbind outcome_bind fmap outcome_fmap]
  | |- context [slice ?p ?lo ?hi] =>
      let bs := fresh "bs" in let Hb := fresh "Hb" in
      destruct (slice_ok p lo hi) as (bs & -> & Hb); [lia|lia|];
      cbn [mbind outcome_bind fmap outcome_fmap]
  end.

Ltac decide_length :=
  match goal with
  | |- context [if ?b then Fail _ else _] =>
      let E := fresh "E" in destruct b eqn:E; [apply stays_fail|]; bool_props
  end.

Lemma decode_datetime_stays payload position :
  0 <= position <= len payload -> stays payload position (decodePreparedDateTime payload position).
Proof.
  intros Hp. unfold decodePreparedDateTime. decide_length. read_next.
  destruct (Z.eqb_spec v 0); [apply stays_ret; lia|]. decide_length.
  assert (v = 4 \/ v = 7 \/ v = 11) as [->|[->| ->]] by lia;
    cbn [Z.leb Z.eqb Z.compare Pos.eqb Pos.compare Pos.compare_cont];
    repeat read_next; apply stays_ret; lia.
Qed.

Lemma decode_time_stays payload position :
  0 <= position <= len payload -> stays payload position (decodePreparedTime payload position).
Proof.
  intros Hp. unfold decodePreparedTime. decide_length. read_next.
  destruct (Z.eqb_spec v 0); [apply stays_ret; lia|]. decide_length.
  assert (v = 8 \/ v = 12) as [->| ->] by lia; cbn [Z.eqb Pos.eqb];
    repeat read_next; apply stays_ret; lia.
Qed.

Lemma read_length_stays payload position first :
  0 <= position <= len payload -> 0 <= first ->
  stays payload position (read_length payload position first) /\
  forall n next, read_length payload position first = Ret (n, next) -> 0 <= n.
Proof.
  intros Hp Hf. unfold read_length.
  destruct (first =? 0xfc); [|destruct (first =? 0xfd); [|destruct (first =? 0xfe)]];
    (case_goal; [split; [apply stays_fail|done]|]); bool_props; repeat read_next;
    (split; [apply stays_ret; lia|]); intros n next [= <- _];
    try lia; try (apply le_value_bound).
  rewrite !Z.lor_nonneg, !Z.shiftl_nonneg. lia.
Qed.

Lemma length_encoded_stays payload position :
  0 <= position <= len payload ->
  stays payload position (readPreparedLengthEncoded payload position).
Proof.
  intros Hp. unfold readPreparedLengthEncoded. decide_length. read_next.
  destruct (read_length_stays payload (position + 1) v) as [Hs Hn]; [lia|lia|].
  assert (Hs' : stays payload position (read_length payload (position + 1) v)).
  { split; [apply Hs|]. intros a next H%Hs. lia. }
  apply (stays_bind payload position); [exact Hs'|].
  intros length_ next Hr%Hn Hnext. decide_length. read_next. apply stays_ret. lia.
Qed.

Lemma require_bind_stays payload position size (k : Z -> value) :
  0 <= position <= len payload -> 0 <= size ->
  stays payload position
    (raw ← le_value <$> require payload position size; Ret (k raw, position + size)).
Proof.
  intros Hp Hs. unfold require.
  change (Z.of_nat (length payload)) with (len payload).
  destruct ((size <? 0) || (len payload - position <? size)) eqn:E; [apply stays_fail|]. bool_props.
  destruct (slice_ok payload position (position + size)) as (bs & Hb & _); [lia|lia|].
  unfold slice in Hb. rewrite Hb. cbn [mbind outcome_bind fmap outcome_fmap].
  apply stays_ret. lia.
Qed.

Lemma decode_parameter_stays payload position t :
  0 <= position <= len payload ->
  stays payload position (decodePreparedParameter payload position t).
Proof.
  intros Hp. unfold decodePreparedParameter, decode_integer.
  repeat match goal with
  | |- context [if ?b then _ else _] => destruct b;
      [first [ apply stays_ret; lia | apply require_bind_stays; lia
             | apply decode_datetime_stays; lia | apply decode_time_stays; lia ]|]
  end.
  apply (stays_bind payload position); [by apply length_encoded_stays|].
  intros bs next _ Hn. apply stays_ret. lia.
Qed.

Lemma read_types_ok payload n : forall position,
  0 <= position -> position + 2 * Z.of_nat n <= len payload ->
  exists types, read_types payload n position = Ret types /\ length types = n.
Proof.
  induction n as [|n IH]; intros position Hp Hl; [by exists []|]. cbn [read_types].
  read_next. read_next. destruct (IH (position + 2)) as (types & -> & Ht); [lia|lia|].
  cbn [mbind outcome_bind]. eexists. split; [done|]. cbn. by rewrite Ht.
Qed.

Lemma null_bit_ok nulls index :
  0 <= index < 8 * len nulls -> exists b, null_bit nulls index = Ret b.
Proof.
  intros Hi. unfold null_bit. destruct (at_ok nulls (index / 8)) as (v & -> & _); [|by eexists].
  Z.to_euclidean_division_equations. lia.
Qed.

Lemma read_values_stays payload nulls long types n : forall index position,
  0 <= position <= len payload -> 0 <= index ->
  index + Z.of_nat n <= 8 * len nulls -> index + Z.of_nat n <= Z.of_nat (length types) ->
  stays payload position (read_values payload nulls long types n index position) /\
  forall vs next, read_values payload nulls long types n index position = Ret (vs, next) ->
    length vs = n.
Proof.
  induction n as [|n IH]; intros index position Hp Hi Hn Ht; cbn [read_values].
  { split; [apply stays_ret; lia|]. by intros ? ? [= <- _]. }
  destruct (null_bit_ok nulls index) as [b ->]; [lia|]. cbn [mbind outcome_bind].
  assert (Hv : stays payload position
    (if b then Ret (VNil, position) else
     match long !! u16 index with
     | Some bs => Ret (VBytes bs, position)
     | None =>
         t ← go_index types (Z.to_nat index);
         map_fail (parameter_error index) (decodePreparedParameter payload position t)
     end)).
  { destruct b; [apply stays_ret; lia|]. destruct (long !! _); [apply stays_ret; lia|].
    destruct (go_index_ok (E := string) types (Z.to_nat index)) as [t ->]; [lia|].
    cbn [mbind outcome_bind]. by apply stays_map_fail, decode_parameter_stays. }
  split.
  - apply (stays_bind payload position); [exact Hv|]. intros v next _ Hnext.
    apply (stays_bind payload next); [apply (IH (index + 1) next); lia|].
    intros vs last _ Hlast. apply stays_ret. lia.
  - intros vs next (v & next1 & Hv1 & H)%bind_pair_ret. apply bind_pair_ret in H as (vs' & next2 & Hvs & H).
    injection H as <- <-. cbn. f_equal. destruct Hv as [_ Hv]. specialize (Hv _ _ Hv1).
    refine (proj2 (IH (index + 1) next1 _ _ _ _) _ _ Hvs); lia.
Qed.

(** A statement as [prepare] makes it: one type slot per parameter. *)
Definition prepared_ok (p : parameters) : Prop :=
  0 <= parameterCount p /\ length (parameterTypes p) = Z.to_nat (parameterCount p).

Definition finish (p : parameters) (payload nulls : list byte) (types : list preparedParameterType)
    (position : Z) : decoder (list value) :=
  '(arguments, position) ←
    read_values payload nulls (longData p) types (Z.to_nat (parameterCount p)) 0 position;
  if negb (position =? len payload) then
    Fail "prepared execute contains trailing value bytes"%string
  else Ret arguments.

Lemma finish_safe p payload nulls types position :
  0 <= position <= len payload -> parameterCount p <= 8 * len nulls ->
  length types = Z.to_nat (parameterCount p) ->
  match finish p payload nulls types position with
  | Ret arguments => length arguments = Z.to_nat (parameterCount p)
  | Fail _ => True
  | Panic => False
  end.
Proof.
  intros Hp Hn Ht. unfold finish. assert (0 <= len nulls) by (unfold len; lia).
  destruct (read_values_stays payload nulls (longData p) types (Z.to_nat (parameterCount p)) 0 position)
    as [[Hpanic _] Hlen]; [done|done|lia|lia|].
  destruct (read_values _ _ _ _ _ _ _) as [[vs next]| |]; cbn; [|done|done].
  destruct (negb _); [done|]. by eapply Hlen.
Qed.

Lemma decode_arguments_contract (p : parameters) (payload : list byte) (Hp : prepared_ok p) :
  let '(result, p') := decodeArguments p payload in
  prepared_ok p' /\ parameterCount p' = parameterCount p /\ longData p' = longData p /\
  match result with
  | Ret arguments => length arguments = Z.to_nat (parameterCount p)
  | Fail _ => True
  | Panic => False
  end.
Proof.
  destruct Hp as [Hc Ht]. unfold decodeArguments. cbv zeta.
  destruct (Z.eqb_spec (parameterCount p) 0) as [H0|H0]; [by rewrite H0|].
  destruct (len payload <? _) eqn:El; [done|]. bool_props.
  assert (Hb : 0 <= (parameterCount p + 7) / 8 /\ parameterCount p <= 8 * ((parameterCount p + 7) / 8))
    by (Z.to_euclidean_division_equations; lia).
  destruct (slice_ok payload 10 (10 + (parameterCount p + 7) / 8)) as (nulls & -> & Hnulls); [lia|lia|].
  destruct (at_ok payload (10 + (parameterCount p + 7) / 8)) as (flag & -> & _); [lia|].
  fold (len nulls) in Hnulls.
  destruct (negb (flag =? 0)).
  - destruct (len payload <? _) eqn:El2; [done|]. bool_props.
    rewrite Ht, Nat.ltb_irrefl.
    destruct (read_types_ok payload (Z.to_nat (parameterCount p))
      (10 + (parameterCount p + 7) / 8 + 1)) as (types & -> & Hlen); [lia|lia|].
    rewrite drop_ge, app_nil_r by lia.
    split_and!; try done. apply (finish_safe p); [lia|lia|done].
  - destruct (existsb _ _); [done|]. split_and!; try done. apply (finish_safe p); [lia|lia|done].
Qed.

(** C39.  COM_STMT_EXECUTE is decoded safely: for every statement with one type
    slot per parameter and every payload, however truncated or inconsistent,
    the decoder reads inside the payload; it either refuses it or returns one
    argument per parameter; and it leaves the statement with the same parameter
    count, long data and number of type slots, so that the next execution is
    safe too. *)
Theorem decode_arguments_safe (p : parameters) (payload : list byte) (Hp : prepared_ok p) :
  let '(result, p') := decodeArguments p payload in
  prepared_ok p' /\ parameterCount p' = parameterCount p /\ longData p' = longData p /\
  match result with
  | Ret arguments => length arguments = Z.to_nat (parameterCount p)
  | Fail _ => True
  | Panic => False
  end.
Proof. by apply decode_arguments_contract. Qed.

Definition sample_parameters : parameters :=
  mkParameters 3 (repeat (mkType 0 false) 3) {[ 1 := bytes_of "long" ]}.

(** Three parameters: a signed tiny -2, long data, NULL. *)
Definition sample_execute : list byte :=
  map zbyte [0x17; 1; 0; 0; 0; 0; 1; 0; 0; 0; 4; 1; 1; 0; 0xfc; 0; 6; 0; 0xfe].

Lemma decode_arguments_safe_witness :
  prepared_ok sample_parameters /\
  (decodeArguments sample_parameters sample_execute).1 = Ret [VInt (-2); VBytes (bytes_of "long"); VNil] /\
  match (decodeArguments sample_parameters (take 18 sample_execute)).1 with
  | Ret arguments => length arguments = 3%nat | Fail _ => True | Panic => False end.
Proof.
  assert (H : prepared_ok sample_parameters) by (split; [done|reflexivity]).
  split; [exact H|]. split; [vm_compute; reflexivity|].
  pose proof (decode_arguments_safe sample_parameters (take 18 sample_execute) H) as Hs.
  destruct (decodeArguments sample_parameters (take 18 sample_execute)) as [r p'].
  exact (proj2 (proj2 (proj2 Hs))).
Defined.

End Arguments.
