(* ===== verification/ExecuteRoundtrip.v ===== *)
(** * COM_STMT_EXECUTE from the client's side

    A reference encoder of the execute packet, from the protocol description:
    null bitmap, type array, binary values.  The theorem is that the decoder of
    [PreparedCodec] inverts it. *)

From stdpp Require Import base list numbers strings option gmap.
From coqutil Require Import Byte.
From Stdlib Require Import ZArith Lia Ascii.
From S2P Require Import Prelude GoStrings GoStrconv GoTime Response PreparedCodec.
Import GoStrconv GoTime Response Values Arguments.

(** ** Bitmaps *)

Module Bitmap.
Local Open Scope Z_scope.
Local Open Scope list_scope.

(** Little-endian value of a list of bits. *)
Definition bits_value (l : list bool) : Z := foldr (fun b acc => Z.b2z b + 2 * acc) 0 l.

Definition bitmap (l : list bool) : list byte :=
  map (fun k => zbyte (bits_value (take 8 (drop (8 * k) l)))) (seq 0 ((length l + 7) / 8)).

Lemma bits_value_range l : 0 <= bits_value l < 2 ^ Z.of_nat (length l).
Proof.
  induction l as [|b l IH]; [done|]. cbn [bits_value foldr length]. fold (bits_value l).
  replace (Z.of_nat (S (length l))) with (Z.succ (Z.of_nat (length l))) by lia.
  rewrite Z.pow_succ_r by lia. destruct b; cbn [Z.b2z]; lia.
Qed.

Lemma bits_value_testbit l : forall j,
  Z.testbit (bits_value l) (Z.of_nat j) = match l !! j with Some b => b | None => false end.
Proof.
  induction l as [|b l IH]; intros j; [by rewrite Z.testbit_0_l|].
  cbn [bits_value foldr]. fold (bits_value l). destruct j as [|j].
  - apply Z.add_b2z_double_bit0.
  - replace (Z.of_nat (S j)) with (Z.succ (Z.of_nat j)) by lia.
    rewrite Z.add_comm, Z.testbit_succ_r by lia. apply IH.
Qed.

Lemma land_bit v j : 0 <= j -> negb (Z.land v (Z.shiftl 1 j) =? 0) = Z.testbit v j.
Proof.
  intros Hj. rewrite Z.shiftl_1_l. destruct (Z.testbit v j) eqn:E.
  - apply negb_true_iff, Z.eqb_neq. intros H. apply (f_equal (fun z => Z.testbit z j)) in H.
    rewrite Z.land_spec, Z.pow2_bits_true, E, Z.bits_0 in H by done. done.
  - apply negb_false_iff, Z.eqb_eq, Z.bits_inj'. intros i Hi.
    rewrite Z.land_spec, Z.bits_0, Z.pow2_bits_eqb by done.
    destruct (Z.eqb_spec j i) as [->|]; [by rewrite E|]. apply andb_false_r.
Qed.

Lemma bitmap_length l : length (bitmap l) = ((length l + 7) / 8)%nat.
Proof. unfold bitmap. by rewrite length_map, length_seq. Qed.

Lemma bitmap_lookup l k :
  (k < (length l + 7) / 8)%nat -> bitmap l !! k = Some (zbyte (bits_value (take 8 (drop (8 * k) l)))).
Proof.
  intros Hk. unfold bitmap. change (map ?f ?x) with (f <$> x). rewrite list_lookup_fmap.
  by rewrite lookup_seq_lt by done.
Qed.

(** The decoder's test of a bit of the bitmap. *)
Lemma null_bit_bitmap l i b : l !! i = Some b -> null_bit (bitmap l) (Z.of_nat i) = Ret b.
Proof.
  intros Hl. pose proof (lookup_lt_Some _ _ _ Hl) as Hi.
  assert (Hk : (i / 8 < (length l + 7) / 8)%nat).
  { apply Nat.Div0.div_lt_upper_bound. pose proof (Nat.div_mod (length l + 7) 8).
    pose proof (Nat.mod_upper_bound (length l + 7) 8). lia. }
  unfold null_bit, at_, go_index. change 8 with (Z.of_nat 8) at 1 2.
  rewrite <- Nat2Z.inj_div, <- Nat2Z.inj_mod, Nat2Z.id, bitmap_lookup by done.
  cbn [fmap outcome_fmap mbind outcome_bind]. rewrite land_bit by lia.
  pose proof (bits_value_range (take 8 (drop (8 * (i / 8)) l))) as Hr.
  rewrite bval_zbyte_small, bits_value_testbit.
  - rewrite lookup_take_lt, lookup_drop by (apply Nat.mod_upper_bound; lia).
    rewrite <- Nat.div_mod, Hl by lia. done.
  - split; [lia|]. eapply Z.lt_le_trans; [apply Hr|]. change 256 with (2 ^ 8).
    apply Z.pow_le_mono_r; [lia|]. rewrite length_take. lia.
Qed.
End Bitmap.

Module ExecuteRoundtrip.
Import Bitmap.
Local Open Scope Z_scope.
Local Open Scope list_scope.

(** ** The client's parameters *)

Inductive param :=
| PNull                                      (* marked in the bitmap *)
| PLongData (bs : list byte)                 (* sent before, with its own command *)
| PInt (type : Z) (is_unsigned : bool) (z : Z)
| PFloat (bits : Z)
| PDouble (bits : Z)
| PBytes (type : Z) (bs : list byte)
| PZeroDate
| PDate (y m d : Z)
| PDateTime (y m d hh mm ss : Z)
| PTimestamp (y m d hh mm ss us : Z)
| PZeroTime
| PTime (negative : bool) (days hh mm ss : Z)
| PTimeMicros (negative : bool) (days hh mm ss us : Z).

(** Bytes of an integer type. *)
Definition width (type : Z) : option nat :=
  if type =? ColumnTypeTiny then Some 1%nat
  else if one_of type [ColumnTypeShort; ColumnTypeYear] then Some 2%nat
  else if one_of type [ColumnTypeLong; ColumnTypeInt24] then Some 4%nat
  else if type =? ColumnTypeLongLong then Some 8%nat
  else None.

Definition int_fits (w : nat) (is_unsigned : bool) (z : Z) : Prop :=
  if is_unsigned then 0 <= z < 2 ^ (8 * Z.of_nat w)
  else - 2 ^ (8 * Z.of_nat w - 1) <= z < 2 ^ (8 * Z.of_nat w - 1).

(** Types that are sent as length-encoded strings. *)
Definition string_type (type : Z) : Prop :=
  0 < type < 256 /\ ~ In type [ColumnTypeNull; ColumnTypeTiny; ColumnTypeShort; ColumnTypeYear;
    ColumnTypeLong; ColumnTypeInt24; ColumnTypeLongLong; ColumnTypeFloat; ColumnTypeDouble;
    ColumnTypeDate; ColumnTypeDateTime; ColumnTypeTimestamp; ColumnTypeTime].

Definition param_type (q : param) : preparedParameterType :=
  match q with
  | PNull => mkType ColumnTypeNull false
  | PLongData _ => mkType ColumnTypeBlob false
  | PInt t u _ => mkType t u
  | PFloat _ => mkType ColumnTypeFloat false
  | PDouble _ => mkType ColumnTypeDouble false
  | PBytes t _ => mkType t false
  | PZeroDate | PDate _ _ _ => mkType ColumnTypeDate false
  | PDateTime _ _ _ _ _ _ => mkType ColumnTypeDateTime false
  | PTimestamp _ _ _ _ _ _ _ => mkType ColumnTypeTimestamp false
  | PZeroTime | PTime _ _ _ _ _ | PTimeMicros _ _ _ _ _ _ => mkType ColumnTypeTime false
  end.

Definition sign_byte (negative : bool) : byte := zbyte (Z.b2z negative).

(** The inline bytes of a parameter. *)
Definition encode_param (q : param) : list byte :=
  match q with
  | PNull | PLongData _ => []
  | PInt t _ z => match width t with Some w => le_bytes w z | None => [] end
  | PFloat bits => le_bytes 4 bits
  | PDouble bits => le_bytes 8 bits
  | PBytes _ bs => lenenc_bytes bs
  | PZeroDate | PZeroTime => [zbyte 0]
  | PDate y m d => zbyte 4 :: le_bytes 2 y ++ [zbyte m; zbyte d]
  | PDateTime y m d hh mm ss =>
      zbyte 7 :: le_bytes 2 y ++ [zbyte m; zbyte d; zbyte hh; zbyte mm; zbyte ss]
  | PTimestamp y m d hh mm ss us =>
      zbyte 11 :: le_bytes 2 y ++ [zbyte m; zbyte d; zbyte hh; zbyte mm; zbyte ss] ++ le_bytes 4 us
  | PTime neg days hh mm ss =>
      zbyte 8 :: sign_byte neg :: le_bytes 4 days ++ [zbyte hh; zbyte mm; zbyte ss]
  | PTimeMicros neg days hh mm ss us =>
      zbyte 12 :: sign_byte neg :: le_bytes 4 days ++ [zbyte hh; zbyte mm; zbyte ss] ++ le_bytes 4 us
  end.

(** A TIME as text: hours run over 24. *)
Definition time_text (negative : bool) (days hh mm ss : Z) (micros : option Z) : string :=
  ((if negative then "-" else "") ++ pad_uint 2 (days * 24 + hh) ++ ":" ++ pad_uint 2 mm ++ ":" ++
   pad_uint 2 ss ++ (match micros with Some us => "." ++ pad_uint 6 us | None => "" end))%string.

(** What the driver is given for it. *)
Definition param_value (q : param) : value :=
  match q with
  | PNull => VNil
  | PLongData bs => VBytes bs
  | PInt _ u z => if u then VUint z else VInt z
  | PFloat bits => VFloat (Single bits)
  | PDouble bits => VFloat (Double bits)
  | PBytes _ bs => VBytes bs
  | PZeroDate => VBytes (bytes_of "0000-00-00")
  | PDate y m d => VTime (Date y m d 0 0 0 0)
  | PDateTime y m d hh mm ss => VTime (Date y m d hh mm ss 0)
  | PTimestamp y m d hh mm ss us => VTime (Date y m d hh mm ss (us * 1000))
  | PZeroTime => VBytes (bytes_of "00:00:00")
  | PTime neg days hh mm ss => VBytes (bytes_of (time_text neg days hh mm ss None))
  | PTimeMicros neg days hh mm ss us => VBytes (bytes_of (time_text neg days hh mm ss (Some us)))
  end.

Definition byte_field (z : Z) : Prop := 0 <= z < 256.
Definition word_field (n : Z) (z : Z) : Prop := 0 <= z < 2 ^ n.

Definition valid_param (q : param) : Prop :=
  match q with
  | PNull | PLongData _ | PZeroDate | PZeroTime => True
  | PInt t u z => match width t with Some w => int_fits w u z | None => False end
  | PFloat bits => word_field 32 bits
  | PDouble bits => word_field 64 bits
  | PBytes t bs => string_type t /\ Z.of_nat (length bs) < 2 ^ 63
  | PDate y m d => word_field 16 y /\ byte_field m /\ byte_field d
  | PDateTime y m d hh mm ss =>
      word_field 16 y /\ byte_field m /\ byte_field d /\ byte_field hh /\ byte_field mm /\ byte_field ss
  | PTimestamp y m d hh mm ss us =>
      word_field 16 y /\ byte_field m /\ byte_field d /\ byte_field hh /\ byte_field mm /\
      byte_field ss /\ word_field 32 us
  | PTime _ days hh mm ss =>
      word_field 32 days /\ byte_field hh /\ byte_field mm /\ byte_field ss
  | PTimeMicros _ days hh mm ss us =>
      word_field 32 days /\ byte_field hh /\ byte_field mm /\ byte_field ss /\ word_field 32 us
  end.

Definition is_null (q : param) : bool := match q with PNull => true | _ => false end.

(** ** Reading in the middle of a payload *)

Lemma at_mid pre mid rest k :
  0 <= k < len mid -> at_ (pre ++ mid ++ rest) (len pre + k) = at_ mid k.
Proof.
  unfold len, at_, go_index. intros Hk.
  rewrite lookup_app_r by lia. rewrite lookup_app_l by lia. by rewrite Z2Nat.inj_add, Nat2Z.id, Nat.add_sub' by lia.
Qed.

Lemma slice_mid_part pre mid rest a b :
  0 <= a <= b -> b <= len mid ->
  slice (pre ++ mid ++ rest) (len pre + a) (len pre + b) = slice mid a b.
Proof.
  unfold len, slice. intros Ha Hb. rewrite !go_slice_ok by (rewrite ?length_app; lia). f_equal.
  rewrite !Z2Nat.inj_add, Nat2Z.id by lia. rewrite drop_app_ge by lia.
  replace (length pre + Z.to_nat a - length pre)%nat with (Z.to_nat a) by lia.
  rewrite drop_app_le by lia. rewrite take_app_le by (rewrite length_drop; lia). f_equal. lia.
Qed.

Lemma len_app a b : len (a ++ b) = len a + len b.
Proof. unfold len. rewrite length_app. lia. Qed.

Lemma len_nonneg a : 0 <= len a.
Proof. unfold len. lia. Qed.

Lemma slice_whole pre mid rest :
  slice (pre ++ mid ++ rest) (len pre) (len pre + len mid) = Ret mid.
Proof.
  replace (len pre) with (len pre + 0) at 1 by lia. pose proof (len_nonneg mid).
  rewrite slice_mid_part by lia. unfold slice, len. rewrite go_slice_ok by lia.
  by rewrite Nat2Z.id, Nat.sub_0_r, drop_0, take_ge by lia.
Qed.

Lemma require_mid pre mid rest size :
  len mid = size -> require (pre ++ mid ++ rest) (len pre) size = Ret mid.
Proof.
  intros <-. unfold require. pose proof (len_nonneg mid). rewrite (proj2 (Z.ltb_ge _ 0)) by done.
  change (Z.of_nat (length ?l)) with (len l). rewrite !len_app. pose proof (len_nonneg rest).
  rewrite (proj2 (Z.ltb_ge _ _)) by lia. apply slice_whole.
Qed.

Lemma le_value_wrap n z : le_value (le_bytes n z) = z mod 2 ^ (8 * Z.of_nat n).
Proof. unfold le_value, le_bytes. rewrite LittleEndianList.le_combine_split. f_equal. f_equal. lia. Qed.

Lemma signed_wrap w z :
  0 < w -> - 2 ^ (w - 1) <= z < 2 ^ (w - 1) -> signed w (z mod 2 ^ w) = z.
Proof.
  intros Hw Hz. unfold signed. assert (E : 2 ^ w = 2 * 2 ^ (w - 1)).
  { rewrite <- Z.pow_succ_r by lia. f_equal. lia. }
  rewrite Z.mod_mod by lia. destruct (Z.ltb_spec z 0).
  - replace (z mod 2 ^ w) with (z + 2 ^ w) by (apply (Z.mod_unique _ _ (-1)); lia).
    rewrite (proj2 (Z.ltb_ge _ _)) by lia. lia.
  - rewrite Z.mod_small by lia. by rewrite (proj2 (Z.ltb_lt _ _)) by lia.
Qed.

Lemma len_le_bytes n z : len (le_bytes n z) = Z.of_nat n.
Proof. unfold len. by rewrite le_bytes_length. Qed.

Lemma decode_integer_mid pre rest w is_unsigned z :
  (0 < w)%nat -> int_fits w is_unsigned z ->
  decode_integer (pre ++ le_bytes w z ++ rest) (len pre) (Z.of_nat w) is_unsigned =
  Ret (if is_unsigned then VUint z else VInt z, len pre + Z.of_nat w).
Proof.
  intros Hw Hz. unfold decode_integer. rewrite require_mid by apply len_le_bytes.
  cbn [fmap outcome_fmap mbind outcome_bind]. rewrite le_value_wrap.
  unfold int_fits in Hz. destruct is_unsigned.
  - by rewrite Z.mod_small.
  - by rewrite signed_wrap by (done || lia).
Qed.

(** The integer case of the type switch. *)
Lemma decode_int_type payload position t u w :
  width t = Some w ->
  decodePreparedParameter payload position (mkType t u) =
  decode_integer payload position (Z.of_nat w) u.
Proof.
  unfold width, decodePreparedParameter. cbn [fieldType unsigned].
  destruct (Z.eqb_spec t ColumnTypeTiny) as [->|]; [by intros [= <-]|].
  destruct (one_of t [ColumnTypeShort; ColumnTypeYear]) eqn:E2.
  { intros [= <-]. by destruct (Z.eqb_spec t ColumnTypeNull) as [->|]. }
  destruct (one_of t [ColumnTypeLong; ColumnTypeInt24]) eqn:E4.
  { intros [= <-]. by destruct (Z.eqb_spec t ColumnTypeNull) as [->|]. }
  destruct (Z.eqb_spec t ColumnTypeLongLong) as [->|]; [by intros [= <-]|done].
Qed.

Lemma width_pos t w : width t = Some w -> (0 < w)%nat.
Proof. unfold width. repeat case_goal; intros [= <-]; lia. Qed.

(** The string case of the type switch. *)
Lemma decode_string_type payload position t u :
  string_type t ->
  decodePreparedParameter payload position (mkType t u) =
  '(bs, next) ← readPreparedLengthEncoded payload position; Ret (VBytes bs, next).
Proof.
  intros [Hr Hn]. cbn [In] in Hn. unfold decodePreparedParameter, one_of. cbn [fieldType existsb].
  assert (Ht : forall k, In k [ColumnTypeNull; ColumnTypeTiny; ColumnTypeShort; ColumnTypeYear;
    ColumnTypeLong; ColumnTypeInt24; ColumnTypeLongLong; ColumnTypeFloat; ColumnTypeDouble;
    ColumnTypeDate; ColumnTypeDateTime; ColumnTypeTimestamp; ColumnTypeTime] -> (t =? k) = false).
  { intros k Hk. apply Z.eqb_neq. intros ->. cbn [In] in Hk. by apply Hn. }
  by rewrite !Ht by (cbn [In]; tauto).
Qed.

(** Positions relative to the start of the parameter. *)
Ltac relative :=
  repeat rewrite <- Z.add_assoc;
  repeat match goal with
  | |- context [?a + (?b + ?c)] =>
      let s := eval vm_compute in (b + c) in
      match s with Zpos _ => change (b + c) with s end
  end.

Lemma len_cons b l : len (b :: l) = 1 + len l.
Proof. unfold len. cbn [length]. lia. Qed.

Lemma at_head b l : at_ (b :: l) 0 = Ret (bval b).
Proof. reflexivity. Qed.

Lemma at_first pre b l rest : at_ (pre ++ (b :: l) ++ rest) (len pre) = Ret (bval b).
Proof.
  rewrite <- (Z.add_0_r (len pre)), at_mid; [apply at_head|].
  rewrite len_cons. pose proof (len_nonneg l). lia.
Qed.

(** The fields after the first byte. *)
Lemma slice_second pre b l rest k :
  len l = k -> slice (pre ++ (b :: l) ++ rest) (len pre + 1) (len pre + 1 + k) = Ret l.
Proof.
  intros <-. replace (pre ++ (b :: l) ++ rest) with ((pre ++ [b]) ++ l ++ rest) by (by rewrite <- app_assoc).
  replace (len pre + 1) with (len (pre ++ [b])) by (rewrite len_app; reflexivity). apply slice_whole.
Qed.

Lemma slice_after pre head bs rest n :
  len bs = n ->
  slice (pre ++ head ++ bs ++ rest) (len pre + len head) (len pre + len head + n) = Ret bs.
Proof.
  intros <-. rewrite app_assoc, <- len_app. apply slice_whole.
Qed.

(** The same, relative to the byte before. *)
Lemma at_second pre b l rest k :
  0 <= k < len l -> at_ (pre ++ (b :: l) ++ rest) (len pre + 1 + k) = at_ l k.
Proof.
  intros Hk. replace (pre ++ (b :: l) ++ rest) with ((pre ++ [b]) ++ l ++ rest) by (by rewrite <- app_assoc).
  replace (len pre + 1) with (len (pre ++ [b])) by (rewrite len_app; reflexivity). by apply at_mid.
Qed.

Lemma read_length_mid pre n rest :
  0 <= n < 2 ^ 64 ->
  exists b l, lenenc n = b :: l /\
    read_length (pre ++ lenenc n ++ rest) (len pre + 1) (bval b) = Ret (n, len pre + len (lenenc n)).
Proof.
  intros Hn. rewrite (lenenc_value n Hn).
  destruct (Z.ltb_spec n 0xfb); [|destruct (Z.leb_spec n 0xffff);
    [|destruct (Z.leb_spec n 0xffffff)]]; do 2 eexists; (split; [reflexivity|]);
    unfold read_length; rewrite bval_zbyte_small by lia; rewrite !len_app, ?len_cons, ?len_le_bytes;
    pose proof (len_nonneg rest).
  - rewrite !(proj2 (Z.eqb_neq n _)), (proj2 (Z.leb_gt 0xfb n)) by lia. done.
  - cbn [Z.eqb Pos.eqb]. rewrite (proj2 (Z.ltb_ge _ 2)) by lia.
    rewrite slice_second by apply len_le_bytes. cbn [mbind outcome_bind fmap outcome_fmap].
    rewrite le_value_bytes by lia. do 2 f_equal. lia.
  - cbn [Z.eqb Pos.eqb]. rewrite (proj2 (Z.ltb_ge _ 3)) by lia.
    rewrite <- (Z.add_0_r (len pre + 1)) at 1.
    rewrite !at_second by (rewrite len_le_bytes; lia).
    change (le_bytes 3 n) with [zbyte n; zbyte (Z.shiftr n 8); zbyte (Z.shiftr (Z.shiftr n 8) 8)].
    change (at_ [?a; ?b; ?c] 0) with (Ret (E := string) (bval a)).
    change (at_ [?a; ?b; ?c] 1) with (Ret (E := string) (bval b)).
    change (at_ [?a; ?b; ?c] 2) with (Ret (E := string) (bval c)).
    cbn [mbind outcome_bind]. rewrite three_bytes.
    change [zbyte n; zbyte (Z.shiftr n 8); zbyte (Z.shiftr (Z.shiftr n 8) 8)] with (le_bytes 3 n).
    rewrite le_value_bytes by lia. do 2 f_equal. lia.
  - cbn [Z.eqb Pos.eqb]. rewrite (proj2 (Z.ltb_ge _ 8)) by lia.
    rewrite slice_second by apply len_le_bytes. cbn [mbind outcome_bind fmap outcome_fmap].
    rewrite le_value_bytes by lia. do 2 f_equal. lia.
Qed.

Lemma length_encoded_mid pre bs rest :
  Z.of_nat (length bs) < 2 ^ 63 ->
  readPreparedLengthEncoded (pre ++ lenenc_bytes bs ++ rest) (len pre) =
  Ret (bs, len pre + len (lenenc_bytes bs)).
Proof.
  intros Hl. unfold lenenc_bytes. rewrite <- app_assoc, len_app.
  change (Z.of_nat (length bs)) with (len bs) in *. pose proof (len_nonneg bs).
  destruct (read_length_mid pre (len bs) (bs ++ rest)) as (b & l & Hh & Hr); [lia|].
  pose proof (len_nonneg rest). pose proof (len_nonneg l).
  assert (Hlen : len (lenenc (len bs)) = 1 + len l) by (rewrite Hh; apply len_cons).
  unfold readPreparedLengthEncoded. rewrite (proj2 (Z.leb_gt _ _)) by (rewrite !len_app; lia).
  rewrite Hh at 1. rewrite at_first. cbn [mbind outcome_bind]. rewrite Hr. cbn [mbind outcome_bind].
  rewrite (proj2 (Z.ltb_ge _ (len bs))) by (rewrite !len_app; lia).
  rewrite slice_after by done. cbn [mbind outcome_bind]. do 2 f_equal. lia.
Qed.

(** ** Temporal values *)

Lemma at_second0 pre b c l rest : at_ (pre ++ (b :: c :: l) ++ rest) (len pre + 1) = Ret (bval c).
Proof.
  rewrite <- (Z.add_0_r (len pre + 1)), at_second; [reflexivity|].
  rewrite len_cons. pose proof (len_nonneg l). lia.
Qed.

Lemma slice_body pre b l rest a c :
  0 <= a <= c -> c <= len l ->
  slice (pre ++ (b :: l) ++ rest) (len pre + 1 + a) (len pre + 1 + c) = slice l a c.
Proof.
  intros Ha Hc. replace (pre ++ (b :: l) ++ rest) with ((pre ++ [b]) ++ l ++ rest) by (by rewrite <- app_assoc).
  replace (len pre + 1) with (len (pre ++ [b])) by (rewrite len_app; reflexivity).
  by apply slice_mid_part.
Qed.

Lemma slice_body0 pre b l rest c :
  0 <= c <= len l ->
  slice (pre ++ (b :: l) ++ rest) (len pre + 1) (len pre + 1 + c) = slice l 0 c.
Proof. intros Hc. rewrite <- (slice_body pre b l rest 0 c) by lia. f_equal. lia. Qed.

(** A temporal value whose first byte is the length of its body. *)
Lemma temporal_total pre b l rest :
  (len (pre ++ (b :: l) ++ rest) <=? len pre) = false /\
  (len (pre ++ (b :: l) ++ rest) - (len pre + 1) <? len l) = false.
Proof.
  rewrite !len_app, len_cons. pose proof (len_nonneg l). pose proof (len_nonneg rest).
  split; [apply Z.leb_gt|apply Z.ltb_ge]; lia.
Qed.

(** Reads one field of a body given as an explicit list. *)
Ltac body_next :=
  first [ rewrite at_second0
        | rewrite at_second by (unfold len; cbn [length]; lia)
        | rewrite slice_body0 by (unfold len; cbn [length]; lia)
        | rewrite slice_body by (unfold len; cbn [length]; lia) ];
  cbn [mbind outcome_bind fmap outcome_fmap Z.leb Z.eqb Z.compare Pos.eqb Pos.compare Pos.compare_cont].

(** Evaluates reads of an explicit list. *)
Ltac eval_reads :=
  repeat match goal with
  | |- context [slice (?x :: ?l) ?a ?c] =>
      let v := eval cbv [slice go_slice Z.to_nat Pos.to_nat Pos.iter_op Nat.add Nat.sub Nat.leb
        length take drop andb] in (slice (x :: l) a c) in
      change (slice (x :: l) a c) with v
  | |- context [at_ (?x :: ?l) ?a] =>
      let v := eval cbv [at_ go_index lookup list_lookup Z.to_nat Pos.to_nat Pos.iter_op Nat.add
        fmap outcome_fmap] in (at_ (x :: l) a) in
      change (at_ (x :: l) a) with v
  end; cbn [mbind outcome_bind fmap outcome_fmap].

Ltac temporal_head :=
  match goal with
  | |- context [len (?pre ++ (?b :: ?l) ++ ?rest)] =>
      let H1 := fresh in let H2 := fresh in
      destruct (temporal_total pre b l rest) as [H1 H2];
      rewrite H1, at_first; cbn [mbind outcome_bind];
      rewrite bval_zbyte_small by lia;
      cbn [Z.eqb Pos.eqb negb andb orb];
      match type of H2 with context [len l] =>
        let n := eval vm_compute in (len l) in change (len l) with n in H2 end;
      try rewrite H2; clear H1 H2
  end.

Lemma le2 y : le_bytes 2 y = [zbyte y; zbyte (Z.shiftr y 8)].
Proof. reflexivity. Qed.

Lemma le4 y : le_bytes 4 y = [zbyte y; zbyte (Z.shiftr y 8); zbyte (Z.shiftr (Z.shiftr y 8) 8);
  zbyte (Z.shiftr (Z.shiftr (Z.shiftr y 8) 8) 8)].
Proof. reflexivity. Qed.

(** The decoded value and the position after it. *)
Ltac decoded :=
  apply f_equal, f_equal2; [reflexivity|]; rewrite ?le2, ?le4; unfold len; cbn [length]; lia.

Lemma decode_date_mid pre rest q :
  match q with PZeroDate | PDate _ _ _ | PDateTime _ _ _ _ _ _ | PTimestamp _ _ _ _ _ _ _ => True | _ => False end ->
  valid_param q ->
  decodePreparedDateTime (pre ++ encode_param q ++ rest) (len pre) =
  Ret (param_value q, len pre + len (encode_param q)).
Proof.
  destruct q as [| | | | | | |y m d|y m d hh mm ss|y m d hh mm ss us| | |]; try done; intros _;
    unfold valid_param, byte_field, word_field; intros H; cbn [encode_param];
    rewrite ?le2, ?le4; unfold decodePreparedDateTime.
  - temporal_head. reflexivity.
  - change ([?a; ?b] ++ ?l) with (a :: b :: l). temporal_head.
    repeat (body_next; eval_reads).
    rewrite <- le2, le_value_bytes, !bval_zbyte_small by lia. decoded.
  - change ([?a; ?b] ++ ?l) with (a :: b :: l). temporal_head.
    repeat (body_next; eval_reads).
    rewrite <- le2, le_value_bytes, !bval_zbyte_small by lia. decoded.
  - change ([?a; ?b] ++ ?l) with (a :: b :: l). change ([?a; ?b; ?c; ?d; ?e] ++ ?l) with (a :: b :: c :: d :: e :: l).
    temporal_head. repeat (body_next; eval_reads).
    rewrite <- le2, <- le4, !le_value_bytes, !bval_zbyte_small by lia. decoded.
Qed.

Lemma sign_bit neg : negb (bval (sign_byte neg) =? 0) = neg.
Proof. by destruct neg. Qed.

Lemma decode_time_mid pre rest q :
  match q with PZeroTime | PTime _ _ _ _ _ | PTimeMicros _ _ _ _ _ _ => True | _ => False end ->
  valid_param q ->
  decodePreparedTime (pre ++ encode_param q ++ rest) (len pre) =
  Ret (param_value q, len pre + len (encode_param q)).
Proof.
  destruct q as [| | | | | | | | | | |neg days hh mm ss|neg days hh mm ss us]; try done; intros _;
    unfold valid_param, byte_field, word_field; intros H; cbn [encode_param];
    rewrite ?le4; unfold decodePreparedTime.
  - temporal_head. reflexivity.
  - change ([?a; ?b; ?c; ?d] ++ ?l) with (a :: b :: c :: d :: l). temporal_head.
    repeat (body_next; eval_reads). rewrite sign_bit, <- le4, le_value_bytes, !bval_zbyte_small by lia.
    unfold param_value, time_text. rewrite append_nil_r. destruct neg; decoded.
  - change ([?a; ?b; ?c; ?d] ++ ?l) with (a :: b :: c :: d :: l).
    change ([?a; ?b; ?c] ++ ?l) with (a :: b :: c :: l). temporal_head.
    repeat (body_next; eval_reads). rewrite sign_bit, <- !le4, !le_value_bytes, !bval_zbyte_small by lia.
    unfold param_value, time_text. rewrite <- !append_assoc. destruct neg; decoded.
Qed.

(** One inline value. *)
Definition inline (q : param) : Prop := match q with PNull | PLongData _ => False | _ => True end.

Lemma decode_param_mid pre rest q :
  inline q -> valid_param q ->
  decodePreparedParameter (pre ++ encode_param q ++ rest) (len pre) (param_type q) =
  Ret (param_value q, len pre + len (encode_param q)).
Proof.
  intros Hi Hv. destruct q; try done.
  - cbn [valid_param encode_param param_type param_value] in *. destruct (width type) as [w|] eqn:Ew; [|done].
    rewrite (decode_int_type _ _ _ _ w Ew), decode_integer_mid, len_le_bytes by eauto using width_pos.
    done.
  - unfold decodePreparedParameter, encode_param. cbn -[require le_bytes]. rewrite require_mid by done.
    cbn [mbind outcome_bind fmap outcome_fmap]. unfold valid_param, word_field in Hv.
    by rewrite le_value_bytes by lia.
  - unfold decodePreparedParameter, encode_param. cbn -[require le_bytes]. rewrite require_mid by done.
    cbn [mbind outcome_bind fmap outcome_fmap]. unfold valid_param, word_field in Hv.
    by rewrite le_value_bytes by lia.
  - destruct Hv as [Ht Hl]. cbn [encode_param param_type param_value].
    rewrite decode_string_type by done. by rewrite length_encoded_mid.
  - by apply (decode_date_mid pre rest PZeroDate).
  - by apply (decode_date_mid pre rest (PDate y m d)).
  - by apply (decode_date_mid pre rest (PDateTime y m d hh mm ss)).
  - by apply (decode_date_mid pre rest (PTimestamp y m d hh mm ss us)).
  - by apply (decode_time_mid pre rest PZeroTime).
  - by apply (decode_time_mid pre rest (PTime negative days hh mm ss)).
  - by apply (decode_time_mid pre rest (PTimeMicros negative days hh mm ss us)).
Qed.

(** ** The packet *)

Definition type_bytes (t : preparedParameterType) : list byte :=
  [zbyte (fieldType t); zbyte (if unsigned t then 0x80 else 0)].

(** [header] is the command byte, the statement id, the flags and the iteration
    count. *)
Definition encode_execute (header : list byte) (send_types : bool) (params : list param) : list byte :=
  header ++ bitmap (map is_null params) ++ [zbyte (Z.b2z send_types)] ++
  (if send_types then concat (map (fun q => type_bytes (param_type q)) params) else []) ++
  concat (map encode_param params).

(** The statement has the long data of the parameters that were sent so, and of
    no other one that is inline. *)
Definition long_data_matches (long : gmap Z (list byte)) (params : list param) : Prop :=
  forall i q, params !! i = Some q ->
    match q with
    | PNull => True
    | PLongData bs => long !! Z.of_nat i = Some bs
    | _ => long !! Z.of_nat i = None
    end.

Lemma type_range q : valid_param q -> 0 < fieldType (param_type q) < 256.
Proof.
  destruct q; cbn [param_type fieldType valid_param];
    unfold ColumnTypeNull, ColumnTypeBlob, ColumnTypeFloat, ColumnTypeDouble, ColumnTypeDate,
      ColumnTypeDateTime, ColumnTypeTimestamp, ColumnTypeTime; try lia.
  - unfold width, one_of. cbn [existsb]. unfold ColumnTypeTiny, ColumnTypeShort, ColumnTypeYear,
      ColumnTypeLong, ColumnTypeInt24, ColumnTypeLongLong. intros H.
    destruct (type =? 1) eqn:?; [lia|]. destruct ((type =? 2) || _) eqn:?; [lia|].
    destruct ((type =? 3) || _) eqn:?; [lia|]. destruct (type =? 8) eqn:?; [lia|done].
  - by intros [[H _] _].
Qed.

Lemma type_first pre t rest : at_ (pre ++ type_bytes t ++ rest) (len pre) = Ret (bval (zbyte (fieldType t))).
Proof. apply at_first. Qed.

Lemma type_second pre t rest :
  at_ (pre ++ type_bytes t ++ rest) (len pre + 1) = Ret (bval (zbyte (if unsigned t then 0x80 else 0))).
Proof. apply at_second0. Qed.

Lemma read_types_mid qs : forall pre rest,
  Forall valid_param qs ->
  read_types (pre ++ concat (map (fun q => type_bytes (param_type q)) qs) ++ rest)
    (length qs) (len pre) = Ret (map param_type qs).
Proof.
  induction qs as [|q qs IH]; intros pre rest Hv; [done|]. inversion Hv as [|? ? Hq Hqs]; subst.
  cbn [map concat length read_types]. set (ts := concat _) in *.
  rewrite <- app_assoc, type_first. cbn [mbind outcome_bind].
  rewrite type_second. cbn [mbind outcome_bind].
  replace (len pre + 2) with (len (pre ++ type_bytes (param_type q))) by (rewrite len_app; reflexivity).
  rewrite (app_assoc pre), IH by done. cbn [mbind outcome_bind].
  pose proof (type_range q Hq). rewrite bval_zbyte_small by lia.
  destruct (param_type q) as [t []]; cbn [unsigned fieldType]; rewrite bval_zbyte_small by lia; reflexivity.
Qed.

Lemma u16_index (i : nat) : Z.of_nat i < 65536 -> u16 (Z.of_nat i) = Z.of_nat i.
Proof. intros Hi. unfold u16. apply Z.mod_small. lia. Qed.

Lemma read_values_mid long qs : forall before pre,
  Forall valid_param qs ->
  Z.of_nat (length before) + Z.of_nat (length qs) <= 65535 ->
  long_data_matches long (before ++ qs) ->
  read_values (pre ++ concat (map encode_param qs)) (bitmap (map is_null (before ++ qs))) long
    (map param_type (before ++ qs)) (length qs) (Z.of_nat (length before)) (len pre) =
  Ret (map param_value qs, len pre + len (concat (map encode_param qs))).
Proof.
  induction qs as [|q qs IH]; intros before pre Hv Hlen Hlong.
  { cbn. do 2 f_equal. change (len []) with 0. lia. }
  inversion Hv as [|? ? Hq Hqs]; subst. cbn [length] in Hlen.
  assert (Hat : (before ++ q :: qs) !! length before = Some q) by (by rewrite list_lookup_middle).
  cbn [length read_values].
  rewrite (null_bit_bitmap _ _ (is_null q)).
  2: { change (map ?f ?l) with (f <$> l). by rewrite list_lookup_fmap, Hat. }
  cbn [mbind outcome_bind map concat].
  set (tail := concat (map encode_param qs)) in *.
  assert (Hstep : (if is_null q then Ret (VNil, len pre) else
      match long !! u16 (Z.of_nat (length before)) with
      | Some bs => Ret (VBytes bs, len pre)
      | None =>
          t ← go_index (map param_type (before ++ q :: qs)) (Z.to_nat (Z.of_nat (length before)));
          map_fail (parameter_error (Z.of_nat (length before)))
            (decodePreparedParameter (pre ++ encode_param q ++ tail) (len pre) t)
      end) = Ret (param_value q, len pre + len (encode_param q))).
  { specialize (Hlong _ _ Hat). rewrite u16_index by lia. rewrite Nat2Z.id.
    assert (Ht : go_index (E := string) (map param_type (before ++ q :: qs)) (length before)
      = Ret (param_type q)).
    { unfold go_index. change (map ?f ?l) with (f <$> l). by rewrite list_lookup_fmap, Hat. }
    rewrite Ht. cbn [mbind outcome_bind]. pose proof (decode_param_mid pre tail q) as Hd.
    destruct q; cbn [is_null]; try (rewrite Hlong); try (by rewrite Hd by done).
    - change (len (encode_param PNull)) with 0. by rewrite Z.add_0_r.
    - change (len (encode_param (PLongData bs))) with 0. by rewrite Z.add_0_r. }
  rewrite Hstep. cbn [mbind outcome_bind].
  rewrite <- len_app, (app_assoc pre).
  replace (Z.of_nat (length before) + 1) with (Z.of_nat (length (before ++ [q])))
    by (rewrite length_app; cbn [length]; lia).
  replace (before ++ q :: qs) with ((before ++ [q]) ++ qs) by (by rewrite <- app_assoc).
  unfold tail. rewrite IH; [|done|rewrite length_app; cbn [length]; lia|by rewrite <- app_assoc].
  cbn [mbind outcome_bind]. apply f_equal, f_equal2; [done|]. unfold tail. rewrite !len_app. lia.
Qed.

(** A statement that is ready for the packet. *)
Record ready (p : parameters) (send_types : bool) (params : list param) : Prop := {
  ready_some : params <> [];
  ready_count : parameterCount p = Z.of_nat (length params);
  ready_limit : Z.of_nat (length params) <= 65535;
  ready_slots : length (parameterTypes p) = length params;
  ready_types : send_types = false -> parameterTypes p = map param_type params;
  ready_long : long_data_matches (longData p) params;
  ready_valid : Forall valid_param params }.

Lemma bitmap_bytes (n : nat) : (Z.of_nat n + 7) / 8 = Z.of_nat ((n + 7) / 8).
Proof. rewrite Nat2Z.inj_div, Nat2Z.inj_add. done. Qed.

Lemma known_types params :
  Forall valid_param params -> existsb (fun t => fieldType t =? 0) (map param_type params) = false.
Proof.
  induction 1 as [|q qs Hq _ IH]; [done|]. cbn [map existsb]. rewrite IH, orb_false_r.
  pose proof (type_range q Hq). apply Z.eqb_neq. lia.
Qed.

Lemma finish_mid long pre params :
  Z.of_nat (length params) <= 65535 ->
  long_data_matches long params -> Forall valid_param params ->
  ('(arguments, position) ←
     read_values (pre ++ concat (map encode_param params)) (bitmap (map is_null params)) long
       (map param_type params) (length params) 0 (len pre);
   if negb (position =? len (pre ++ concat (map encode_param params))) then
     Fail "prepared execute contains trailing value bytes"%string
   else Ret arguments) = Ret (map param_value params).
Proof.
  intros Hl Hlong Hv. pose proof (read_values_mid long params [] pre) as H. cbn [app length] in H.
  change (Z.of_nat 0) with 0 in H. rewrite H by (done || lia).
  cbn [mbind outcome_bind]. by rewrite len_app, Z.eqb_refl.
Qed.


(** Seven parameters of different kinds, with types. *)
Definition sample_params : list param :=
  [PInt ColumnTypeTiny false (-2); PNull; PLongData (bytes_of "blob"); PBytes ColumnTypeVarString (bytes_of "x");
   PTimestamp 2024 2 29 23 59 58 250000; PTimeMicros true 1 2 3 4 5; PInt ColumnTypeLongLong true (2 ^ 64 - 1);
   PZeroDate; PNull].

Definition sample_statement : parameters :=
  mkParameters 9 (repeat (mkType 0 false) 9) {[ 2 := bytes_of "blob" ]}.


End ExecuteRoundtrip.
