(* ===== verification/PreparedRows.v ===== *)
(** * Binary result rows and the parameter counter
      ([internal/gateway/prepared.go])

    The encoder of rows of a prepared SELECT and the counter of placeholders.
    The reference forms are the bitmap and the value encodings of
    [ExecuteRoundtrip], so the theorems say what a client reads. *)

From stdpp Require Import base list numbers strings option gmap.
From coqutil Require Import Byte.
From Stdlib Require Import ZArith Lia Ascii.
From S2P Require Import Prelude GoStrings GoStrconv GoTime Classify Response PreparedCodec ExecuteRoundtrip.
Import GoStrconv GoTime Response Values Arguments Bitmap ExecuteRoundtrip.

Module PreparedRows.
Local Open Scope Z_scope.
Local Open Scope list_scope.

Inductive row_error := BadNumber (e : num_error) | BadTemporal (what : string).

(** ** TIME columns *)

(** [strings.SplitN(s, sep, 2)]: the part before the first [sep] and, if there
    is one, the part after it. *)
Definition split_two (sep : ascii) (s : string) : string * option string :=
  match index_byte sep s with
  | Some i => (str_take i s, Some (str_drop (S i) s))
  | None => (s, None)
  end.

Definition encodePreparedTimeResult (value : string) : outcome row_error (list byte) :=
  let negative := has_prefix "-" value in
  let value := trim_prefix "-" value in
  let '(first, rest) := split_two (char 46) value in
  match split_byte (char 58) first with
  | [c0; c1; c2] =>
      hours ← map_fail BadNumber (ParseUint 32 c0);
      minute ← map_fail BadNumber (ParseUint 8 c1);
      second ← map_fail BadNumber (ParseUint 8 c2);
      microseconds ←
        match rest with
        | Some fraction =>
            map_fail BadNumber (ParseUint 32 (str_take 6 (String.append fraction "000000")))
        | None => Ret 0
        end;
      let length_ := if negb (microseconds =? 0) then 12 else 8 in
      Ret ([zbyte length_; zbyte (if (negative : bool) then 1 else 0)] ++ le_bytes 4 (hours / 24) ++
           [zbyte (hours mod 24); zbyte minute; zbyte second] ++
           (if length_ =? 12 then le_bytes 4 microseconds else []))
  | _ => Fail (BadTemporal "invalid TIME result")
  end.

Section Rows.
Context {F : FloatText} {U : UnicodeCase}.

(** ** DATE, DATETIME and TIMESTAMP columns *)

Definition result_time (v : value) : outcome row_error Z :=
  match v with
  | VTime t => Ret t
  | _ =>
      let text := match v with VBytes bs => string_of bs | _ => sprint v end in
      match parse_date text with
      | Some t => Ret t
      | None =>
          match parse_datetime text with
          | Some t => Ret t
          | None => Fail (BadTemporal "cannot parse")
          end
      end
  end.

Definition encodePreparedDateTimeResult (v : value) (fieldType : Z) : outcome row_error (list byte) :=
  parsed ← result_time v;
  if fieldType =? ColumnTypeDate then
    Ret ([zbyte 4] ++ le_bytes 2 (Year parsed) ++ [zbyte (Month parsed); zbyte (Day parsed)])
  else
    let fields := le_bytes 2 (Year parsed) ++ [zbyte (Month parsed); zbyte (Day parsed);
      zbyte (Hour parsed); zbyte (Minute parsed); zbyte (Second parsed)] in
    if negb (Nanosecond parsed =? 0) then
      Ret ([zbyte 11] ++ fields ++ le_bytes 4 (Nanosecond parsed / 1000))
    else Ret ([zbyte 7] ++ fields).

(** ** One value *)

Definition is_unsigned (definition : ColumnDefinition) : bool :=
  negb (Z.land (col_Flags definition) ColumnFlagUnsigned =? 0).

(** An integer of [n] bytes from its text. *)
Definition encode_integer (n : nat) (text : string) (definition : ColumnDefinition)
  : outcome row_error (list byte) :=
  let bits := 8 * Z.of_nat n in
  parsed ← map_fail BadNumber
    (if is_unsigned definition then ParseUint bits text else ParseInt bits text);
  Ret (le_bytes n parsed).

Definition encodePreparedResultValue (v : value) (definition : ColumnDefinition)
    (databaseType : string) : outcome row_error (list byte) :=
  let text := (textValue v databaseType).1 in
  let type := col_Type definition in
  if type =? ColumnTypeTiny then encode_integer 1 (string_of text) definition
  else if one_of type [ColumnTypeShort; ColumnTypeYear] then
    encode_integer 2 (string_of text) definition
  else if one_of type [ColumnTypeLong; ColumnTypeInt24] then
    encode_integer 4 (string_of text) definition
  else if type =? ColumnTypeLongLong then encode_integer 8 (string_of text) definition
  else if type =? ColumnTypeFloat then
    bits ← map_fail BadNumber (ParseFloat 32 (string_of text)); Ret (le_bytes 4 bits)
  else if type =? ColumnTypeDouble then
    bits ← map_fail BadNumber (ParseFloat 64 (string_of text)); Ret (le_bytes 8 bits)
  else if one_of type [ColumnTypeDate; ColumnTypeDateTime; ColumnTypeTimestamp] then
    encodePreparedDateTimeResult v type
  else if type =? ColumnTypeTime then encodePreparedTimeResult (string_of text)
  else Ret (lenenc_bytes text).

(** ** One row *)

(** [payload[1+bit/8] |= 1 << uint(bit%8)] *)
Definition set_bit (payload : list byte) (bit : nat) : outcome row_error (list byte) :=
  let k := (1 + bit / 8)%nat in
  b ← go_index payload k;
  Ret (<[k := zbyte (Z.lor (bval b) (Z.shiftl 1 (Z.of_nat bit mod 8)))]> payload).

Fixpoint row_loop (payload : list byte) (index : nat) (values : list value)
    (definitions : list ColumnDefinition) (types : list string) : outcome row_error (list byte) :=
  match values with
  | [] => Ret payload
  | v :: values =>
      payload ←
        match v with
        | VNil => set_bit payload (index + 2)
        | _ =>
            definition ← go_index definitions index;
            databaseType ← go_index types index;
            encoded ← encodePreparedResultValue v definition databaseType;
            Ret (payload ++ encoded)
        end;
      row_loop payload (S index) values definitions types
  end.

Definition binaryPreparedRow (values : list value) (definitions : list ColumnDefinition)
    (types : list string) : outcome row_error (list byte) :=
  let nullBytes := ((length values + 7 + 2) / 8)%nat in
  row_loop (replicate (1 + nullBytes) (zbyte 0)) 0 values definitions types.

End Rows.

(** ** Placeholders *)

Record counter := mkCounter { count : Z; quote : option ascii; escaped : bool }.

Definition count_step (c : counter) (current : ascii) : counter :=
  match quote c with
  | Some q =>
      if escaped c then mkCounter (count c) (quote c) false
      else if Ascii.eqb current (char 92) && negb (Ascii.eqb q (char 96)) then
        mkCounter (count c) (quote c) true
      else if Ascii.eqb current q then mkCounter (count c) None (escaped c)
      else c
  | None =>
      if Ascii.eqb current (char 39) || Ascii.eqb current (char 34) || Ascii.eqb current (char 96)
      then mkCounter (count c) (Some current) (escaped c)
      else if Ascii.eqb current (char 63) then mkCounter (count c + 1) None (escaped c)
      else c
  end.

Fixpoint count_loop (c : counter) (query : string) : counter :=
  match query with
  | EmptyString => c
  | String current query => count_loop (count_step c current) query
  end.

Definition countPreparedParameters (query : string) : Z :=
  count (count_loop (mkCounter 0 None false) query).

Example count_quoted : countPreparedParameters "SELECT '?' , `a?` , ? FROM t WHERE b = '\'?' AND c = ?" = 2.
Proof. reflexivity. Qed.

(** ** The null bitmap of a row *)

Lemma bits_value_insert c i :
  (i < length c)%nat -> bits_value (<[i:=true]> c) = Z.lor (bits_value c) (Z.shiftl 1 (Z.of_nat i)).
Proof.
  intros Hi. apply Z.bits_inj'. intros n Hn. rewrite Z.lor_spec, Z.shiftl_1_l, Z.pow2_bits_eqb by lia.
  rewrite <- (Z2Nat.id n) by done. rewrite !bits_value_testbit.
  destruct (Z.eqb_spec (Z.of_nat i) (Z.of_nat (Z.to_nat n))) as [E|E].
  - apply Nat2Z.inj in E as ->. rewrite list_lookup_insert_eq, orb_true_r by done. done.
  - rewrite list_lookup_insert_ne, orb_false_r by congruence. done.
Qed.

Definition chunk (l : list bool) (k : nat) : list bool := take 8 (drop (8 * k) l).

Lemma chunk_lookup l k i :
  chunk l k !! i = if (i <? 8)%nat then l !! (8 * k + i)%nat else None.
Proof.
  unfold chunk. destruct (Nat.ltb_spec i 8).
  - by rewrite lookup_take_lt, lookup_drop.
  - by rewrite lookup_take_ge.
Qed.

Lemma chunk_insert l j k :
  (j < length l)%nat ->
  chunk (<[j:=true]> l) k =
  if decide (k = j / 8)%nat then <[(j mod 8)%nat := true]> (chunk l k) else chunk l k.
Proof.
  intros Hj. apply list_eq. intros i. pose proof (Nat.div_mod j 8 ltac:(lia)) as Hdm.
  pose proof (Nat.mod_upper_bound j 8 ltac:(lia)) as Hm.
  rewrite chunk_lookup. case_decide as Hk.
  - subst k. destruct (decide (i = j mod 8)%nat) as [->|Hi].
    + rewrite (proj2 (Nat.ltb_lt _ 8)), <- Hdm, list_lookup_insert_eq by done.
      rewrite list_lookup_insert_eq; [done|].
      apply lookup_lt_is_Some. rewrite chunk_lookup, (proj2 (Nat.ltb_lt _ 8)), <- Hdm by done.
      by apply lookup_lt_is_Some.
    + rewrite (list_lookup_insert_ne (chunk _ _)) by done. rewrite chunk_lookup.
      destruct (Nat.ltb_spec i 8); [|done]. rewrite list_lookup_insert_ne by lia. done.
  - rewrite chunk_lookup. destruct (Nat.ltb_spec i 8); [|done].
    rewrite list_lookup_insert_ne; [done|]. intros ->. apply Hk.
    rewrite Nat.mul_comm, Nat.div_add_l, Nat.div_small by lia. lia.
Qed.

Lemma byte_index_lt (j n : nat) : (j < n)%nat -> (j / 8 < (n + 7) / 8)%nat.
Proof.
  intros Hj. apply Nat.Div0.div_lt_upper_bound. pose proof (Nat.div_mod (n + 7) 8).
  pose proof (Nat.mod_upper_bound (n + 7) 8). lia.
Qed.

Lemma bitmap_insert l j :
  (j < length l)%nat ->
  bitmap (<[j:=true]> l) =
  <[(j / 8)%nat := zbyte (Z.lor (bits_value (chunk l (j / 8))) (Z.shiftl 1 (Z.of_nat j mod 8)))]> (bitmap l).
Proof.
  intros Hj. pose proof (byte_index_lt j (length l) Hj) as Hb.
  apply list_eq. intros k. destruct (decide (k < (length l + 7) / 8)%nat) as [Hk|Hk].
  - rewrite bitmap_lookup by (by rewrite length_insert). fold (chunk (<[j:=true]> l) k).
    rewrite chunk_insert by done. case_decide as E.
    + subst k. rewrite list_lookup_insert_eq by (by rewrite bitmap_length).
      rewrite bits_value_insert, Nat2Z.inj_mod; [done|].
      unfold chunk. rewrite length_take, length_drop. pose proof (Nat.div_mod j 8).
      pose proof (Nat.mod_upper_bound j 8). lia.
    + rewrite list_lookup_insert_ne, bitmap_lookup by (done || lia). done.
  - rewrite !lookup_ge_None_2; [done| |]; rewrite ?length_insert, bitmap_length, ?length_insert; lia.
Qed.

Lemma bits_value_small l k : 0 <= bits_value (chunk l k) < 256.
Proof.
  pose proof (bits_value_range (chunk l k)) as H. split; [lia|].
  eapply Z.lt_le_trans; [apply H|]. change 256 with (2 ^ 8). apply Z.pow_le_mono_r; [lia|].
  unfold chunk. rewrite length_take. lia.
Qed.

(** Setting a bit of the header of a row. *)
Lemma set_bit_bitmap l j rest :
  (j < length l)%nat ->
  set_bit (zbyte 0 :: bitmap l ++ rest) j = Ret (zbyte 0 :: bitmap (<[j:=true]> l) ++ rest).
Proof.
  intros Hj. pose proof (byte_index_lt j (length l) Hj) as Hb. unfold set_bit. cbv zeta.
  change (1 + j / 8)%nat with (S (j / 8)).
  change (go_index (zbyte 0 :: ?l) (S ?k)) with (go_index (E := row_error) l k). unfold go_index.
  rewrite lookup_app_l, bitmap_lookup by (rewrite ?bitmap_length; done). cbn [mbind outcome_bind].
  fold (chunk l (j / 8)). rewrite bval_zbyte_small by apply bits_value_small.
  f_equal. rewrite bitmap_insert by done. change (<[S ?k := ?x]> (?a :: ?m)) with (a :: <[k := x]> m).
  f_equal. apply insert_app_l. by rewrite bitmap_length.
Qed.

Lemma bits_value_false l : Forall (fun b => b = false) l -> bits_value l = 0.
Proof. induction 1 as [|b l -> _ IH]; [done|]. change (0 + 2 * bits_value l = 0). lia. Qed.

Lemma bitmap_false n : bitmap (replicate n false) = replicate ((n + 7) / 8) (zbyte 0).
Proof.
  apply list_eq. intros k. destruct (decide (k < (n + 7) / 8)%nat) as [Hk|Hk].
  - rewrite bitmap_lookup by (by rewrite length_replicate).
    rewrite bits_value_false.
    + symmetry. by apply lookup_replicate_2.
    + apply Forall_take, Forall_drop, Forall_replicate. done.
  - rewrite !lookup_ge_None_2; [done| |]; rewrite ?length_replicate, ?bitmap_length, ?length_replicate; lia.
Qed.

Definition is_nil (v : value) : bool := match v with VNil => true | _ => false end.

Section RowLayout.
Context {F : FloatText} {U : UnicodeCase}.

(** Reference: the non-NULL values one after the other. *)
Fixpoint row_values (index : nat) (values : list value) (definitions : list ColumnDefinition)
    (types : list string) : outcome row_error (list byte) :=
  match values with
  | [] => Ret []
  | VNil :: values => row_values (S index) values definitions types
  | v :: values =>
      definition ← go_index definitions index;
      databaseType ← go_index types index;
      encoded ← encodePreparedResultValue v definition databaseType;
      rest ← row_values (S index) values definitions types;
      Ret (encoded ++ rest)
  end.

Lemma insert_middle (bits : list bool) n :
  <[length bits := true]> (bits ++ replicate (S n) false) = (bits ++ [true]) ++ replicate n false.
Proof.
  rewrite insert_app_r_alt, Nat.sub_diag by lia. cbn. by rewrite <- app_assoc.
Qed.

Lemma row_loop_layout values definitions types : forall index bits acc,
  length bits = (index + 2)%nat ->
  row_loop (zbyte 0 :: bitmap (bits ++ replicate (length values) false) ++ acc) index values
    definitions types =
  body ← row_values index values definitions types;
  Ret (zbyte 0 :: bitmap (bits ++ map is_nil values) ++ acc ++ body).
Proof.
  induction values as [|v values IH]; intros index bits acc Hl.
  { cbn. by rewrite !app_nil_r. }
  cbn [length row_loop map].
  assert (Hstep : forall b acc', b = is_nil v ->
    row_loop (zbyte 0 :: bitmap ((bits ++ [b]) ++ replicate (length values) false) ++ acc') (S index)
      values definitions types =
    body ← row_values (S index) values definitions types;
    Ret (zbyte 0 :: bitmap (bits ++ is_nil v :: map is_nil values) ++ acc' ++ body)).
  { intros b acc' ->. rewrite IH by (rewrite length_app, Hl; cbn; lia). by rewrite <- app_assoc. }
  assert (Hother : v <> VNil ->
    (payload ←
       (definition ← go_index definitions index;
        databaseType ← go_index types index;
        encoded ← encodePreparedResultValue v definition databaseType;
        Ret ((zbyte 0 :: bitmap (bits ++ replicate (S (length values)) false) ++ acc) ++ encoded));
     row_loop payload (S index) values definitions types) =
    body ← (definition ← go_index definitions index;
            databaseType ← go_index types index;
            encoded ← encodePreparedResultValue v definition databaseType;
            rest ← row_values (S index) values definitions types;
            Ret (encoded ++ rest));
    Ret (zbyte 0 :: bitmap (bits ++ is_nil v :: map is_nil values) ++ acc ++ body)).
  { intros Hv. destruct (go_index definitions index) as [d| |]; [|done..]. cbn [mbind outcome_bind].
    destruct (go_index types index) as [t| |]; [|done..]. cbn [mbind outcome_bind].
    destruct (encodePreparedResultValue v d t) as [e| |]; [|done..]. cbn [mbind outcome_bind].
    change (replicate (S ?n) false) with ([false] ++ replicate n false). rewrite (app_assoc bits).
    cbn [app]. rewrite <- (app_assoc (bitmap _)), (Hstep false) by (by destruct v).
    destruct (row_values _ _ _ _); [|done..]. cbn [mbind outcome_bind]. by rewrite <- app_assoc. }
  destruct v; try (by apply Hother). clear Hother. cbn [row_values].
  rewrite <- Hl, set_bit_bitmap by (rewrite length_app, length_replicate; lia).
  cbn [mbind outcome_bind]. rewrite insert_middle. by apply Hstep.
Qed.

(** The encoder panics only if the parser of floats does. *)
Lemma parse_uint_no_panic bits s : no_panic (ParseUint bits s).
Proof. unfold ParseUint. repeat case_match; done. Qed.

Lemma parse_int_no_panic bits s : no_panic (ParseInt bits s).
Proof.
  unfold ParseInt. repeat case_match; try done.
  all: apply bind_no_panic; [apply parse_uint_no_panic|]; intros; repeat case_match; done.
Qed.

Lemma encode_time_no_panic text : no_panic (encodePreparedTimeResult text).
Proof.
  unfold encodePreparedTimeResult. destruct (split_two _ _) as [first fraction].
  destruct (split_byte _ first) as [|c0 [|c1 [|c2 [|? ?]]]]; try done.
  do 3 (apply bind_no_panic; [apply map_fail_no_panic, parse_uint_no_panic|intros ? _]).
  apply bind_no_panic; [|done]. destruct fraction; [|done].
  apply map_fail_no_panic, parse_uint_no_panic.
Qed.

Lemma encode_datetime_no_panic v type : no_panic (encodePreparedDateTimeResult v type).
Proof.
  apply bind_no_panic; [unfold result_time; repeat case_match; done|].
  intros parsed _. cbv zeta. repeat case_match; done.
Qed.

Lemma encode_integer_no_panic n text definition : no_panic (encode_integer n text definition).
Proof.
  apply bind_no_panic; [|done]. apply map_fail_no_panic.
  case_match; [apply parse_uint_no_panic|apply parse_int_no_panic].
Qed.

Lemma encode_value_no_panic v definition databaseType :
  (forall bits s, no_panic (ParseFloat bits s)) ->
  no_panic (encodePreparedResultValue v definition databaseType).
Proof.
  intros Hf. unfold encodePreparedResultValue. cbv zeta.
  repeat case_match;
    first [apply encode_integer_no_panic | apply encode_datetime_no_panic | apply encode_time_no_panic
      | apply bind_no_panic; [apply map_fail_no_panic, Hf|done] | done].
Qed.

Lemma row_values_no_panic definitions types : (forall bits s, no_panic (ParseFloat bits s)) ->
  length types = length definitions ->
  forall values index, (index + length values <= length definitions)%nat ->
  no_panic (row_values index values definitions types).
Proof.
  intros Hf Hl. induction values as [|v values IH]; intros index Hi; [done|]. cbn [length] in Hi.
  assert (Hrest : no_panic (row_values (S index) values definitions types)) by (apply IH; lia).
  destruct (go_index_ok (E := row_error) definitions index) as (d & Hd); [lia|].
  destruct (go_index_ok (E := row_error) types index) as (t & Ht); [lia|].
  cbn [row_values]. destruct v; [exact Hrest|..]; rewrite Hd, Ht, !bind_ret;
    (apply bind_no_panic; [by apply encode_value_no_panic|]); intros e _;
    (apply bind_no_panic; [exact Hrest|done]).
Qed.

Lemma binary_row_rows values definitions types :
  binaryPreparedRow values definitions types =
  body ← row_values 0 values definitions types;
  Ret (zbyte 0 :: bitmap ([false; false] ++ map is_nil values) ++ body).
Proof.
  unfold binaryPreparedRow. cbv zeta.
  assert (Hinit : replicate (1 + (length values + 7 + 2) / 8) (zbyte 0) =
    zbyte 0 :: bitmap ([false; false] ++ replicate (length values) false) ++ []).
  { change ([false; false] ++ replicate ?n false) with (replicate (S (S n)) false).
    rewrite bitmap_false, app_nil_r. cbn [replicate Nat.add]. do 3 f_equal. lia. }
  rewrite Hinit, (row_loop_layout values definitions types 0 [false; false] []) by done. done.
Qed.

Lemma binary_row_no_panic values definitions types : (forall bits s, no_panic (ParseFloat bits s)) ->
  length values = length definitions -> length types = length definitions ->
  no_panic (binaryPreparedRow values definitions types).
Proof.
  intros Hf Hv Ht. rewrite binary_row_rows. apply bind_no_panic; [|done].
  apply row_values_no_panic; [done|done|lia].
Qed.

(** A binary row is laid out as the protocol demands: a zero byte, a null
    bitmap of (columns + 7 + 2) / 8 bytes whose bit [i + 2] is set exactly for
    NULL column [i] and whose two first bits are clear, then the encodings of
    the other values in column order; and the row fails exactly when one of
    these encodings does. *)
Theorem binary_row_layout (values : list value) (definitions : list ColumnDefinition)
    (types : list string) :
  binaryPreparedRow values definitions types =
  body ← row_values 0 values definitions types;
  Ret (zbyte 0 :: bitmap ([false; false] ++ map is_nil values) ++ body).
Proof. apply binary_row_rows. Qed.

(** ** Integer columns *)

Definition integer_width (type : Z) : option nat := ExecuteRoundtrip.width type.

Lemma encode_integer_type v definition databaseType w :
  integer_width (col_Type definition) = Some w ->
  encodePreparedResultValue v definition databaseType =
  encode_integer w (string_of (textValue v databaseType).1) definition.
Proof.
  unfold integer_width, width, encodePreparedResultValue. cbv zeta.
  destruct (col_Type definition =? ColumnTypeTiny); [by intros [= <-]|].
  destruct (one_of _ _); [by intros [= <-]|]. destruct (one_of _ _); [by intros [= <-]|].
  destruct (col_Type definition =? ColumnTypeLongLong); [by intros [= <-]|done].
Qed.

(** An integer column never loses a digit: an integer that fits the column's
    width and sign is sent as its bytes in little-endian two's complement, and
    whatever text an integer column is sent from, the bytes that are sent decode
    to a number in the column's range which is the value of that text. *)
Theorem integer_column_exact (definition : ColumnDefinition) (databaseType : string) (w : nat)
    (Hw : integer_width (col_Type definition) = Some w) :
  (forall z, int_fits w (is_unsigned definition) z ->
     encodePreparedResultValue (if is_unsigned definition then VUint z else VInt z)
       definition databaseType = Ret (le_bytes w z)) /\
  (forall v bs, encodePreparedResultValue v definition databaseType = Ret bs ->
     exists z, int_fits w (is_unsigned definition) z /\ bs = le_bytes w z /\
       (if is_unsigned definition then ParseUint else ParseInt) (8 * Z.of_nat w)
         (string_of (textValue v databaseType).1) = Ret z /\
       decode_integer bs 0 (Z.of_nat w) (is_unsigned definition) =
         Ret (if is_unsigned definition then VUint z else VInt z, Z.of_nat w)).
Proof.
  pose proof (width_pos _ _ Hw) as Hpos. split.
  - intros z Hz. rewrite (encode_integer_type _ _ _ w Hw). unfold encode_integer, int_fits in *. cbv zeta.
    destruct (is_unsigned definition); cbn [textValue fst sprint]; rewrite string_of_bytes_of.
    + by rewrite parse_format_uint.
    + by rewrite parse_format_int by (done || lia).
  - intros v bs H. rewrite (encode_integer_type _ _ _ w Hw) in H. unfold encode_integer in H.
    apply bind_ret_inv in H as (z & Hz & [= <-]). exists z.
    assert (Hparse : (if is_unsigned definition then ParseUint else ParseInt) (8 * Z.of_nat w)
      (string_of (textValue v databaseType).1) = Ret z).
    { destruct (is_unsigned definition);
        [destruct (ParseUint _ _)|destruct (ParseInt _ _)]; cbn in Hz; congruence. }
    assert (Hfit : int_fits w (is_unsigned definition) z).
    { unfold int_fits. destruct (is_unsigned definition);
        [by apply parse_uint_range in Hparse|apply parse_int_range in Hparse; lia]. }
    split_and!; try done.
    pose proof (decode_integer_mid [] [] w (is_unsigned definition) z Hpos Hfit) as Hd.
    by rewrite app_nil_r in Hd.
Qed.

(** ** Temporal columns *)

(** The instant cut to whole microseconds, and to its day. *)
Definition to_micros (t : Z) : Z := t - t mod 1000.
Definition to_day (t : Z) : Z := t / day_ns * day_ns.

Lemma date_plus y m d hh mm ss ns : Date y m d hh mm ss ns = Date y m d hh mm ss 0 + ns.
Proof. unfold Date. lia. Qed.

Lemma date_day t : Date (Year t) (Month t) (Day t) 0 0 0 0 = to_day t.
Proof.
  unfold Date, Year, Month, Day, civil. pose proof (civil_days (t / day_ns)) as H.
  destruct (civil_from_days _) as [[y m] d]. destruct H as (He & Hm & Hd).
  rewrite Z.div_small, Z.mod_small by lia. replace (m - 1 + 1) with m by lia.
  rewrite !Z.add_0_r, days_from_civil_day, He. unfold to_day. lia.
Qed.

Lemma date_micros t :
  Date (Year t) (Month t) (Day t) (Hour t) (Minute t) (Second t) (Nanosecond t / 1000 * 1000) = to_micros t.
Proof.
  pose proof (date_of_fields t) as H. rewrite date_plus in H |- *. unfold to_micros.
  assert (Hm : t mod 1000 = Nanosecond t mod 1000).
  { unfold Nanosecond, second_ns. change (10 ^ 9) with 1000000000. divisions. }
  pose proof (Z.div_mod (Nanosecond t) 1000). lia.
Qed.

Definition wire_year (t : Z) : Prop := 0 <= Year t < 2 ^ 16.

(** A temporal column survives the binary protocol: for every instant in a
    16-bit year, the bytes sent for a DATETIME or TIMESTAMP column decode to the
    same instant cut to microseconds, and those of a DATE column to its day,
    whatever follows them in the row. *)
Theorem datetime_column_roundtrip (t type : Z) (rest : list byte) (Hy : wire_year t) :
  exists bs, encodePreparedDateTimeResult (VTime t) type = Ret bs /\
    decodePreparedDateTime (bs ++ rest) 0 =
      Ret (VTime (if type =? ColumnTypeDate then to_day t else to_micros t), len bs).
Proof.
  destruct (field_ranges t) as (Hm & Hd & Hhh & Hmm & Hss & Hns). unfold wire_year in Hy.
  unfold encodePreparedDateTimeResult. cbn [result_time mbind outcome_bind].
  destruct (type =? ColumnTypeDate).
  - eexists. split; [reflexivity|].
    pose proof (decode_date_mid [] rest (PDate (Year t) (Month t) (Day t)) I) as H.
    cbn [encode_param param_value] in H. rewrite date_day in H.
    apply H. unfold valid_param, word_field, byte_field. lia.
  - cbv zeta. destruct (Z.eqb_spec (Nanosecond t) 0) as [H0|H0]; cbn [negb].
    + eexists. split; [reflexivity|].
      pose proof (decode_date_mid [] rest
        (PDateTime (Year t) (Month t) (Day t) (Hour t) (Minute t) (Second t)) I) as H.
      cbn [encode_param param_value] in H.
      pose proof (date_micros t) as Ht. rewrite H0 in Ht. change (0 / 1000 * 1000) with 0 in Ht.
      rewrite Ht in H. apply H. unfold valid_param, word_field, byte_field. lia.
    + eexists. split; [reflexivity|].
      pose proof (decode_date_mid [] rest
        (PTimestamp (Year t) (Month t) (Day t) (Hour t) (Minute t) (Second t) (Nanosecond t / 1000)) I) as H.
      cbn [encode_param param_value] in H. rewrite date_micros in H.
      rewrite <- app_assoc. cbn [app] in *. rewrite <- app_assoc.
      apply H. unfold valid_param, word_field, byte_field.
      assert (0 <= Nanosecond t / 1000 < 2 ^ 32) by (clear - Hns; divisions). lia.
Qed.

End RowLayout.

(** ** The TIME round trip *)

Lemma split_two_some sep a b :
  index_byte sep a = None -> split_two sep (a ++ String sep b)%string = (a, Some b).
Proof.
  intros Ha. unfold split_two. rewrite index_byte_append by done. cbn [index_byte].
  rewrite Ascii.eqb_refl. cbn [fmap option_fmap option_map]. rewrite Nat.add_0_r, str_take_append.
  do 2 f_equal. clear Ha. induction a as [|c a IH]; [done|]. rewrite append_cons. exact IH.
Qed.

Lemma split_two_none sep a : index_byte sep a = None -> split_two sep a = (a, None).
Proof. unfold split_two. by intros ->. Qed.

(** HH:MM:SS *)
Definition clock (h m s : Z) : string := (pad_uint 2 h ++ ":" ++ pad_uint 2 m ++ ":" ++ pad_uint 2 s)%string.

Lemma no_byte_append c a b :
  index_byte c a = None -> index_byte c b = None -> index_byte c (a ++ b)%string = None.
Proof. intros Ha Hb. by rewrite index_byte_append, Hb. Qed.

Lemma clock_no_dot h m s : 0 <= h -> 0 <= m -> 0 <= s -> index_byte (char 46) (clock h m s) = None.
Proof.
  intros. unfold clock. do 2 (apply no_byte_append; [by apply pad_uint_no|apply no_byte_append; [done|]]).
  by apply pad_uint_no.
Qed.

Lemma clock_split h m s :
  0 <= h -> 0 <= m -> 0 <= s ->
  split_byte (char 58) (clock h m s) = [pad_uint 2 h; pad_uint 2 m; pad_uint 2 s].
Proof.
  intros. unfold clock. change (":" ++ pad_uint 2 m ++ ?x)%string with (String (char 58) (pad_uint 2 m ++ x)).
  change (":" ++ pad_uint 2 s)%string with (String (char 58) (pad_uint 2 s)).
  rewrite !split_byte_append by (by apply pad_uint_no). by rewrite split_byte_one by (by apply pad_uint_no).
Qed.

(** A TIME text without its sign. *)
Definition unsigned_time (h m s : Z) (micros : option Z) : string :=
  (clock h m s ++ match micros with Some us => "." ++ pad_uint 6 us | None => "" end)%string.

Lemma time_text_sign neg days hh mm ss micros :
  time_text neg days hh mm ss micros =
  if neg then String (char 45) (unsigned_time (days * 24 + hh) mm ss micros)
  else unsigned_time (days * 24 + hh) mm ss micros.
Proof.
  unfold time_text, unsigned_time, clock. rewrite <- !append_assoc. by destruct neg.
Qed.

Lemma sign_parsed (neg : bool) u :
  has_prefix "-" u = false ->
  has_prefix "-" (if neg then String (char 45) u else u) = neg /\
  trim_prefix "-" (if neg then String (char 45) u else u) = u.
Proof.
  intros Hu. unfold trim_prefix. destruct neg; [|by rewrite Hu].
  change (String (char 45) u) with ("-" ++ u)%string. rewrite has_prefix_app. split; [done|].
  apply (str_drop_app "-"%string).
Qed.

(** The parts of a TIME text. *)
Lemma encode_time_parts (neg : bool) (h m s : Z) (micros : option Z) :
  0 <= h < 2 ^ 32 -> 0 <= m < 256 -> 0 <= s < 256 ->
  match micros with Some us => 0 <= us < 10 ^ 6 | None => True end ->
  let us := match micros with Some us => us | None => 0 end in
  let u := unsigned_time h m s micros in
  encodePreparedTimeResult (if neg then String (char 45) u else u) =
  Ret ([zbyte (if us =? 0 then 8 else 12); sign_byte neg] ++ le_bytes 4 (h / 24) ++
       [zbyte (h mod 24); zbyte m; zbyte s] ++ (if us =? 0 then [] else le_bytes 4 us)).
Proof.
  intros Hh Hm Hs Hus us u. unfold encodePreparedTimeResult. cbv zeta.
  assert (Hu : has_prefix "-" u = false).
  { unfold u, unsigned_time, clock. rewrite append_assoc. apply pad_uint_no_sign. lia. }
  destruct (sign_parsed neg u Hu) as [-> ->].
  assert (Hsplit : split_two (char 46) u =
    (clock h m s, match micros with Some us => Some (pad_uint 6 us) | None => None end)).
  { unfold u, unsigned_time. pose proof (clock_no_dot h m s) as Hdot. destruct micros as [k|].
    - apply (split_two_some (char 46)). apply Hdot; lia.
    - rewrite append_nil_r. apply split_two_none, Hdot; lia. }
  rewrite Hsplit, clock_split by lia. rewrite !parse_pad by lia. cbn [map_fail mbind outcome_bind].
  assert (Hfrac : (match match micros with Some us => Some (pad_uint 6 us) | None => None end with
     | Some fraction => map_fail BadNumber (ParseUint 32 (str_take 6 (String.append fraction "000000")))
     | None => Ret 0 end) = Ret us).
  { unfold us. destruct micros as [k|]; [|done].
    rewrite <- (pad_uint_length 5 k) at 1 by (change (Z.of_nat 6) with 6; lia).
    rewrite str_take_append, parse_pad by lia. done. }
  rewrite Hfrac. cbn [mbind outcome_bind].
  destruct (us =? 0); cbn [negb Z.eqb Pos.eqb]; destruct neg; reflexivity.
Qed.

(** A TIME column survives the binary protocol: every duration of up to
    2^32 - 1 hours, with its sign and an optional six-digit fraction, is encoded
    in days and hours so that the decoder of the same protocol rebuilds the same
    text, except that a fraction of zero is dropped. *)
Theorem time_column_roundtrip (neg : bool) (days hh mm ss : Z) (micros : option Z) (rest : list byte)
    (Hdays : 0 <= days) (Hhh : 0 <= hh < 24) (Hhours : days * 24 + hh < 2 ^ 32)
    (Hmm : 0 <= mm < 256) (Hss : 0 <= ss < 256)
    (Hus : match micros with Some us => 0 <= us < 10 ^ 6 | None => True end) :
  exists bs, encodePreparedTimeResult (time_text neg days hh mm ss micros) = Ret bs /\
    decodePreparedTime (bs ++ rest) 0 =
      Ret (VBytes (bytes_of (time_text neg days hh mm ss
             (match micros with Some us => if us =? 0 then None else Some us | None => None end))),
           len bs).
Proof.
  rewrite time_text_sign, encode_time_parts by (done || lia). cbv zeta. eexists. split; [reflexivity|].
  assert (Hd : (days * 24 + hh) / 24 = days) by divisions.
  assert (Hh : (days * 24 + hh) mod 24 = hh) by divisions. rewrite Hd, Hh.
  set (us := match micros with Some us => us | None => 0 end).
  destruct (Z.eqb_spec us 0) as [H0|H0].
  - pose proof (decode_time_mid [] rest (PTime neg days hh mm ss) I) as H.
    replace (match micros with Some us => if us =? 0 then None else Some us | None => None end) with (@None Z).
    + rewrite app_nil_r. apply H. unfold valid_param, word_field, byte_field. lia.
    + unfold us in H0. destruct micros; [by rewrite H0|done].
  - pose proof (decode_time_mid [] rest (PTimeMicros neg days hh mm ss us) I) as H.
    replace (match micros with Some us => if us =? 0 then None else Some us | None => None end) with (Some us).
    + cbn [encode_param app] in *. apply H. unfold valid_param, word_field, byte_field.
      destruct micros; unfold us in *; lia.
    + unfold us in *. destruct micros; [by rewrite (proj2 (Z.eqb_neq _ _))|done].
Qed.

(** ** The placeholders *)

(** The positions of question marks outside quotes, by the lexical rules of
    [Classify.lex]. *)
Definition is_placeholder (quote : option ascii) (escaped : bool) (query : string) (k : nat) : bool :=
  match str_get k query with
  | Some c => Ascii.eqb c (char 63) &&
      match (Classify.lex quote escaped (str_take k query)).1 with None => true | Some _ => false end
  | None => false
  end.

Definition placeholders (quote : option ascii) (escaped : bool) (query : string) : list nat :=
  List.filter (is_placeholder quote escaped query) (seq 0 (String.length query)).

Lemma filter_map_S (f g : nat -> bool) n :
  (forall k, f (S k) = g k) ->
  length (List.filter f (seq 1 n)) = length (List.filter g (seq 0 n)).
Proof.
  intros Hfg. rewrite <- seq_shift. induction (seq 0 n) as [|k l IH]; [done|]. cbn. rewrite Hfg.
  destruct (g k); cbn; by rewrite IH.
Qed.

Lemma placeholders_cons quote escaped c r quote' escaped' :
  (forall a, Classify.lex quote escaped (String c a) = Classify.lex quote' escaped' a) ->
  length (placeholders quote escaped (String c r)) =
  ((if Ascii.eqb c (char 63) && match quote with None => true | Some _ => false end then 1 else 0) +
   length (placeholders quote' escaped' r))%nat.
Proof.
  intros Hlex. unfold placeholders. cbn [String.length seq List.filter].
  change (is_placeholder quote escaped (String c r) 0) with
    (Ascii.eqb c (char 63) && match quote with None => true | Some _ => false end).
  rewrite <- (filter_map_S (is_placeholder quote escaped (String c r))).
  - destruct (_ && _); done.
  - intros k. unfold is_placeholder. change (str_get (S k) (String c r)) with (str_get k r).
    cbn [str_take]. by rewrite Hlex.
Qed.

(** The steps of the lexer, with its character constants written out. *)
Lemma lex_quoted q c a :
  Classify.lex (Some q) false (String c a) =
  if Ascii.eqb c (char 92) && negb (Ascii.eqb q (char 96)) then Classify.lex (Some q) true a
  else if Ascii.eqb c q then Classify.lex None false a else Classify.lex (Some q) false a.
Proof. reflexivity. Qed.

Lemma lex_open c a :
  Classify.lex None false (String c a) =
  if Ascii.eqb c (char 39) || Ascii.eqb c (char 34) || Ascii.eqb c (char 96)
  then Classify.lex (Some c) false a else Classify.lex None false a.
Proof. reflexivity. Qed.

Lemma count_loop_spec query : forall n quote escaped,
  (quote = None -> escaped = false) ->
  count (count_loop (mkCounter n quote escaped) query) =
  n + Z.of_nat (length (placeholders quote escaped query)).
Proof.
  induction query as [|c query IH]; intros n quote escaped Hq; [cbn; lia|]. cbn [count_loop].
  unfold count_step. cbn [PreparedRows.quote PreparedRows.escaped count].
  destruct quote as [q|].
  - destruct escaped; [|destruct (Ascii.eqb c (char 92) && negb (Ascii.eqb q (char 96))) eqn:Eb;
      [|destruct (Ascii.eqb c q) eqn:Ec]].
    + rewrite IH, (placeholders_cons _ _ c query (Some q) false), andb_false_r by done. done.
    + rewrite IH, (placeholders_cons _ _ c query (Some q) true), andb_false_r; [done| |done].
      intros a. by rewrite lex_quoted, Eb.
    + rewrite IH, (placeholders_cons _ _ c query None false), andb_false_r; [done| |done].
      intros a. by rewrite lex_quoted, Eb, Ec.
    + rewrite IH, (placeholders_cons _ _ c query (Some q) false), andb_false_r; [done| |done].
      intros a. by rewrite lex_quoted, Eb, Ec.
  - rewrite (Hq eq_refl) in *.
    destruct (Ascii.eqb c (char 39) || Ascii.eqb c (char 34) || Ascii.eqb c (char 96)) eqn:E.
    + assert (Hno : Ascii.eqb c (char 63) = false).
      { destruct (Ascii.eqb_spec c (char 63)) as [->|]; [discriminate E|done]. }
      rewrite IH, (placeholders_cons _ _ c query (Some c) false), Hno; [done| |done].
      intros a. by rewrite lex_open, E.
    + assert (Hlex : forall a, Classify.lex None false (String c a) = Classify.lex None false a).
      { intros a. by rewrite lex_open, E. }
      rewrite (placeholders_cons _ _ c query None false) by done. rewrite andb_true_r.
      destruct (Ascii.eqb c (char 63)); rewrite IH by done; lia.
Qed.

(** The parameter count of a prepared statement is the number of question
    marks that stand outside quotes, where quotes, escapes and the back-tick
    rule are those of the statement classifier. *)
Theorem parameters_counted (query : string) :
  countPreparedParameters query = Z.of_nat (length (placeholders None false query)).
Proof. unfold countPreparedParameters. by rewrite count_loop_spec. Qed.

(** Comments are not skipped: a question mark in one is counted. *)
Lemma comment_placeholder_counted :
  countPreparedParameters "SELECT 1 /* really? */ WHERE a = ?" = 2.
Proof. reflexivity. Qed.

(** ** Witnesses *)

Definition no_floats : FloatText :=
  {| ParseFloat := fun _ _ => Fail ErrSyntax; format_float := fun _ => "" |}.

Definition year_column : ColumnDefinition :=
  mkColumn "shop" "o" "orders" "y" "y" 63 4 ColumnTypeShort ColumnFlagUnsigned 0.

Lemma integer_column_exact_witness :
  integer_width (col_Type year_column) = Some 2%nat /\
  encodePreparedResultValue (F := no_floats) (U := ascii_case) (VUint 40000) year_column "SMALLINT" =
    Ret (le_bytes 2 40000) /\
  encodePreparedResultValue (F := no_floats) (U := ascii_case) (VUint 65536) year_column "SMALLINT" =
    Fail (BadNumber ErrRange).
Proof.
  assert (H : integer_width (col_Type year_column) = Some 2%nat) by reflexivity.
  split; [exact H|]. split; [|vm_compute; reflexivity].
  apply (proj1 (integer_column_exact (F := no_floats) (U := ascii_case) year_column "SMALLINT" 2 H) 40000).
  change (0 <= 40000 < 2 ^ 16). lia.
Defined.

Lemma datetime_column_roundtrip_witness :
  let t := Date 2024 2 29 23 59 58 123456789 in
  wire_year t /\
  exists bs, encodePreparedDateTimeResult (F := no_floats) (VTime t) ColumnTypeDateTime = Ret bs /\
    decodePreparedDateTime (bs ++ []) 0 = Ret (VTime (Date 2024 2 29 23 59 58 123456000), len bs).
Proof.
  intros t. assert (H : wire_year t) by (split; vm_compute; [discriminate|reflexivity]).
  split; [exact H|]. exact (datetime_column_roundtrip (F := no_floats) t ColumnTypeDateTime [] H).
Defined.

Lemma time_column_roundtrip_witness :
  exists bs, encodePreparedTimeResult "-838:59:59.000001" = Ret bs /\
    decodePreparedTime (bs ++ []) 0 = Ret (VBytes (bytes_of "-838:59:59.000001"), len bs).
Proof.
  exact (time_column_roundtrip true 34 22 59 59 (Some 1) [] ltac:(lia) ltac:(lia) ltac:(lia)
    ltac:(lia) ltac:(lia) ltac:(cbn; lia)).
Defined.

End PreparedRows.
