(* ===== verification/BinaryRows.v ===== *)
(** * Reading the rows of a prepared statement

    A reference reader of binary rows: it tests the null bitmap, cuts the row into
    cells the way the type of each column demands, and must end at the last byte.
    The rows of [PreparedRows] are read back cell by cell. *)

From stdpp Require Import base list numbers strings option gmap.
From coqutil Require Import Byte.
From Stdlib Require Import ZArith Lia Ascii.
From S2P Require Import Prelude GoStrings GoStrconv GoTime Response Handshake PreparedCodec ExecuteRoundtrip PreparedRows.
Import GoStrconv GoTime Response Handshake Values Arguments Bitmap ExecuteRoundtrip PreparedRows.

Module BinaryRows.
Local Open Scope Z_scope.
Local Open Scope list_scope.

(** How the bytes of a column are delimited. *)
Inductive framing := Fixed (n : nat) | Counted | LengthEncoded.

Definition framing_of (type : Z) : framing :=
  match integer_width type with
  | Some w => Fixed w
  | None =>
      if type =? ColumnTypeFloat then Fixed 4
      else if type =? ColumnTypeDouble then Fixed 8
      else if one_of type [ColumnTypeDate; ColumnTypeDateTime; ColumnTypeTimestamp] || (type =? ColumnTypeTime) then Counted
      else LengthEncoded
  end.

Definition frame (f : framing) (content : list byte) : list byte :=
  match f with
  | Fixed _ => content
  | Counted => zbyte (len content) :: content
  | LengthEncoded => lenenc_bytes content
  end.

Definition split_at (n : nat) (row : list byte) : option (list byte * list byte) :=
  if (n <=? length row)%nat then Some (take n row, drop n row) else None.

Definition take_cell (f : framing) (row : list byte) : option (list byte * list byte) :=
  match f with
  | Fixed n => split_at n row
  | Counted => match row with [] => None | b :: row => split_at (Z.to_nat (bval b)) row end
  | LengthEncoded =>
      match lenEncodedBytes (newByteCursor row) with
      | Ret (content, c) => Some (content, drop (offset c) (data c))
      | _ => None
      end
  end.

Fixpoint take_cells (columns : list (Z * bool)) (row : list byte) : option (list (option (list byte)) * list byte) :=
  match columns with
  | [] => Some ([], row)
  | (_, true) :: columns => '(cells, row) ← take_cells columns row; Some (None :: cells, row)
  | (type, false) :: columns =>
      '(cell, row) ← take_cell (framing_of type) row;
      '(cells, row) ← take_cells columns row;
      Some (Some cell :: cells, row)
  end.

(** The null marks of [n] columns. *)
Definition read_nulls (n : nat) (nulls : list byte) : list bool :=
  map (fun i => match null_bit nulls (Z.of_nat (i + 2)) with Ret b => b | _ => false end) (seq 0 n).

Definition read_binary_row (types : list Z) (payload : list byte) : option (list (option (list byte))) :=
  match payload with
  | [] => None
  | header :: row =>
      if negb (bval header =? 0) then None else
      '(nulls, row) ← split_at ((length types + 7 + 2) / 8) row;
      '(cells, row) ← take_cells (zip types (read_nulls (length types) nulls)) row;
      match row with [] => Some cells | _ => None end
  end.

Section Reading.
Context {F : FloatText} {U : UnicodeCase}.

Definition sized_frame (f : framing) (content : list byte) : Prop :=
  match f with Fixed n => length content = n | Counted => len content < 256 | LengthEncoded => True end.

Lemma split_at_app l rest : split_at (length l) (l ++ rest) = Some (l, rest).
Proof.
  unfold split_at. rewrite length_app, (proj2 (Nat.leb_le _ _)) by lia.
  by rewrite take_app_length, drop_app_length.
Qed.

Lemma take_cell_frame f content rest : sized_frame f content -> len (frame f content) < 2 ^ 63 ->
  take_cell f (frame f content ++ rest) = Some (content, rest).
Proof.
  intros Hs Hl. destruct f as [n| |]; cbn [frame take_cell sized_frame] in *.
  - subst n. apply split_at_app.
  - cbn [app]. rewrite bval_zbyte_small by (unfold len in *; lia).
    unfold len. rewrite Nat2Z.id. apply split_at_app.
  - change (newByteCursor ?l) with (between [] l). pose proof (Handshake.lenenc_bytes_length content).
    rewrite lenEncodedBytes_between by (unfold len in Hl; lia). unfold between. cbn [offset data app].
    by rewrite drop_app_length.
Qed.

Definition counted (bs : list byte) : Prop :=
  exists content, bs = frame Counted content /\ sized_frame Counted content.

Lemma counted_datetime v type bs : encodePreparedDateTimeResult v type = Ret bs -> counted bs.
Proof.
  intros (t & _ & H)%bind_ret_inv. revert H. cbv zeta.
  destruct (type =? ColumnTypeDate); [|destruct (negb _)]; intros [= Hbs];
    exists (tail bs); rewrite <- Hbs; split; reflexivity.
Qed.

Lemma counted_time text bs : encodePreparedTimeResult text = Ret bs -> counted bs.
Proof.
  unfold encodePreparedTimeResult. cbv zeta. destruct (split_two _ _) as [first rest].
  destruct (split_byte _ first) as [|c0 [|c1 [|c2 [|? ?]]]]; try done.
  intros (h & _ & (m & _ & (s & _ & (us & _ & H)%bind_ret_inv)%bind_ret_inv)%bind_ret_inv)%bind_ret_inv.
  revert H. destruct (negb (us =? 0)); intros [= Hbs];
    exists (tail bs); rewrite <- Hbs; split; reflexivity.
Qed.

(** Every encoding is a framed content, which for a text is the text. *)
Lemma encoded_framed v definition databaseType bs :
  encodePreparedResultValue v definition databaseType = Ret bs ->
  exists content, bs = frame (framing_of (col_Type definition)) content /\
    sized_frame (framing_of (col_Type definition)) content /\
    (framing_of (col_Type definition) = LengthEncoded -> content = (textValue v databaseType).1).
Proof.
  set (P := fun f => exists content, bs = frame f content /\ sized_frame f content /\
    (f = LengthEncoded -> content = (textValue v databaseType).1)).
  assert (Hint : forall n, encode_integer n (string_of (textValue v databaseType).1) definition = Ret bs -> P (Fixed n)).
  { intros n (z & _ & [= <-])%bind_ret_inv. exists (le_bytes n z). split; [done|]. split; [apply le_bytes_length|done]. }
  assert (Hfloat : forall n k (x : outcome row_error Z), (bits ← x; Ret (le_bytes n bits)) = Ret bs -> k = n -> P (Fixed k)).
  { intros n k x (z & _ & [= <-])%bind_ret_inv ->. exists (le_bytes n z). split; [done|]. split; [apply le_bytes_length|done]. }
  unfold encodePreparedResultValue. cbv zeta. change (encodePreparedDateTimeResult v ?t = Ret bs -> P ?f) with (encodePreparedDateTimeResult v t = Ret bs -> P f).
  fold (P (framing_of (col_Type definition))). unfold framing_of, integer_width, width.
  generalize (col_Type definition) as type. intros type.
  destruct (type =? ColumnTypeTiny); [apply Hint|]. destruct (one_of type [ColumnTypeShort; _]); [apply Hint|].
  destruct (one_of type [ColumnTypeLong; _]); [apply Hint|]. destruct (type =? ColumnTypeLongLong); [apply Hint|].
  destruct (type =? ColumnTypeFloat); [intros H; by eapply Hfloat|].
  destruct (type =? ColumnTypeDouble); [intros H; by eapply Hfloat|].
  destruct (one_of type [ColumnTypeDate; _; _]); cbn [orb].
  { intros (content & -> & Hs)%counted_datetime. by exists content. }
  destruct (type =? ColumnTypeTime).
  { intros (content & -> & Hs)%counted_time. by exists content. }
  intros [= <-]. by exists (textValue v databaseType).1.
Qed.

(** What a cell tells of the value of its column: NULL; the number its text
    stands for, in little-endian order; the text; or the encoding of an instant,
    a time or a float, which [datetime_column_roundtrip] and
    [time_column_roundtrip] decode. *)
Definition cell_shows (definition : ColumnDefinition) (databaseType : string) (v : value)
    (cell : option (list byte)) : Prop :=
  match cell with
  | None => v = VNil
  | Some content =>
      v <> VNil /\
      encodePreparedResultValue v definition databaseType = Ret (frame (framing_of (col_Type definition)) content) /\
      (framing_of (col_Type definition) = LengthEncoded -> content = (textValue v databaseType).1) /\
      (forall w, integer_width (col_Type definition) = Some w ->
         exists z, int_fits w (is_unsigned definition) z /\ content = le_bytes w z /\
           (if is_unsigned definition then ParseUint else ParseInt) (8 * Z.of_nat w)
             (string_of (textValue v databaseType).1) = Ret z)
  end.

Lemma encoded_shows v definition databaseType bs :
  v <> VNil -> encodePreparedResultValue v definition databaseType = Ret bs -> len bs < 2 ^ 63 ->
  exists content, bs = frame (framing_of (col_Type definition)) content /\
    cell_shows definition databaseType v (Some content) /\
    forall rest, take_cell (framing_of (col_Type definition)) (bs ++ rest) = Some (content, rest).
Proof.
  intros Hv Hbs Hl. destruct (encoded_framed _ _ _ _ Hbs) as (content & -> & Hs & Ht). exists content.
  split_and!; [done| |intros rest; by apply take_cell_frame]. split_and!; [done..|]. intros w Hw.
  destruct (integer_column_exact definition databaseType w Hw) as [_ Hint].
  destruct (Hint v _ Hbs) as (z & Hz & Hb & Hp & _). exists z. split_and!; [done| |done].
  unfold framing_of in Hb. rewrite Hw in Hb. exact Hb.
Qed.

Inductive row_shows : list ColumnDefinition -> list string -> list value -> list (option (list byte)) -> Prop :=
| no_columns : row_shows [] [] [] []
| next_column d t v cell ds ts vs cells :
    cell_shows d t v cell -> row_shows ds ts vs cells -> row_shows (d :: ds) (t :: ts) (v :: vs) (cell :: cells).

Lemma row_values_read definitions types : length types = length definitions -> forall values index body,
  (index + length values = length definitions)%nat ->
  row_values index values definitions types = Ret body -> len body < 2 ^ 63 ->
  exists cells, row_shows (drop index definitions) (drop index types) values cells /\
    take_cells (zip (map col_Type (drop index definitions)) (map is_nil values)) body = Some (cells, []).
Proof.
  intros Hlen. induction values as [|v values IH]; intros index body Hi Hb Hl; cbn [length] in Hi.
  { injection Hb as <-. exists []. rewrite !drop_ge by lia. split; [constructor|done]. }
  destruct (lookup_lt_is_Some_2 definitions index ltac:(lia)) as [d Hd].
  destruct (lookup_lt_is_Some_2 types index ltac:(lia)) as [t Ht].
  rewrite (drop_S definitions d index Hd), (drop_S types t index Ht). cbn [map zip zip_with].
  assert (Hcase : v = VNil \/ v <> VNil) by (destruct v; [by left|by right..]). destruct Hcase as [->|Hv].
  - cbn [row_values] in Hb. destruct (IH (S index) body ltac:(lia) Hb Hl) as (cells & Hs & Hc).
    exists (None :: cells). split; [by constructor|]. cbn [is_nil take_cells]. by rewrite Hc.
  - assert (exists encoded rest, encodePreparedResultValue v d t = Ret encoded /\
      row_values (S index) values definitions types = Ret rest /\ body = encoded ++ rest) as (encoded & rest & He & Hr & ->).
    { cbn [row_values] in Hb. unfold go_index in Hb. rewrite Hd, Ht in Hb. cbn [mbind outcome_bind] in Hb. destruct v; [done|..];
        (apply bind_ret_inv in Hb as (encoded & He & (rest & Hr & Hbody)%bind_ret_inv); injection Hbody as Hbody;
         by exists encoded, rest). }
    unfold len in Hl. rewrite length_app in Hl.
    destruct (encoded_shows v d t encoded Hv He ltac:(unfold len; lia)) as (content & _ & Hshow & Htake).
    destruct (IH (S index) rest ltac:(lia) Hr ltac:(unfold len; lia)) as (cells & Hs & Hc).
    exists (Some content :: cells). split; [by constructor|].
    assert (is_nil v = false) as -> by (by destruct v). cbn [take_cells]. rewrite Htake.
    cbn [mbind option_bind]. by rewrite Hc.
Qed.

Lemma read_nulls_bitmap (marks : list bool) :
  read_nulls (length marks) (bitmap ([false; false] ++ marks)) = marks.
Proof.
  unfold read_nulls. apply list_eq. intros i. change (map ?f ?l) with (f <$> l). rewrite list_lookup_fmap.
  destruct (marks !! i) as [b|] eqn:E.
  - rewrite lookup_seq_lt by (by eapply lookup_lt_Some). cbn [fmap option_fmap option_map Nat.add].
    rewrite (null_bit_bitmap _ _ b); [done|]. rewrite Nat.add_comm. exact E.
  - rewrite lookup_ge_None_2; [done|]. rewrite length_seq. by apply lookup_ge_None.
Qed.

(** A binary row is read back cell by cell: the marks are those of the NULL
    values, every cell is cut where the next begins, nothing is left over, and
    each cell shows the value of its column. *)
Theorem binary_row_read (values : list value) (definitions : list ColumnDefinition) (types : list string)
    (payload : list byte) (Hv : length values = length definitions) (Ht : length types = length definitions)
    (Hrow : binaryPreparedRow values definitions types = Ret payload) (Hl : len payload < 2 ^ 63) :
  exists cells, read_binary_row (map col_Type definitions) payload = Some cells /\
    row_shows definitions types values cells.
Proof.
  rewrite binary_row_rows in Hrow. apply bind_ret_inv in Hrow as (body & Hb & [= <-]).
  unfold len in Hl. cbn [length] in Hl. rewrite length_app in Hl.
  destruct (row_values_read definitions types Ht values 0 body ltac:(lia) Hb ltac:(unfold len; lia)) as (cells & Hs & Hc).
  exists cells. split; [|exact Hs]. unfold read_binary_row.
  rewrite bval_zbyte_small by done. cbn [Z.eqb negb]. rewrite length_map.
  assert (Hn : ((length definitions + 7 + 2) / 8)%nat = length (bitmap ([false; false] ++ map is_nil values))).
  { rewrite bitmap_length, length_app, length_map, Hv. cbn [length]. f_equal. lia. }
  rewrite Hn, split_at_app. cbn [mbind option_bind].
  assert (length definitions = length (map is_nil values)) as -> by (by rewrite length_map).
  rewrite read_nulls_bitmap, drop_0 in *. by rewrite Hc.
Qed.

End Reading.
End BinaryRows.
