(* ===== verification/Admission.v ===== *)
(** * Admission of requests to the upstream pool
      ([Service.acquire] in [internal/gateway/gateway.go])

    Many clients run [acquire] at once.  The two buffered channels are semaphores
    of a fixed capacity (their contents carry no data), the counters are atomic;
    so every channel operation and every [Add] is one atomic step and a run is
    any interleaving of the steps of all requests.  Each request is a program
    counter into the body of [acquire] and the life of the [release] function it
    returns. *)

From stdpp Require Import base list numbers option.
From Stdlib Require Import ZArith Lia.
From S2P Require Import Prelude Concurrency.

Module Admission.
Local Open Scope Z_scope.
Local Open Scope list_scope.

(** ** State *)

Inductive refusal := QueueFull | ContextDone.

(** Where a request is. *)
Inductive place :=
| Fast                        (* before the first select *)
| Sized                       (* the fast path missed; the size is to be checked *)
| Entering                    (* before the send into the queue *)
| Queued                      (* in the queue, bytes not yet counted *)
| Counted (queued : Z)        (* [queuedBytes.Add] returned [queued] *)
| Uncount                     (* over the limit: bytes to be taken back *)
| LeaveRefused                (* over the limit: queue slot to be given back *)
| BeforeWait                  (* before [waiting.Add(1)] *)
| Waiting                     (* the blocking select *)
| Unwait (admitted : bool)    (* the deferred function, first statement *)
| Unbyte (admitted : bool)    (* second statement *)
| Unqueue (admitted : bool)   (* third statement *)
| Holding                     (* returned a release function *)
| Released                    (* the release function has run *)
| Refused (e : refusal).      (* returned an error *)

Record limits := mkLimits {
  MaxUpstreamConnections : Z; MaxQueuedRequests : Z; MaxQueuedBytes : Z }.

Record request := mkRequest { requestBytes : Z; at_ : place }.

Record service := mkService {
  admission : Z;     (* tokens in the admission channel *)
  queue : Z;         (* tokens in the queue channel *)
  queuedBytes : Z; waiting : Z;
  requests : list request }.

Definition start (sizes : list Z) : service :=
  mkService 0 0 0 0 (map (fun n => mkRequest n Fast) sizes).

(** [if requestBytes < 0 { requestBytes = 0 }] *)
Definition bytes (r : request) : Z := Z.max 0 (requestBytes r).

Definition move (i : nat) (p : place) (s : service) : service :=
  mkService (admission s) (queue s) (queuedBytes s) (waiting s)
    (alter (fun r => mkRequest (requestBytes r) p) i (requests s)).

Definition add_admission (n : Z) (s : service) : service :=
  mkService (admission s + n) (queue s) (queuedBytes s) (waiting s) (requests s).
Definition add_queue (n : Z) (s : service) : service :=
  mkService (admission s) (queue s + n) (queuedBytes s) (waiting s) (requests s).
Definition add_bytes (n : Z) (s : service) : service :=
  mkService (admission s) (queue s) (queuedBytes s + n) (waiting s) (requests s).
Definition add_waiting (n : Z) (s : service) : service :=
  mkService (admission s) (queue s) (queuedBytes s) (waiting s + n) (requests s).

(** ** One step of request [i]

    [None] means the step is not enabled (a channel operation would block).
    [cancelled] resolves the choice of the blocking select: with both cases
    ready Go may take either. *)
Definition step (l : limits) (cancelled : bool) (i : nat) (s : service) : option service :=
  match requests s !! i with
  | None => None
  | Some r =>
      match at_ r with
      | Fast =>
          if admission s <? MaxUpstreamConnections l
          then Some (move i Holding (add_admission 1 s))
          else Some (move i Sized s)
      | Sized =>
          if MaxQueuedBytes l <? bytes r then Some (move i (Refused QueueFull) s)
          else Some (move i Entering s)
      | Entering =>
          if queue s <? MaxQueuedRequests l then Some (move i Queued (add_queue 1 s))
          else Some (move i (Refused QueueFull) s)
      | Queued =>
          if 0 <? bytes r
          then Some (move i (Counted (queuedBytes s + bytes r)) (add_bytes (bytes r) s))
          else Some (move i BeforeWait s)
      | Counted queued =>
          if MaxQueuedBytes l <? queued then Some (move i Uncount s)
          else Some (move i BeforeWait s)
      | Uncount => Some (move i LeaveRefused (add_bytes (- bytes r) s))
      | LeaveRefused => Some (move i (Refused QueueFull) (add_queue (- 1) s))
      | BeforeWait => Some (move i Waiting (add_waiting 1 s))
      | Waiting =>
          if cancelled then Some (move i (Unwait false) s)
          else if admission s <? MaxUpstreamConnections l
               then Some (move i (Unwait true) (add_admission 1 s))
               else None
      | Unwait admitted => Some (move i (Unbyte admitted) (add_waiting (- 1) s))
      | Unbyte admitted => Some (move i (Unqueue admitted) (add_bytes (- bytes r) s))
      | Unqueue admitted =>
          Some (move i (if admitted then Holding else Refused ContextDone) (add_queue (- 1) s))
      | Holding => Some (move i Released (add_admission (- 1) s))
      | Released | Refused _ => None
      end
  end.

Inductive reachable (l : limits) (sizes : list Z) : service -> Prop :=
| reachable_start : reachable l sizes (start sizes)
| reachable_step s s' cancelled i :
    reachable l sizes s -> step l cancelled i s = Some s' -> reachable l sizes s'.

(** ** What each place accounts for *)

Definition holds (r : request) : Z :=
  match at_ r with Holding | Unwait true | Unbyte true | Unqueue true => 1 | _ => 0 end.

Definition in_queue (r : request) : Z :=
  match at_ r with
  | Queued | Counted _ | Uncount | LeaveRefused | BeforeWait | Waiting
  | Unwait _ | Unbyte _ | Unqueue _ => 1
  | _ => 0
  end.

Definition counted (r : request) : Z :=
  match at_ r with
  | Counted _ | Uncount | BeforeWait | Waiting | Unwait _ | Unbyte _ => bytes r
  | _ => 0
  end.

Definition is_waiting (r : request) : Z :=
  match at_ r with Waiting | Unwait _ => 1 | _ => 0 end.

(** Bytes of the requests that passed, or will pass, the byte check. *)
Definition passed (l : limits) (r : request) : Z :=
  match at_ r with
  | Counted queued => if MaxQueuedBytes l <? queued then 0 else bytes r
  | BeforeWait | Waiting | Unwait _ | Unbyte _ => bytes r
  | _ => 0
  end.

(** ** Lemmas *)

Lemma total_start f sizes :
  (forall n, f (mkRequest n Fast) = 0) -> total f (requests (start sizes)) = 0.
Proof.
  intros Hf. cbn [start requests]. induction sizes as [|n sizes IH]; [done|].
  cbn [map]. by rewrite total_cons, Hf, IH.
Qed.

Lemma bytes_nonneg r : 0 <= bytes r.
Proof. unfold bytes. lia. Qed.

(** The invariant: each counter is the sum over the requests, and the bounds. *)
Record consistent (l : limits) (s : service) : Prop := {
  con_admission : admission s = total holds (requests s);
  con_queue : queue s = total in_queue (requests s);
  con_bytes : queuedBytes s = total counted (requests s);
  con_waiting : waiting s = total is_waiting (requests s);
  con_admission_max : admission s <= MaxUpstreamConnections l;
  con_queue_max : queue s <= MaxQueuedRequests l;
  con_bytes_max : total (passed l) (requests s) <= MaxQueuedBytes l }.

Record valid_limits (l : limits) : Prop := {
  val_upstream : 0 < MaxUpstreamConnections l;
  val_queue : 0 <= MaxQueuedRequests l;
  val_bytes : 0 <= MaxQueuedBytes l }.

Lemma start_consistent l sizes : valid_limits l -> consistent l (start sizes).
Proof.
  intros [H1 H2 H3]. split; rewrite ?total_start by done; cbn [start admission queue queuedBytes waiting]; lia.
Qed.

Lemma passed_counted l s : consistent l s -> total (passed l) (requests s) <= queuedBytes s.
Proof.
  intros Hc. rewrite (con_bytes _ _ Hc). apply total_le. intros r _. unfold passed, counted.
  pose proof (bytes_nonneg r). destruct (at_ r); try lia. case_goal; lia.
Qed.

(** A request moves and the counters change by what its places account for. *)
Lemma consistent_move l s i r p s' :
  requests s !! i = Some r -> consistent l s ->
  let r' := mkRequest (requestBytes r) p in
  requests s' = alter (fun r => mkRequest (requestBytes r) p) i (requests s) ->
  admission s' = admission s - holds r + holds r' ->
  queue s' = queue s - in_queue r + in_queue r' ->
  queuedBytes s' = queuedBytes s - counted r + counted r' ->
  waiting s' = waiting s - is_waiting r + is_waiting r' ->
  admission s' <= MaxUpstreamConnections l -> queue s' <= MaxQueuedRequests l ->
  total (passed l) (requests s) - passed l r + passed l r' <= MaxQueuedBytes l ->
  consistent l s'.
Proof.
  intros Hi [C1 C2 C3 C4 C5 C6 C7] r' Hr H1 H2 H3 H4 H5 H6 H7.
  split; rewrite ?Hr, ?(total_alter _ _ _ _ _ Hi); fold r'; try lia.
Qed.

Lemma step_consistent l cancelled i s s' :
  consistent l s -> step l cancelled i s = Some s' -> consistent l s'.
Proof.
  intros Hc Hs. unfold step in Hs. destruct (requests s !! i) as [r|] eqn:Hi; [|done].
  pose proof (passed_counted l s Hc) as Hpc. pose proof (bytes_nonneg r) as Hb.
  assert (Hr : r = mkRequest (requestBytes r) (at_ r)) by (by destruct r).
  pose proof (con_admission_max _ _ Hc). pose proof (con_queue_max _ _ Hc). pose proof (con_bytes_max _ _ Hc).
  destruct (at_ r) eqn:Ha; try discriminate Hs;
    repeat (case_hyp Hs; bool_props; try discriminate Hs); injection Hs as <-;
    (eapply (consistent_move l s i r); [exact Hi|exact Hc|reflexivity|..]); cbn [admission queue queuedBytes waiting move
      add_admission add_queue add_bytes add_waiting];
    set (P := total (passed l) (requests s)) in *; clearbody P;
    unfold holds, in_queue, counted, is_waiting, passed; rewrite ?Ha; cbn [at_ requestBytes];
    change (bytes (mkRequest (requestBytes r) ?p)) with (bytes r);
    repeat (case_goal; bool_props); try lia.
Qed.

Lemma reachable_consistent l sizes s : valid_limits l -> reachable l sizes s -> consistent l s.
Proof. intros Hl. induction 1; [by apply start_consistent|by eapply step_consistent]. Qed.

(** The requests at places that satisfy a test, and the bytes they queue. *)
Definition how_many (f : place -> bool) (s : service) : Z :=
  total (fun r => Z.b2z (f (at_ r))) (requests s).

Definition is_holding (p : place) : bool := match p with Holding => true | _ => false end.
Definition is_blocked (p : place) : bool := match p with Waiting => true | _ => false end.
Definition blocked_bytes (s : service) : Z :=
  total (fun r => if is_blocked (at_ r) then bytes r else 0) (requests s).

(** C10.  Admission keeps its limits under every interleaving of any number of
    requests: never do more requests hold an upstream slot than
    [MaxUpstreamConnections], never do more wait than [MaxQueuedRequests], and
    the sizes of those that wait never add up to more than [MaxQueuedBytes],
    although the shared byte counter itself may overshoot for a moment. *)
Theorem admission_bounded (l : limits) (sizes : list Z) (s : service)
    (Hl : valid_limits l) (Hs : reachable l sizes s) :
  how_many is_holding s <= MaxUpstreamConnections l /\
  how_many is_blocked s <= MaxQueuedRequests l /\
  blocked_bytes s <= MaxQueuedBytes l /\
  how_many is_blocked s <= waiting s.
Proof.
  destruct (reachable_consistent l sizes s Hl Hs) as [C1 C2 C3 C4 C5 C6 C7].
  unfold how_many, blocked_bytes. split_and!.
  - eapply Z.le_trans; [|exact C5]. rewrite C1. apply total_le. intros r _. unfold holds.
    destruct (at_ r) as [| | | | | | | | |[]|[]|[]| | |]; cbn; lia.
  - eapply Z.le_trans; [|exact C6]. rewrite C2. apply total_le. intros r _. unfold in_queue.
    destruct (at_ r); cbn; lia.
  - eapply Z.le_trans; [|exact C7]. apply total_le. intros r _. unfold passed. pose proof (bytes_nonneg r).
    destruct (at_ r); cbn; try lia. case_goal; lia.
  - rewrite C4. apply total_le. intros r _. unfold is_waiting. destruct (at_ r); cbn; lia.
Qed.

Definition finished (p : place) : bool :=
  match p with Released | Refused _ => true | _ => false end.

(** C11.  Nothing leaks: once every request has been refused or has released its
    slot, by whatever path and in whatever order, both channels are empty and
    both counters are zero again. *)
Theorem admission_no_leak (l : limits) (sizes : list Z) (s : service)
    (Hl : valid_limits l) (Hs : reachable l sizes s)
    (Hdone : forall r, r ∈ requests s -> finished (at_ r) = true) :
  admission s = 0 /\ queue s = 0 /\ queuedBytes s = 0 /\ waiting s = 0.
Proof.
  destruct (reachable_consistent l sizes s Hl Hs) as [-> -> -> -> _ _ _].
  split_and!; apply total_zero; intros r Hr; specialize (Hdone r Hr);
    unfold holds, in_queue, counted, is_waiting; by destruct (at_ r).
Qed.

(** Steps a request can still make. *)
Definition steps_left (p : place) : Z :=
  match p with
  | Fast => 13 | Sized => 12 | Entering => 11 | Queued => 10 | Counted _ => 9 | Uncount => 8
  | LeaveRefused => 7 | BeforeWait => 6 | Waiting => 5 | Unwait _ => 4 | Unbyte _ => 3
  | Unqueue _ => 2 | Holding => 1 | Released | Refused _ => 0
  end.

Definition work (s : service) : Z := total (fun r => steps_left (at_ r)) (requests s).

Lemma work_move i p s0 s r :
  requests s !! i = Some r -> requests s0 = requests s -> steps_left p < steps_left (at_ r) ->
  work (move i p s0) < work s.
Proof.
  intros Hi H0 Hr. unfold work. cbn [move requests]. rewrite H0, (total_alter _ _ _ _ _ Hi).
  cbn [at_]. lia.
Qed.

Lemma step_work l cancelled i s s' : step l cancelled i s = Some s' -> work s' < work s.
Proof.
  unfold step. destruct (requests s !! i) as [r|] eqn:Hi; [|done]. intros Hs.
  destruct (at_ r) eqn:Ha; try discriminate Hs;
    repeat (case_hyp Hs; try discriminate Hs); injection Hs as <-;
    (eapply (work_move i _ _ _ r); [exact Hi|reflexivity|]; rewrite Ha; cbn [steps_left]; try case_goal; cbn [steps_left]; lia).
Qed.

Lemma some_total (f : request -> Z) l :
  0 < total f l -> (forall r, f r <= 1) -> exists (i : nat) r, l !! i = Some r /\ 0 < f r.
Proof.
  intros H Hf. induction l as [|x l IH]; [done|]. rewrite total_cons in H.
  destruct (decide (0 < f x)); [exists 0%nat, x; done|]. destruct IH as (i & r & Hi & Hr); [lia|].
  exists (S i), r. done.
Qed.

Definition all_finished (s : service) : Prop :=
  forall (i : nat) (r : request), requests s !! i = Some r -> finished (at_ r) = true.

Lemma not_all_finished s :
  all_finished s \/ exists (i : nat) (r : request), requests s !! i = Some r /\ finished (at_ r) = false.
Proof.
  destruct (decide (Forall (fun r => finished (at_ r) = true) (requests s))) as [H|H].
  - left. intros i r Hi. exact (proj1 (Forall_lookup _ _) H i r Hi).
  - right. apply not_Forall_Exists, Exists_exists in H as (r & Hr & Hf); [|solve_decision].
    apply list_elem_of_In, list_elem_of_lookup in Hr as [i Hi]. exists i, r. split; [done|].
    by apply not_true_is_false.
Qed.

Lemma unfinished_step l s i r :
  valid_limits l -> consistent l s -> requests s !! i = Some r -> finished (at_ r) = false ->
  exists j s', step l false j s = Some s'.
Proof.
  intros Hl Hc Hi Hf.
  destruct (Z.lt_ge_cases (admission s) (MaxUpstreamConnections l)) as [Hroom|Hfull].
  - exists i. unfold step. rewrite Hi. destruct (at_ r); try discriminate Hf; try (by eexists);
      try (rewrite (proj2 (Z.ltb_lt _ _) Hroom); by eexists); case_goal; by eexists.
  - destruct (some_total holds (requests s)) as (j & h & Hj & Hh).
    { rewrite <- (con_admission _ _ Hc). destruct Hl. lia. }
    { intros x. unfold holds. destruct (at_ x) as [| | | | | | | | |[]|[]|[]| | |]; lia. }
    exists j. unfold step. rewrite Hj. unfold holds in Hh.
    destruct (at_ h); try (exfalso; lia); try (by eexists).
Qed.

(** An action: which request moves, and whether its context is cancelled. *)
Definition act (l : limits) (a : bool * nat) : service -> option service := step l (fst a) (snd a).
Definition uncancelled (a : bool * nat) (s : service) : bool := negb (fst a).


(** ** Witnesses: one slot, one place in the queue, eight bytes *)

Definition tiny : limits := mkLimits 1 1 8.

Lemma tiny_valid : valid_limits tiny.
Proof. split; cbn; lia. Qed.

(** Runs a schedule. *)
Fixpoint run (l : limits) (schedule : list (bool * nat)) (s : service) : option service :=
  match schedule with
  | [] => Some s
  | (cancelled, i) :: rest => s' ← step l cancelled i s; run l rest s'
  end.

Lemma run_reachable l sizes schedule : forall s s',
  reachable l sizes s -> run l schedule s = Some s' -> reachable l sizes s'.
Proof.
  induction schedule as [|[c i] rest IH]; intros s s' Hs H; cbn in H; [by injection H as <-|].
  destruct (step l c i s) as [s1|] eqn:E; [|done]. eapply IH; [|exact H].
  by eapply reachable_step.
Qed.

(** The first request holds the slot, the second waits, the third is refused. *)
Definition busy_schedule : list (bool * nat) :=
  [(false, 0%nat)] ++ repeat (false, 1%nat) 6 ++ repeat (false, 2%nat) 3.

(** Then the second is cancelled and the first releases. *)
Definition drain_schedule : list (bool * nat) :=
  busy_schedule ++ [(true, 1%nat)] ++ repeat (false, 1%nat) 3 ++ [(false, 0%nat)].

Lemma admission_bounded_witness :
  exists s, run tiny busy_schedule (start [5; 8; 3]) = Some s /\
    how_many is_holding s = 1 /\ blocked_bytes s = 8 /\
    how_many is_holding s <= 1 /\ blocked_bytes s <= 8.
Proof.
  eexists. split; [vm_compute; reflexivity|]. split; [vm_compute; reflexivity|].
  split; [vm_compute; reflexivity|].
  match goal with |- how_many _ ?s <= _ /\ _ =>
    destruct (admission_bounded tiny [5; 8; 3] s tiny_valid) as (H1 & _ & H3 & _);
      [apply (run_reachable tiny [5; 8; 3] busy_schedule (start [5; 8; 3])); [constructor|vm_compute; reflexivity]|]
  end.
  split; [exact H1|exact H3].
Defined.

Lemma admission_no_leak_witness :
  exists s, run tiny drain_schedule (start [5; 8; 3]) = Some s /\
    admission s = 0 /\ queue s = 0 /\ queuedBytes s = 0 /\ waiting s = 0.
Proof.
  eexists. split; [vm_compute; reflexivity|].
  apply (admission_no_leak tiny [5; 8; 3] _ tiny_valid).
  - apply (run_reachable tiny [5; 8; 3] drain_schedule (start [5; 8; 3])); [constructor|vm_compute; reflexivity].
  - intros r Hr. repeat (apply elem_of_cons in Hr as [->|Hr]; [reflexivity|]). by apply elem_of_nil in Hr.
Defined.


End Admission.
