(* ===== verification/Gateway.v ===== *)
(** * Client sessions of the pooled gateway
      ([internal/gateway/gateway.go], [prepared.go], [reset.go])

    A session is run by one goroutine, so its handlers are functions in a state
    monad.  Everything outside the repository - the SQL driver, the network, the
    admission channels under contention - is an environment that answers the
    n-th external call as it likes; the theorems hold for every environment.
    Each external call and each reply is recorded in a log. *)

From stdpp Require Import base list numbers strings option gmap.
From coqutil Require Import Byte.
From Stdlib Require Import ZArith Lia Ascii.
From S2P Require Import Prelude GoStrings GoStrconv Classify Logical Codec Response PreparedCodec PreparedRows.
Import GoStrconv Classify Logical Response Values Arguments PreparedRows.

Module Gateway.
Local Open Scope Z_scope.
Local Open Scope list_scope.

(** ** Errors *)

(** An [error]: a server error, the errors the code tests for, or a text. *)
Inductive go_error :=
| ServerError (number : Z) (sqlState message : string)
| DeadlineExceeded
| Canceled
| QueueFull
| TxDone
| TextError (text : string).

#[export] Instance go_error_eq_dec : EqDecision go_error.
Proof. solve_decision. Defined.

Definition errQueueFull : string := "accelerator request queue is full".
Definition errTxDone : string := "sql: transaction has already been committed or rolled back".

(** [fmt.Errorf("prefix: %w", err)]: [errors.As] and [errors.Is] still find the
    first three, which [mysqlError] reports without their text. *)
Definition wrap (prefix : string) (e : go_error) : go_error :=
  match e with
  | TxDone => TextError (prefix ++ ": " ++ errTxDone)
  | TextError text => TextError (prefix ++ ": " ++ text)
  | _ => e
  end.

(** [strings.Trim(state, "\x00")] *)
Definition trim_nul (s : string) : string := trim_set (Ascii.eqb (char 0)) s.

Definition mysqlError (e : go_error) : Z * string * string :=
  match e with
  | ServerError number sqlState message =>
      (number, if String.eqb (trim_nul sqlState) "" then "HY000"%string else sqlState, message)
  | DeadlineExceeded | Canceled => (3024, "HY000"%string, "query deadline exceeded"%string)
  | QueueFull => (1040, "08004"%string, errQueueFull)
  | TxDone => (1105, "HY000"%string, errTxDone)
  | TextError text => (1105, "HY000"%string, text)
  end.

(** ** Columns *)

Record ColumnType := mkColumnType {
  DatabaseTypeName : string;
  Length : option Z;
  Nullable : option bool;
  DecimalSize : option (Z * Z) }.

Section Columns.
Context {U : UnicodeCase}.

(** The type names of [mysqlColumnType], in the order of its switch. *)
Definition column_types : list (list string * Z) :=
  [(["TINYINT"; "BOOL"; "BOOLEAN"], ColumnTypeTiny); (["SMALLINT"], ColumnTypeShort);
   (["MEDIUMINT"], ColumnTypeInt24); (["INT"; "INTEGER"], ColumnTypeLong);
   (["BIGINT"], ColumnTypeLongLong); (["FLOAT"], ColumnTypeFloat);
   (["DOUBLE"; "REAL"], ColumnTypeDouble); (["DECIMAL"; "NUMERIC"], ColumnTypeNewDecimal);
   (["DATE"], ColumnTypeDate); (["TIME"], ColumnTypeTime); (["DATETIME"], ColumnTypeDateTime);
   (["TIMESTAMP"], ColumnTypeTimestamp); (["YEAR"], ColumnTypeYear); (["BIT"], ColumnTypeBit);
   (["JSON"], ColumnTypeJSON); (["ENUM"], ColumnTypeEnum); (["SET"], ColumnTypeSet);
   (["TINYBLOB"], ColumnTypeTinyBlob); (["MEDIUMBLOB"], ColumnTypeMediumBlob);
   (["LONGBLOB"], ColumnTypeLongBlob);
   (["TINYTEXT"; "TEXT"; "MEDIUMTEXT"; "LONGTEXT"], ColumnTypeBlob);
   (["BLOB"; "BINARY"; "VARBINARY"], ColumnTypeBlob); (["CHAR"], ColumnTypeString);
   (["VARCHAR"], ColumnTypeVarChar); (["GEOMETRY"], ColumnTypeGeometry)]%string.

Definition mysqlColumnType (name : string) : Z :=
  let base := trim_space (trim_prefix "UNSIGNED " (trim_suffix " UNSIGNED" name)) in
  match find (fun entry => str_mem base entry.1) column_types with
  | Some (_, type) => type
  | None => ColumnTypeVarString
  end.

Definition columnDefinition (name database : string) (column : ColumnType) : ColumnDefinition :=
  let databaseType := to_upper (DatabaseTypeName column) in
  let length_ :=
    match Length column with Some n => u32 (Z.min n (2 ^ 32 - 1)) | None => 1024 end in
  let flags :=
    Z.lor (match Nullable column with Some false => ColumnFlagNotNull | _ => 0 end)
      (if contains "UNSIGNED" databaseType then ColumnFlagUnsigned else 0) in
  let type := mysqlColumnType databaseType in
  let '(length_, decimals) :=
    match DecimalSize column with
    | Some (precision, scale) =>
        (if one_of type [ColumnTypeDecimal; ColumnTypeNewDecimal] then
           let wireLength := precision + 1 + (if 0 <? scale then 1 else 0) in
           u32 (Z.min wireLength (2 ^ 32 - 1))
         else length_, u8 (Z.min scale 255))
    | None => (length_, 0)
    end in
  let binary :=
    negb (contains "TEXT" databaseType) &&
    one_of type [ColumnTypeBlob; ColumnTypeTinyBlob; ColumnTypeMediumBlob; ColumnTypeLongBlob;
      ColumnTypeGeometry; ColumnTypeBit] in
  mkColumn database "" "" name name (if binary then 63 else DefaultCharsetID) length_ type
    (if binary then Z.lor flags ColumnFlagBinary else flags) decimals.

End Columns.

(** ** The environment *)

(** What a call returns: an error or a result. *)
Abbreviation answer A := (go_error + A)%type.

(** A result set as the driver delivers it: the columns, what each
    [Next]/[Scan] gives, and the errors of [Err] and [Close]. *)
Record result_set := mkRows {
  columns_error : option go_error;
  types_error : option go_error;
  columns : list (string * ColumnType);
  scans : list (answer (list value));
  rows_err : option go_error;
  close_err : option go_error }.

(** Answers to external calls, by the number of calls made before. *)
Record environment := mkEnvironment {
  upstream_database : string;
  on_acquire : nat -> option go_error;
  on_conn : nat -> option go_error;
  on_reset : nat -> option go_error;
  on_begin : nat -> option go_error;
  on_commit : nat -> option go_error;
  on_rollback : nat -> option go_error;
  on_exec : nat -> answer (Z * Z);
  on_query : nat -> answer result_set;
  on_warnings : nat -> answer Z;
  on_prepare : nat -> option go_error;
  on_hook : nat -> option go_error;
  on_write : nat -> option go_error }.

(** What a text statement or a preparation runs on: the transaction, the pinned
    connection, or a pooled connection held for this request only. *)
Inductive handle := OnTx | OnPinned | OnPooled.

Inductive event :=
| Acquire (requestBytes : Z) (ok : bool)
| ReleaseSlot
| OpenConnection (ok : bool)
| ResetConnection (ok : bool)
| CloseConnection
| DiscardConnection
| BeginTx (ok : bool)
| CommitTx (ok : bool)
| RollbackTx (ok : bool)
| CancelTx
| Exec (on : handle) (query : string)
| Query (on : handle) (query : string)
| ReadWarnings (on : handle)
| Prepare (on : handle) (query : string) (ok : bool)
| StatementInTx (id : nat)
| ExecPrepared (id : nat) (arguments : list value)
| QueryPrepared (id : nat) (arguments : list value)
| CloseStatement (id : nat)
| Hook
| Reply (sequence : Z) (payload : list byte) (ok : bool)
| GoPanic.

(** ** State *)

Record preparedStatement := mkPrepared {
  ps_query : string;
  ps_parameters : parameters;
  ps_longDataBytes : Z;
  ps_longDataError : bool;
  ps_statement : option nat;   (* the driver statement, named by its call *)
  ps_transactionBound : bool }.

Record clientSession := mkSession {
  state : Logical;
  tx : bool;                   (* [s.tx != nil] *)
  txCancel : bool;
  pinnedConnection : bool;
  pinnedRelease : bool;
  prepared : gmap Z preparedStatement;
  nextPreparedID : Z }.

(** The counters and maps of the [Service]. *)
Record statistics := mkStatistics {
  pinned : Z;
  queryErrors : Z;
  clientBytes : Z;
  databaseBytes : Z;
  resetDiscards : Z;
  commitGeneration : Z;
  rejectionReasons : gmap string Z;
  pinReasons : gmap string Z }.

(** The session, the admission slots and connections it holds, the number of
    external calls made and the log. *)
Record world := mkWorld {
  session : clientSession;
  slots : Z;
  connections : Z;
  stats : statistics;
  calls : nat;
  log : list event }.

(** ** The monad *)

Definition M (A : Type) : Type := environment -> world -> A * world.
#[export] Instance M_ret : MRet M := fun A a _ w => (a, w).
#[export] Instance M_bind : MBind M :=
  fun A B k m env w => let '(a, w') := m env w in k a env w'.

Definition asks {A} (f : environment -> A) : M A := fun env w => (f env, w).
Definition get_session : M clientSession := fun _ w => (session w, w).

Definition modify_session (f : clientSession -> clientSession) : M unit := fun _ w =>
  (tt, mkWorld (f (session w)) (slots w) (connections w) (stats w) (calls w) (log w)).
Definition add_held (dslots dconnections : Z) : M unit := fun _ w =>
  (tt, mkWorld (session w) (slots w + dslots) (connections w + dconnections) (stats w) (calls w) (log w)).
Definition modify_stats (f : statistics -> statistics) : M unit := fun _ w =>
  (tt, mkWorld (session w) (slots w) (connections w) (f (stats w)) (calls w) (log w)).
Definition note (e : event) : M unit := fun _ w =>
  (tt, mkWorld (session w) (slots w) (connections w) (stats w) (calls w) (log w ++ [e])).

(** An external call: the environment answers, the call is counted. *)
Definition call {A} (ask : environment -> nat -> A) : M A := fun env w =>
  (ask env (calls w),
   mkWorld (session w) (slots w) (connections w) (stats w) (S (calls w)) (log w)).

Definition succeeded (e : option go_error) : bool := match e with None => true | Some _ => false end.

(** [sequence, err := m; if err != nil { return err }] and
    [if err := m; err != nil { return err }]. *)
Definition then_sequence (m : M (Z * option go_error)) (k : Z -> M (option go_error))
  : M (option go_error) :=
  '(sequence, e) ← m;
  match e with Some e => mret (Some e) | None => k sequence end.

Definition then_ok (m : M (option go_error)) (k : M (option go_error)) : M (option go_error) :=
  e ← m; match e with Some e => mret (Some e) | None => k end.

(** ** Updates *)

Definition add_pinned (d : Z) (c : statistics) : statistics :=
  mkStatistics (pinned c + d) (queryErrors c) (clientBytes c) (databaseBytes c) (resetDiscards c)
    (commitGeneration c) (rejectionReasons c) (pinReasons c).
Definition add_error (c : statistics) : statistics :=
  mkStatistics (pinned c) (queryErrors c + 1) (clientBytes c) (databaseBytes c) (resetDiscards c)
    (commitGeneration c) (rejectionReasons c) (pinReasons c).
Definition add_traffic (from_client from_database : Z) (c : statistics) : statistics :=
  mkStatistics (pinned c) (queryErrors c) (clientBytes c + from_client)
    (databaseBytes c + from_database) (resetDiscards c) (commitGeneration c) (rejectionReasons c)
    (pinReasons c).
Definition add_discard (c : statistics) : statistics :=
  mkStatistics (pinned c) (queryErrors c) (clientBytes c) (databaseBytes c) (resetDiscards c + 1)
    (commitGeneration c) (rejectionReasons c) (pinReasons c).
Definition add_commit (c : statistics) : statistics :=
  mkStatistics (pinned c) (queryErrors c) (clientBytes c) (databaseBytes c) (resetDiscards c)
    (commitGeneration c + 1) (rejectionReasons c) (pinReasons c).
Definition bump (reason : string) (m : gmap string Z) : gmap string Z :=
  <[reason := default 0 (m !! reason) + 1]> m.
Definition recordRejection (reason : string) : M unit :=
  modify_stats (fun c => mkStatistics (pinned c) (queryErrors c) (clientBytes c) (databaseBytes c)
    (resetDiscards c) (commitGeneration c) (bump reason (rejectionReasons c)) (pinReasons c)).
Definition recordPin (reason : string) : M unit :=
  modify_stats (fun c => mkStatistics (pinned c) (queryErrors c) (clientBytes c) (databaseBytes c)
    (resetDiscards c) (commitGeneration c) (rejectionReasons c) (bump reason (pinReasons c))).

Definition with_state (f : Logical -> Logical) (s : clientSession) : clientSession :=
  mkSession (f (state s)) (tx s) (txCancel s) (pinnedConnection s) (pinnedRelease s) (prepared s)
    (nextPreparedID s).
Definition with_tx (b c : bool) (s : clientSession) : clientSession :=
  mkSession (state s) b c (pinnedConnection s) (pinnedRelease s) (prepared s) (nextPreparedID s).
Definition with_pin (b r : bool) (s : clientSession) : clientSession :=
  mkSession (state s) (tx s) (txCancel s) b r (prepared s) (nextPreparedID s).
Definition with_prepared (f : gmap Z preparedStatement -> gmap Z preparedStatement) (s : clientSession)
  : clientSession :=
  mkSession (state s) (tx s) (txCancel s) (pinnedConnection s) (pinnedRelease s) (f (prepared s))
    (nextPreparedID s).
Definition with_next (n : Z) (s : clientSession) : clientSession :=
  mkSession (state s) (tx s) (txCancel s) (pinnedConnection s) (pinnedRelease s) (prepared s) n.

(** ** Replies to the client *)

Definition maxErrorMessageBytes : nat := 2048.

(** [client.WriteMessage]: the next sequence and the error. *)
Definition clientWriteMessage (sequence : Z) (payload : list byte) : M (Z * option go_error) :=
  let size := Z.of_nat (length payload) in
  if Codec.DefaultMaxPacket <? size then
    _ ← note (Reply sequence payload false);
    mret (sequence, Some (TextError "mysql message exceeds configured limit"))
  else
    e ← call on_write;
    _ ← note (Reply sequence payload (succeeded e));
    mret (u8 (sequence + size / Codec.MaxFramePayload + 1), e).

Definition write (sequence : Z) (payload : list byte) : M (Z * option go_error) :=
  _ ← modify_stats (add_traffic 0 (Z.of_nat (length payload) + Z.of_nat Codec.HeaderBytes));
  clientWriteMessage sequence payload.

Definition writeError (sequence code : Z) (sqlState message : string) : M (option go_error) :=
  let message :=
    if (maxErrorMessageBytes <? String.length message)%nat
    then str_take maxErrorMessageBytes message else message in
  '(_, e) ← clientWriteMessage sequence (ErrorPayload code sqlState message);
  mret e.

Definition writeSQLErrorAt (sequence : Z) (e : go_error) : M (option go_error) :=
  _ ← modify_stats add_error;
  let '(code, sqlState, message) := mysqlError e in
  writeError sequence code sqlState message.

Definition writeSQLError (e : go_error) : M (option go_error) := writeSQLErrorAt 1 e.

Definition status_of (s : Logical) : Z :=
  Z.lor (if Autocommit s then ServerStatusAutocommit else 0)
        (if InTransaction s then ServerStatusInTransaction else 0).

Definition status : M Z := s ← get_session; mret (status_of (state s)).

(** [_, err := s.write(client, 1, protocol.OKPayload(...)); return err] *)
Definition write_ok (affected insertID warnings : Z) : M (option go_error) :=
  st ← status;
  '(_, e) ← write 1 (OKPayload affected insertID st warnings);
  mret e.

(** A method of [Logical] that returns an error. *)
Definition logical {A} (f : Logical -> Logical * A) : M A :=
  s ← get_session;
  let '(state', a) := f (state s) in
  _ ← modify_session (with_state (fun _ => state'));
  mret a.

(** ** Slots and connections *)

Definition acquire (requestBytes : Z) : M (option go_error) :=
  e ← call on_acquire;
  _ ← note (Acquire requestBytes (succeeded e));
  _ ← (if succeeded e then add_held 1 0 else mret tt);
  mret e.

(** The function [acquire] returned. *)
Definition release : M unit := _ ← note ReleaseSlot; add_held (- 1) 0.

Definition discardConnection : M unit := _ ← note DiscardConnection; add_held 0 (- 1).
Definition closeConnection : M unit := _ ← note CloseConnection; add_held 0 (- 1).

(** [s.database.Conn] followed by [resetConnection] (see [Reset]). *)
Definition open_and_reset : M (bool * option go_error) :=
  e ← call on_conn;
  _ ← note (OpenConnection (succeeded e));
  match e with
  | Some e => mret (false, Some e)
  | None =>
      _ ← add_held 0 1;
      e ← call on_reset;
      _ ← note (ResetConnection (succeeded e));
      mret (true, e)
  end.

Fixpoint checkout_loop (attempts : nat) (lastError : option go_error) : M (option go_error) :=
  match attempts with
  | O => mret (match lastError with
               | Some e => Some (wrap "reset upstream connection" e)
               | None => None
               end)
  | S n =>
      '(opened, e) ← open_and_reset;
      match e with
      | None => mret None
      | Some e =>
          _ ← (if (opened : bool) then
                 _ ← discardConnection; modify_stats add_discard
               else mret tt);
          checkout_loop n (Some e)
      end
  end.

Definition checkout : M (option go_error) := checkout_loop 2 None.

Definition releasePinnedConnection (discard : bool) : M unit :=
  s ← get_session;
  _ ← (if pinnedConnection s then
         _ ← (if discard then discardConnection else closeConnection);
         _ ← modify_session (fun s => with_pin false (pinnedRelease s) s);
         modify_stats (add_pinned (- 1))
       else mret tt);
  s ← get_session;
  if pinnedRelease s then
    _ ← release; modify_session (fun s => with_pin (pinnedConnection s) false s)
  else mret tt.

(** Whether a connection was pinned by this call, and the error. *)
Definition ensurePinnedConnection (reason : string) : M (bool * option go_error) :=
  s ← get_session;
  if pinnedConnection s then mret (false, None) else
  e ← acquire 0;
  match e with
  | Some e => mret (false, Some e)
  | None =>
      e ← checkout;
      match e with
      | Some e => _ ← release; mret (false, Some e)
      | None =>
          _ ← modify_session (with_pin true true);
          _ ← modify_stats (add_pinned 1);
          _ ← recordPin reason;
          mret (true, None)
      end
  end.

(** ** Transactions *)

Definition plain (k : StatementKind) : Statement := mkStatement k "" "".

Definition cancel_tx : M unit := note CancelTx.

Definition rollback_tx : M (option go_error) :=
  e ← call on_rollback; _ ← note (RollbackTx (succeeded e)); mret e.

Definition commit_tx : M (option go_error) :=
  e ← call on_commit; _ ← note (CommitTx (succeeded e)); mret e.

(** The texts of the errors of [Logical]. *)
Definition kind_text (k : StatementKind) : string :=
  match k with
  | StatementEmpty => "empty" | StatementRead => "read" | StatementWrite => "write"
  | StatementDDL => "ddl" | StatementBegin => "begin" | StatementCommit => "commit"
  | StatementRollback => "rollback" | StatementSavepoint => "savepoint"
  | StatementAutocommitOff => "autocommit_off" | StatementAutocommitOn => "autocommit_on"
  | StatementSetNames => "set_names" | StatementUseDatabase => "use_database"
  | StatementWarningCount => "warning_count" | StatementUnsupported => "unsupported"
  | OtherKind text => text
  end%string.

Definition illegal_text (e : illegal) : string :=
  ("illegal logical session transition: " ++
   match e with
   | TransactionActive => "transaction already active"
   | SavepointOutside => "savepoint outside transaction"
   | NotApplicable k => kind_text k
   | UnknownKind k => "unknown statement kind " ++ String double_quote (kind_text k ++ String double_quote "")
   | EmptyDatabase => "database is empty"
   | ZeroPreparedID => "prepared statement id is zero"
   | DuplicatePreparedID => "prepared statement id already exists"
   end)%string.

Definition illegal_error (e : illegal) : go_error := TextError (illegal_text e).

Definition begin_ : M (option go_error) :=
  '(created, e) ← ensurePinnedConnection "transaction";
  match e with
  | Some e => mret (Some e)
  | None =>
      e ← call on_begin;
      _ ← note (BeginTx (succeeded e));
      match e with
      | Some e =>
          _ ← cancel_tx;
          _ ← (if (created : bool) then releasePinnedConnection false else mret tt);
          mret (Some e)
      | None =>
          e ← logical (fun l => Apply l (plain StatementBegin));
          match e with
          | Some e =>
              _ ← rollback_tx;
              _ ← cancel_tx;
              _ ← (if (created : bool) then releasePinnedConnection false else mret tt);
              mret (Some (illegal_error e))
          | None => _ ← modify_session (with_tx true true); mret None
          end
      end
  end.

Definition ensureImplicitTransaction : M (option go_error) :=
  s ← get_session;
  if negb (Autocommit (state s)) && negb (tx s) then begin_ else mret None.

(** Closes the driver statement of a prepared statement, if it has one. *)
Definition close_statement (p : preparedStatement) : M unit :=
  match ps_statement p with Some id => note (CloseStatement id) | None => mret tt end.

Definition unbind (p : preparedStatement) : preparedStatement :=
  if ps_transactionBound p then
    mkPrepared (ps_query p) (ps_parameters p) (ps_longDataBytes p) (ps_longDataError p) None false
  else p.

(** The statements are closed in the order of the map's entries; a Go map is
    ranged over in no fixed order, and the closes are independent. *)
Fixpoint close_statements (l : list preparedStatement) : M unit :=
  match l with [] => mret tt | p :: l => _ ← close_statement p; close_statements l end.

Definition invalidateTransactionPrepared : M unit :=
  s ← get_session;
  let bound := List.filter ps_transactionBound (map snd (map_to_list (prepared s))) in
  _ ← close_statements bound;
  modify_session (with_prepared (fmap unbind)).

Definition finishTransaction : M unit :=
  _ ← modify_session (fun s => with_tx false (txCancel s) s);
  _ ← invalidateTransactionPrepared;
  s ← get_session;
  _ ← (if txCancel s then
         _ ← cancel_tx; modify_session (fun s => with_tx (tx s) false s)
       else mret tt);
  s ← get_session;
  if decide (Prepared (state s) = ∅) then releasePinnedConnection false else mret tt.

Definition poison : M unit := modify_session (with_state Poison).

Definition runBeforeCommitResponse : M (option go_error) :=
  e ← call on_hook; _ ← note Hook; mret e.

Definition commit : M (option go_error) :=
  s ← get_session;
  if negb (tx s) then write_ok 0 0 0 else
  e ← commit_tx;
  match e with
  | Some e => _ ← finishTransaction; _ ← poison; mret (Some e)
  | None =>
      e ← logical (fun l => Apply l (plain StatementCommit));
      match e with
      | Some e => _ ← finishTransaction; mret (Some (illegal_error e))
      | None =>
          _ ← modify_stats add_commit;
          _ ← finishTransaction;
          then_ok runBeforeCommitResponse (write_ok 0 0 0)
      end
  end.

Definition rollback : M (option go_error) :=
  s ← get_session;
  if negb (tx s) then write_ok 0 0 0 else
  e ← rollback_tx;
  if match e with Some TxDone | None => false | Some _ => true end then
    _ ← finishTransaction; _ ← poison;
    match e with Some e => writeSQLError e | None => mret None end
  else
    e ← logical (fun l => Apply l (plain StatementRollback));
    match e with
    | Some e => _ ← finishTransaction; mret (Some (illegal_error e))
    | None => _ ← finishTransaction; write_ok 0 0 0
    end.

(** ** Statements without rows *)

Definition readWarningCount (on : handle) : M (answer Z) :=
  r ← call on_warnings;
  _ ← note (ReadWarnings on);
  mret (match r with
        | inl e => inl (wrap "read warning count" e)
        | inr count => inr (Z.min count 65535)
        end).

(** The reply after a statement: [on] is where its warnings are read. *)
Definition finish_exec (on : handle) (result : answer (Z * Z)) : M (option go_error) :=
  match result with
  | inl e => writeSQLError e
  | inr (affected, insertID) =>
      w ← readWarningCount on;
      match w with
      | inl e => writeSQLError e
      | inr warnings =>
          _ ← modify_session (with_state (fun l => SetResult l warnings (Z.max 0 insertID)));
          write_ok (Z.max 0 affected) (Z.max 0 insertID) warnings
      end
  end.

Definition exec_on (on : handle) (query : string) : M (answer (Z * Z)) :=
  r ← call on_exec; _ ← note (Exec on query); mret r.

Definition exec (query : string) (transactional : bool) : M (option go_error) :=
  if transactional then
    result ← exec_on OnTx query; finish_exec OnTx result
  else
    e ← acquire (Z.of_nat (String.length query));
    match e with
    | Some e => writeSQLError e
    | None =>
        e ← checkout;
        match e with
        | Some e => r ← writeSQLError e; _ ← release; mret r
        | None =>
            result ← exec_on OnPooled query;
            r ← finish_exec OnPooled result;
            _ ← closeConnection;
            _ ← release;
            mret r
        end
    end.

(** ** Result sets *)

Section Results.
Context {U : UnicodeCase} {F : FloatText}.
(** The text of a conversion error of [strconv] or [time]. *)
Variable row_error_text : row_error -> string.

Definition text_payload (columns : list (string * ColumnType)) (values : list value)
  : outcome go_error (list byte) :=
  let cells := zip_with (fun v c => textValue v (DatabaseTypeName c.2)) values columns in
  Ret (TextRowPayload (map fst cells) (map snd cells)).

Definition binary_payload (database : string) (columns : list (string * ColumnType))
    (values : list value) : outcome go_error (list byte) :=
  map_fail (fun e => TextError (row_error_text e))
    (binaryPreparedRow values
       (map (fun c => columnDefinition c.1 database c.2) columns)
       (map (fun c => DatabaseTypeName c.2) columns)).

Fixpoint write_columns (database : string) (columns : list (string * ColumnType)) (sequence : Z)
    (k : Z -> M (option go_error)) : M (option go_error) :=
  match columns with
  | [] => k sequence
  | (name, type) :: columns =>
      then_sequence
        (write sequence (ColumnDefinitionPayload (columnDefinition name database type)))
        (fun sequence => write_columns database columns sequence k)
  end.

(** The loop over [rows.Next()], [k] what follows it. *)
Fixpoint write_rows (encode : list value -> outcome go_error (list byte))
    (scans : list (answer (list value))) (sequence : Z) (k : Z -> M (option go_error))
  : M (option go_error) :=
  match scans with
  | [] => k sequence
  | inl e :: _ => writeSQLErrorAt sequence e
  | inr values :: scans =>
      match encode values with
      | Fail e => writeSQLErrorAt sequence e
      | Panic => _ ← note GoPanic; mret None
      | Ret payload =>
          then_sequence (write sequence payload)
            (fun sequence => write_rows encode scans sequence k)
      end
  end.

(** Columns, rows and the final EOF of a result set; [on] is where its warnings
    are read. *)
Definition write_results (encode : list (string * ColumnType) -> list value -> outcome go_error (list byte))
    (on : handle) (rows : result_set) : M (option go_error) :=
  match columns_error rows, types_error rows with
  | Some e, _ | None, Some e => writeSQLError e
  | None, None =>
      database ← asks upstream_database;
      then_sequence (write 1 (ColumnCountPayload (Z.of_nat (length (columns rows))))) (fun sequence =>
      write_columns database (columns rows) sequence (fun sequence =>
      st ← status;
      then_sequence (write sequence (EOFPayload st 0)) (fun sequence =>
      write_rows (encode (columns rows)) (scans rows) sequence (fun sequence =>
      match rows_err rows, close_err rows with
      | Some e, _ | None, Some e => writeSQLErrorAt sequence e
      | None, None =>
          w ← readWarningCount on;
          match w with
          | inl e => writeSQLErrorAt sequence e
          | inr warnings =>
              _ ← modify_session (with_state (fun l => SetResult l warnings 0));
              st ← status;
              then_sequence (write sequence (EOFPayload st warnings)) (fun _ => mret None)
          end
      end))))
  end.

Definition query_on (on : handle) (query : string) : M (answer result_set) :=
  r ← call on_query; _ ← note (Query on query); mret r.

Definition reply_rows (encode : list (string * ColumnType) -> list value -> outcome go_error (list byte))
    (on : handle) (r : answer result_set) : M (option go_error) :=
  match r with inl e => writeSQLError e | inr rows => write_results encode on rows end.

(** Without a transaction the deferred calls run in the order slot, connection. *)
Definition rows (query : string) : M (option go_error) :=
  s ← get_session;
  if tx s then
    r ← query_on OnTx query; reply_rows text_payload OnTx r
  else
    e ← acquire (Z.of_nat (String.length query));
    match e with
    | Some e => writeSQLError e
    | None =>
        e ← checkout;
        match e with
        | Some e => r ← writeSQLError e; _ ← release; mret r
        | None =>
            r ← query_on OnPooled query;
            r ← reply_rows text_payload OnPooled r;
            _ ← release;
            _ ← closeConnection;
            mret r
        end
    end.

(** ** Text commands *)

Definition initDatabase (database : string) : M (option go_error) :=
  configured ← asks upstream_database;
  if String.eqb database "" || negb (String.eqb database configured) then
    writeError 1 1049 "42000" "unknown or unconfigured database"
  else
    e ← logical (fun l => SelectDatabase l database);
    match e with
    | Some _ => writeError 1 1049 "42000" "invalid database state"
    | None => write_ok 0 0 0
    end.

Definition warningColumn (database : string) : ColumnDefinition :=
  mkColumn database "" "" "COUNT(*)" "COUNT(*)" 63 21 ColumnTypeLongLong
    (Z.lor (Z.lor ColumnFlagNotNull ColumnFlagUnsigned) ColumnFlagBinary) 0.

Definition warningCount : M (option go_error) :=
  database ← asks upstream_database;
  then_sequence (write 1 (ColumnCountPayload 1)) (fun sequence =>
  then_sequence (write sequence (ColumnDefinitionPayload (warningColumn database))) (fun sequence =>
  st ← status;
  then_sequence (write sequence (EOFPayload st 0)) (fun sequence =>
  s ← get_session;
  then_sequence
    (write sequence (TextRowPayload [bytes_of (format_uint (Warnings (state s)))] [false]))
    (fun sequence =>
  st ← status;
  then_sequence (write sequence (EOFPayload st 0)) (fun _ => mret None))))).

Definition rejectionReason (reason : string) : string :=
  if contains "multiple statements" reason then "multi_statement"
  else if contains "temporary" reason then "temporary_object"
  else if contains "user variables" reason then "user_variable"
  else if contains "connection-state" reason || contains "connection-local" reason then "connection_state"
  else if contains "stored" reason || contains "multi-result" reason then "stored_or_multi_result"
  else if contains "SET" reason then "session_setting"
  else if contains "common table" reason then "cte_unclassified"
  else "unsupported_statement".

(** [s.state.Apply(statement)], the error reply or an OK. *)
Definition transition (statement : Statement) (code : Z) (sqlState message : string)
  : M (option go_error) :=
  e ← logical (fun l => Apply l statement);
  match e with
  | Some _ => writeError 1 code sqlState message
  | None => write_ok 0 0 0
  end.

(** The commit that [SET autocommit=1] implies. *)
Definition autocommit_commit : M (option go_error) :=
  s ← get_session;
  if tx s then
    e ← commit_tx;
    match e with
    | Some e => _ ← finishTransaction; _ ← poison; mret (Some e)
    | None =>
        _ ← modify_stats add_commit;
        _ ← finishTransaction;
        runBeforeCommitResponse
    end
  else mret None.

Definition query (sql : string) : M (option go_error) :=
  let statement := ClassifySQL sql in
  match st_kind statement with
  | StatementEmpty => writeError 1 1065 "42000" "query was empty"
  | StatementUnsupported =>
      _ ← recordRejection (rejectionReason (st_reason statement));
      writeError 1 1235 "42000" (st_reason statement)
  | StatementBegin =>
      s ← get_session;
      if tx s then writeError 1 1192 "25000" "transaction is already active" else
      e ← begin_;
      match e with Some e => writeSQLError e | None => write_ok 0 0 0 end
  | StatementCommit => commit
  | StatementRollback => rollback
  | StatementAutocommitOff => transition statement 1192 "25000" "invalid autocommit transition"
  | StatementAutocommitOn =>
      then_ok autocommit_commit (transition statement 1192 "25000" "invalid autocommit transition")
  | StatementSetNames => transition statement 1235 "42000" "invalid charset transition"
  | StatementUseDatabase =>
      match fields (st_sql statement) with
      | [_; name] => initDatabase (trim_set (Ascii.eqb backtick) name)
      | _ => writeError 1 1064 "42000" "invalid USE statement"
      end
  | StatementWarningCount => warningCount
  | StatementSavepoint =>
      e ← logical (fun l => Apply l statement);
      s ← get_session;
      if negb (tx s) || negb (bool_decide (e = None)) then
        writeError 1 1305 "42000" "savepoint requires an active transaction"
      else exec (st_sql statement) true
  | StatementDDL =>
      s ← get_session;
      if tx s then
        writeError 1 1235 "42000" "implicit-commit DDL is refused inside a pooled transaction"
      else exec (st_sql statement) false
  | StatementWrite =>
      e ← ensureImplicitTransaction;
      match e with
      | Some e => writeSQLError e
      | None => s ← get_session; exec (st_sql statement) (tx s)
      end
  | StatementRead =>
      e ← ensureImplicitTransaction;
      match e with Some e => writeSQLError e | None => rows (st_sql statement) end
  | OtherKind _ => writeError 1 1235 "42000" "statement is not supported"
  end.

(** ** Prepared statements *)

Definition maxPreparedLongData : Z := 16 * 2 ^ 20.

Definition is_prepareable (k : StatementKind) : bool :=
  match k with StatementRead | StatementWrite | StatementDDL => true | _ => false end.

Definition prepareOnCurrentConnection (query : string) : M (answer nat) :=
  s ← get_session;
  r ← call (fun env n => match on_prepare env n with Some e => inl e | None => inr n end);
  _ ← note (Prepare (if tx s then OnTx else OnPinned) query
              (match r with inr _ => true | inl _ => false end));
  mret r.

(** [s.nextPreparedID++], twice when it wraps to zero. *)
Definition next_id (n : Z) : Z :=
  let n := u32 (n + 1) in if n =? 0 then u32 (n + 1) else n.

Definition parameterColumn : ColumnDefinition :=
  mkColumn "" "" "" "?" "" DefaultCharsetID 1024 ColumnTypeVarString 0 0.

Fixpoint write_parameters (n : nat) (sequence : Z) (k : Z -> M (option go_error))
  : M (option go_error) :=
  match n with
  | O => k sequence
  | S n =>
      then_sequence (write sequence (ColumnDefinitionPayload parameterColumn))
        (fun sequence => write_parameters n sequence k)
  end.

Definition prepare (sql : string) : M (option go_error) :=
  let statement := ClassifySQL sql in
  if negb (is_prepareable (st_kind statement)) then
    writeError 1 1295 "HY000" "statement is not supported by the pooled prepared path"
  else
  s ← get_session;
  if bool_decide (st_kind statement = StatementDDL) && tx s then
    writeError 1 1235 "42000" "prepared DDL is refused inside a transaction"
  else
  '(_, e) ← ensurePinnedConnection "prepared_statement";
  match e with
  | Some e => writeSQLError e
  | None =>
      r ← prepareOnCurrentConnection (st_sql statement);
      match r with
      | inl e =>
          s ← get_session;
          _ ← (if bool_decide (Prepared (state s) = ∅) && negb (tx s)
               then releasePinnedConnection true else mret tt);
          writeSQLError e
      | inr driver_statement =>
          let count := countPreparedParameters (st_sql statement) in
          _ ← modify_session (fun s => with_next (next_id (nextPreparedID s)) s);
          s ← get_session;
          let id := nextPreparedID s in
          _ ← modify_session (with_prepared (<[id :=
                mkPrepared (st_sql statement)
                  (mkParameters count (repeat (mkType 0 false) (Z.to_nat count)) ∅)
                  0 false (Some driver_statement) (tx s)]>));
          e ← logical (fun l => AddPrepared l id);
          match e with
          | Some e =>
              _ ← note (CloseStatement driver_statement);
              _ ← modify_session (with_prepared (delete id));
              writeSQLError (illegal_error e)
          | None =>
              then_sequence (write 1 (PrepareOKPayload id 0 (u16 count) 0)) (fun sequence =>
              write_parameters (Z.to_nat count) sequence (fun sequence =>
              if 0 <? count then
                st ← status; then_sequence (write sequence (EOFPayload st 0)) (fun _ => mret None)
              else mret None))
          end
      end
  end.

Definition clearLongData (p : preparedStatement) : preparedStatement :=
  mkPrepared (ps_query p)
    (mkParameters (parameterCount (ps_parameters p)) (parameterTypes (ps_parameters p)) ∅)
    0 false (ps_statement p) (ps_transactionBound p).

Definition set_parameters (parameters : parameters) (p : preparedStatement) : preparedStatement :=
  mkPrepared (ps_query p) parameters (ps_longDataBytes p) (ps_longDataError p) (ps_statement p)
    (ps_transactionBound p).

Definition bind_statement (id : nat) (bound : bool) (p : preparedStatement) : preparedStatement :=
  mkPrepared (ps_query p) (ps_parameters p) (ps_longDataBytes p) (ps_longDataError p) (Some id) bound.

(** An assignment through the pointer [s.prepared[id]]. *)
Definition alter_prepared (id : Z) (f : preparedStatement -> preparedStatement) : M unit :=
  modify_session (with_prepared (alter f id)).

(** The driver statement to run and whether it is closed afterwards. *)
Definition statementForExecution (id : Z) (p : preparedStatement) : M (answer (nat * bool)) :=
  s ← get_session;
  current ←
    (match ps_statement p with
     | Some statement =>
         if ps_transactionBound p && negb (tx s) then
           _ ← note (CloseStatement statement);
           r ← prepareOnCurrentConnection (ps_query p);
           match r with
           | inl e => mret (inl e)
           | inr statement =>
               _ ← alter_prepared id (bind_statement statement (tx s)); mret (inr (statement, tx s))
           end
         else mret (inr (statement, ps_transactionBound p))
     | None =>
         r ← prepareOnCurrentConnection (ps_query p);
         match r with
         | inl e => mret (inl e)
         | inr statement =>
             _ ← alter_prepared id (bind_statement statement (tx s)); mret (inr (statement, tx s))
         end
     end : M (answer (nat * bool)));
  match current with
  | inl e => mret (inl e)
  | inr (statement, bound) =>
      if tx s && negb bound then
        id ← call (fun _ n => n);
        _ ← note (StatementInTx id);
        mret (inr (id, true))
      else mret (inr (statement, false))
  end.

Definition warning_source : M handle := s ← get_session; mret (if tx s then OnTx else OnPinned).

Definition execPrepared (statement : nat) (arguments : list value) : M (option go_error) :=
  r ← call on_exec;
  _ ← note (ExecPrepared statement arguments);
  source ← warning_source;
  finish_exec source r.

Definition queryPrepared (statement : nat) (arguments : list value) : M (option go_error) :=
  r ← call on_query;
  _ ← note (QueryPrepared statement arguments);
  source ← warning_source;
  database ← asks upstream_database;
  reply_rows (binary_payload database) source r.

Definition u32_at (payload : list byte) (position : nat) : Z :=
  le_value (take 4 (drop position payload)).
Definition u16_at (payload : list byte) (position : nat) : Z :=
  le_value (take 2 (drop position payload)).
Definition byte_at (payload : list byte) (position : nat) : Z :=
  match payload !! position with Some b => bval b | None => 0 end.

Definition executePrepared (payload : list byte) : M (option go_error) :=
  if len payload <? 10 then writeError 1 1835 "HY000" "malformed prepared execute packet" else
  let id := u32_at payload 1 in
  s ← get_session;
  match prepared s !! id with
  | None => writeError 1 1243 "HY000" "unknown prepared statement handle"
  | Some p =>
      if negb (byte_at payload 5 =? 0) then
        writeError 1 1235 "42000" "prepared cursors are not supported in pooled mode"
      else if ps_longDataError p then
        _ ← alter_prepared id clearLongData;
        writeError 1 1153 "08S01" "prepared long data exceeds the configured bound"
      else
        let '(arguments, decoded) := decodeArguments (ps_parameters p) payload in
        let p := clearLongData (set_parameters decoded p) in
        _ ← alter_prepared id (fun _ => p);
        match arguments with
        | Panic => _ ← note GoPanic; mret None
        | Fail text => writeError 1 1835 "HY000" text
        | Ret arguments =>
            let classified := ClassifySQL (ps_query p) in
            e ← ensureImplicitTransaction;
            match e with
            | Some e => writeSQLError e
            | None =>
                statement ← statementForExecution id p;
                match statement with
                | inl e => writeSQLError e
                | inr (statement, temporary) =>
                    r ← (if bool_decide (st_kind classified = StatementRead)
                         then queryPrepared statement arguments
                         else execPrepared statement arguments);
                    _ ← (if (temporary : bool) then note (CloseStatement statement) else mret tt);
                    mret r
                end
            end
        end
  end.

Definition append_long_data (parameter : Z) (bytes : list byte) (p : preparedStatement)
  : preparedStatement :=
  let d := longData (ps_parameters p) in
  mkPrepared (ps_query p)
    (mkParameters (parameterCount (ps_parameters p)) (parameterTypes (ps_parameters p))
       (<[parameter := default [] (d !! parameter) ++ bytes]> d))
    (ps_longDataBytes p + len bytes) (ps_longDataError p) (ps_statement p) (ps_transactionBound p).

Definition fail_long_data (p : preparedStatement) : preparedStatement :=
  mkPrepared (ps_query p) (ps_parameters p) (ps_longDataBytes p) true (ps_statement p)
    (ps_transactionBound p).

Definition sendPreparedLongData (payload : list byte) : M (option go_error) :=
  if len payload <? 7 then writeError 1 1835 "HY000" "malformed prepared long-data packet" else
  let id := u32_at payload 1 in
  let parameter := u16_at payload 5 in
  s ← get_session;
  match prepared s !! id with
  | None => writeError 1 1243 "HY000" "unknown prepared statement handle or parameter"
  | Some p =>
      if parameterCount (ps_parameters p) <=? parameter then
        writeError 1 1243 "HY000" "unknown prepared statement handle or parameter"
      else if maxPreparedLongData <? ps_longDataBytes p + len (drop 7 payload) then
        _ ← alter_prepared id fail_long_data; mret None
      else
        _ ← alter_prepared id (append_long_data parameter (drop 7 payload)); mret None
  end.

Definition resetPrepared (payload : list byte) : M (option go_error) :=
  if len payload <? 5 then writeError 1 1835 "HY000" "malformed prepared reset packet" else
  let id := u32_at payload 1 in
  s ← get_session;
  match prepared s !! id with
  | None => writeError 1 1243 "HY000" "unknown prepared statement handle"
  | Some _ => _ ← alter_prepared id clearLongData; write_ok 0 0 0
  end.

Definition closePrepared (payload : list byte) : M (option go_error) :=
  if len payload <? 5 then mret None else
  let id := u32_at payload 1 in
  s ← get_session;
  match prepared s !! id with
  | None => mret None
  | Some p =>
      _ ← close_statement p;
      _ ← modify_session (with_prepared (delete id));
      _ ← logical (fun l => RemovePrepared l id);
      s ← get_session;
      _ ← (if bool_decide (prepared s = ∅) && negb (tx s)
           then releasePinnedConnection false else mret tt);
      mret None
  end.

(** ** The session *)

(** In any order: see [close_statements]. *)
Fixpoint close_prepared (l : list (Z * preparedStatement)) : M unit :=
  match l with
  | [] => mret tt
  | (id, p) :: l =>
      _ ← close_statement p;
      _ ← modify_session (with_prepared (delete id));
      _ ← logical (fun l => RemovePrepared l id);
      close_prepared l
  end.

Definition closeAllPrepared : M unit := s ← get_session; close_prepared (map_to_list (prepared s)).

Definition close : M unit :=
  s ← get_session;
  _ ← (if tx s then
         _ ← rollback_tx; modify_session (fun s => with_tx false (txCancel s) s)
       else mret tt);
  s ← get_session;
  _ ← (if txCancel s then
         _ ← cancel_tx; modify_session (fun s => with_tx (tx s) false s)
       else mret tt);
  _ ← closeAllPrepared;
  _ ← releasePinnedConnection true;
  modify_session (with_state Disconnect).

(** One command after COM_QUIT has been excluded. *)
Definition dispatch (command : Z) (payload : list byte) : M (option go_error) :=
  let text := string_of (drop 1 payload) in
  if command =? CommandPing then write_ok 0 0 0
  else if command =? CommandInitDB then initDatabase text
  else if command =? CommandQuery then query text
  else if command =? CommandStmtPrepare then prepare text
  else if command =? CommandStmtExecute then executePrepared payload
  else if command =? CommandStmtSendLongData then sendPreparedLongData payload
  else if command =? CommandStmtClose then closePrepared payload
  else if command =? CommandStmtReset then resetPrepared payload
  else if command =? CommandStmtFetch then
    _ ← recordRejection "prepared_cursor";
    writeError 1 1235 "42000" "prepared cursors are not supported in pooled mode"
  else
    _ ← recordRejection "unknown_command";
    writeError 1 1047 "08S01" "command is not supported in pooled mode".

Definition errSequence : go_error := TextError "mysql packet sequence mismatch".

(** The command loop over the messages of the client; [ending] is the error of
    the read after the last one. *)
Fixpoint serve (ending : go_error) (messages : list (Z * list byte)) : M (option go_error) :=
  match messages with
  | [] => mret (Some ending)
  | (sequence, payload) :: messages =>
      match payload with
      | [] => mret (Some errSequence)
      | command :: _ =>
          if negb (sequence =? 0) then mret (Some errSequence) else
          _ ← modify_stats (add_traffic (Z.of_nat (length payload) + Z.of_nat Codec.HeaderBytes) 0);
          if bval command =? CommandQuit then mret None
          else then_ok (dispatch (bval command) payload) (serve ending messages)
      end
  end.

Definition new_session (database : string) : clientSession :=
  mkSession (NewLogical (mkBaseline database "" "utf8mb4" "" "" "")) false false false false ∅ 0.

(** What follows a successful login. *)
Definition run_session (ending : go_error) (messages : list (Z * list byte)) : M (option go_error) :=
  database ← asks upstream_database;
  _ ← modify_session (fun _ => new_session database);
  r ← serve ending messages;
  _ ← close;
  mret r.

End Results.

End Gateway.
