(* ===== verification/GatewayProtocol.v ===== *)
(** * The protocol a session keeps with the upstream pool

    A monitor reads the log of a session and accepts only disciplined use of
    admission slots, connections and transactions.  The theorems show that the
    handlers of [Gateway] are accepted for every environment and every sequence
    of client messages, and that a session that ends holds nothing. *)

From stdpp Require Import base list numbers strings option gmap.
From coqutil Require Import Byte.
From Stdlib Require Import ZArith Lia.
From S2P Require Import Prelude GoStrings GoStrconv Classify Logical Codec Response PreparedCodec PreparedRows Gateway.
Import GoStrconv Classify Logical Response Values Arguments PreparedRows Gateway.

Module Protocol.
Local Open Scope Z_scope.
Local Open Scope list_scope.

(** ** The monitor *)

(** Slots and connections held, whether the connection opened last still awaits
    its reset, whether a transaction is open. *)
Record monitor := mkMonitor { m_slots : Z; m_conns : Z; m_fresh : bool; m_tx : bool }.

Definition start : monitor := mkMonitor 0 0 false false.

(** Statements may be sent: a connection is held, every connection is covered
    by a slot and has been reset. *)
Definition usable (m : monitor) : bool := (0 <? m_conns m) && (m_conns m <=? m_slots m) && negb (m_fresh m).

Definition allow (b : bool) (m : monitor) : option monitor := if b then Some m else None.

Definition runs_on (on : handle) (m : monitor) : bool :=
  usable m && match on with OnTx => m_tx m | OnPinned | OnPooled => negb (m_tx m) end.

Definition observe (m : monitor) (e : event) : option monitor :=
  let '(mkMonitor s c f t) := m in
  match e with
  | Acquire _ ok => allow (negb t && negb f) (mkMonitor (s + Z.b2z ok) c f t)
  | ReleaseSlot => allow ((0 <? s) && negb t && negb f) (mkMonitor (s - 1) c f t)
  | OpenConnection ok => allow (negb t && negb f && (c <? s)) (mkMonitor s (c + Z.b2z ok) ok t)
  | ResetConnection ok => allow f (mkMonitor s c (negb ok) t)
  | DiscardConnection => allow ((0 <? c) && negb t) (mkMonitor s (c - 1) false t)
  | CloseConnection => allow ((0 <? c) && negb f && negb t) (mkMonitor s (c - 1) f t)
  | BeginTx ok => allow (usable m && negb t) (mkMonitor s c f ok)
  | CommitTx _ | RollbackTx _ => allow t (mkMonitor s c f false)
  | CancelTx | Hook => allow (negb t) m
  | Exec on _ | Query on _ | ReadWarnings on | Prepare on _ _ => allow (runs_on on m) m
  | StatementInTx _ => allow (usable m && t) m
  | ExecPrepared _ _ | QueryPrepared _ _ => allow (usable m) m
  | CloseStatement _ => allow (0 <? c) m
  | Reply _ _ _ => Some m
  | GoPanic => None
  end.

(** The monitor after a log, if it accepts it. *)
Definition accepts (l : list event) : option monitor :=
  foldl (fun m e => m ≫= fun m => observe m e) (Some start) l.

Lemma accepts_snoc l e : accepts (l ++ [e]) = accepts l ≫= fun m => observe m e.
Proof. unfold accepts. by rewrite foldl_app. Qed.

(** ** Sessions in order *)

Definition total (d : gmap Z (list byte)) : Z := map_fold (fun _ bs n => len bs + n) 0 d.

(** A prepared statement: one type per parameter, bounded and counted long data
    for parameters that exist, a driver statement whenever it is bound, and
    bound only to an open transaction. *)
Record statement_ok (open : bool) (p : preparedStatement) : Prop := {
  so_parameters : prepared_ok (ps_parameters p);
  so_counted : ps_longDataBytes p = total (longData (ps_parameters p));
  so_bounded : ps_longDataBytes p <= maxPreparedLongData;
  so_keys : map_Forall (fun i _ => 0 <= i < parameterCount (ps_parameters p)) (longData (ps_parameters p));
  so_bound : ps_transactionBound p = true -> open = true }.

Record closable (s : clientSession) : Prop := {
  cl_release : pinnedRelease s = pinnedConnection s;
  cl_cancel : txCancel s = tx s;
  cl_pinned : pinnedConnection s = tx s || negb (bool_decide (prepared s = ∅));
  cl_prepared : dom (prepared s) = Prepared (state s);
  cl_tx : tx s = true -> InTransaction (state s) = true;
  cl_ids : map_Forall (fun id _ => 0 < id <= nextPreparedID s) (prepared s);
  cl_statements : map_Forall (fun _ p => statement_ok (tx s) p) (prepared s);
  cl_next : 0 <= nextPreparedID s }.

(** The status the client sees tells the truth, unless the session is poisoned. *)
Definition honest (s : clientSession) : Prop :=
  InTransaction (state s) = true -> tx s = true \/ poisoned (state s) = true.

(** ** Programs and what they see *)

Record view := mkView {
  v_session : clientSession; v_slots : Z; v_conns : Z; v_pinned : Z; v_monitor : option monitor }.

Definition view_of (w : world) : view :=
  mkView (session w) (slots w) (connections w) (pinned (stats w)) (accepts (log w)).

(** Rows have one value per column, as [database/sql] guarantees. *)
Definition rows_ok (r : result_set) : Prop :=
  Forall (fun scan => match scan with inr vs => length vs = length (columns r) | inl _ => True end) (scans r).

Definition env_ok (env : environment) : Prop :=
  forall n r, on_query env n = inr r -> rows_ok r.

Section Programs.
Context {U : UnicodeCase} {F : FloatText}.
Variable row_error_text : row_error -> string.
Hypothesis float_total : forall bits s, no_panic (ParseFloat bits s).
Variable env : environment.
Hypothesis Henv : env_ok env.

(** From a world seen as [v], [m] ends with a result and a view in [Q]. *)
Definition wp {A} (m : M A) (Q : A -> view -> Prop) (v : view) : Prop :=
  forall w, view_of w = v -> Q (m env w).1 (view_of (m env w).2).

Lemma wp_ret {A} (a : A) (Q : A -> view -> Prop) v : Q a v -> wp (mret a) Q v.
Proof. by intros HQ w <-. Qed.

Lemma wp_bind {A B} (m : M A) (k : A -> M B) (Q : B -> view -> Prop) v :
  wp m (fun a => wp (k a) Q) v -> wp (m ≫= k) Q v.
Proof.
  intros H w Hw. specialize (H w Hw). unfold mbind, M_bind.
  destruct (m env w) as [a w']. by apply H.
Qed.

Lemma wp_mono {A} (m : M A) (Q R : A -> view -> Prop) v :
  wp m Q v -> (forall a v', Q a v' -> R a v') -> wp m R v.
Proof. intros H HR w Hw. by apply HR, H. Qed.

Lemma wp_assoc {A B C} (m : M A) (f : A -> M B) (k : B -> M C) (Q : C -> view -> Prop) v :
  wp ((a ← m; f a) ≫= k) Q v -> wp (a ← m; b ← f a; k b) Q v.
Proof.
  intros H w Hw. specialize (H w Hw). unfold mbind, M_bind in *. by destruct (m env w) as [a w'].
Qed.

Lemma bind_assoc {A B C} (m : M A) (f : A -> M B) (k : B -> M C) e w :
  ((m ≫= f) ≫= k) e w = (m ≫= (fun a => f a ≫= k)) e w.
Proof. unfold mbind, M_bind. by destruct (m e w). Qed.

Lemma wp_session (Q : clientSession -> view -> Prop) v : Q (v_session v) v -> wp get_session Q v.
Proof. by intros HQ w <-. Qed.

Lemma wp_asks {A} (f : environment -> A) (Q : A -> view -> Prop) v : Q (f env) v -> wp (asks f) Q v.
Proof. by intros HQ w <-. Qed.

Lemma wp_call {A} (ask : environment -> nat -> A) (Q : A -> view -> Prop) v :
  (forall n, Q (ask env n) v) -> wp (call ask) Q v.
Proof. intros HQ w <-. apply HQ. Qed.

Lemma wp_modify f (Q : unit -> view -> Prop) v :
  Q tt (mkView (f (v_session v)) (v_slots v) (v_conns v) (v_pinned v) (v_monitor v)) ->
  wp (modify_session f) Q v.
Proof. by intros HQ w <-. Qed.

Lemma wp_held ds dc (Q : unit -> view -> Prop) v :
  Q tt (mkView (v_session v) (v_slots v + ds) (v_conns v + dc) (v_pinned v) (v_monitor v)) ->
  wp (add_held ds dc) Q v.
Proof. by intros HQ w <-. Qed.

Lemma wp_stats f (Q : unit -> view -> Prop) v :
  (forall c, pinned (f c) = pinned c) -> Q tt v -> wp (modify_stats f) Q v.
Proof. intros Hf HQ w <-. cbn. unfold view_of. cbn. by rewrite Hf. Qed.

Lemma wp_pinned d (Q : unit -> view -> Prop) v :
  Q tt (mkView (v_session v) (v_slots v) (v_conns v) (v_pinned v + d) (v_monitor v)) ->
  wp (modify_stats (add_pinned d)) Q v.
Proof. by intros HQ w <-. Qed.

Lemma wp_note e (Q : unit -> view -> Prop) v :
  Q tt (mkView (v_session v) (v_slots v) (v_conns v) (v_pinned v) (v_monitor v ≫= fun m => observe m e)) ->
  wp (note e) Q v.
Proof. intros HQ w <-. cbn. unfold view_of. cbn. by rewrite accepts_snoc. Qed.

(** ** Programs that change nothing the monitor sees *)

Definition quiet {A} (m : M A) : Prop := forall (Q : A -> view -> Prop) v, (forall a, Q a v) -> wp m Q v.

Lemma quiet_note_reply sequence payload ok : quiet (note (Reply sequence payload ok)).
Proof. intros Q [s a b p [[]|]] HQ; apply wp_note, HQ. Qed.

Lemma quiet_clientWriteMessage sequence payload : quiet (clientWriteMessage sequence payload).
Proof.
  intros Q v HQ. unfold clientWriteMessage. destruct (_ <? _).
  - apply wp_bind, quiet_note_reply. intros _. apply wp_ret, HQ.
  - apply wp_bind, wp_call. intros n. apply wp_bind, quiet_note_reply. intros _. apply wp_ret, HQ.
Qed.

Lemma quiet_write sequence payload : quiet (write sequence payload).
Proof. intros Q v HQ. apply wp_bind, wp_stats; [done|]. by apply quiet_clientWriteMessage. Qed.

Lemma quiet_writeError sequence code sqlState message : quiet (writeError sequence code sqlState message).
Proof. intros Q v HQ. apply wp_bind, quiet_clientWriteMessage. intros [z e]. apply wp_ret, HQ. Qed.

Lemma quiet_writeSQLErrorAt sequence e : quiet (writeSQLErrorAt sequence e).
Proof.
  intros Q v HQ. apply wp_bind, wp_stats; [done|].
  destruct (mysqlError e) as [[code st] message]. by apply quiet_writeError.
Qed.

Lemma quiet_status : quiet status.
Proof. intros Q v HQ. apply wp_bind, wp_session, wp_ret, HQ. Qed.

Lemma quiet_write_ok affected insertID warnings : quiet (write_ok affected insertID warnings).
Proof.
  intros Q v HQ. apply wp_bind, quiet_status. intros st. apply wp_bind, quiet_write.
  intros [z e]. apply wp_ret, HQ.
Qed.

Lemma quiet_recordRejection reason : quiet (recordRejection reason).
Proof. intros Q v HQ. by apply wp_stats. Qed.

Lemma quiet_recordPin reason : quiet (recordPin reason).
Proof. intros Q v HQ. by apply wp_stats. Qed.

(** ** Slots, connections and transactions *)

(** The view of a session [s] that holds [sl] slots and [cn] connections, all of
    them reset, with a transaction open if [t]. *)
Definition seen (s : clientSession) (sl cn : Z) (t : bool) : view :=
  mkView s sl cn (Z.b2z (pinnedConnection s)) (Some (mkMonitor sl cn false t)).

Lemma wp_event e m' (Q : unit -> view -> Prop) s sl cn p m :
  observe m e = Some m' -> Q tt (mkView s sl cn p (Some m')) ->
  wp (note e) Q (mkView s sl cn p (Some m)).
Proof. intros He HQ. apply wp_note. cbn. by rewrite He. Qed.

Ltac allowed :=
  unfold observe, allow, runs_on, usable; cbn [m_slots m_conns m_fresh m_tx];
  repeat match goal with
    | |- context [?a <? ?b] => destruct (Z.ltb_spec a b)
    | |- context [?a <=? ?b] => destruct (Z.leb_spec a b)
    end; first [reflexivity | exfalso; lia].

Lemma wp_seen_note e (Q : unit -> view -> Prop) s sl cn t sl' cn' t' :
  observe (mkMonitor sl cn false t) e = Some (mkMonitor sl' cn' false t') ->
  Q tt (mkView s sl cn (Z.b2z (pinnedConnection s)) (Some (mkMonitor sl' cn' false t'))) ->
  wp (note e) Q (seen s sl cn t).
Proof. apply wp_event. Qed.

Lemma wp_acquire n (Q : option go_error -> view -> Prop) s sl cn :
  (forall e, Q (Some e) (seen s sl cn false)) -> Q None (seen s (sl + 1) cn false) ->
  wp (acquire n) Q (seen s sl cn false).
Proof.
  intros He Hn. apply wp_bind, wp_call. intros k. apply wp_bind.
  eapply wp_event; [reflexivity|]. destruct (on_acquire env k) as [e|].
  - apply wp_bind, wp_ret, wp_ret. cbn [succeeded Z.b2z]. rewrite Z.add_0_r. apply He.
  - apply wp_bind, wp_held, wp_ret. cbn. rewrite Z.add_0_r. apply Hn.
Qed.

Lemma wp_release (Q : unit -> view -> Prop) s sl cn :
  0 < sl -> Q tt (seen s (sl - 1) cn false) -> wp release Q (seen s sl cn false).
Proof.
  intros Hs HQ. apply wp_bind. eapply wp_event; [allowed|]. apply wp_held. cbn. rewrite Z.add_0_r. apply HQ.
Qed.

Lemma wp_closeConnection (Q : unit -> view -> Prop) s sl cn :
  0 < cn ->
  Q tt (mkView s sl (cn - 1) (Z.b2z (pinnedConnection s)) (Some (mkMonitor sl (cn - 1) false false))) ->
  wp closeConnection Q (seen s sl cn false).
Proof.
  intros Hs HQ. apply wp_bind. eapply wp_event; [allowed|]. apply wp_held. cbn. rewrite Z.add_0_r. apply HQ.
Qed.

Lemma wp_discardConnection (Q : unit -> view -> Prop) s sl cn p f :
  0 < cn -> Q tt (mkView s sl (cn - 1) p (Some (mkMonitor sl (cn - 1) false false))) ->
  wp discardConnection Q (mkView s sl cn p (Some (mkMonitor sl cn f false))).
Proof.
  intros Hs HQ. apply wp_bind. eapply wp_event; [allowed|]. apply wp_held. cbn. rewrite Z.add_0_r. apply HQ.
Qed.

Lemma wp_checkout_loop n (Q : option go_error -> view -> Prop) s sl cn : 0 <= cn < sl ->
  (forall e, Q (Some e) (seen s sl cn false)) -> Q None (seen s sl (cn + 1) false) ->
  forall last, (n = O -> last <> None) -> wp (checkout_loop n last) Q (seen s sl cn false).
Proof.
  intros Hc He Hn. induction n as [|n IH]; intros last Hl; cbn [checkout_loop].
  { apply wp_ret. destruct last; [apply He|by destruct Hl]. }
  apply wp_bind. unfold open_and_reset. apply wp_bind, wp_call. intros k. apply wp_bind.
  eapply wp_event; [allowed|]. destruct (on_conn env k) as [e|]; cbn [succeeded Z.b2z].
  - apply wp_ret, wp_bind, wp_ret. rewrite Z.add_0_r. by apply IH.
  - apply wp_bind, wp_held, wp_bind, wp_call. intros k'. apply wp_bind. cbn.
    rewrite !Z.add_0_r. eapply wp_event; [reflexivity|]. apply wp_ret.
    destruct (on_reset env k') as [e|]; cbn [succeeded negb].
    + apply wp_bind, wp_bind. apply wp_discardConnection; [lia|]. apply wp_stats; [done|].
      replace (cn + 1 - 1) with cn by lia. by apply IH.
    + apply wp_ret, Hn.
Qed.

Lemma wp_checkout (Q : option go_error -> view -> Prop) s sl cn :
  0 <= cn < sl ->
  (forall e, Q (Some e) (seen s sl cn false)) -> Q None (seen s sl (cn + 1) false) ->
  wp checkout Q (seen s sl cn false).
Proof. intros Hc He Hn. by apply wp_checkout_loop. Qed.

(** The pinned connection and its slot are given back together. *)
Lemma wp_releasePinned discard (Q : unit -> view -> Prop) s k :
  pinnedRelease s = pinnedConnection s -> k = Z.b2z (pinnedConnection s) ->
  Q tt (seen (with_pin false false s) 0 0 false) ->
  wp (releasePinnedConnection discard) Q (seen s k k false).
Proof.
  intros Hr -> HQ. unfold releasePinnedConnection. apply wp_bind, wp_session. cbn [v_session seen].
  destruct s as [st t c p r ps nx]. cbn in *. subst r. destruct p; cbn.
  - apply wp_bind, wp_bind. destruct discard.
    all: first [apply (wp_discardConnection _ _ _ _ 1); [lia|] | apply wp_closeConnection; [lia|]];
      apply wp_bind, wp_modify, wp_pinned; cbn; apply wp_bind, wp_session; cbn;
      apply wp_bind, (wp_release _ (with_pin false true (mkSession st t c true true ps nx)) 1 0); [lia|];
      apply wp_modify, HQ.
  - apply wp_bind, wp_ret, wp_bind, wp_session. cbn. apply wp_ret, HQ.
Qed.

(** ** Sessions at rest *)

(** What a session holds between two commands. *)
Definition rest (s : clientSession) : view :=
  seen s (Z.b2z (pinnedConnection s)) (Z.b2z (pinnedConnection s)) (tx s).

Record in_order (s0 s : clientSession) : Prop := {
  io_closable : closable s;
  io_honest : honest s;
  io_next : nextPreparedID s <= nextPreparedID s0 + 1 }.

Definition after (s0 : clientSession) (r : option go_error) (v : view) : Prop :=
  exists s, v = rest s /\ closable s /\ nextPreparedID s <= nextPreparedID s0 + 1 /\ (r = None -> honest s).

Lemma after_in_order s0 s r : in_order s0 s -> after s0 r (rest s).
Proof. intros [H1 H2 H3]. by exists s. Qed.

(** A new logical state with the same prepared identifiers and transaction. *)
Definition refreshed (s s' : clientSession) : Prop :=
  exists l, s' = with_state (fun _ => l) s /\ Prepared l = Prepared (state s) /\
    InTransaction l = InTransaction (state s) /\ poisoned l = poisoned (state s).

Lemma refreshed_refl s : refreshed s s.
Proof. exists (state s). by destruct s. Qed.

Lemma refreshed_result s w i : refreshed s (with_state (fun l => SetResult l w i) s).
Proof. by eexists. Qed.

Lemma closable_refreshed s s' : refreshed s s' -> closable s -> closable s'.
Proof.
  intros (l & -> & Hp & Ht & _) [H1 H2 H3 H4 H5 H6 H7 H8]. split; cbn; try done.
  - by rewrite Hp. - by rewrite Ht.
Qed.

Lemma in_order_refreshed s0 s s' : refreshed s s' -> in_order s0 s -> in_order s0 s'.
Proof.
  intros Hr [H1 H2 H3]. split; [by eapply closable_refreshed|..].
  - destruct Hr as (l & -> & _ & Ht & Hp). unfold honest. cbn. by rewrite Ht, Hp.
  - by destruct Hr as (l & -> & _).
Qed.

Lemma rest_refreshed s s' : refreshed s s' ->
  rest s' = seen s' (Z.b2z (pinnedConnection s)) (Z.b2z (pinnedConnection s)) (tx s).
Proof. by intros (l & -> & _). Qed.

Lemma closable_in_order s : closable s -> honest s -> in_order s s.
Proof. intros H1 H2. split; [done|done|lia]. Qed.

(** [finishTransaction] leaves this session. *)
Definition finished (s : clientSession) : clientSession :=
  let s1 := with_prepared (fmap unbind) (with_tx false false s) in
  if decide (Prepared (state s) = ∅) then with_pin false false s1 else s1.

Lemma unbind_ok open p : statement_ok open p -> statement_ok false (unbind p).
Proof.
  intros [H1 H2 H3 H4 H5]. unfold unbind. destruct (ps_transactionBound p) eqn:E; split; cbn; try done.
  by rewrite E.
Qed.

Lemma prepared_empty s : closable s -> (Prepared (state s) = ∅ <-> prepared s = ∅).
Proof. intros H. rewrite <- (cl_prepared s H). apply dom_empty_iff_L. Qed.

Lemma fmap_empty_iff {A B} (f : A -> B) (m : gmap Z A) : f <$> m = ∅ <-> m = ∅.
Proof. apply fmap_empty_iff. Qed.

Lemma finished_fields s :
  tx (finished s) = false /\ txCancel (finished s) = false /\ state (finished s) = state s /\
  prepared (finished s) = unbind <$> prepared s /\ nextPreparedID (finished s) = nextPreparedID s.
Proof. unfold finished. by destruct (decide _). Qed.

Lemma closable_finished s : closable s -> pinnedConnection s = true -> closable (finished s).
Proof.
  intros Hc Hp. pose proof (prepared_empty s Hc) as He.
  destruct (finished_fields s) as (Ht & Hcancel & Hst & Hpr & Hn).
  pose proof Hc as [H1 H2 H3 H4 H5 H6 H7 H8]. split.
  - unfold finished. destruct (decide _); cbn; congruence.
  - congruence.
  - rewrite Ht, Hpr. cbn [orb]. unfold finished. destruct (decide _) as [Hd|Hd]; cbn.
    + rewrite bool_decide_eq_true_2; [done|]. apply fmap_empty_iff, He, Hd.
    + rewrite Hp, bool_decide_eq_false_2; [done|]. by rewrite fmap_empty_iff, <- He.
  - by rewrite Hpr, Hst, dom_fmap_L.
  - by rewrite Ht.
  - rewrite Hpr, Hn. intros id p (q & _ & Hq)%lookup_fmap_Some. by eapply H6.
  - rewrite Hpr, Ht. intros id p (q & Heq & Hq)%lookup_fmap_Some. subst p. by eapply unbind_ok, H7.
  - by rewrite Hn.
Qed.

Lemma wp_close_statement p (Q : unit -> view -> Prop) s sl cn t :
  0 < cn -> Q tt (seen s sl cn t) -> wp (close_statement p) Q (seen s sl cn t).
Proof.
  intros Hc HQ. unfold close_statement. destruct (ps_statement p) as [id|].
  - eapply wp_event; [allowed|exact HQ].
  - by apply wp_ret.
Qed.

Lemma wp_close_statements l (Q : unit -> view -> Prop) s sl cn t :
  0 < cn -> Q tt (seen s sl cn t) -> wp (close_statements l) Q (seen s sl cn t).
Proof.
  intros Hc HQ. induction l as [|p l IH]; cbn [close_statements]; [by apply wp_ret|].
  apply wp_bind, wp_close_statement; [done|exact IH].
Qed.

Lemma wp_finishTransaction (Q : unit -> view -> Prop) s :
  pinnedConnection s = true -> pinnedRelease s = true -> txCancel s = true ->
  Q tt (rest (finished s)) -> wp finishTransaction Q (seen s 1 1 false).
Proof.
  intros Hp Hr Hcancel HQ.
  destruct s as [st t c p r ps nx]. cbn in Hp, Hcancel, Hr. subst.
  unfold finishTransaction. apply wp_bind, wp_modify, wp_bind. cbn.
  unfold invalidateTransactionPrepared. apply wp_bind, wp_session, wp_bind. cbn.
  eapply (wp_close_statements _ _ (mkSession st false true true true ps nx) 1 1); [lia|].
  apply wp_modify. cbn. apply wp_bind, wp_session. cbn. apply wp_bind, wp_bind. unfold cancel_tx.
  eapply wp_event; [reflexivity|]. apply wp_modify. cbn. apply wp_bind, wp_session. cbn.
  unfold finished in HQ. cbn in HQ. destruct (decide _).
  - by apply (wp_releasePinned _ _ (mkSession st false false true true (unbind <$> ps) nx)).
  - apply wp_ret, HQ.
Qed.

(** [begin] leaves this session when it succeeds. *)
Definition opened (s : clientSession) : clientSession :=
  with_tx true true (with_pin true true (with_state (fun l => (Apply l (plain StatementBegin)).1) s)).

Lemma closable_opened s :
  closable s -> InTransaction (state s) = false -> closable (opened s).
Proof.
  intros [H1 H2 H3 H4 H5 H6 H7 H8] Hi. split; try done.
  - unfold opened, Apply. cbn. by case_match.
  - unfold opened, Apply. cbn. rewrite Hi. done.
  - intros id p Hp. destruct (H7 id p Hp) as [P1 P2 P3 P4 P5]. by split.
Qed.

Lemma wp_ensurePinned reason (Q : bool * option go_error -> view -> Prop) s :
  closable s -> (pinnedConnection s = true -> Q (false, None) (rest s)) ->
  (pinnedConnection s = false -> (forall e, Q (false, Some e) (rest s)) /\
    Q (true, None) (seen (with_pin true true s) 1 1 false)) ->
  wp (ensurePinnedConnection reason) Q (rest s).
Proof.
  intros Hc Ht Hf. unfold ensurePinnedConnection. apply wp_bind, wp_session. cbn.
  destruct (pinnedConnection s) eqn:E; [apply wp_ret; by apply Ht|]. destruct Hf as [He Hn]; [done|].
  assert (Ht0 : tx s = false) by (pose proof (cl_pinned s Hc) as H3; rewrite E in H3; by destruct (tx s)).
  unfold rest in *. rewrite E, Ht0 in *. cbn [Z.b2z] in *.
  apply wp_bind, wp_acquire; [intros e; apply wp_ret, He|].
  apply wp_bind, wp_checkout; [lia|..].
  - intros e. apply wp_bind, wp_release; [lia|]. apply wp_ret, He.
  - apply wp_bind, wp_modify, wp_bind, wp_pinned. cbn. rewrite E. cbn.
    apply wp_bind, quiet_recordPin. intros _. apply wp_ret, Hn.
Qed.

(** ** Transactions *)

Lemma wp_logical {A} (f : Logical -> Logical * A) (Q : A -> view -> Prop) s sl cn t :
  Q (f (state s)).2 (seen (with_state (fun _ => (f (state s)).1) s) sl cn t) ->
  wp (logical f) Q (seen s sl cn t).
Proof.
  intros HQ. unfold logical. apply wp_bind, wp_session. cbn. destruct (f (state s)) as [l a].
  apply wp_bind, wp_modify, wp_ret, HQ.
Qed.

Lemma apply_begin l :
  (InTransaction l = true /\ (Apply l (plain StatementBegin)).2 = Some TransactionActive /\
     (Apply l (plain StatementBegin)).1 = set_result 0 0 l) \/
  (InTransaction l = false /\ (Apply l (plain StatementBegin)).2 = None).
Proof. unfold Apply. cbn. destruct (InTransaction l); [left|right]; by split_and?. Qed.

(** Giving back a connection pinned by the failed call itself. *)
Lemma wp_release_created (created : bool) (Q : unit -> view -> Prop) s :
  pinnedConnection s = true -> pinnedRelease s = true -> tx s = false ->
  Q tt (rest (if created then with_pin false false s else s)) ->
  wp (if created then releasePinnedConnection false else mret tt) Q (seen s 1 1 false).
Proof.
  intros Hp Hr Ht HQ. destruct created.
  - apply wp_releasePinned; [congruence|by rewrite Hp|]. unfold rest in HQ; cbn in HQ; by rewrite Ht in HQ.
  - apply wp_ret. unfold rest in HQ. by rewrite Hp, Ht in HQ.
Qed.

Lemma wp_begin_pinned (created : bool) (Q : option go_error -> view -> Prop) s :
  pinnedConnection s = true -> pinnedRelease s = true -> tx s = false ->
  (forall e l, l = state s \/ l = set_result 0 0 (state s) ->
     Q (Some e) (rest (with_state (fun _ => l) (if created then with_pin false false s else s)))) ->
  (InTransaction (state s) = false -> Q None (rest (opened s))) ->
  wp (e ← call on_begin;
      _ ← note (BeginTx (succeeded e));
      match e with
      | Some e =>
          _ ← cancel_tx;
          _ ← (if created then releasePinnedConnection false else mret tt);
          mret (Some e)
      | None =>
          e ← logical (fun l => Apply l (plain StatementBegin));
          match e with
          | Some e =>
              _ ← rollback_tx;
              _ ← cancel_tx;
              _ ← (if created then releasePinnedConnection false else mret tt);
              mret (Some (illegal_error e))
          | None => _ ← modify_session (with_tx true true); mret None
          end
      end) Q (seen s 1 1 false).
Proof.
  intros Hp Hr Ht He Hn. apply wp_bind, wp_call. intros k. apply wp_bind.
  eapply wp_event; [reflexivity|]. destruct (on_begin env k) as [e|]; cbn [succeeded].
  - apply wp_bind. eapply wp_event; [reflexivity|]. apply wp_bind, wp_release_created; [done..|].
    apply wp_ret. specialize (He e (state s) (or_introl eq_refl)).
    replace (with_state _ _) with (if created then with_pin false false s else s) in He; [done|].
    by destruct created, s.
  - apply wp_bind, (wp_logical _ _ s 1 1 true). destruct (apply_begin (state s)) as [(Hi & -> & ->)|(Hi & ->)].
    + apply wp_bind. unfold rollback_tx. apply wp_bind, wp_call. intros k'. apply wp_bind.
      eapply wp_event; [reflexivity|]. apply wp_ret, wp_bind. eapply wp_event; [reflexivity|].
      apply wp_bind, (wp_release_created created _ (with_state (fun _ => set_result 0 0 (state s)) s)); [done..|].
      apply wp_ret. specialize (He (illegal_error TransactionActive) _ (or_intror eq_refl)).
      by destruct created.
    + apply wp_bind, wp_modify, wp_ret. specialize (Hn Hi). unfold rest in Hn. cbn in Hn.
      destruct s as [st t c p r ps nx]. cbn in Hp, Hr |- *. subst p r. exact Hn.
Qed.

Lemma refreshed_begin s l : l = state s \/ l = set_result 0 0 (state s) ->
  refreshed s (with_state (fun _ => l) s).
Proof. intros [->| ->]; by eexists. Qed.

Lemma unpinned s : pinnedConnection s = false -> pinnedRelease s = false ->
  with_pin false false (with_pin true true s) = s.
Proof. destruct s. cbn. by intros -> ->. Qed.

Lemma wp_begin (Q : option go_error -> view -> Prop) s :
  closable s -> tx s = false ->
  (forall e s', refreshed s s' -> Q (Some e) (rest s')) ->
  (InTransaction (state s) = false -> Q None (rest (opened s))) ->
  wp begin_ Q (rest s).
Proof.
  intros Hc Ht He Hn. pose proof (cl_release s Hc) as Hr. unfold begin_. apply wp_bind.
  apply wp_ensurePinned; [done|intros Hp|intros Hp; split].
  - rewrite Hp in Hr. unfold rest at 1. rewrite Hp, Ht. apply (wp_begin_pinned false); [done..| |done].
    intros e l Hl. by apply He, refreshed_begin.
  - intros e. apply wp_ret, He, refreshed_refl.
  - rewrite Hp in Hr. apply (wp_begin_pinned true); [done..| |].
    + intros e l Hl. apply He. rewrite (unpinned s Hp Hr). by apply refreshed_begin.
    + exact Hn.
Qed.

(** ** Statements *)

Lemma wp_then_sequence m k (Q : option go_error -> view -> Prop) v :
  quiet m -> (forall e, Q (Some e) v) -> (forall z, wp (k z) Q v) -> wp (then_sequence m k) Q v.
Proof. intros Hm He Hk. apply wp_bind, Hm. intros [z [e|]]; [apply wp_ret, He|apply Hk]. Qed.

Definition runnable (on : handle) (cn sl : Z) (t : bool) : Prop :=
  0 < cn <= sl /\ match on with OnTx => t = true | OnPinned | OnPooled => t = false end.

Lemma runnable_runs on cn sl t :
  runnable on cn sl t -> runs_on on (mkMonitor sl cn false t) = true.
Proof.
  intros [Hc Ht]. unfold runs_on, usable. cbn.
  rewrite (proj2 (Z.ltb_lt _ _)), (proj2 (Z.leb_le _ _)) by lia. by destruct on; subst t.
Qed.

Lemma wp_on_note e on (Q : unit -> view -> Prop) s sl cn t :
  (forall m, observe m e = allow (runs_on on m) m) -> runnable on cn sl t ->
  Q tt (seen s sl cn t) -> wp (note e) Q (seen s sl cn t).
Proof.
  intros He Hr HQ. eapply wp_event; [|exact HQ]. by rewrite He, (runnable_runs _ _ _ _ Hr).
Qed.

Lemma wp_readWarningCount on (Q : answer Z -> view -> Prop) s sl cn t :
  runnable on cn sl t -> (forall r, Q r (seen s sl cn t)) ->
  wp (readWarningCount on) Q (seen s sl cn t).
Proof.
  intros Hr HQ. apply wp_bind, wp_call. intros n. apply wp_bind.
  apply (wp_on_note _ on); [by intros []|done|]. apply wp_ret, HQ.
Qed.

Lemma wp_set_result w i (Q : unit -> view -> Prop) s sl cn t :
  (forall s', refreshed s s' -> Q tt (seen s' sl cn t)) ->
  wp (modify_session (with_state (fun l => SetResult l w i))) Q (seen s sl cn t).
Proof. intros HQ. apply wp_modify. apply (HQ (with_state _ s)), refreshed_result. Qed.

Lemma wp_finish_exec on result (Q : option go_error -> view -> Prop) s sl cn t :
  runnable on cn sl t -> (forall r s', refreshed s s' -> Q r (seen s' sl cn t)) ->
  wp (finish_exec on result) Q (seen s sl cn t).
Proof.
  intros Hr HQ. unfold finish_exec.
  assert (Herr : forall e, wp (writeSQLError e) Q (seen s sl cn t))
    by (intros e; apply quiet_writeSQLErrorAt; intros r; apply HQ, refreshed_refl).
  destruct result as [e|[affected insertID]]; [apply Herr|].
  apply wp_bind, wp_readWarningCount; [done|]. intros [e|warnings]; [apply Herr|].
  apply wp_bind, wp_set_result. intros s' Hs'. apply quiet_write_ok. intros r. by apply HQ.
Qed.

Lemma wp_write_columns database k (Q : option go_error -> view -> Prop) v l : forall sequence,
  (forall e, Q (Some e) v) -> (forall z, wp (k z) Q v) ->
  wp (write_columns database l sequence k) Q v.
Proof.
  induction l as [|[name type] l IH]; intros sequence He Hk; cbn [write_columns]; [apply Hk|].
  apply wp_then_sequence; [apply quiet_write|done|]. intros z. by apply IH.
Qed.

Lemma wp_write_rows encode k (Q : option go_error -> view -> Prop) v n l : forall sequence,
  (forall values, length values = n -> no_panic (encode values)) ->
  Forall (fun scan => match scan with inr vs => length vs = n | inl _ => True end) l ->
  (forall r, Q r v) -> (forall z, wp (k z) Q v) ->
  wp (write_rows encode l sequence k) Q v.
Proof.
  intros sequence Henc Hl HQ Hk. revert sequence.
  induction Hl as [|[e|values] l Hv Hl IH]; intros sequence; cbn [write_rows]; [apply Hk|..].
  - by apply quiet_writeSQLErrorAt.
  - pose proof (Henc values Hv) as Hn. destruct (encode values) as [payload|e|]; [|by apply quiet_writeSQLErrorAt|done].
    apply wp_then_sequence; [apply quiet_write|done|]. intros z. apply IH.
Qed.

Definition encodes (encode : list (string * ColumnType) -> list value -> outcome go_error (list byte)) : Prop :=
  forall columns values, length values = length columns -> no_panic (encode columns values).

Lemma wp_write_results encode on r (Q : option go_error -> view -> Prop) s sl cn t :
  encodes encode -> rows_ok r -> runnable on cn sl t ->
  (forall e s', refreshed s s' -> Q e (seen s' sl cn t)) ->
  wp (write_results encode on r) Q (seen s sl cn t).
Proof.
  intros Henc Hrows Hr HQ. unfold write_results.
  assert (H0 : forall e, Q e (seen s sl cn t)) by (intros e; apply HQ, refreshed_refl).
  assert (Herr : forall z e, wp (writeSQLErrorAt z e) Q (seen s sl cn t))
    by (intros z e; by apply quiet_writeSQLErrorAt).
  destruct (columns_error r) as [e|]; [apply Herr|]. destruct (types_error r) as [e|]; [apply Herr|].
  apply wp_bind, wp_asks. apply wp_then_sequence; [apply quiet_write|done|]. intros z.
  apply wp_write_columns; [done|]. intros z1. apply wp_bind, quiet_status. intros st.
  apply wp_then_sequence; [apply quiet_write|done|]. intros z2.
  eapply wp_write_rows; [|exact Hrows|done|]; [intros values Hv; by apply Henc|]. intros z3.
  destruct (rows_err r); [apply Herr|]. destruct (close_err r); [apply Herr|].
  apply wp_bind, wp_readWarningCount; [done|]. intros [e|warnings]; [apply Herr|].
  apply wp_bind, wp_set_result. intros s' Hs'. apply wp_bind, quiet_status. intros st'.
  apply wp_then_sequence; [apply quiet_write|intros e; by apply HQ|]. intros z4. apply wp_ret. by apply HQ.
Qed.

Lemma wp_reply_rows encode on n (Q : option go_error -> view -> Prop) s sl cn t :
  encodes encode -> runnable on cn sl t ->
  (forall e s', refreshed s s' -> Q e (seen s' sl cn t)) ->
  wp (reply_rows encode on (on_query env n)) Q (seen s sl cn t).
Proof.
  intros Henc Hr HQ. unfold reply_rows. destruct (on_query env n) as [e|r] eqn:E.
  - apply quiet_writeSQLErrorAt. intros r. apply HQ, refreshed_refl.
  - apply wp_write_results; [done| |done|done]. by eapply Henv.
Qed.

Lemma text_encodes : encodes (fun columns => text_payload columns).
Proof. done. Qed.

(** A pooled statement brackets its slot and its connection. *)
Lemma wp_pooled {A} n (run : M A) (finish : A -> M (option go_error)) (slot_first : bool)
    (Q : option go_error -> view -> Prop) s :
  closable s -> tx s = false ->
  (forall k (R : option go_error -> view -> Prop), 0 < k ->
     (forall r s', refreshed s s' -> R r (seen s' k k false)) ->
     wp (a ← run; finish a) R (seen s k k false)) ->
  (forall r s', refreshed s s' -> Q r (rest s')) ->
  wp (e ← acquire n;
      match e with
      | Some e => writeSQLError e
      | None =>
          e ← checkout;
          match e with
          | Some e => r ← writeSQLError e; _ ← release; mret r
          | None =>
              a ← run;
              r ← finish a;
              _ ← (if slot_first then release else closeConnection);
              _ ← (if slot_first then closeConnection else release);
              mret r
          end
      end) Q (rest s).
Proof.
  intros Hc Ht Hrun HQ. unfold rest at 1. rewrite Ht. set (k := Z.b2z (pinnedConnection s)).
  assert (Hk : 0 <= k <= 1) by (unfold k; destruct (pinnedConnection s); cbn; lia).
  assert (HQ' : forall r s', refreshed s s' -> Q r (seen s' k k false)).
  { intros r s' Hs. specialize (HQ r s' Hs). by rewrite (rest_refreshed _ _ Hs), Ht in HQ. }
  apply wp_bind, wp_acquire.
  { intros e. apply quiet_writeSQLErrorAt. intros r. apply HQ', refreshed_refl. }
  apply wp_bind, wp_checkout; [lia|..].
  { intros e. apply wp_bind, quiet_writeSQLErrorAt. intros r. apply wp_bind, wp_release; [lia|].
    replace (k + 1 - 1) with k by lia. apply wp_ret, HQ', refreshed_refl. }
  apply (wp_assoc run finish). apply wp_bind, Hrun; [lia|]. intros r s' Hs.
  specialize (HQ' r s' Hs). destruct slot_first.
  - apply wp_bind, wp_release; [lia|]. apply wp_bind, wp_closeConnection; [lia|].
    replace (k + 1 - 1) with k by lia. apply wp_ret, HQ'.
  - apply wp_bind, wp_closeConnection; [lia|]. replace (k + 1 - 1) with k by lia.
    apply wp_bind, (wp_release _ s' (k + 1) k); [lia|]. replace (k + 1 - 1) with k by lia. apply wp_ret, HQ'.
Qed.

Lemma wp_exec sql (transactional : bool) (Q : option go_error -> view -> Prop) s :
  closable s -> tx s = transactional -> (forall r s', refreshed s s' -> Q r (rest s')) ->
  wp (exec sql transactional) Q (rest s).
Proof.
  intros Hc Ht HQ. unfold exec. destruct transactional.
  - pose proof (cl_pinned s Hc) as Hp. rewrite Ht in Hp. cbn in Hp.
    unfold rest. rewrite Hp, Ht. apply wp_bind. unfold exec_on. apply wp_bind, wp_call. intros k.
    apply wp_bind, (wp_on_note _ OnTx); [by intros []|by split|]. apply wp_ret.
    apply wp_finish_exec; [by split|]. intros r s' Hs.
    specialize (HQ r s' Hs). by rewrite (rest_refreshed _ _ Hs), Hp, Ht in HQ.
  - apply (wp_pooled _ (exec_on OnPooled sql) (finish_exec OnPooled) false); [done..| |done].
    intros k R Hk HR. apply wp_bind. unfold exec_on. apply wp_bind, wp_call. intros n.
    apply wp_bind, (wp_on_note _ OnPooled); [by intros []|by repeat split|]. apply wp_ret.
    apply wp_finish_exec; [by repeat split|done].
Qed.

Lemma wp_rows sql (Q : option go_error -> view -> Prop) s :
  closable s -> (forall r s', refreshed s s' -> Q r (rest s')) ->
  wp (rows sql) Q (rest s).
Proof.
  intros Hc HQ. unfold rows. apply wp_bind, wp_session. cbn [v_session rest seen].
  destruct (tx s) eqn:Ht.
  - pose proof (cl_pinned s Hc) as Hp. rewrite Ht in Hp. cbn in Hp.
    unfold rest. rewrite Hp, Ht. apply wp_bind. unfold query_on. apply wp_bind, wp_call. intros k.
    apply wp_bind, (wp_on_note _ OnTx); [by intros []|by split|]. apply wp_ret.
    apply wp_reply_rows; [apply text_encodes|by split|]. intros r s' Hs.
    specialize (HQ r s' Hs). by rewrite (rest_refreshed _ _ Hs), Hp, Ht in HQ.
  - apply (wp_pooled _ (query_on OnPooled sql) (reply_rows text_payload OnPooled) true); [done..| |done].
    intros k R Hk HR. apply wp_bind. unfold query_on. apply wp_bind, wp_call. intros n.
    apply wp_bind, (wp_on_note _ OnPooled); [by intros []|by repeat split|]. apply wp_ret.
    apply wp_reply_rows; [apply text_encodes|by repeat split|done].
Qed.

(** ** Handlers *)

(** A handler run on a session in order leaves it in order; if it ends the
    session with an error, the session can still be closed. *)
Definition handles (m : M (option go_error)) : Prop := forall s,
  in_order s s -> nextPreparedID s + 1 < 2 ^ 32 -> wp m (after s) (rest s).

Lemma handles_quiet m : quiet m -> handles m.
Proof. intros Hm s Hs _. apply Hm. intros r. by apply after_in_order. Qed.

Lemma in_order_opened s0 s : in_order s0 s -> InTransaction (state s) = false -> in_order s0 (opened s).
Proof.
  intros [H1 H2 H3] Hi. split; [by apply closable_opened| |by unfold opened].
  intros _. by left.
Qed.

(** Applying a statement that leaves the transaction flag to the caller. *)
Lemma closable_with_state f s : Prepared (f (state s)) = Prepared (state s) ->
  (tx s = true -> InTransaction (f (state s)) = true) -> closable s -> closable (with_state f s).
Proof. intros Hp Ht [H1 H2 H3 H4 H5 H6 H7 H8]. split; cbn; try done. by rewrite Hp. Qed.

Lemma finished_state f s : Prepared (f (state s)) = Prepared (state s) ->
  finished (with_state f s) = with_state f (finished s).
Proof. intros Hp. unfold finished. cbn. rewrite Hp. by destruct (decide _). Qed.

(** The session after its transaction: [f] has cleared the flag or poisoned it. *)
Lemma in_order_ended s0 f s : in_order s0 s -> tx s = true ->
  Prepared (f (state s)) = Prepared (state s) ->
  (InTransaction (f (state s)) = true -> poisoned (f (state s)) = true) ->
  in_order s0 (with_state f (finished s)).
Proof.
  intros [H1 H2 H3] Ht Hp Hi. destruct (finished_fields s) as (Ht' & _ & Hs & _ & Hn). split.
  - apply closable_with_state; rewrite ?Hs; [done|congruence|].
    apply closable_finished; [done|]. by rewrite (cl_pinned s H1), Ht.
  - unfold honest. cbn. rewrite Hs. auto.
  - cbn. by rewrite Hn.
Qed.

Lemma in_transaction_seen s : closable s -> tx s = true ->
  rest s = seen s 1 1 true /\ pinnedConnection s = true /\ pinnedRelease s = true /\ txCancel s = true.
Proof.
  intros Hc Ht. pose proof (cl_pinned s Hc) as Hp. rewrite Ht in Hp. cbn in Hp.
  pose proof (cl_release s Hc) as Hr. pose proof (cl_cancel s Hc) as Hx. unfold rest.
  rewrite Hp, Ht in *. done.
Qed.

Lemma wp_commit_tx (Q : option go_error -> view -> Prop) s sl cn :
  (forall e, Q e (seen s sl cn false)) -> wp commit_tx Q (seen s sl cn true).
Proof.
  intros HQ. apply wp_bind, wp_call. intros k. apply wp_bind.
  eapply wp_event; [reflexivity|]. apply wp_ret, HQ.
Qed.

Lemma wp_rollback_tx (Q : option go_error -> view -> Prop) s sl cn :
  (forall e, Q e (seen s sl cn false)) -> wp rollback_tx Q (seen s sl cn true).
Proof.
  intros HQ. apply wp_bind, wp_call. intros k. apply wp_bind.
  eapply wp_event; [reflexivity|]. apply wp_ret, HQ.
Qed.

(** After [finishTransaction] the logical state may still be poisoned. *)
Lemma wp_finish_poison {A} (k : M A) (Q : A -> view -> Prop) s :
  closable s -> tx s = true ->
  wp k Q (rest (with_state Poison (finished s))) ->
  wp (_ ← finishTransaction; _ ← poison; k) Q (seen s 1 1 false).
Proof.
  intros Hc Ht Hk. destruct (in_transaction_seen s Hc Ht) as (_ & Hp & Hr & Hx).
  apply wp_bind, wp_finishTransaction; [done..|]. by apply wp_bind, wp_modify.
Qed.

Lemma in_order_poison s : in_order s s -> tx s = true -> in_order s (with_state Poison (finished s)).
Proof. intros Hs Ht. by apply in_order_ended. Qed.

Lemma quiet_hook (Q : option go_error -> view -> Prop) s :
  tx s = false -> (forall e, Q e (rest s)) -> wp runBeforeCommitResponse Q (rest s).
Proof.
  intros Ht HQ. unfold rest in *. rewrite Ht in *. apply wp_bind, wp_call. intros k. apply wp_bind.
  eapply wp_event; [reflexivity|]. apply wp_ret, HQ.
Qed.

Lemma wp_then_ok m k (Q : option go_error -> view -> Prop) v :
  wp m (fun r v' => match r with Some e => Q (Some e) v' | None => wp k Q v' end) v ->
  wp (then_ok m k) Q v.
Proof.
  intros H. apply wp_bind. eapply wp_mono; [exact H|]. intros [e|] v' H'; [by apply wp_ret|done].
Qed.

Lemma wp_finish_with f (Q : unit -> view -> Prop) s :
  closable s -> tx s = true -> Prepared (f (state s)) = Prepared (state s) ->
  Q tt (rest (with_state f (finished s))) ->
  wp finishTransaction Q (seen (with_state f s) 1 1 false).
Proof.
  intros Hc Ht Hp HQ. destruct (in_transaction_seen s Hc Ht) as (_ & H1 & H2 & H3).
  apply wp_finishTransaction; [done..|]. by rewrite finished_state.
Qed.

Lemma commit_handles : handles commit.
Proof.
  intros s Hs _. pose proof (io_closable _ _ Hs) as Hc. unfold commit.
  apply wp_bind, wp_session. cbn [v_session rest seen].
  destruct (tx s) eqn:Ht; cbn [negb]; [|apply quiet_write_ok; intros r; by apply after_in_order].
  rewrite (proj1 (in_transaction_seen s Hc Ht)). apply wp_bind, wp_commit_tx. intros [e|].
  { apply wp_finish_poison; [done..|]. apply wp_ret, after_in_order. by apply in_order_poison. }
  apply wp_bind, (wp_logical _ _ s 1 1 false). cbn [Apply snd fst st_kind plain].
  apply wp_bind, wp_stats; [done|]. apply wp_bind.
  apply (wp_finish_with (fun l => (Apply l (plain StatementCommit)).1)); [done..|].
  assert (Ha : forall r, after s r (rest (with_state (fun l => (Apply l (plain StatementCommit)).1) (finished s))))
    by (intros r; by apply after_in_order, in_order_ended).
  apply wp_then_ok, quiet_hook; [by cbn; rewrite (proj1 (finished_fields s))|].
  intros [e|]; [apply Ha|]. by apply quiet_write_ok.
Qed.

Lemma rollback_handles : handles rollback.
Proof.
  intros s Hs _. pose proof (io_closable _ _ Hs) as Hc. unfold rollback.
  apply wp_bind, wp_session. cbn [v_session rest seen].
  destruct (tx s) eqn:Ht; cbn [negb]; [|apply quiet_write_ok; intros r; by apply after_in_order].
  rewrite (proj1 (in_transaction_seen s Hc Ht)). apply wp_bind, wp_rollback_tx. intros e.
  destruct (match e with Some TxDone | None => false | Some _ => true end).
  { apply wp_finish_poison; [done..|].
    assert (Ha : forall r, after s r (rest (with_state Poison (finished s))))
      by (intros r; by apply after_in_order, in_order_poison).
    destruct e; [by apply quiet_writeSQLErrorAt|by apply wp_ret]. }
  apply wp_bind, (wp_logical _ _ s 1 1 false). cbn [Apply snd fst st_kind plain]. apply wp_bind.
  apply (wp_finish_with (fun l => (Apply l (plain StatementRollback)).1)); [done..|].
  apply quiet_write_ok. intros r. by apply after_in_order, in_order_ended.
Qed.

Lemma after_refreshed s0 s s' r : in_order s0 s -> refreshed s s' -> after s0 r (rest s').
Proof. intros H1 H2. eapply after_in_order, in_order_refreshed; [exact H2|exact H1]. Qed.

(** A logical step that touches neither the transaction flag nor the prepared
    identifiers. *)
Lemma wp_logical_rest {A} (f : Logical -> Logical * A) (Q : A -> view -> Prop) s :
  Prepared (f (state s)).1 = Prepared (state s) ->
  InTransaction (f (state s)).1 = InTransaction (state s) ->
  poisoned (f (state s)).1 = poisoned (state s) ->
  (forall s', refreshed s s' -> Q (f (state s)).2 (rest s')) ->
  wp (logical f) Q (rest s).
Proof.
  intros H1 H2 H3 HQ. apply (wp_logical f). apply (HQ (with_state _ s)). by eexists.
Qed.

Lemma initDatabase_handles database : handles (initDatabase database).
Proof.
  intros s Hs _. unfold initDatabase. apply wp_bind, wp_asks.
  assert (Hq : forall m, quiet m -> wp m (after s) (rest s))
    by (intros m Hm; apply Hm; intros r; by apply after_in_order).
  destruct (_ || _) eqn:E; [apply Hq, quiet_writeError|].
  apply wp_bind, wp_logical_rest;
    [unfold SelectDatabase; by destruct (String.eqb database "")..|].
  intros s' Hs'. destruct (SelectDatabase _ _).2.
  - apply quiet_writeError. intros r. by eapply after_refreshed.
  - apply quiet_write_ok. intros r. by eapply after_refreshed.
Qed.

Lemma quiet_warningCount : quiet warningCount.
Proof.
  intros Q v HQ. unfold warningCount. apply wp_bind, wp_asks.
  do 2 (apply wp_then_sequence; [apply quiet_write|done|intros ?]).
  apply wp_bind, quiet_status. intros st. apply wp_then_sequence; [apply quiet_write|done|intros ?].
  apply wp_bind, wp_session. apply wp_then_sequence; [apply quiet_write|done|intros ?].
  apply wp_bind, quiet_status. intros st'. apply wp_then_sequence; [apply quiet_write|done|intros ?].
  by apply wp_ret.
Qed.

Lemma wp_transition statement code sqlState message (Q : option go_error -> view -> Prop) s :
  (forall r, Q r (rest (with_state (fun l => (Apply l statement).1) s))) ->
  wp (transition statement code sqlState message) Q (rest s).
Proof.
  intros HQ. apply wp_bind, (wp_logical (fun l => Apply l statement)).
  destruct (Apply (state s) statement).2; [by apply quiet_writeError|by apply quiet_write_ok].
Qed.

Lemma apply_neutral_refreshed statement s :
  match st_kind statement with StatementAutocommitOff | StatementSetNames | StatementSavepoint => True | _ => False end ->
  refreshed s (with_state (fun l => (Apply l statement).1) s).
Proof.
  intros Hk. exists ((Apply (state s) statement).1). split; [done|].
  unfold Apply. destruct (st_kind statement); try done; cbn.
  change (InTransaction (set_result 0 0 (state s))) with (InTransaction (state s)).
  destruct (InTransaction (state s)) eqn:E; cbn; by rewrite ?E.
Qed.

Lemma in_order_autocommit s0 s statement : st_kind statement = StatementAutocommitOn ->
  closable s -> tx s = false -> nextPreparedID s <= nextPreparedID s0 + 1 ->
  in_order s0 (with_state (fun l => (Apply l statement).1) s).
Proof.
  intros Hk Hc Ht Hn. unfold Apply. rewrite Hk. split; [|done|done].
  apply closable_with_state; [done|by rewrite Ht|done].
Qed.

Lemma autocommit_handles statement code sqlState message : st_kind statement = StatementAutocommitOn ->
  handles (then_ok autocommit_commit (transition statement code sqlState message)).
Proof.
  intros Hk s Hs _. pose proof (io_closable _ _ Hs) as Hc. pose proof (io_next _ _ Hs) as Hn.
  assert (Hend : forall s', closable s' -> tx s' = false -> nextPreparedID s' <= nextPreparedID s + 1 ->
    wp (transition statement code sqlState message) (after s) (rest s')).
  { intros s' H1 H2 H3. apply wp_transition. intros r. by apply after_in_order, in_order_autocommit. }
  apply wp_then_ok. unfold autocommit_commit. apply wp_bind, wp_session. cbn [v_session rest seen].
  destruct (tx s) eqn:Ht; [|apply wp_ret; by apply Hend].
  rewrite (proj1 (in_transaction_seen s Hc Ht)). apply wp_bind, wp_commit_tx. intros [e|].
  { apply wp_finish_poison; [done..|]. apply wp_ret, after_in_order. by apply in_order_poison. }
  destruct (in_transaction_seen s Hc Ht) as (_ & Hp & Hr & Hx).
  destruct (finished_fields s) as (Ht' & _ & _ & _ & Hn').
  apply wp_bind, wp_stats; [done|]. apply wp_bind, wp_finishTransaction; [done..|].
  apply quiet_hook; [done|]. intros [e|].
  - exists (finished s). split_and!; [done|by apply closable_finished|lia|done].
  - apply Hend; [by apply closable_finished|done|lia].
Qed.

Lemma wp_ensureImplicit (Q : option go_error -> view -> Prop) s0 s : in_order s0 s ->
  (forall e s', in_order s0 s' -> Q (Some e) (rest s')) ->
  (forall s', in_order s0 s' -> prepared s' = prepared s -> Q None (rest s')) ->
  wp ensureImplicitTransaction Q (rest s).
Proof.
  intros Hs He Hn. unfold ensureImplicitTransaction. apply wp_bind, wp_session. cbn [v_session rest seen].
  destruct (Autocommit (state s)); cbn [negb andb]; [by apply wp_ret, Hn|].
  destruct (tx s) eqn:Ht; cbn [negb]; [by apply wp_ret, Hn|].
  apply wp_begin; [apply Hs|done|..].
  - intros e s' Hs'. by eapply He, in_order_refreshed.
  - intros Hi. apply Hn; [by apply in_order_opened|done].
Qed.

Lemma begin_handles : handles (
  s ← get_session;
  if tx s then writeError 1 1192 "25000" "transaction is already active" else
  e ← begin_;
  match e with Some e => writeSQLError e | None => write_ok 0 0 0 end).
Proof.
  intros s Hs _. apply wp_bind, wp_session. cbn [v_session rest seen]. destruct (tx s) eqn:Ht.
  { apply quiet_writeError. intros r. by apply after_in_order. }
  apply wp_bind, wp_begin; [apply Hs|done|..].
  - intros e s' Hs'. apply quiet_writeSQLErrorAt. intros r. by eapply after_refreshed.
  - intros Hi. apply quiet_write_ok. intros r. by apply after_in_order, in_order_opened.
Qed.

Lemma query_handles sql : handles (query sql).
Proof.
  unfold query. set (statement := ClassifySQL sql). destruct (st_kind statement) eqn:Hk.
  all: try (apply handles_quiet, quiet_writeError).
  all: try apply begin_handles.
  all: try apply commit_handles.
  all: try apply rollback_handles.
  all: try by apply autocommit_handles.
  all: try (apply handles_quiet, quiet_warningCount).
  all: try (intros s Hs _; apply wp_transition; intros r;
            eapply after_refreshed; [done|]; apply apply_neutral_refreshed; by rewrite Hk).
  all: try (destruct (fields (st_sql statement)) as [|? [|name [|? ?]]];
            try (apply handles_quiet, quiet_writeError); apply initDatabase_handles).
  - intros s Hs Hn. apply wp_bind, (wp_ensureImplicit _ s s); [done|..].
    + intros e s' Hs'. apply quiet_writeSQLErrorAt. intros r. by apply after_in_order.
    + intros s' Hs' _. apply wp_rows; [apply Hs'|]. intros r s2. by apply after_refreshed.
  - intros s Hs Hn. apply wp_bind, (wp_ensureImplicit _ s s); [done|..].
    + intros e s' Hs'. apply quiet_writeSQLErrorAt. intros r. by apply after_in_order.
    + intros s' Hs' _. apply wp_bind, wp_session. apply wp_exec; [apply Hs'|done|].
      intros r s2. by apply after_refreshed.
  - intros s Hs Hn. apply wp_bind, wp_session. cbn [v_session rest seen]. destruct (tx s) eqn:Ht.
    + apply quiet_writeError. intros r. by apply after_in_order.
    + apply wp_exec; [apply Hs|done|]. intros r s2. by apply after_refreshed.
  - intros s Hs Hn. apply wp_bind, (wp_logical (fun l => Apply l statement)), wp_bind, wp_session.
    pose proof (apply_neutral_refreshed statement s ltac:(by rewrite Hk)) as Hr.
    cbn [v_session seen]. set (s' := with_state _ s) in *.
    change (seen s' _ _ _) with (rest s'). destruct (negb (tx s') || _) eqn:E.
    + apply quiet_writeError. intros r. by eapply after_refreshed.
    + apply orb_false_iff in E as [E _]. apply negb_false_iff in E.
      pose proof (in_order_refreshed s s s' Hr Hs) as Hs'.
      apply wp_exec; [apply Hs'|done|]. intros r s2. by apply after_refreshed.
  - intros s Hs _. apply wp_bind, quiet_recordRejection. intros _. apply quiet_writeError.
    intros r. by apply after_in_order.
Qed.

(** ** Prepared statements *)

Lemma wp_pin reason (Q : bool * option go_error -> view -> Prop) s :
  closable s -> (forall b e, Q (b, Some e) (rest s)) ->
  (forall b, Q (b, None) (seen (with_pin true true s) 1 1 (tx s))) ->
  wp (ensurePinnedConnection reason) Q (rest s).
Proof.
  intros Hc He Hn. apply wp_ensurePinned; [done|intros Hp|intros Hp; split; [by intros e|]].
  - specialize (Hn false). pose proof (cl_release s Hc) as Hr. rewrite Hp in Hr. unfold rest.
    destruct s as [st t c p r ps nx]. cbn in Hp, Hr. subst. exact Hn.
  - specialize (Hn true). pose proof (cl_pinned s Hc) as Ht. rewrite Hp in Ht. by destruct (tx s).
Qed.

Lemma wp_prepareOn sql (Q : answer nat -> view -> Prop) s sl cn :
  0 < cn <= sl -> (forall r, Q r (seen s sl cn (tx s))) ->
  wp (prepareOnCurrentConnection sql) Q (seen s sl cn (tx s)).
Proof.
  intros Hc HQ. unfold prepareOnCurrentConnection. apply wp_bind, wp_session, wp_bind, wp_call.
  intros n. cbn [v_session seen]. apply wp_bind, (wp_on_note _ (if tx s then OnTx else OnPinned)).
  - by intros [].
  - by destruct (tx s).
  - apply wp_ret, HQ.
Qed.

Lemma holding s : closable s -> prepared s <> ∅ ->
  rest s = seen s 1 1 (tx s) /\ pinnedConnection s = true /\ pinnedRelease s = true.
Proof.
  intros Hc Hp. pose proof (cl_pinned s Hc) as H. pose proof (cl_release s Hc) as Hr.
  rewrite (bool_decide_eq_false_2 _ Hp), orb_true_r in H. unfold rest. rewrite H in *. done.
Qed.

Lemma lookup_not_empty {A} (m : gmap Z A) i x : m !! i = Some x -> m <> ∅.
Proof. intros H ->. by rewrite lookup_empty in H. Qed.

Lemma alter_empty {A} (f : A -> A) i (m : gmap Z A) : alter f i m = ∅ <-> m = ∅.
Proof. by rewrite <- !(dom_empty_iff_L (D := gset Z)), dom_alter_L. Qed.

Lemma in_order_alter s0 s id f : in_order s0 s ->
  (forall p, prepared s !! id = Some p -> statement_ok (tx s) p -> statement_ok (tx s) (f p)) ->
  in_order s0 (with_prepared (alter f id) s).
Proof.
  intros [[H1 H2 H3 H4 H5 H6 H7 H8] Hh Hn] Hf. split; [split; cbn; try done|done|done].
  - rewrite H3. f_equal. f_equal. apply bool_decide_ext. by rewrite alter_empty.
  - by rewrite dom_alter_L.
  - intros i p Hi. destruct (decide (i = id)) as [->|Hne].
    + rewrite lookup_alter_eq in Hi. apply fmap_Some in Hi as (q & Hq & _). by eapply H6.
    + rewrite lookup_alter_ne in Hi by done. by eapply H6.
  - intros i p Hi. destruct (decide (i = id)) as [->|Hne].
    + rewrite lookup_alter_eq in Hi. apply fmap_Some in Hi as (q & Hq & ->). eauto.
    + rewrite lookup_alter_ne in Hi by done. by eapply H7.
Qed.

Lemma wp_alter id f (Q : unit -> view -> Prop) s :
  Q tt (rest (with_prepared (alter f id) s)) -> wp (alter_prepared id f) Q (rest s).
Proof. intros HQ. apply wp_modify, HQ. Qed.

Lemma next_id_succ n : 0 <= n -> n + 1 < 2 ^ 32 -> next_id n = n + 1.
Proof.
  intros H1 H2. unfold next_id, u32. rewrite Z.mod_small by lia.
  destruct (Z.eqb_spec (n + 1) 0); [lia|done].
Qed.

(** The session with a statement added under the next identifier. *)
Definition added (p : preparedStatement) (s : clientSession) : clientSession :=
  with_state (fun l => set_prepared ({[nextPreparedID s + 1]} ∪ Prepared l) l)
    (with_prepared (<[nextPreparedID s + 1 := p]>)
       (with_next (nextPreparedID s + 1) (with_pin true true s))).

Lemma in_order_added s p : in_order s s -> statement_ok (tx s) p -> in_order s (added p s).
Proof.
  intros [[H1 H2 H3 H4 H5 H6 H7 H8] Hh Hn] Hp. split; [split; cbn; try done|done|by cbn; lia].
  - by rewrite (bool_decide_eq_false_2 _ (insert_non_empty _ _ _)), orb_true_r.
  - by rewrite dom_insert_L, H4.
  - apply map_Forall_insert_2; [lia|]. intros i q Hq. specialize (H6 i q Hq). cbn in H6. lia.
  - by apply map_Forall_insert_2.
  - lia.
Qed.

Lemma add_prepared_fresh s : in_order s s ->
  AddPrepared (state s) (nextPreparedID s + 1) =
  (set_prepared ({[nextPreparedID s + 1]} ∪ Prepared (state s)) (state s), None).
Proof.
  intros [[H1 H2 H3 H4 H5 H6 H7 H8] _ _]. unfold AddPrepared.
  destruct (Z.eqb_spec (nextPreparedID s + 1) 0); [lia|].
  rewrite decide_False; [done|]. rewrite <- H4. intros (p & Hp)%elem_of_dom.
  specialize (H6 _ _ Hp). cbn in H6. lia.
Qed.

Lemma fresh_statement_ok open sql count statement : 0 <= count ->
  statement_ok open (mkPrepared sql
    (mkParameters count (repeat (mkType 0 false) (Z.to_nat count)) ∅) 0 false (Some statement) open).
Proof.
  intros Hc. split; cbn; [|done|done| |by destruct open].
  - split; [done|]. apply repeat_length.
  - apply map_Forall_empty.
Qed.

Lemma wp_write_parameters k n (Q : option go_error -> view -> Prop) v : forall sequence,
  (forall e, Q (Some e) v) -> (forall z, wp (k z) Q v) -> wp (write_parameters n sequence k) Q v.
Proof.
  induction n as [|n IH]; intros sequence He Hk; cbn [write_parameters]; [apply Hk|].
  apply wp_then_sequence; [apply quiet_write|done|]. intros z. by apply IH.
Qed.

Lemma count_step_nonneg c b : 0 <= count c -> 0 <= count (count_step c b).
Proof. intros H. unfold count_step. repeat case_match; cbn; lia. Qed.

Lemma count_loop_nonneg s : forall c, 0 <= count c -> 0 <= count (count_loop c s).
Proof. induction s as [|b s IH]; intros c Hc; cbn; [done|]. by apply IH, count_step_nonneg. Qed.

Lemma wp_undo_pin (Q : unit -> view -> Prop) s : closable s -> Q tt (rest s) ->
  wp (if bool_decide (Prepared (state s) = ∅) && negb (tx s)
      then releasePinnedConnection true else mret tt) Q (seen (with_pin true true s) 1 1 (tx s)).
Proof.
  intros Hc HQ. pose proof (prepared_empty s Hc) as He. destruct Hc as [H1 H2 H3 H4 H5 H6 H7 H8].
  destruct s as [st t c p r ps nx]. cbn in *. subst r. unfold rest in HQ. cbn in HQ.
  destruct (bool_decide_reflect (Prepared st = ∅)) as [Hp|Hp]; cbn [andb].
  - destruct t; cbn [negb].
    + apply wp_ret. cbn in H3. by subst p.
    + apply (wp_releasePinned true _ (with_pin true true (mkSession st false c p p ps nx))); [done|done|].
      cbn. rewrite bool_decide_eq_true_2 in H3 by (by apply He). by subst p.
  - apply wp_ret. rewrite bool_decide_eq_false_2, orb_true_r in H3 by (by rewrite <- He). by subst p.
Qed.

Lemma prepare_handles sql : handles (prepare sql).
Proof.
  intros s Hs Hn. pose proof (io_closable _ _ Hs) as Hc. unfold prepare.
  assert (Hq : forall m, quiet m -> wp m (after s) (rest s))
    by (intros m Hm; apply Hm; intros r; by apply after_in_order).
  destruct (negb _); [apply Hq, quiet_writeError|]. apply wp_bind, wp_session. cbn [v_session rest seen].
  destruct (_ && _); [apply Hq, quiet_writeError|].
  apply wp_bind, wp_pin; [done|intros b e; apply Hq, quiet_writeSQLErrorAt|intros _].
  apply wp_bind, (wp_prepareOn _ _ (with_pin true true s)); [lia|]. intros [e|statement].
  { apply wp_bind, wp_session, wp_bind, (wp_undo_pin _ s); [done|]. apply Hq, quiet_writeSQLErrorAt. }
  set (count := countPreparedParameters _). assert (Hcount : 0 <= count) by by apply count_loop_nonneg.
  apply wp_bind, wp_modify. cbn. rewrite next_id_succ by (try apply (cl_next s Hc); lia).
  apply wp_bind, wp_session, wp_bind, wp_modify. cbn.
  apply wp_bind, (wp_logical (fun l => AddPrepared l (nextPreparedID s + 1)) _
    (with_prepared (<[nextPreparedID s + 1 := _]>) (with_next (nextPreparedID s + 1) (with_pin true true s)))).
  cbn [state with_prepared with_next with_pin]. rewrite add_prepared_fresh by done. cbn [snd].
  pose proof (in_order_added s _ Hs (fresh_statement_ok (tx s) (st_sql (ClassifySQL sql)) count statement Hcount)) as Ha.
  set (s' := added _ s) in Ha. match goal with |- wp _ _ ?v => change v with (seen s' 1 1 (tx s)) end.
  change (seen s' 1 1 (tx s)) with (rest s').
  assert (Hdone : forall r, after s r (rest s')) by (intros r; by apply after_in_order).
  apply wp_then_sequence; [apply quiet_write|done|]. intros z.
  apply wp_write_parameters; [done|]. intros z1. destruct (0 <? count); [|by apply wp_ret].
  apply wp_bind, quiet_status. intros st. apply wp_then_sequence; [apply quiet_write|done|].
  intros z2. by apply wp_ret.
Qed.

(** ** Executing *)

Lemma total_insert d i bs : total (<[i := bs]> d) = total (delete i d) + len bs.
Proof.
  unfold total. rewrite <- insert_delete_eq, map_fold_insert_L; [lia| |apply lookup_delete_eq].
  intros. lia.
Qed.

Lemma total_append d i bs :
  total (<[i := default [] (d !! i) ++ bs]> d) = total d + len bs.
Proof.
  rewrite total_insert. destruct (d !! i) as [old|] eqn:E; unfold id; cbn [default].
  - rewrite <- (insert_id d i old) at 2 by done. rewrite total_insert. unfold len. rewrite length_app. lia.
  - by rewrite delete_id.
Qed.

Lemma clear_ok open p : prepared_ok (ps_parameters p) ->
  (ps_transactionBound p = true -> open = true) -> statement_ok open (clearLongData p).
Proof. intros H1 H2. split; cbn; try done. Qed.

Lemma append_ok open p parameter bytes : statement_ok open p ->
  0 <= parameter < parameterCount (ps_parameters p) ->
  ps_longDataBytes p + len bytes <= maxPreparedLongData ->
  statement_ok open (append_long_data parameter bytes p).
Proof.
  intros [H1 H2 H3 H4 H5] Hp Hb. split; cbn; try done.
  - by rewrite total_append, H2.
  - by apply map_Forall_insert_2.
Qed.

Lemma u16_at_range payload i : 0 <= u16_at payload i < 2 ^ 16.
Proof.
  unfold u16_at. pose proof (le_value_bound (take 2 (drop i payload))) as H.
  assert ((length (take 2 (drop i payload)) <= 2)%nat) by (rewrite length_take; lia).
  assert (2 ^ (8 * Z.of_nat (length (take 2 (drop i payload)))) <= 2 ^ 16)
    by (apply Z.pow_le_mono_r; lia). lia.
Qed.

(** Handlers that look a statement up first. *)
Lemma handles_statement (refuse : M (option go_error)) (k : preparedStatement -> M (option go_error)) id :
  quiet refuse ->
  (forall s p, in_order s s -> prepared s !! id = Some p -> statement_ok (tx s) p ->
     wp (k p) (after s) (rest s)) ->
  handles (s ← get_session; match prepared s !! id with None => refuse | Some p => k p end).
Proof.
  intros Hr Hk s Hs _. apply wp_bind, wp_session. cbn [v_session rest seen].
  destruct (prepared s !! id) as [p|] eqn:Hp.
  - apply Hk; [done..|]. by eapply (cl_statements s (io_closable _ _ Hs)).
  - apply Hr. intros r. by apply after_in_order.
Qed.

Lemma sendPreparedLongData_handles payload : handles (sendPreparedLongData payload).
Proof.
  unfold sendPreparedLongData. destruct (_ <? _); [apply handles_quiet, quiet_writeError|].
  apply handles_statement; [apply quiet_writeError|]. intros s p Hs Hp Hok.
  destruct (Z.leb_spec (parameterCount (ps_parameters p)) (u16_at payload 5)) as [|Hi].
  { apply quiet_writeError. intros r. by apply after_in_order. }
  destruct (Z.ltb_spec maxPreparedLongData (ps_longDataBytes p + len (drop 7 payload))) as [|Hb];
    apply wp_bind, wp_alter, wp_ret, after_in_order, in_order_alter; try done;
    intros q Hq Hqok; assert (q = p) as -> by congruence.
  - destruct Hqok. by split.
  - apply append_ok; [done| |lia]. pose proof (u16_at_range payload 5). lia.
Qed.

Lemma resetPrepared_handles payload : handles (resetPrepared payload).
Proof.
  unfold resetPrepared. destruct (_ <? _); [apply handles_quiet, quiet_writeError|].
  apply handles_statement; [apply quiet_writeError|]. intros s p Hs Hp Hok.
  apply wp_bind, wp_alter, quiet_write_ok. intros r. apply after_in_order, in_order_alter; [done|].
  intros q _ [H1 _ _ _ H5]. by apply clear_ok.
Qed.

Lemma wp_statementForExecution id p (Q : answer (nat * bool) -> view -> Prop) s0 s :
  in_order s0 s -> prepared s !! id = Some p ->
  (forall r s', in_order s0 s' -> tx s' = tx s -> prepared s' <> ∅ -> Q r (rest s')) ->
  wp (statementForExecution id p) Q (rest s).
Proof.
  intros Hs Hp HQ. pose proof (io_closable _ _ Hs) as Hc.
  pose proof (cl_statements s Hc id p Hp) as Hok. cbn in Hok.
  pose proof (lookup_not_empty _ _ _ Hp) as Hne.
  assert (Hfinal : forall (r : answer (nat * bool)) s', in_order s0 s' -> tx s' = tx s -> prepared s' <> ∅ ->
    wp (match r with
        | inl e => mret (inl e)
        | inr (statement, bound) =>
            if tx s && negb bound then
              id ← call (fun _ n => n); _ ← note (StatementInTx id); mret (inr (id, true))
            else mret (inr (statement, false))
        end) Q (rest s')).
  { intros [e|[statement bound]] s' Hs' Ht' Hne'; [apply wp_ret; by apply HQ|].
    destruct (tx s && negb bound) eqn:E; [|apply wp_ret; by apply HQ].
    apply andb_true_iff in E as [E _].
    apply wp_bind, wp_call. intros n. apply wp_bind.
    destruct (holding s' (io_closable _ _ Hs') Hne') as [Hrest _]. rewrite Hrest, Ht', E.
    eapply wp_event; [reflexivity|]. apply wp_ret. rewrite <- E, <- Ht'.
    change (mkView _ _ _ _ _) with (seen s' 1 1 (tx s')). rewrite <- Hrest. by apply HQ. }
  assert (Hbind : forall statement, in_order s0 (with_prepared (alter (bind_statement statement (tx s)) id) s)).
  { intros statement. apply in_order_alter; [done|]. intros q _ [H1 H2 H3 H4 H5]. by split. }
  unfold statementForExecution. apply wp_bind, wp_session, wp_bind. cbn [v_session rest seen].
  destruct (ps_statement p) as [statement|] eqn:Est.
  - destruct (ps_transactionBound p && negb (tx s)) eqn:E.
    { apply andb_true_iff in E as [E1 E2]. rewrite (so_bound _ _ Hok E1) in E2. done. }
    apply wp_ret. by apply (Hfinal (inr (statement, ps_transactionBound p))).
  - apply wp_bind. pose proof (holding s Hc Hne) as [Hrest _]. rewrite Hrest.
    apply wp_prepareOn; [lia|]. rewrite <- Hrest. intros [e|statement].
    + apply wp_ret. by apply (Hfinal (inl e)).
    + apply wp_bind, wp_alter, wp_ret, (Hfinal (inr (statement, tx s))); [done..|].
      cbn. by rewrite alter_empty.
Qed.

Lemma binary_encodes database : encodes (binary_payload row_error_text database).
Proof.
  intros columns values Hl. unfold binary_payload.
  apply map_fail_no_panic, binary_row_no_panic; [done|..]; by rewrite ?length_map.
Qed.

(** Running a driver statement on the connection the session holds. *)
Lemma wp_run_statement (e : event) {A} (ask : environment -> nat -> A) (k : A -> handle -> M (option go_error))
    (Q : option go_error -> view -> Prop) s :
  closable s -> prepared s <> ∅ ->
  (forall m, observe m e = allow (usable m) m) ->
  (forall n on, runnable on 1 1 (tx s) -> wp (k (ask env n) on) Q (rest s)) ->
  wp (r ← call ask; _ ← note e; source ← warning_source; k r source) Q (rest s).
Proof.
  intros Hc Hne He Hk. pose proof (holding s Hc Hne) as [Hrest _]. rewrite Hrest in *.
  apply wp_bind, wp_call. intros n. apply wp_bind.
  eapply wp_event; [by rewrite He|]. apply wp_bind, wp_bind, wp_session, wp_ret. cbn.
  apply (Hk n (if tx s then OnTx else OnPinned)). by destruct (tx s).
Qed.

Lemma wp_execPrepared statement arguments (Q : option go_error -> view -> Prop) s :
  closable s -> prepared s <> ∅ -> (forall r s', refreshed s s' -> Q r (rest s')) ->
  wp (execPrepared statement arguments) Q (rest s).
Proof.
  intros Hc Hne HQ. apply (wp_run_statement _ on_exec (fun r source => finish_exec source r));
    [done|done|by intros []|].
  intros n on Hr. destruct (holding s Hc Hne) as (Hrest & Hp & _). rewrite Hrest.
  apply wp_finish_exec; [done|]. intros r s' Hs. specialize (HQ r s' Hs).
  by rewrite (rest_refreshed _ _ Hs), Hp in HQ.
Qed.

Lemma wp_queryPrepared statement arguments (Q : option go_error -> view -> Prop) s :
  closable s -> prepared s <> ∅ -> (forall r s', refreshed s s' -> Q r (rest s')) ->
  wp (queryPrepared row_error_text statement arguments) Q (rest s).
Proof.
  intros Hc Hne HQ. apply (wp_run_statement _ on_query (fun r source =>
      database ← asks upstream_database; reply_rows (binary_payload row_error_text database) source r));
    [done|done|by intros []|].
  intros n on Hr. destruct (holding s Hc Hne) as (Hrest & Hp & _). rewrite Hrest.
  apply wp_bind, wp_asks, wp_reply_rows; [apply binary_encodes|done|]. intros r s' Hs. specialize (HQ r s' Hs).
  by rewrite (rest_refreshed _ _ Hs), Hp in HQ.
Qed.

Lemma refreshed_fields s s' : refreshed s s' ->
  prepared s' = prepared s /\ tx s' = tx s /\ pinnedConnection s' = pinnedConnection s.
Proof. by intros (l & -> & _). Qed.

Lemma decoded_ok open p payload : statement_ok open p ->
  let r := decodeArguments (ps_parameters p) payload in
  r.1 <> Panic /\ statement_ok open (clearLongData (set_parameters r.2 p)).
Proof.
  intros [H1 _ _ _ H5]. pose proof (decode_arguments_contract (ps_parameters p) payload H1) as H. cbv zeta.
  destruct (decodeArguments _ _) as [result decoded]. destruct H as (Hd & _ & _ & Hr).
  cbn [fst snd]. split; [by destruct result|]. by apply clear_ok.
Qed.

Lemma executePrepared_handles payload : handles (executePrepared row_error_text payload).
Proof.
  unfold executePrepared. destruct (_ <? _); [apply handles_quiet, quiet_writeError|].
  set (id := u32_at payload 1). apply handles_statement; [apply quiet_writeError|].
  intros s p Hs Hp Hok.
  destruct (negb _); [apply quiet_writeError; intros r; by apply after_in_order|].
  destruct (ps_longDataError p).
  { apply wp_bind, wp_alter, quiet_writeError. intros r. apply after_in_order, in_order_alter; [done|].
    intros q _ [H1 _ _ _ H5]. by apply clear_ok. }
  pose proof (decoded_ok _ _ payload Hok) as [Hpanic Hok'].
  destruct (decodeArguments (ps_parameters p) payload) as [arguments decoded]. cbn [fst snd] in *.
  set (p' := clearLongData (set_parameters decoded p)) in *.
  apply wp_bind, wp_alter. set (s1 := with_prepared _ s).
  assert (Hs1 : in_order s s1) by (apply in_order_alter; [done|by intros]).
  assert (Hp1 : prepared s1 !! id = Some p') by (unfold s1; cbn; by rewrite lookup_alter_eq, Hp).
  destruct arguments as [arguments|text|]; [|apply quiet_writeError; intros r; by apply after_in_order|done].
  apply wp_bind, (wp_ensureImplicit _ s); [done|..].
  { intros e s' Hs'. apply quiet_writeSQLErrorAt. intros r. by apply after_in_order. }
  intros s2 Hs2 Hprep. apply wp_bind, (wp_statementForExecution _ _ _ s); [done|by rewrite Hprep|].
  intros [e|[statement temporary]] s3 Hs3 _ Hne.
  { apply quiet_writeSQLErrorAt. intros r. by apply after_in_order. }
  apply wp_bind. pose proof (io_closable _ _ Hs3) as Hc3.
  assert (Hend : forall r s4, refreshed s3 s4 ->
    wp (_ ← (if temporary : bool then note (CloseStatement statement) else mret tt); mret r) (after s) (rest s4)).
  { intros r s4 Hs4. pose proof (in_order_refreshed _ _ _ Hs4 Hs3) as Hs4'.
    destruct (refreshed_fields _ _ Hs4) as (Hp4 & _ & _). destruct temporary.
    - pose proof (holding s4 (io_closable _ _ Hs4') ltac:(by rewrite Hp4)) as [Hrest _]. rewrite Hrest.
      apply wp_bind. eapply wp_event; [reflexivity|]. apply wp_ret.
      change (mkView _ _ _ _ _) with (seen s4 1 1 (tx s4)). rewrite <- Hrest. by apply after_in_order.
    - apply wp_bind, wp_ret, wp_ret. by apply after_in_order. }
  destruct (bool_decide _); [by apply wp_queryPrepared|by apply wp_execPrepared].
Qed.

(** The session without one of its statements, before the pin is reconsidered. *)
Definition removed (id : Z) (s : clientSession) : clientSession :=
  with_state (fun l => (RemovePrepared l id).1) (with_prepared (delete id) s).

Lemma remove_prepared_state l id : id ∈ Prepared l ->
  (RemovePrepared l id).1 = set_prepared (Prepared l ∖ {[id]}) l.
Proof. intros H. unfold RemovePrepared. by rewrite decide_True. Qed.

Lemma removed_eq id s : id ∈ Prepared (state s) ->
  removed id s = with_state (fun l => set_prepared (Prepared l ∖ {[id]}) l) (with_prepared (delete id) s).
Proof. intros H. unfold removed, with_state. cbn. by rewrite (remove_prepared_state _ _ H). Qed.

Lemma closePrepared_handles payload : handles (closePrepared payload).
Proof.
  unfold closePrepared. destruct (_ <? _); [by apply handles_quiet; intros Q v HQ; apply wp_ret|].
  set (id := u32_at payload 1). apply handles_statement; [by intros Q v HQ; apply wp_ret|].
  intros s p Hs Hp Hok. pose proof (lookup_not_empty _ _ _ Hp) as Hne.
  destruct (holding s (io_closable _ _ Hs) Hne) as (Hrest & Hpin & Hrel).
  assert (Hid : id ∈ Prepared (state s)).
  { rewrite <- (cl_prepared s (io_closable _ _ Hs)). by apply elem_of_dom_2 in Hp. }
  rewrite Hrest. apply wp_bind, wp_close_statement; [lia|].
  apply wp_bind, wp_modify, wp_bind, (wp_logical (fun l => RemovePrepared l id) _ (with_prepared (delete id) s)).
  apply wp_bind, wp_session, wp_bind. cbn [v_session seen].
  change (with_state (fun _ => (RemovePrepared (state (with_prepared (delete id) s)) id).1)
    (with_prepared (delete id) s)) with (removed id s). destruct Hs as [[H1 H2 H3 H4 H5 H6 H7 H8] Hh Hn].
  assert (Hmid : in_order s (if bool_decide (prepared (removed id s) = ∅) && negb (tx s)
                             then with_pin false false (removed id s) else removed id s)).
  { rewrite (removed_eq _ _ Hid). cbn. split; [|by case_match|by case_match].
    split; case_match eqn:E; cbn; try done; try (apply map_Forall_delete; done).
    - apply andb_true_iff in E as [E1 E2]. rewrite E1. by destruct (tx s).
    - rewrite Hpin. apply andb_false_iff in E as [->| ->%negb_false_iff]; by rewrite ?orb_true_r.
    - by rewrite dom_delete_L, H4.
    - by rewrite dom_delete_L, H4. }
  change (tx (removed id s)) with (tx s).
  destruct (bool_decide _ && negb (tx s)) eqn:E.
  - apply andb_true_iff in E as [_ E]. apply negb_true_iff in E. rewrite E.
    apply wp_releasePinned; [by cbn; rewrite Hpin|by cbn; rewrite Hpin|]. apply wp_ret.
    replace (seen _ 0 0 false) with (rest (with_pin false false (removed id s)));
      [by apply after_in_order|]. unfold rest. cbn. by rewrite E.
  - apply wp_ret, wp_ret. replace (seen _ 1 1 (tx s)) with (rest (removed id s));
      [by apply after_in_order|]. unfold rest. cbn. by rewrite Hpin.
Qed.

(** ** The whole session *)

Lemma dispatch_handles command payload : handles (dispatch row_error_text command payload).
Proof.
  unfold dispatch. cbv zeta. repeat case_match.
  - apply handles_quiet, quiet_write_ok.
  - apply initDatabase_handles.
  - apply query_handles.
  - apply prepare_handles.
  - apply executePrepared_handles.
  - apply sendPreparedLongData_handles.
  - apply closePrepared_handles.
  - apply resetPrepared_handles.
  - apply handles_quiet. intros Q v HQ. apply wp_bind, quiet_recordRejection. intros _. by apply quiet_writeError.
  - apply handles_quiet. intros Q v HQ. apply wp_bind, quiet_recordRejection. intros _. by apply quiet_writeError.
Qed.

Lemma wp_serve ending messages : forall (Q : option go_error -> view -> Prop) s,
  in_order s s -> nextPreparedID s + Z.of_nat (length messages) < 2 ^ 32 ->
  (forall r s', closable s' -> Q r (rest s')) ->
  wp (serve row_error_text ending messages) Q (rest s).
Proof.
  induction messages as [|[sequence payload] messages IH]; intros Q s Hs Hn HQ; cbn [serve].
  { apply wp_ret, HQ, Hs. }
  destruct payload as [|command payload]; [apply wp_ret, HQ, Hs|].
  destruct (negb _); [apply wp_ret, HQ, Hs|]. apply wp_bind, wp_stats; [done|].
  destruct (_ =? _); [apply wp_ret, HQ, Hs|]. cbn [length] in Hn. apply wp_then_ok.
  eapply wp_mono; [apply dispatch_handles; [done|lia]|].
  intros r v (s' & -> & Hc & Hnext & Hh). destruct r as [e|]; [by apply HQ|].
  apply IH; [by apply closable_in_order; auto|lia|done].
Qed.

Definition delete_all (l : list (Z * preparedStatement)) (m : gmap Z preparedStatement) :=
  foldl (fun m entry => delete entry.1 m) m l.

Lemma delete_all_lookup l m i : delete_all l m !! i = if decide (i ∈ l.*1) then None else m !! i.
Proof.
  revert m. induction l as [|[j p] l IH]; intros m; cbn; [by rewrite decide_False by apply not_elem_of_nil|].
  fold (delete_all l (delete j m)). rewrite IH. destruct (decide (i ∈ l.*1)) as [H|H].
  - by rewrite decide_True by (by right).
  - destruct (decide (i = j)) as [->|Hne].
    + by rewrite lookup_delete_eq, decide_True by left.
    + rewrite lookup_delete_ne, decide_False by (rewrite ?elem_of_cons; intuition congruence). done.
Qed.

Lemma delete_all_own m : delete_all (map_to_list m) m = ∅.
Proof.
  apply map_eq. intros i. rewrite delete_all_lookup, lookup_empty. destruct (decide _) as [|H]; [done|].
  rewrite <- (list_to_map_to_list m). by apply not_elem_of_list_to_map_1.
Qed.

Lemma wp_close_prepared l (Q : unit -> view -> Prop) : forall s k,
  (l <> [] -> 0 < k) ->
  (forall s', pinnedConnection s' = pinnedConnection s -> pinnedRelease s' = pinnedRelease s ->
     prepared s' = delete_all l (prepared s) -> Q tt (seen s' k k false)) ->
  wp (close_prepared l) Q (seen s k k false).
Proof.
  induction l as [|[id p] l IH]; intros s k Hk HQ; cbn [close_prepared]; [by apply wp_ret, HQ|].
  apply wp_bind, wp_close_statement; [by apply Hk|].
  apply wp_bind, wp_modify, wp_bind, (wp_logical (fun l => RemovePrepared l id) _ (with_prepared (delete id) s)).
  apply IH; [by intros; apply Hk|]. intros s' H1 H2 H3. by apply HQ.
Qed.

Lemma wp_close (Q : unit -> view -> Prop) s : closable s ->
  (forall s', prepared s' = ∅ -> Q tt (mkView s' 0 0 0 (Some start))) -> wp close Q (rest s).
Proof.
  intros [H1 H2 H3 H4 H5 H6 H7 H8] HQ. unfold close. destruct s as [st t c p r ps nx]. cbn in *. subst r c.
  set (s := mkSession st false false p p ps nx).
  assert (Hend : wp (_ ← closeAllPrepared; _ ← releasePinnedConnection true; modify_session (with_state Disconnect)) Q
    (seen s (Z.b2z p) (Z.b2z p) false)).
  { apply wp_bind. unfold closeAllPrepared. apply wp_bind, wp_session. apply wp_close_prepared.
    - intros Hne. cbn in Hne. rewrite bool_decide_eq_false_2, orb_true_r in H3; [by subst p|].
      intros ->. by rewrite map_to_list_empty in Hne.
    - intros s' Hp Hr Hs'. cbn in Hp, Hr, Hs'. rewrite delete_all_own in Hs'.
      apply wp_bind, wp_releasePinned; [congruence|by rewrite Hp|]. apply wp_modify. by apply HQ. }
  apply wp_bind, wp_session. unfold rest. cbn. destruct t; cbn.
  - apply wp_bind, wp_bind. cbn in H3. subst p.
    apply (wp_rollback_tx _ (mkSession st true true true true ps nx)). intros e.
    apply wp_modify, wp_bind, wp_session. cbn. apply wp_bind, wp_bind. eapply wp_event; [reflexivity|].
    apply wp_modify. exact Hend.
  - apply wp_bind, wp_ret, wp_bind, wp_session. cbn. apply wp_bind, wp_ret. exact Hend.
Qed.

Lemma in_order_new database : in_order (new_session database) (new_session database).
Proof. split; [split; try done; apply map_Forall_empty|done|lia]. Qed.

Lemma wp_run_session ending messages (Q : option go_error -> view -> Prop) s :
  Z.of_nat (length messages) < 2 ^ 32 ->
  (forall r s', prepared s' = ∅ -> Q r (mkView s' 0 0 0 (Some start))) ->
  wp (run_session row_error_text ending messages) Q (mkView s 0 0 0 (Some start)).
Proof.
  intros Hn HQ. apply wp_bind, wp_asks, wp_bind, wp_modify. cbn.
  change (mkView _ _ _ _ _) with (rest (new_session (upstream_database env))).
  apply wp_bind, wp_serve; [apply in_order_new|done|]. intros r s' Hs'.
  apply wp_bind, wp_close; [done|]. intros s2 Hs2. apply wp_ret. by apply HQ.
Qed.

End Programs.
(** ** Theorems *)

Section Theorems.
Context {U : UnicodeCase} {F : FloatText}.
Variable row_error_text : row_error -> string.

(** Nothing held, nothing sent. *)
Definition idle (w : world) : Prop :=
  slots w = 0 /\ connections w = 0 /\ pinned (stats w) = 0 /\ log w = [].

Lemma idle_view w : idle w -> view_of w = mkView (session w) 0 0 0 (Some start).
Proof. intros (H1 & H2 & H3 & H4). unfold view_of. by rewrite H1, H2, H3, H4. Qed.

(** C1.  A client session never misuses the upstream pool and leaks nothing.
    Whatever the driver, the network and the client do - for every environment
    and every sequence of fewer than 2^32 messages, until it quits, the read
    fails or a handler returns an error - the log of the whole session is
    accepted by the monitor: a connection is opened only under an admission slot
    of the session; statements are sent only while every connection held has
    been reset since it was opened; text statements run in the transaction
    exactly while one is open, and while it is open no slot and no connection is
    taken, returned or used on the side; a transaction is begun once, ended
    once and cancelled afterwards; driver statements are closed while their
    connection is still held; a reset failure leads to a discard; the argument
    and row decoders never panic.  When the session has ended it holds no slot,
    no connection, no prepared statement, and the pinned counter is back. *)
Theorem session_protocol (env : environment) (ending : go_error)
    (messages : list (Z * list byte)) (w : world)
    (Hfloat : forall bits s, no_panic (ParseFloat bits s)) (Henv : env_ok env)
    (Hlen : Z.of_nat (length messages) < 2 ^ 32) (Hw : idle w) :
  let w' := (run_session row_error_text ending messages env w).2 in
  accepts (log w') = Some start /\ slots w' = 0 /\ connections w' = 0 /\ pinned (stats w') = 0 /\
  prepared (session w') = ∅.
Proof.
  assert (H : wp env (run_session row_error_text ending messages)
    (fun _ v => v_monitor v = Some start /\ v_slots v = 0 /\ v_conns v = 0 /\ v_pinned v = 0 /\
       prepared (v_session v) = ∅) (mkView (session w) 0 0 0 (Some start))).
  { apply wp_run_session; [done..|]. intros r s' Hs'. done. }
  exact (H w (idle_view w Hw)).
Qed.

(** The worlds between two commands of a session, after [n] of them. *)
Inductive session_at (env : environment) : nat -> world -> Prop :=
| session_start w :
    idle w -> session w = new_session (upstream_database env) -> session_at env 0 w
| session_command n w w' command payload :
    session_at env n w -> dispatch row_error_text command payload env w = (None, w') ->
    session_at env (S n) w'.

Lemma session_at_rest env n w :
  (forall bits s, no_panic (ParseFloat bits s)) -> env_ok env -> session_at env n w ->
  Z.of_nat n < 2 ^ 32 ->
  view_of w = rest (session w) /\ in_order (session w) (session w) /\
  nextPreparedID (session w) <= Z.of_nat n.
Proof.
  intros Hf He. induction 1 as [w Hw Hs|n w w' command payload _ IH Hd]; intros Hn.
  - rewrite (idle_view w Hw), Hs. split_and!; [done|apply in_order_new|done].
  - destruct IH as (Hv & Ho & Hnext); [lia|].
    pose proof (dispatch_handles row_error_text Hf env He command payload _ Ho ltac:(lia) w Hv)
      as (s' & Hv' & Hc & Hnext' & Hh).
    rewrite Hd in Hv', Hh. cbn [fst snd] in *.
    assert (session w' = s') as -> by exact (f_equal v_session Hv').
    split_and!; [done|apply closable_in_order; auto|lia].
Qed.


(** *** Refusals *)

Definition is_reply (e : event) : Prop := match e with Reply _ _ _ => True | _ => False end.

Lemma writeError_log code sqlState message env w :
  exists text ok, log (writeError 1 code sqlState message env w).2 =
    log w ++ [Reply 1 (ErrorPayload code sqlState text) ok] /\
  session (writeError 1 code sqlState message env w).2 = session w /\
  slots (writeError 1 code sqlState message env w).2 = slots w /\
  connections (writeError 1 code sqlState message env w).2 = connections w.
Proof.
  unfold writeError, clientWriteMessage. set (text := if (maxErrorMessageBytes <? String.length message)%nat
    then str_take maxErrorMessageBytes message else message).
  unfold mbind, M_bind. exists text. destruct (_ <? _); cbn; by eexists.
Qed.

(** The statements [query] refuses at once. *)
Definition refused (s : clientSession) (k : StatementKind) : bool :=
  match k with
  | StatementEmpty | StatementUnsupported | OtherKind _ => true
  | StatementBegin | StatementDDL => tx s
  | _ => false
  end.

(** C9.  A refused statement has no effect: an empty or unsupported statement, a
    BEGIN or an implicitly committing DDL statement inside a transaction is
    answered by one error packet and nothing else - no upstream event, the
    session, its slots and its connections untouched. *)
Theorem refused_without_effect (env : environment) (w : world) (sql : string)
    (Hr : refused (session w) (st_kind (ClassifySQL sql)) = true) :
  let w' := (query sql env w).2 in
  exists code sqlState message ok,
    log w' = log w ++ [Reply 1 (ErrorPayload code sqlState message) ok] /\
    session w' = session w /\ slots w' = slots w /\ connections w' = connections w.
Proof.
  assert (H : forall code sqlState message w0, log w0 = log w -> session w0 = session w ->
    slots w0 = slots w -> connections w0 = connections w ->
    let w' := (writeError 1 code sqlState message env w0).2 in
    exists code sqlState message ok,
      log w' = log w ++ [Reply 1 (ErrorPayload code sqlState message) ok] /\
      session w' = session w /\ slots w' = slots w /\ connections w' = connections w).
  { intros code sqlState message w0 <- <- <- <-. cbv zeta.
    destruct (writeError_log code sqlState message env w0) as (text & ok & H). by exists code, sqlState, text, ok. }
  unfold query. unfold refused in Hr. destruct (st_kind (ClassifySQL sql)); try done.
  all: unfold mbind, M_bind, get_session, recordRejection, modify_stats; rewrite ?Hr; by apply H.
Qed.

(** *** Commits *)

(** A program that replies nothing and counts no commit. *)
Definition silent {A} (m : M A) : Prop := forall env w,
  commitGeneration (stats (m env w).2) = commitGeneration (stats w) /\
  exists l, log (m env w).2 = log w ++ l /\ Forall (fun e => ~ is_reply e) l.

Lemma silent_same {A} (m : M A) :
  (forall env w, commitGeneration (stats (m env w).2) = commitGeneration (stats w) /\
     log (m env w).2 = log w) -> silent m.
Proof. intros H env w. destruct (H env w) as [H1 H2]. split; [done|]. exists []. by rewrite H2, app_nil_r. Qed.

Lemma silent_bind {A B} (m : M A) (k : A -> M B) :
  silent m -> (forall a, silent (k a)) -> silent (m ≫= k).
Proof.
  intros Hm Hk env w. unfold mbind, M_bind. specialize (Hm env w).
  destruct (m env w) as [a w1]. destruct Hm as [Hc (l & Hl & Fl)].
  destruct (Hk a env w1) as [Hc' (l' & Hl' & Fl')]. cbn in *. split; [congruence|].
  exists (l ++ l'). split; [by rewrite Hl', Hl, app_assoc|by apply Forall_app].
Qed.

Lemma bind_value {A B} (a : A) (b : B) (m : M A) (k : A -> M B) :
  (forall env w, (m env w).1 = a) -> (forall env w, (k a env w).1 = b) ->
  forall env w, ((m ≫= k) env w).1 = b.
Proof.
  intros Ha Hb env w. unfold mbind, M_bind. specialize (Ha env w). destruct (m env w) as [a' w1].
  cbn in Ha. by subst a'.
Qed.

Lemma silent_bind_value {A B} (a : A) (m : M A) (k : A -> M B) :
  (forall env w, (m env w).1 = a) -> silent m -> silent (k a) -> silent (m ≫= k).
Proof.
  intros Ha Hm Hk env w. unfold mbind, M_bind. specialize (Hm env w). specialize (Ha env w).
  destruct (m env w) as [a' w1]. cbn in Ha. subst a'. destruct Hm as [Hc (l & Hl & Fl)].
  destruct (Hk env w1) as [Hc' (l' & Hl' & Fl')]. cbn in *. split; [congruence|].
  exists (l ++ l'). split; [by rewrite Hl', Hl, app_assoc|by apply Forall_app].
Qed.

Lemma silent_note e : ~ is_reply e -> silent (note e).
Proof. intros He env w. split; [done|]. exists [e]. split; [done|by constructor]. Qed.

Lemma silent_ret {A} (a : A) : silent (mret a).
Proof. by apply silent_same. Qed.
Lemma silent_session : silent get_session.
Proof. by apply silent_same. Qed.
Lemma silent_modify f : silent (modify_session f).
Proof. by apply silent_same. Qed.
Lemma silent_held a b : silent (add_held a b).
Proof. by apply silent_same. Qed.
Lemma silent_pinned d : silent (modify_stats (add_pinned d)).
Proof. by apply silent_same. Qed.
Lemma silent_call {A} (ask : environment -> nat -> A) : silent (call ask).
Proof. by apply silent_same. Qed.

Ltac silence :=
  repeat first
    [ assumption | apply silent_ret | apply silent_session | apply silent_modify | apply silent_held
    | apply silent_pinned | apply silent_call | (apply silent_note; exact id)
    | (apply silent_bind; [|intros ?]) | case_match ].

Lemma silent_releasePinned discard : silent (releasePinnedConnection discard).
Proof. unfold releasePinnedConnection, discardConnection, closeConnection, release. silence. Qed.

Lemma silent_close_statements l : silent (close_statements l).
Proof. induction l; cbn [close_statements]; unfold close_statement; silence. Qed.

Lemma silent_finish : silent finishTransaction.
Proof.
  unfold finishTransaction, invalidateTransactionPrepared, cancel_tx.
  pose proof silent_releasePinned. pose proof silent_close_statements. silence; auto.
Qed.

Lemma silent_fail : silent (_ ← finishTransaction; poison).
Proof. pose proof silent_finish. unfold poison. silence. Qed.

Lemma silent_hook : silent runBeforeCommitResponse.
Proof. unfold runBeforeCommitResponse. silence. Qed.

(** What a client can conclude from the packets of a commit: [CommitTx] comes
    first, and a reply is sent only after it succeeded. *)
Definition acknowledges (w w' : world) (r : option go_error) : Prop := exists ok rest,
  log w' = log w ++ CommitTx ok :: rest /\
  if ok then commitGeneration (stats w') = commitGeneration (stats w) + 1
  else r <> None /\ Forall (fun e => ~ is_reply e) rest /\
       commitGeneration (stats w') = commitGeneration (stats w).

(** A program that counts [d] commits and only adds to the log. *)
Definition counts (d : Z) {A} (m : M A) : Prop := forall env w,
  commitGeneration (stats (m env w).2) = commitGeneration (stats w) + d /\
  exists l, log (m env w).2 = log w ++ l.

Lemma counts_silent {A} (m : M A) : silent m -> counts 0 m.
Proof. intros H env w. destruct (H env w) as [Hc (l & Hl & _)]. split; [lia|eauto]. Qed.

Lemma counts_bind d1 d2 {A B} (m : M A) (k : A -> M B) :
  counts d1 m -> (forall a, counts d2 (k a)) -> counts (d1 + d2) (m ≫= k).
Proof.
  intros Hm Hk env w. unfold mbind, M_bind. specialize (Hm env w).
  destruct (m env w) as [a w1]. destruct Hm as [Hc (l & Hl)].
  destruct (Hk a env w1) as [Hc' (l' & Hl')]. cbn in *. split; [lia|].
  exists (l ++ l'). by rewrite Hl', Hl, app_assoc.
Qed.

Lemma counts_add_commit : counts 1 (modify_stats add_commit).
Proof. intros env w. split; [done|]. exists []. by rewrite app_nil_r. Qed.

(** The same when the result of the first part is known. *)
Lemma counts_bind_value {A B} (a : A) d1 d2 (m : M A) (k : A -> M B) :
  (forall env w, (m env w).1 = a) -> counts d1 m -> counts d2 (k a) -> counts (d1 + d2) (m ≫= k).
Proof.
  intros Ha Hm Hk env w. unfold mbind, M_bind. specialize (Hm env w). specialize (Ha env w).
  destruct (m env w) as [a' w1]. cbn in Ha. subst a'. destruct Hm as [Hc (l & Hl)].
  destruct (Hk env w1) as [Hc' (l' & Hl')]. cbn in *. split; [lia|].
  exists (l ++ l'). by rewrite Hl', Hl, app_assoc.
Qed.

Lemma counts_clientWriteMessage sequence payload : counts 0 (clientWriteMessage sequence payload).
Proof.
  intros env w. unfold clientWriteMessage, mbind, M_bind. destruct (_ <? _); cbn; (split; [lia|by eexists]).
Qed.

Lemma counts_write_ok affected insertID warnings : counts 0 (write_ok affected insertID warnings).
Proof.
  apply (counts_bind 0 0); [apply counts_silent; unfold status; silence|]. intros st.
  apply (counts_bind 0 0); [|intros [z e]; apply counts_silent, silent_ret].
  apply (counts_bind 0 0); [|intros _; apply counts_clientWriteMessage].
  intros env w. cbn. split; [lia|]. exists []. by rewrite app_nil_r.
Qed.

Lemma counts_writeError code sqlState message : counts 0 (writeError 1 code sqlState message).
Proof.
  apply (counts_bind 0 0); [apply counts_clientWriteMessage|]. intros [z e]. apply counts_silent, silent_ret.
Qed.

Lemma counts_then_ok d1 m k : counts d1 m -> counts 0 k -> counts d1 (then_ok m k).
Proof.
  intros Hm Hk. rewrite <- (Z.add_0_r d1). apply counts_bind; [done|].
  intros [e|]; [apply counts_silent, silent_ret|done].
Qed.

Lemma silent_logical {A} (f : Logical -> Logical * A) : silent (logical f).
Proof. unfold logical. apply silent_bind; [apply silent_session|]. intros s. destruct (f (state s)). silence. Qed.

Lemma counts_transition statement code sqlState message :
  counts 0 (transition statement code sqlState message).
Proof.
  apply (counts_bind 0 0); [apply counts_silent, silent_logical|].
  intros [e|]; [apply counts_writeError|apply counts_write_ok].
Qed.

Lemma commit_tx_acknowledges (k : option go_error -> M (option go_error)) env w :
  (forall e, silent (k (Some e)) /\ forall env w, (k (Some e) env w).1 = Some e) ->
  counts 1 (k None) ->
  let '(r, w') := (commit_tx ≫= k) env w in acknowledges w w' r.
Proof.
  intros Hfail Hok. set (e := on_commit env (calls w)).
  set (w1 := mkWorld (session w) (slots w) (connections w) (stats w) (S (calls w))
    (log w ++ [CommitTx (succeeded e)])).
  change ((commit_tx ≫= k) env w) with (k e env w1).
  destruct (k e env w1 : option go_error * world) as [r w'] eqn:E. exists (succeeded e).
  destruct e as [e|].
  - destruct (Hfail e) as [Hs Hne]. specialize (Hs env w1). specialize (Hne env w1).
    rewrite E in Hs, Hne. destruct Hs as [Hc (l & Hl & Fl)]. exists l. cbn in *.
    rewrite Hl, <- app_assoc. by subst r.
  - specialize (Hok env w1). rewrite E in Hok. destruct Hok as [Hc (l & Hl)]. exists l. cbn in *.
    by rewrite Hl, <- app_assoc.
Qed.

Lemma fails_after_finish e :
  silent (_ ← finishTransaction; _ ← poison; mret (Some e)) /\
  forall env w, ((_ ← finishTransaction; _ ← poison; mret (Some e)) env w).1 = (Some e : option go_error).
Proof.
  split; [pose proof silent_finish; unfold poison; silence|].
  intros env w. unfold mbind, M_bind. by destruct (finishTransaction env w).
Qed.

(** C6.  A commit is acknowledged only after it happened.  When a client with an
    open transaction sends COMMIT, or SET autocommit=1 which commits implicitly,
    the first thing the gateway does is to commit upstream.  If that fails, the
    client gets no reply at all - the handler ends the session, so that the
    outcome is visibly unknown rather than reported - and no commit is counted.
    Replies follow only a successful commit, which is counted exactly once. *)
Theorem commit_acknowledged (env : environment) (w : world) (sql : string)
    (Hk : st_kind (ClassifySQL sql) = StatementCommit \/ st_kind (ClassifySQL sql) = StatementAutocommitOn)
    (Ht : tx (session w) = true) :
  let '(r, w') := query sql env w in acknowledges w w' r.
Proof.
  unfold query. destruct Hk as [-> | ->].
  - unfold commit. unfold mbind at 1, M_bind at 1, get_session. rewrite Ht. cbn [negb].
    apply commit_tx_acknowledges; [apply fails_after_finish|].
    apply (counts_bind_value None 0 1); [done|apply counts_silent, silent_logical|].
    apply (counts_bind 1 0); [apply counts_add_commit|intros _].
    apply (counts_bind 0 0); [apply counts_silent, silent_finish|intros _].
    apply (counts_then_ok 0); [apply counts_silent, silent_hook|apply counts_write_ok].
  - unfold then_ok, autocommit_commit. rewrite bind_assoc. unfold mbind at 1, M_bind at 1, get_session.
    rewrite Ht, bind_assoc. apply commit_tx_acknowledges.
    + intros e. split.
      * apply (silent_bind_value (Some e)); [apply fails_after_finish..|apply silent_ret].
      * apply (bind_value (Some e)); [apply fails_after_finish|done].
    + apply (counts_bind 1 0).
      * apply (counts_bind 1 0); [apply counts_add_commit|intros _].
        apply (counts_bind 0 0); [apply counts_silent, silent_finish|intros _].
        apply counts_silent, silent_hook.
      * intros [e|]; [apply counts_silent, silent_ret|apply counts_transition].
Qed.

End Theorems.

(** ** Witnesses *)

Definition sample_rows : result_set :=
  mkRows None None [("n"%string, mkColumnType "INT" None None None)] [inr [VInt 3]] None None.

(** An upstream where everything succeeds. *)
Definition sample_env : environment :=
  let ok := fun _ : nat => (None : option go_error) in
  mkEnvironment "shop" ok ok ok ok ok ok (fun _ => inr (1, 7)) (fun _ => inr sample_rows)
    (fun _ => inr 0) ok ok ok.

(** The same where every commit fails. *)
Definition failing_env : environment :=
  let ok := fun _ : nat => (None : option go_error) in
  mkEnvironment "shop" ok ok ok ok (fun _ => Some (TextError "bad connection")) ok
    (fun _ => inr (1, 7)) (fun _ => inr sample_rows) (fun _ => inr 0) ok ok ok.

Definition sample_world (s : clientSession) : world :=
  mkWorld s 0 0 (mkStatistics 0 0 0 0 0 0 ∅ ∅) 0 [].

Definition command (code : Z) (text : string) : Z * list byte := (0, zbyte code :: bytes_of text).

Definition sample_messages : list (Z * list byte) :=
  [command CommandQuery "BEGIN"; command CommandQuery "DELETE FROM t"; command CommandStmtPrepare "SELECT ?";
   command CommandQuery "COMMIT"; command CommandQuery "SELECT 1"; command CommandQuit ""].

Lemma sample_env_ok : env_ok sample_env.
Proof. intros n r [= <-]. by repeat constructor. Qed.

Lemma no_floats_total : forall bits s, no_panic (ParseFloat (FloatText := no_floats) bits s).
Proof. done. Qed.

Definition no_text (e : row_error) : string := "".

Definition sample_start : world := sample_world (new_session "shop").

(** A session with an open transaction, as [begin] leaves it. *)
Definition in_transaction : world :=
  (query (U := ascii_case) (F := no_floats) "BEGIN" sample_env sample_start).2.

Lemma session_protocol_witness :
  env_ok sample_env /\ idle sample_start /\
  let w' := (run_session (U := ascii_case) (F := no_floats) no_text Canceled sample_messages sample_env
               sample_start).2 in
  accepts (log w') = Some start /\ slots w' = 0 /\ connections w' = 0 /\ pinned (stats w') = 0 /\
  prepared (session w') = ∅.
Proof.
  split; [exact sample_env_ok|]. split; [by repeat split|].
  apply (session_protocol (U := ascii_case) (F := no_floats) no_text sample_env Canceled sample_messages
    sample_start no_floats_total sample_env_ok); [reflexivity|by repeat split].
Defined.

Lemma in_transaction_at : session_at (U := ascii_case) (F := no_floats) no_text sample_env 1 in_transaction.
Proof.
  apply (session_command _ _ _ sample_start _ CommandQuery (zbyte CommandQuery :: bytes_of "BEGIN")).
  - by apply session_start; [repeat split|].
  - unfold in_transaction. vm_compute. reflexivity.
Qed.


Lemma refused_without_effect_witness :
  refused (session in_transaction) (st_kind (ClassifySQL (U := ascii_case) "DROP TABLE t")) = true /\
  let w' := (query (U := ascii_case) (F := no_floats) "DROP TABLE t" sample_env in_transaction).2 in
  exists code sqlState message ok,
    log w' = log in_transaction ++ [Reply 1 (ErrorPayload code sqlState message) ok] /\
    session w' = session in_transaction /\ slots w' = slots in_transaction /\
    connections w' = connections in_transaction.
Proof.
  assert (H : refused (session in_transaction) (st_kind (ClassifySQL (U := ascii_case) "DROP TABLE t")) = true)
    by (vm_compute; reflexivity).
  split; [exact H|].
  exact (refused_without_effect (U := ascii_case) (F := no_floats) sample_env in_transaction "DROP TABLE t" H).
Defined.

Lemma commit_acknowledged_witness :
  tx (session in_transaction) = true /\
  let '(r, w') := query (U := ascii_case) (F := no_floats) "COMMIT" failing_env in_transaction in
  acknowledges in_transaction w' r.
Proof.
  assert (Ht : tx (session in_transaction) = true) by (vm_compute; reflexivity).
  split; [exact Ht|].
  apply (commit_acknowledged (U := ascii_case) (F := no_floats) failing_env in_transaction "COMMIT");
    [left; vm_compute; reflexivity|exact Ht].
Defined.

End Protocol.
