(* ===== verification/Client.v ===== *)
(** * A client of the gateway

    A reference reader of responses, written from the protocol description: it
    checks the sequence numbers, tells the packets apart the way clients do, and
    decodes them with the reference decoders of [Wire].  What it returns is what a
    client knows after a command. *)

From stdpp Require Import base list numbers strings option.
From coqutil Require Import Byte.
From Stdlib Require Import ZArith Lia.
From S2P Require Import Prelude GoStrings Codec Response Handshake Wire.
Import Response Handshake Wire.

Module Client.
Local Open Scope Z_scope.
Local Open Scope list_scope.

(** A message and the sequence number of its first frame. *)
Abbreviation packet := (Z * list byte)%type.

(** A message takes one sequence number per frame. *)
Definition next_sequence (sequence : Z) (payload : list byte) : Z :=
  u8 (sequence + Z.of_nat (length payload) / Codec.MaxFramePayload + 1).

Definition receive (sequence : Z) (ps : list packet) : option (list byte * Z * list packet) :=
  match ps with
  | (s, p) :: ps => if s =? sequence then Some (p, next_sequence s p, ps) else None
  | [] => None
  end.

Definition as_option {E A} (o : outcome E A) : option A :=
  match o with Ret a => Some a | _ => None end.

(** The cursor of a decoder must be at the end. *)
Definition whole {A} (o : outcome handshake_error (A * byteCursor)) : option A :=
  '(a, c) ← as_option o; if remaining c =? 0 then Some a else None.

(** Status and warnings of an EOF packet. *)
Definition read_eof (payload : list byte) : option (Z * Z) :=
  match payload with
  | [_; w0; w1; s0; s1] => Some (le_value [s0; s1], le_value [w0; w1])
  | _ => None
  end.

Record server_failure := mkFailure { f_code : Z; f_state : string; f_message : string }.

Definition read_server_failure (payload : list byte) : option server_failure :=
  '(code, state, message) ← as_option (read_error payload); Some (mkFailure code state message).

(** The answer to a command: an OK packet, an error, or a result set, whose rows
    may be cut short by an error. *)
Inductive response :=
| Success (affected last status warnings : Z)
| Failure (e : server_failure)
| Results (columns : list ColumnDefinition) (rows : list (list byte)) (ending : (Z * Z) + server_failure).

Fixpoint read_columns (count : nat) (sequence : Z) (ps : list packet)
  : option (list ColumnDefinition * Z * list packet) :=
  match count with
  | O => Some ([], sequence, ps)
  | S n =>
      '(p, sequence, ps) ← receive sequence ps;
      column ← whole (read_column p);
      '(columns, sequence, ps) ← read_columns n sequence ps;
      Some (column :: columns, sequence, ps)
  end.

Fixpoint read_rows (sequence : Z) (ps : list packet) : option (list (list byte) * ((Z * Z) + server_failure) * list packet) :=
  match ps with
  | [] => None
  | (s, p) :: ps =>
      if negb (s =? sequence) then None else
      match row_packet_kind p with
      | DataPacket =>
          '(rows, ending, ps) ← read_rows (next_sequence s p) ps; Some (p :: rows, ending, ps)
      | EofPacket => ending ← read_eof p; Some ([], inl ending, ps)
      | ErrPacket => e ← read_server_failure p; Some ([], inr e, ps)
      | OkPacket => None
      end
  end.

Definition read_eof_packet (sequence : Z) (ps : list packet) : option ((Z * Z) * Z * list packet) :=
  '(p, sequence, ps) ← receive sequence ps;
  match row_packet_kind p with EofPacket => e ← read_eof p; Some (e, sequence, ps) | _ => None end.

(** The response and the packets after it. *)
Definition read_response (ps : list packet) : option (response * list packet) :=
  '(p, sequence, ps) ← receive 1 ps;
  match first_packet_kind p with
  | OkPacket =>
      '(affected, last, status, warnings) ← whole (read_ok p);
      Some (Success affected last status warnings, ps)
  | ErrPacket => e ← read_server_failure p; Some (Failure e, ps)
  | EofPacket => None
  | DataPacket =>
      count ← whole (lenEncodedInt (newByteCursor p));
      '(columns, sequence, ps) ← read_columns (Z.to_nat count) sequence ps;
      '(_, sequence, ps) ← read_eof_packet sequence ps;
      '(rows, ending, ps) ← read_rows sequence ps;
      Some (Results columns rows ending, ps)
  end.

(** The answer to a preparation: an error, or the identifier and the parameters. *)
Inductive preparation :=
| NotPrepared (e : server_failure)
| IsPrepared (id columns warnings : Z) (parameters : list ColumnDefinition).

Definition read_prepare_ok (payload : list byte) : option (Z * Z * Z * Z) :=
  match payload with
  | [_; i0; i1; i2; i3; c0; c1; p0; p1; _; w0; w1] =>
      Some (le_value [i0; i1; i2; i3], le_value [c0; c1], le_value [p0; p1], le_value [w0; w1])
  | _ => None
  end.

Definition read_prepared (ps : list packet) : option (preparation * list packet) :=
  '(p, sequence, ps) ← receive 1 ps;
  match first_packet_kind p with
  | ErrPacket => e ← read_server_failure p; Some (NotPrepared e, ps)
  | OkPacket =>
      '(id, columns, count, warnings) ← read_prepare_ok p;
      '(parameters, sequence, ps) ← read_columns (Z.to_nat count) sequence ps;
      if 0 <? count then
        '(_, _, ps) ← read_eof_packet sequence ps; Some (IsPrepared id columns warnings parameters, ps)
      else Some (IsPrepared id columns warnings parameters, ps)
  | _ => None
  end.

(** *** A conversation *)

Inductive heard :=
| Answer (r : response)
| Preparation (p : preparation)
| Silence.

(** What a client expects after a command. *)
Definition hear (command : Z) (ps : list packet) : option (heard * list packet) :=
  if (command =? CommandStmtSendLongData) || (command =? CommandStmtClose) then Some (Silence, ps)
  else if command =? CommandStmtPrepare then '(p, ps) ← read_prepared ps; Some (Preparation p, ps)
  else '(r, ps) ← read_response ps; Some (Answer r, ps).

Fixpoint converse (commands : list Z) (ps : list packet) : option (list heard * list packet) :=
  match commands with
  | [] => Some ([], ps)
  | command :: commands =>
      '(h, ps) ← hear command ps;
      '(hs, ps) ← converse commands ps;
      Some (h :: hs, ps)
  end.

(** ** What the client makes of the gateway's payloads *)

Lemma le_value_low n z : le_value (le_bytes n z) = z mod 2 ^ (Z.of_nat n * 8).
Proof. apply LittleEndianList.le_combine_split. Qed.

(** Only the low bits of a number are written. *)
Lemma le_bytes_low n z : le_bytes n (z mod 2 ^ (Z.of_nat n * 8)) = le_bytes n z.
Proof.
  rewrite <- le_value_low. pose proof (le_bytes_value (le_bytes n z)) as H. by rewrite le_bytes_length in H.
Qed.

Lemma u16_in_range z : u16_range (u16 z).
Proof. apply Z.mod_pos_bound. lia. Qed.

(** The failure a client reads from an error packet. *)
Definition server_failure_of (code : Z) (state message : string) : server_failure :=
  mkFailure (u16 code) (if (String.length state =? 5)%nat then state else "HY000"%string) message.

Lemma read_failure_error code state message :
  read_server_failure (ErrorPayload code state message) = Some (server_failure_of code state message).
Proof.
  assert (ErrorPayload code state message = ErrorPayload (u16 code) state message) as ->.
  { unfold ErrorPayload. do 2 f_equal. symmetry. apply (le_bytes_low 2). }
  unfold read_server_failure. destruct status_packets_roundtrip as [_ H]. by rewrite H by apply u16_in_range.
Qed.

Lemma read_eof_payload status warnings :
  read_eof (EOFPayload status warnings) = Some (u16 status, u16 warnings).
Proof.
  unfold EOFPayload, read_eof. change (u16 ?z) with (z mod 2 ^ (Z.of_nat 2 * 8)). rewrite <- !le_value_low.
  pose proof (le_bytes_length 2 status). pose proof (le_bytes_length 2 warnings).
  by destruct (le_bytes 2 status) as [|? [|? [|]]], (le_bytes 2 warnings) as [|? [|? [|]]].
Qed.

Lemma read_ok_payload affected last status warnings :
  0 <= affected < 2 ^ 64 -> 0 <= last < 2 ^ 64 ->
  whole (read_ok (OKPayload affected last status warnings)) = Some (affected, last, u16 status, u16 warnings).
Proof.
  intros Ha Hl.
  assert (OKPayload affected last status warnings = OKPayload affected last (u16 status) (u16 warnings)) as ->.
  { unfold OKPayload. pose proof (le_bytes_low 2 status) as Hs. pose proof (le_bytes_low 2 warnings) as Hw.
    change (?z mod 2 ^ (Z.of_nat 2 * 8)) with (u16 z) in Hs, Hw. by rewrite Hs, Hw. }
  destruct status_packets_roundtrip as [H _].
  destruct (H affected last (u16 status) (u16 warnings) Ha Hl (u16_in_range _) (u16_in_range _)) as (c & Hr & Hc).
  unfold whole. rewrite Hr. cbn. by rewrite Hc.
Qed.

Lemma read_column_payload column :
  column_ranges column -> whole (read_column (ColumnDefinitionPayload column)) = Some (with_defaults column).
Proof.
  intros H. destruct (column_definition_roundtrip column H) as (c & Hr & Hc). unfold whole. rewrite Hr. cbn.
  by rewrite Hc.
Qed.

Lemma read_count_payload count :
  0 <= count < 2 ^ 64 -> whole (lenEncodedInt (newByteCursor (ColumnCountPayload count))) = Some count.
Proof.
  intros H. change (ColumnCountPayload count) with (lenenc count).
  pose proof (lenEncodedInt_between count [] [] H) as Hr. rewrite app_nil_r in Hr.
  change (newByteCursor ?l) with (between [] l). unfold whole. rewrite Hr. cbn.
  by rewrite between_remaining.
Qed.

Lemma receive_expected sequence payload ps :
  receive sequence ((sequence, payload) :: ps) = Some (payload, next_sequence sequence payload, ps).
Proof. unfold receive. by rewrite Z.eqb_refl. Qed.

(** *** Shapes of answers *)

Lemma hears_failure code state message ps :
  read_response ((1, ErrorPayload code state message) :: ps) = Some (Failure (server_failure_of code state message), ps).
Proof.
  unfold read_response. rewrite receive_expected. cbn [mbind option_bind].
  destruct result_packets_distinct as (_ & _ & -> & _). by rewrite read_failure_error.
Qed.

Lemma hears_no_preparation code state message ps :
  read_prepared ((1, ErrorPayload code state message) :: ps) = Some (NotPrepared (server_failure_of code state message), ps).
Proof.
  unfold read_prepared. rewrite receive_expected. cbn [mbind option_bind].
  destruct result_packets_distinct as (_ & _ & -> & _). by rewrite read_failure_error.
Qed.

Lemma hears_success affected last status warnings ps :
  0 <= affected < 2 ^ 64 -> 0 <= last < 2 ^ 64 ->
  read_response ((1, OKPayload affected last status warnings) :: ps)
  = Some (Success affected last (u16 status) (u16 warnings), ps).
Proof.
  intros Ha Hl. unfold read_response. rewrite receive_expected. cbn [mbind option_bind].
  destruct result_packets_distinct as (_ & _ & _ & -> & _). by rewrite read_ok_payload.
Qed.

Lemma hears_eof sequence status warnings ps :
  read_eof_packet sequence ((sequence, EOFPayload status warnings) :: ps)
  = Some (u16 status, u16 warnings, next_sequence sequence (EOFPayload status warnings), ps).
Proof.
  unfold read_eof_packet. rewrite receive_expected. cbn [mbind option_bind].
  destruct result_packets_distinct as (_ & -> & _). by rewrite read_eof_payload.
Qed.

Lemma hears_rows_end sequence status warnings ps :
  read_rows sequence ((sequence, EOFPayload status warnings) :: ps)
  = Some ([], inl (u16 status, u16 warnings), ps).
Proof.
  cbn [read_rows]. rewrite Z.eqb_refl. cbn [negb].
  destruct result_packets_distinct as (_ & -> & _). by rewrite read_eof_payload.
Qed.

Lemma hears_rows_failure sequence code state message ps :
  read_rows sequence ((sequence, ErrorPayload code state message) :: ps)
  = Some ([], inr (server_failure_of code state message), ps).
Proof.
  cbn [read_rows]. rewrite Z.eqb_refl. cbn [negb].
  change (row_packet_kind (ErrorPayload code state message)) with ErrPacket. by rewrite read_failure_error.
Qed.

Lemma hears_row sequence payload ps :
  row_packet_kind payload = DataPacket ->
  read_rows sequence ((sequence, payload) :: ps) =
  '(rows, ending, ps) ← read_rows (next_sequence sequence payload) ps; Some (payload :: rows, ending, ps).
Proof. intros H. cbn [read_rows]. by rewrite Z.eqb_refl, H. Qed.

Lemma hears_count count ps :
  0 < count < 2 ^ 64 ->
  read_response ((1, ColumnCountPayload count) :: ps) =
  '(columns, sequence, ps) ← read_columns (Z.to_nat count) (next_sequence 1 (ColumnCountPayload count)) ps;
  '(_, sequence, ps) ← read_eof_packet sequence ps;
  '(rows, ending, ps) ← read_rows sequence ps;
  Some (Results columns rows ending, ps).
Proof.
  intros H. unfold read_response. rewrite receive_expected. cbn [mbind option_bind].
  destruct result_packets_distinct as (_ & _ & _ & _ & ->); [|done]. by rewrite read_count_payload by lia.
Qed.

Lemma hears_prepared id columns count warnings ps :
  0 <= count < 2 ^ 16 ->
  read_prepared ((1, PrepareOKPayload id columns count warnings) :: ps) =
  '(parameters, sequence, ps) ← read_columns (Z.to_nat count)
    (next_sequence 1 (PrepareOKPayload id columns count warnings)) ps;
  if 0 <? count then
    '(_, _, ps) ← read_eof_packet sequence ps; Some (IsPrepared (u32 id) (u16 columns) (u16 warnings) parameters, ps)
  else Some (IsPrepared (u32 id) (u16 columns) (u16 warnings) parameters, ps).
Proof.
  intros Hc. unfold read_prepared. rewrite receive_expected. cbn [mbind option_bind].
  assert (read_prepare_ok (PrepareOKPayload id columns count warnings) = Some (u32 id, u16 columns, count, u16 warnings)) as Hr.
  { assert (count = u16 count) as Hu by (symmetry; by apply Z.mod_small). rewrite Hu at 2.
    change (u16 ?z) with (z mod 2 ^ (Z.of_nat 2 * 8)). change (u32 id) with (id mod 2 ^ (Z.of_nat 4 * 8)).
    rewrite <- !le_value_low. unfold PrepareOKPayload, read_prepare_ok.
    pose proof (le_bytes_length 4 id). pose proof (le_bytes_length 2 columns).
    pose proof (le_bytes_length 2 count). pose proof (le_bytes_length 2 warnings).
    by destruct (le_bytes 4 id) as [|? [|? [|? [|? [|]]]]], (le_bytes 2 columns) as [|? [|? [|]]],
      (le_bytes 2 count) as [|? [|? [|]]], (le_bytes 2 warnings) as [|? [|? [|]]]. }
  change (first_packet_kind (PrepareOKPayload _ _ _ _)) with OkPacket. by rewrite Hr.
Qed.

Lemma hears_column n sequence column ps :
  column_ranges column ->
  read_columns (S n) sequence ((sequence, ColumnDefinitionPayload column) :: ps) =
  '(columns, sequence, ps) ← read_columns n (next_sequence sequence (ColumnDefinitionPayload column)) ps;
  Some (with_defaults column :: columns, sequence, ps).
Proof.
  intros H. cbn [read_columns]. rewrite receive_expected. cbn [mbind option_bind].
  by rewrite read_column_payload.
Qed.

(** *** Reading leaves what follows alone *)

Lemma receive_app sequence ps p z rest k :
  receive sequence ps = Some (p, z, rest) -> receive sequence (ps ++ k) = Some (p, z, rest ++ k).
Proof. unfold receive. destruct ps as [|[s q] ps]; [done|]. cbn. by destruct (s =? sequence); [intros [= <- <- <-]|]. Qed.

Lemma read_columns_app k n : forall sequence ps columns z rest,
  read_columns n sequence ps = Some (columns, z, rest) ->
  read_columns n sequence (ps ++ k) = Some (columns, z, rest ++ k).
Proof.
  induction n as [|n IH]; cbn [read_columns]; intros sequence ps columns z rest; [by intros [= <- <- <-]|].
  intros ([[p z1] rest1] & Hp & H)%bind_Some. rewrite (receive_app _ _ _ _ _ k Hp). cbn [mbind option_bind].
  apply bind_Some in H as (column & Hc & H). rewrite Hc. cbn [mbind option_bind].
  apply bind_Some in H as ([[cs z2] rest2] & Hcs & H). injection H as <- <- <-.
  by rewrite (IH _ _ _ _ _ Hcs).
Qed.

Lemma read_rows_app k ps : forall sequence rows ending rest,
  read_rows sequence ps = Some (rows, ending, rest) -> read_rows sequence (ps ++ k) = Some (rows, ending, rest ++ k).
Proof.
  induction ps as [|[s p] ps IH]; cbn [read_rows app]; [done|]. intros sequence rows ending rest.
  destruct (negb _); [done|]. destruct (row_packet_kind p); [done|..].
  - intros (e & He & H)%bind_Some. rewrite He. cbn [mbind option_bind]. by injection H as <- <- <-.
  - intros (e & He & H)%bind_Some. rewrite He. cbn [mbind option_bind]. by injection H as <- <- <-.
  - intros ([[rs e] rest'] & Hr & H)%bind_Some. injection H as <- <- <-. by rewrite (IH _ _ _ _ Hr).
Qed.

Lemma read_eof_packet_app k sequence ps e z rest :
  read_eof_packet sequence ps = Some (e, z, rest) -> read_eof_packet sequence (ps ++ k) = Some (e, z, rest ++ k).
Proof.
  unfold read_eof_packet. intros ([[p z1] rest1] & Hp & H)%bind_Some. rewrite (receive_app _ _ _ _ _ k Hp).
  cbn [mbind option_bind]. destruct (row_packet_kind p); try done.
  apply bind_Some in H as (e' & He & H). rewrite He. by injection H as <- <- <-.
Qed.

Lemma read_response_app k ps r rest :
  read_response ps = Some (r, rest) -> read_response (ps ++ k) = Some (r, rest ++ k).
Proof.
  unfold read_response. intros ([[p z] rest1] & Hp & H)%bind_Some. rewrite (receive_app _ _ _ _ _ k Hp).
  cbn [mbind option_bind]. destruct (first_packet_kind p); [| |done|].
  - apply bind_Some in H as ([[[a b] c] d] & He & H). rewrite He. by injection H as <- <-.
  - apply bind_Some in H as (e & He & H). rewrite He. by injection H as <- <-.
  - apply bind_Some in H as (count & Hc & H). rewrite Hc. cbn [mbind option_bind].
    apply bind_Some in H as ([[cs z2] rest2] & Hcs & H). rewrite (read_columns_app k _ _ _ _ _ _ Hcs).
    cbn [mbind option_bind]. apply bind_Some in H as ([[e z3] rest3] & He & H).
    rewrite (read_eof_packet_app k _ _ _ _ _ He). cbn [mbind option_bind].
    apply bind_Some in H as ([[rs e'] rest4] & Hr & H). rewrite (read_rows_app k _ _ _ _ _ Hr).
    by injection H as <- <-.
Qed.

Lemma read_prepared_app k ps p rest :
  read_prepared ps = Some (p, rest) -> read_prepared (ps ++ k) = Some (p, rest ++ k).
Proof.
  unfold read_prepared. intros ([[q z] rest1] & Hp & H)%bind_Some. rewrite (receive_app _ _ _ _ _ k Hp).
  cbn [mbind option_bind]. destruct (first_packet_kind q); [| |done..].
  - apply bind_Some in H as ([[[id columns] count] warnings] & He & H). rewrite He. cbn [mbind option_bind].
    apply bind_Some in H as ([[cs z2] rest2] & Hcs & H). rewrite (read_columns_app k _ _ _ _ _ _ Hcs).
    cbn [mbind option_bind]. destruct (0 <? count); [|by injection H as <- <-].
    apply bind_Some in H as ([[e z3] rest3] & He' & H). rewrite (read_eof_packet_app k _ _ _ _ _ He').
    by injection H as <- <-.
  - apply bind_Some in H as (e & He & H). rewrite He. by injection H as <- <-.
Qed.

Lemma hear_app k command ps h rest :
  hear command ps = Some (h, rest) -> hear command (ps ++ k) = Some (h, rest ++ k).
Proof.
  unfold hear. destruct (_ || _); [by intros [= <- <-]|]. destruct (_ =? _).
  - intros ([p rest1] & Hp & H)%bind_Some. rewrite (read_prepared_app k _ _ _ Hp). by injection H as <- <-.
  - intros ([r rest1] & Hp & H)%bind_Some. rewrite (read_response_app k _ _ _ Hp). by injection H as <- <-.
Qed.

Lemma converse_cons command commands ps k h hs :
  hear command ps = Some (h, []) -> converse commands k = Some (hs, []) ->
  converse (command :: commands) (ps ++ k) = Some (h :: hs, []).
Proof.
  intros H Hs. cbn [converse]. rewrite (hear_app k _ _ _ _ H). cbn [mbind option_bind app]. by rewrite Hs.
Qed.

End Client.
