(* ===== verification/Transparency.v ===== *)
(** * What a client of the pooled gateway gets, and what the server is asked

    The handlers of [Gateway] read against the reference client of [Client]: every
    command is answered by exactly one well-formed response; result sets are those
    the server gave, or visibly cut short; and the statements the server sees are
    those the client sent, in order. *)

From stdpp Require Import base list numbers strings option gmap.
From coqutil Require Import Byte.
From Stdlib Require Import ZArith Lia.
From S2P Require Import Prelude GoStrings GoStrconv Classify Logical Codec Response Handshake Wire.
From S2P Require Import PreparedCodec PreparedRows Gateway GatewayProtocol Client.
Import GoStrconv Classify Logical Response Wire Values Arguments PreparedRows Gateway Client.

Module Transparency.
Local Open Scope Z_scope.
Local Open Scope list_scope.

(** ** What a program adds to the log *)

(** The packets that reached the client. *)
Definition packets (l : list event) : list packet :=
  omap (fun e => match e with Reply sequence payload true => Some (sequence, payload) | _ => None end) l.

(** The text statements the server was asked to run. *)
Definition texts (l : list event) : list string :=
  omap (fun e => match e with Exec _ q | Query _ q => Some q | _ => None end) l.

Lemma packets_app l k : packets (l ++ k) = packets l ++ packets k.
Proof. apply omap_app. Qed.
Lemma texts_app l k : texts (l ++ k) = texts l ++ texts k.
Proof. apply omap_app. Qed.

Definition is_quiet (e : event) : Prop :=
  match e with Reply _ _ _ | Exec _ _ | Query _ _ | GoPanic => False | _ => True end.

Definition quiet (l : list event) : Prop := Forall is_quiet l.

Lemma quiet_packets l : quiet l -> packets l = [].
Proof. induction 1 as [|e l He _ IH]; [done|]. cbn. by destruct e. Qed.
Lemma quiet_texts l : quiet l -> texts l = [].
Proof. induction 1 as [|e l He _ IH]; [done|]. cbn. by destruct e. Qed.

Section Programs.
Context {U : UnicodeCase} {F : FloatText}.
Variable row_error_text : row_error -> string.
Variable env : environment.

(** From every world, [m] adds a list of events to the log that is, with its
    result, in [Q]. *)
Definition runs_at {A} (w : world) (m : M A) (Q : A -> list event -> Prop) : Prop :=
  exists l, log (m env w).2 = log w ++ l /\ Q (m env w).1 l.

Definition runs {A} (m : M A) (Q : A -> list event -> Prop) : Prop := forall w, runs_at w m Q.

Lemma runs_ret {A} (a : A) (Q : A -> list event -> Prop) : Q a [] -> runs (mret a) Q.
Proof. intros H w. exists []. by rewrite app_nil_r. Qed.

Lemma runs_bind {A B} (m : M A) (k : A -> M B) (P : A -> list event -> Prop) (Q : B -> list event -> Prop) :
  runs m P -> (forall a l, P a l -> runs (k a) (fun b l' => Q b (l ++ l'))) -> runs (m ≫= k) Q.
Proof.
  intros Hm Hk w. unfold runs_at, mbind, M_bind. destruct (Hm w) as (l & Hl & HP).
  destruct (m env w) as [a w1]. cbn in Hl, HP. destruct (Hk a l HP w1) as (l' & Hl' & HQ).
  exists (l ++ l'). by rewrite Hl', Hl, app_assoc.
Qed.

Lemma runs_mono {A} (m : M A) (P Q : A -> list event -> Prop) :
  runs m P -> (forall a l, P a l -> Q a l) -> runs m Q.
Proof. intros Hm HPQ w. destruct (Hm w) as (l & Hl & HP). exists l. split; [done|by apply HPQ]. Qed.

(** A quiet program whose result is in [R]. *)
Definition quietly {A} (m : M A) (R : A -> Prop) : Prop := runs m (fun a l => R a /\ quiet l).

Lemma quietly_ret {A} (a : A) (R : A -> Prop) : R a -> quietly (mret a) R.
Proof. intros H. apply runs_ret. by split; [|constructor]. Qed.

Lemma quietly_bind {A B} (m : M A) (k : A -> M B) (R : A -> Prop) (S : B -> Prop) :
  quietly m R -> (forall a, R a -> quietly (k a) S) -> quietly (m ≫= k) S.
Proof.
  intros Hm Hk. eapply runs_bind; [exact Hm|]. intros a l [Ha Hl].
  eapply runs_mono; [by apply Hk|]. intros b l' [Hb Hl']. split; [done|]. by apply Forall_app.
Qed.

Lemma quietly_mono {A} (m : M A) (R S : A -> Prop) : quietly m R -> (forall a, R a -> S a) -> quietly m S.
Proof. intros Hm HS. eapply runs_mono; [exact Hm|]. intros a l [Ha Hl]. split; [by apply HS|done]. Qed.

Lemma quietly_same {A} (m : M A) (R : A -> Prop) :
  (forall w, R (m env w).1 /\ log (m env w).2 = log w) -> quietly m R.
Proof. intros H w. destruct (H w) as [HR Hl]. exists []. rewrite app_nil_r. split; [done|]. by split; [|constructor]. Qed.

Lemma quietly_note e : is_quiet e -> quietly (note e) (fun _ => True).
Proof. intros He w. exists [e]. split; [done|]. split; [done|]. by repeat constructor. Qed.

Definition anything {A} (a : A) : Prop := True.

Lemma quietly_session : quietly get_session anything.
Proof. by apply quietly_same. Qed.
Lemma quietly_modify f : quietly (modify_session f) anything.
Proof. by apply quietly_same. Qed.
Lemma quietly_stats f : quietly (modify_stats f) anything.
Proof. by apply quietly_same. Qed.
Lemma quietly_held a b : quietly (add_held a b) anything.
Proof. by apply quietly_same. Qed.
Lemma quietly_asks {A} (f : environment -> A) : quietly (asks f) (fun a => a = f env).
Proof. by apply quietly_same. Qed.

(** The answer of a call is one of the environment's. *)
Definition answered {A} (ask : environment -> nat -> A) (a : A) : Prop := exists n, ask env n = a.

Lemma quietly_call {A} (ask : environment -> nat -> A) : quietly (call ask) (answered ask).
Proof. apply quietly_same. intros w. split; [by eexists|done]. Qed.
Lemma quietly_any_call {A} (ask : environment -> nat -> A) : quietly (call ask) anything.
Proof. by apply quietly_same. Qed.

(** *** Quiet programs of the gateway *)

Ltac hush :=
  repeat first
    [ assumption | solve [auto]
    | (apply quietly_ret; exact I) | apply quietly_session | apply quietly_modify | apply quietly_stats
    | apply quietly_held | apply quietly_any_call | (apply quietly_note; exact I)
    | (eapply (quietly_bind _ _ anything); [|intros ? _]) | case_match ].

Lemma quiet_logical {A} (f : Logical -> Logical * A) : quietly (logical f) anything.
Proof.
  unfold logical. eapply (quietly_bind _ _ anything); [hush|]. intros s _. destruct (f (state s)). hush.
Qed.

Lemma status_quiet : quietly status anything.
Proof. unfold status. hush. Qed.

(** No slot, or no connection that could be reset. *)
Definition pool_fails : Prop := exists n,
  is_Some (on_acquire env n) \/ is_Some (on_conn env n) \/ is_Some (on_reset env n).

Definition or_pool_fails (e : option go_error) : Prop := is_Some e -> pool_fails.

Lemma quiet_acquire n : quietly (acquire n) or_pool_fails.
Proof.
  unfold acquire. eapply quietly_bind; [apply quietly_call|]. intros e [k Hk].
  do 2 (eapply (quietly_bind _ _ anything); [hush|]; intros ? _). apply quietly_ret. intros He.
  exists k. left. by rewrite Hk.
Qed.

Lemma quietly_any {A} (m : M A) (R : A -> Prop) : quietly m R -> quietly m anything.
Proof. intros H. by eapply quietly_mono. Qed.

Lemma quiet_release : quietly release anything.
Proof. unfold release. hush. Qed.

Lemma quiet_open_and_reset : quietly open_and_reset (fun a => or_pool_fails a.2).
Proof.
  unfold open_and_reset. eapply quietly_bind; [apply quietly_call|]. intros e [k Hk].
  eapply (quietly_bind _ _ anything); [hush|]. intros _ _. destruct e as [e|].
  - apply quietly_ret. intros _. exists k. right. left. by rewrite Hk.
  - eapply (quietly_bind _ _ anything); [hush|]. intros _ _.
    eapply quietly_bind; [apply quietly_call|]. intros e [k' Hk'].
    eapply (quietly_bind _ _ anything); [hush|]. intros _ _. apply quietly_ret. intros He.
    exists k'. right. right. by rewrite Hk'.
Qed.

Lemma quiet_checkout : quietly checkout or_pool_fails.
Proof.
  unfold checkout. assert (or_pool_fails None) as H by by intros [? ?].
  revert H. generalize (@None go_error) as e. generalize 2%nat as n.
  induction n as [|n IH]; intros e He; cbn [checkout_loop].
  - apply quietly_ret. intros H. apply He. by destruct e.
  - eapply quietly_bind; [apply quiet_open_and_reset|]. intros [opened [e'|]] H.
    + eapply (quietly_bind _ _ anything); [unfold discardConnection; hush|]. intros _ _. by apply IH.
    + apply quietly_ret. by intros [? ?].
Qed.

Lemma quiet_releasePinned discard : quietly (releasePinnedConnection discard) anything.
Proof. unfold releasePinnedConnection, discardConnection, closeConnection, release. hush. Qed.

Lemma quiet_ensurePinned reason : quietly (ensurePinnedConnection reason) anything.
Proof.
  pose proof (fun n => quietly_any _ _ (quiet_acquire n)). pose proof (quietly_any _ _ quiet_checkout).
  pose proof quiet_release. unfold ensurePinnedConnection, recordPin. hush.
Qed.

Lemma quiet_begin : quietly begin_ anything.
Proof.
  pose proof quiet_ensurePinned. pose proof quiet_releasePinned. pose proof (fun f => quiet_logical (A := option illegal) f).
  unfold begin_, cancel_tx, rollback_tx. hush.
Qed.

Lemma quiet_implicit : quietly ensureImplicitTransaction anything.
Proof. pose proof quiet_begin. unfold ensureImplicitTransaction. hush. Qed.

Lemma quiet_close_statements l : quietly (close_statements l) anything.
Proof. induction l; cbn [close_statements]; unfold close_statement; hush. Qed.

Lemma quiet_finish : quietly finishTransaction anything.
Proof.
  pose proof quiet_releasePinned. pose proof quiet_close_statements.
  unfold finishTransaction, invalidateTransactionPrepared, cancel_tx. hush.
Qed.

Lemma hook_quiet : quietly runBeforeCommitResponse anything.
Proof. unfold runBeforeCommitResponse. hush. Qed.

(** ** Handlers that answer *)

(** What ends a session early: a reply that cannot be sent, and a failed commit. *)
Definition interrupts (e : event) : Prop :=
  match e with Reply _ _ false | CommitTx false => True | _ => False end.

(** At most the statement [q] is sent; if the handler has no error then what the
    client got is in [P]; it has one only after an interruption. *)
Record says (q : option string) (P : list packet -> Prop) (r : option go_error) (l : list event) : Prop := {
  sa_texts : texts l = [] \/ exists t, q = Some t /\ texts l = [t];
  sa_packets : r = None -> P (packets l);
  sa_error : r <> None -> List.Exists interrupts l }.

Definition responds (q : option string) (P : list packet -> Prop) (m : M (option go_error)) : Prop :=
  runs m (says q P).

Lemma says_quiet q P r l l' : quiet l -> says q P r l' -> says q P r (l ++ l').
Proof.
  intros Hl [Ht HP He]. split; rewrite ?texts_app, ?packets_app, ?(quiet_texts l), ?(quiet_packets l) by done;
    [done..|]. intros Hr. apply List.Exists_app. by right; apply He.
Qed.

Lemma responds_quietly {A} q P (m : M A) (k : A -> M (option go_error)) (R : A -> Prop) :
  quietly m R -> (forall a, R a -> responds q P (k a)) -> responds q P (m ≫= k).
Proof.
  intros Hm Hk. eapply runs_bind; [exact Hm|]. intros a l [Ha Hl]. eapply runs_mono; [by apply Hk|].
  intros r l' H. by apply says_quiet.
Qed.

Lemma responds_done q (P : list packet -> Prop) : P [] -> responds q P (mret None).
Proof. intros H. apply runs_ret. by split; [left|..]. Qed.

Lemma responds_weaken q (P Q : list packet -> Prop) m :
  responds None P m -> (forall ps, P ps -> Q ps) -> responds q Q m.
Proof.
  intros H HPQ. eapply runs_mono; [exact H|]. intros r l [[Ht|(t & ? & _)] HP He]; [|done].
  split; [by left| |done]. intros Hr. by apply HPQ, HP.
Qed.

(** A quiet end of a handler does not change what it says. *)
Lemma responds_then q P m (k : option go_error -> M (option go_error)) :
  responds q P m -> (forall r, quietly (k r) (fun r' => r' = r)) -> responds q P (m ≫= k).
Proof.
  intros Hm Hk. eapply runs_bind; [exact Hm|]. intros r l [Ht HP He]. eapply runs_mono; [apply Hk|].
  intros r' l' [-> Hl'].
  split; rewrite ?texts_app, ?packets_app, ?(quiet_texts l'), ?(quiet_packets l'), ?app_nil_r by done; [done..|].
  intros Hr. apply List.Exists_app. by left; apply He.
Qed.

Definition within_limit (payload : list byte) : Prop := Z.of_nat (length payload) <= Codec.DefaultMaxPacket.

(** A reply gets through, or the caller has an error. *)
Definition sent (sequence : Z) (payload : list byte) (a : Z * option go_error) (l : list event) : Prop :=
  (exists e, a.2 = Some e /\ l = [Reply sequence payload false]) \/
  (a = (next_sequence sequence payload, None) /\ l = [Reply sequence payload true] /\ within_limit payload).

Lemma runs_clientWriteMessage sequence payload : runs (clientWriteMessage sequence payload) (sent sequence payload).
Proof.
  unfold clientWriteMessage. destruct (Z.ltb_spec Codec.DefaultMaxPacket (Z.of_nat (length payload))) as [Hl|Hl].
  - intros w. exists [Reply sequence payload false]. split; [done|]. left. by eexists.
  - intros w. unfold mbind, M_bind, call. cbn. eexists. split; [done|].
    destruct (on_write env (calls w)) as [e|]; [left; by eexists|by right].
Qed.

Lemma runs_write sequence payload : runs (write sequence payload) (sent sequence payload).
Proof.
  intros w. exact (runs_clientWriteMessage sequence payload
    (modify_stats (add_traffic 0 (Z.of_nat (length payload) + Z.of_nat Codec.HeaderBytes)) env w).2).
Qed.

(** The next packet of a response. *)
Lemma responds_write q (P : list packet -> Prop) sequence payload (k : Z -> M (option go_error)) :
  (within_limit payload ->
   responds q (fun ps => P ((sequence, payload) :: ps)) (k (next_sequence sequence payload))) ->
  responds q P (then_sequence (write sequence payload) k).
Proof.
  intros Hk. unfold then_sequence. eapply runs_bind; [apply runs_write|].
  intros [z e] l [(e' & He & ->)|([= -> ->] & -> & Hp)].
  - cbn in He. subst e. apply runs_ret. split; [by left|done|]. intros _. by left.
  - eapply runs_mono; [by apply Hk|]. intros r l' [Ht HP He]. split; [done..|]. intros Hr. right. by apply He.
Qed.

(** The last one. *)
Lemma responds_last q (P : list packet -> Prop) sequence payload m :
  (m = write sequence payload \/ m = clientWriteMessage sequence payload) ->
  P [(sequence, payload)] -> responds q P ('(_, e) ← m; mret e).
Proof.
  intros Hm HP. eapply (runs_bind _ _ (sent sequence payload)).
  - destruct Hm as [-> | ->]; [apply runs_write|apply runs_clientWriteMessage].
  - intros [z e] l [(e' & He & ->)|([= -> ->] & -> & Hp)]; apply runs_ret.
    + cbn in He. subst e. split; [by left|done|]. intros _. by left.
    + by split; [left|..].
Qed.

Lemma responds_writeError q (P : list packet -> Prop) sequence code sqlState message :
  (forall message, P [(sequence, ErrorPayload code sqlState message)]) ->
  responds q P (writeError sequence code sqlState message).
Proof. intros HP. unfold writeError. cbv zeta. eapply responds_last; [by right|]. apply HP. Qed.

Lemma responds_writeSQLErrorAt q (P : list packet -> Prop) sequence e :
  (forall code sqlState message, P [(sequence, ErrorPayload code sqlState message)]) ->
  responds q P (writeSQLErrorAt sequence e).
Proof.
  intros HP. unfold writeSQLErrorAt. eapply responds_quietly; [apply quietly_stats|]. intros _ _.
  destruct (mysqlError e) as [[code sqlState] message]. by apply responds_writeError.
Qed.

(** A complete response. *)
Definition understood (ps : list packet) : Prop := exists r, read_response ps = Some (r, []).

Lemma error_understood code sqlState message : understood [(1, ErrorPayload code sqlState message)].
Proof. eexists. apply hears_failure. Qed.

Lemma responds_refusal q code sqlState message : responds q understood (writeError 1 code sqlState message).
Proof. apply responds_writeError. intros. apply error_understood. Qed.

Lemma responds_failure q e : responds q understood (writeSQLError e).
Proof. apply responds_writeSQLErrorAt. intros. apply error_understood. Qed.

Lemma responds_ok q affected insertID warnings :
  0 <= affected < 2 ^ 64 -> 0 <= insertID < 2 ^ 64 ->
  responds q understood (write_ok affected insertID warnings).
Proof.
  intros Ha Hi. unfold write_ok. eapply responds_quietly; [apply status_quiet|]. intros st _.
  eapply responds_last; [by left|]. eexists. by apply hears_success.
Qed.

Lemma responds_ok_0 q : responds q understood (write_ok 0 0 0).
Proof. by apply responds_ok. Qed.

(** ** The driver

    What the driver and the server do: a result set has columns, and a value for
    each of them in every row; counts are of 64-bit signed integers.  The hook
    before the reply to a commit is for tests. *)
Record driver_ok : Prop := {
  do_rows : Protocol.env_ok env;
  do_columns : forall n r, on_query env n = inr r -> 0 < Z.of_nat (length (columns r)) < 2 ^ 63;
  do_exec : forall n affected insertID, on_exec env n = inr (affected, insertID) ->
    affected < 2 ^ 63 /\ insertID < 2 ^ 63;
  do_hook : forall n, on_hook env n = None
}.

Context (Hdriver : driver_ok).

(** The statement is sent, once. *)
Lemma responds_asking {A} q (P : list packet -> Prop) (ask : environment -> nat -> A) (e : event)
    (k : A -> M (option go_error)) :
  texts [e] = [q] -> packets [e] = [] ->
  (forall a, answered ask a -> responds None P (k a)) ->
  responds (Some q) P (r ← (r ← call ask; _ ← note e; mret r); k r).
Proof.
  intros He Hp Hk. eapply (runs_bind _ _ (fun a l => answered ask a /\ texts l = [q] /\ packets l = [])).
  - intros w. exists [e]. split; [done|]. split; [by eexists|done].
  - intros a l (Ha & Ht & Hl). eapply runs_mono; [by apply Hk|]. intros r l' [Ht' HP' He'].
    split; rewrite ?texts_app, ?packets_app, ?Ht, ?Hl; [|done|intros Hr; apply List.Exists_app; by right; apply He'].
    right. exists q. split; [done|]. destruct Ht' as [-> |(t & ? & _)]; done.
Qed.

Lemma quiet_warnings on : quietly (readWarningCount on) anything.
Proof. unfold readWarningCount. hush. Qed.

Lemma responds_finish_exec q on n r :
  on_exec env n = r -> responds q understood (finish_exec on r).
Proof.
  intros Hr. unfold finish_exec. destruct r as [e|[affected insertID]]; [apply responds_failure|].
  destruct (do_exec Hdriver n affected insertID Hr) as [Ha Hi].
  eapply responds_quietly; [apply quiet_warnings|]. intros [e|warnings] _; [apply responds_failure|].
  eapply responds_quietly; [apply quietly_modify|]. intros _ _. apply responds_ok; lia.
Qed.

Lemma quietly_same_result (r : option go_error) (m : M unit) :
  quietly m anything -> quietly (_ ← m; mret r) (fun r' => r' = r).
Proof. intros H. eapply quietly_bind; [exact H|]. intros [] _. by apply quietly_ret. Qed.

(** A pooled statement: slot, connection, statement, and both returned. *)
Lemma responds_pooled {A} query (P : list packet -> Prop) (ask : environment -> nat -> A) (e : event)
    (finish : A -> M (option go_error)) (first second : M unit) :
  texts [e] = [query] -> packets [e] = [] ->
  (pool_fails -> forall code sqlState message, P [(1, ErrorPayload code sqlState message)]) ->
  (forall a, answered ask a -> responds None P (finish a)) -> quietly first anything -> quietly second anything ->
  responds (Some query) P (
    e' ← acquire (Z.of_nat (String.length query));
    match e' with
    | Some e' => writeSQLError e'
    | None =>
        e' ← checkout;
        match e' with
        | Some e' => r ← writeSQLError e'; _ ← release; mret r
        | None => a ← (r ← call ask; _ ← note e; mret r); r ← finish a; _ ← first; _ ← second; mret r
        end
    end).
Proof.
  intros He Hp HP Hf H1 H2. eapply responds_quietly; [apply quiet_acquire|].
  intros [e'|] Hfail; [apply responds_writeSQLErrorAt, HP, Hfail; by eexists|].
  eapply responds_quietly; [apply quiet_checkout|]. clear Hfail. intros [e'|] Hfail.
  - apply responds_then; [apply responds_writeSQLErrorAt, HP, Hfail; by eexists|].
    intros r. apply quietly_same_result, quiet_release.
  - apply responds_asking; [done..|]. intros a Ha. apply responds_then; [by apply Hf|].
    intros r. eapply quietly_bind; [exact H1|]. intros [] _. by apply quietly_same_result.
Qed.

Lemma quiet_close : quietly closeConnection anything.
Proof. unfold closeConnection. hush. Qed.

Lemma responds_exec query transactional : responds (Some query) understood (exec query transactional).
Proof.
  unfold exec, exec_on. destruct transactional.
  - apply responds_asking; [done..|]. intros r [n Hr]. by apply (responds_finish_exec _ _ n).
  - apply responds_pooled; [done..| | |apply quiet_close|apply quiet_release].
    + intros. apply error_understood.
    + intros r [n Hr]. by apply (responds_finish_exec _ _ n).
Qed.

(** *** Result sets *)

Section Results.
Context (encode : list value -> outcome go_error (list byte)).

(** The payloads of the rows before the first that fails, and whether none does. *)
Fixpoint encoded (scans : list (answer (list value))) : list (list byte) * bool :=
  match scans with
  | [] => ([], true)
  | inl _ :: _ => ([], false)
  | inr values :: scans =>
      match encode values with
      | Ret payload => let '(rows, complete) := encoded scans in (payload :: rows, complete)
      | _ => ([], false)
      end
  end.

(** A row is never taken for the end of the rows or an error, and encoding does not panic. *)
Definition row_encodes (n : nat) : Prop := forall values, length values = n ->
  no_panic (encode values) /\
  forall payload, encode values = Ret payload -> within_limit payload -> row_packet_kind payload = DataPacket.

Definition rows_read (sequence : Z) (rows : list (list byte)) (complete : bool)
    (E : bool -> (Z * Z) + server_failure -> Prop) (ps : list packet) : Prop :=
  exists ending, read_rows sequence ps = Some (rows, ending, []) /\ List.Forall within_limit rows /\ E complete ending.

Lemma responds_write_rows n (E : bool -> (Z * Z) + server_failure -> Prop) k scans : forall sequence,
  row_encodes n ->
  Forall (fun scan => match scan with inr vs => length vs = n | inl _ => True end) scans ->
  (forall f, E false (inr f)) ->
  (forall sequence, responds None (rows_read sequence [] true E) (k sequence)) ->
  responds None (rows_read sequence (encoded scans).1 (encoded scans).2 E)
    (write_rows encode scans sequence k).
Proof.
  intros sequence Henc Hscans HE Hk. revert sequence.
  assert (forall sequence e, responds None (rows_read sequence [] false E) (writeSQLErrorAt sequence e)) as Hfail.
  { intros sequence e. apply responds_writeSQLErrorAt. intros code sqlState message.
    eexists. split_and!; [apply hears_rows_failure|constructor|apply HE]. }
  induction Hscans as [|[e|values] scans Hv Hscans IH]; intros sequence; cbn [write_rows encoded]; [apply Hk|apply Hfail|].
  destruct (Henc values Hv) as [Hn Hrow]. destruct (encode values) as [payload|e|]; [|apply Hfail|done].
  apply responds_write. intros Hp. specialize (IH (next_sequence sequence payload)).
  destruct (encoded scans) as [rows complete]. eapply responds_weaken; [exact IH|].
  intros ps (ending & Hr & Hl & Hend). exists ending. split_and!; [|by constructor|done].
  rewrite hears_row by by apply Hrow. by rewrite Hr.
Qed.

End Results.

(** *** Columns *)

Lemma column_type_range name : 0 <= mysqlColumnType name < 256.
Proof.
  unfold mysqlColumnType. cbv zeta. destruct (find _ column_types) as [[names type]|] eqn:E; [|done].
  apply find_some in E as [E _].
  assert (Forall (fun entry => 0 <= entry.2 < 256) column_types) as H by (repeat constructor; done).
  rewrite List.Forall_forall in H. exact (H _ E).
Qed.

Lemma column_names_within c : within_limit (ColumnDefinitionPayload c) ->
  Forall name_sized [col_Schema c; col_Table c; col_OriginalTable c; col_Name c; col_OriginalName c].
Proof.
  unfold within_limit, Codec.DefaultMaxPacket, ColumnDefinitionPayload. cbv zeta.
  rewrite !append_lenenc_bytes, !length_app. intros Hl.
  pose proof (fun s => Handshake.lenenc_bytes_length (bytes_of s)) as H. setoid_rewrite bytes_of_length in H.
  pose proof (H (col_Schema c)). pose proof (H (col_Table c)). pose proof (H (col_OriginalTable c)).
  pose proof (H (col_Name c)). pose proof (H (col_OriginalName c)). unfold name_sized.
  repeat (apply Forall_cons_2; [lia|]). apply Forall_nil_2.
Qed.

Lemma column_within name database type :
  within_limit (ColumnDefinitionPayload (columnDefinition name database type)) ->
  column_ranges (columnDefinition name database type).
Proof.
  intros Hnames%column_names_within. revert Hnames.
  unfold columnDefinition.
  destruct (match DecimalSize type with Some _ => _ | None => _ end) as [length_ decimals] eqn:Ed.
  assert (0 <= length_ < 2 ^ 32 /\ 0 <= decimals < 256) as [Hlen Hdec].
  { revert Ed. pose proof (fun z => Z.mod_pos_bound z (2 ^ 32) eq_refl). pose proof (fun z => Z.mod_pos_bound z 256 eq_refl).
    unfold u32, u8. change (2 ^ 8) with 256.
    destruct (DecimalSize type) as [[precision scale]|]; [case_match|]; intros [= <- <-];
      (split; [|auto; lia]); destruct (Length type); auto; lia. }
  intros Hnames. constructor; [exact Hnames|..];
    cbn [col_Charset col_Length col_Type col_Flags col_Decimals]; unfold u16_range; try done.
  - by destruct (negb _ && _).
  - apply column_type_range.
  - by destruct (negb _ && _), (Nullable type) as [[]|], (contains "UNSIGNED" _).
Qed.

Definition columns_read (sequence : Z) (columns : list ColumnDefinition) (Q : Z -> list packet -> Prop)
    (ps : list packet) : Prop :=
  exists z ps', read_columns (length columns) sequence ps = Some (columns, z, ps') /\ Q z ps'.

Definition column_seen (database : string) (c : string * ColumnType) : ColumnDefinition :=
  with_defaults (columnDefinition c.1 database c.2).

Lemma responds_write_columns database columns (Q : Z -> list packet -> Prop) k : forall sequence,
  (forall z, responds None (Q z) (k z)) ->
  responds None (columns_read sequence (map (column_seen database) columns) Q) (write_columns database columns sequence k).
Proof.
  induction columns as [|[name type] columns IH]; intros sequence Hk; cbn [write_columns map].
  - eapply responds_weaken; [apply Hk|]. intros ps H. by exists sequence, ps.
  - apply responds_write. intros Hp. eapply responds_weaken; [by apply IH|].
    intros ps (z & ps' & Hr & HQ). exists z, ps'. split; [|done]. cbn [length].
    rewrite hears_column by by apply column_within. by rewrite Hr.
Qed.

(** *** A whole result set *)

Section Answers.
Context (encode : list (string * ColumnType) -> list value -> outcome go_error (list byte)).

(** A result set that ends well has all its rows, and the number of warnings. *)
Definition ends (r : result_set) (complete : bool) (ending : (Z * Z) + server_failure) : Prop :=
  match ending with
  | inl (_, warnings) =>
      complete = true /\ rows_err r = None /\ close_err r = None /\
      exists n count, on_warnings env n = inr count /\ warnings = u16 (Z.min count 65535)
  | inr _ =>
      complete = false \/ is_Some (rows_err r) \/ is_Some (close_err r) \/ exists n e, on_warnings env n = inl e
  end.

(** What an answer tells of a result set: its columns, its rows up to the first
    that could not be read or encoded, and how it ended. *)
Definition shows (r : result_set) (answer : response) : Prop :=
  match answer with
  | Success _ _ _ _ => False
  | Failure _ => is_Some (columns_error r) \/ is_Some (types_error r)
  | Results seen rows ending =>
      columns_error r = None /\ types_error r = None /\
      seen = map (column_seen (upstream_database env)) (columns r) /\
      rows = (encoded (encode (columns r)) (scans r)).1 /\ List.Forall within_limit rows /\
      ends r (encoded (encode (columns r)) (scans r)).2 ending
  end.

Definition showing (r : result_set) (ps : list packet) : Prop :=
  exists answer, read_response ps = Some (answer, []) /\ shows r answer.

Definition read_count (a : answer Z) : Prop :=
  match a with
  | inl _ => exists n e, on_warnings env n = inl e
  | inr warnings => exists n count, on_warnings env n = inr count /\ warnings = Z.min count 65535
  end.

Lemma quiet_count on : quietly (readWarningCount on) read_count.
Proof.
  unfold readWarningCount. eapply quietly_bind; [apply quietly_call|]. intros r [n Hn].
  eapply (quietly_bind _ _ anything); [by apply quietly_note|]. intros _ _. apply quietly_ret.
  destruct r; cbn; eauto.
Qed.

(** After the rows. *)
Lemma responds_rows_end on r sequence :
  responds None (rows_read sequence [] true (ends r))
    (match rows_err r, close_err r with
     | Some e, _ | None, Some e => writeSQLErrorAt sequence e
     | None, None =>
         w ← readWarningCount on;
         match w with
         | inl e => writeSQLErrorAt sequence e
         | inr warnings =>
             _ ← modify_session (with_state (fun l => SetResult l warnings 0));
             st ← status;
             then_sequence (write sequence (EOFPayload st warnings)) (fun _ => mret None)
         end
     end).
Proof.
  assert (Hfail : forall e, (forall f, ends r true (inr f)) ->
    responds None (rows_read sequence [] true (ends r)) (writeSQLErrorAt sequence e)).
  { intros e HE. apply responds_writeSQLErrorAt. intros. eexists.
    split_and!; [apply hears_rows_failure|constructor|apply HE]. }
  destruct (rows_err r) as [e|] eqn:E1; [apply Hfail; intros f; cbn; rewrite E1; eauto|].
  destruct (close_err r) as [e|] eqn:E2; [apply Hfail; intros f; cbn; rewrite E2; eauto|].
  eapply responds_quietly; [apply quiet_count|]. intros [e|warnings] Hw; [apply Hfail; intros f; cbn; eauto|].
  eapply responds_quietly; [apply quietly_modify|]. intros _ _.
  eapply responds_quietly; [apply status_quiet|]. intros st _.
  apply responds_write. intros _. apply responds_done. eexists.
  split_and!; [apply hears_rows_end|constructor|]. cbn. destruct Hw as (n & count & Hn & ->). eauto 10.
Qed.

Definition eof_and_rows (r : result_set) (z : Z) (ps : list packet) : Prop :=
  let '(rows, complete) := encoded (encode (columns r)) (scans r) in
  exists e z' ps', read_eof_packet z ps = Some (e, z', ps') /\ rows_read z' rows complete (ends r) ps'.

Lemma responds_write_results on r :
  0 < Z.of_nat (length (columns r)) < 2 ^ 63 -> Protocol.rows_ok r ->
  row_encodes (encode (columns r)) (length (columns r)) ->
  responds None (showing r) (write_results encode on r).
Proof.
  intros Hc Hrows Henc. unfold write_results.
  destruct (columns_error r) as [e|] eqn:E1; [|destruct (types_error r) as [e|] eqn:E2].
  1,2: apply responds_writeSQLErrorAt; intros; eexists; (split; [apply hears_failure|]); cbn; eauto.
  eapply responds_quietly; [apply quietly_asks|]. intros database ->.
  apply responds_write. intros _.
  eapply responds_weaken.
  - apply (responds_write_columns _ _ (eof_and_rows r)). intros z.
    eapply responds_quietly; [apply status_quiet|]. intros st _. apply responds_write. intros _.
    unfold eof_and_rows. rewrite (surjective_pairing (encoded _ _)).
    eapply responds_weaken; [|intros ps H; do 3 eexists; split; [apply hears_eof|exact H]].
    apply responds_write_rows with (n := length (columns r)); [exact Henc|exact Hrows|by left|].
    intros sequence. apply responds_rows_end.
  - intros ps (z & ps' & Hcols & H). unfold eof_and_rows in H.
    destruct (encoded (encode (columns r)) (scans r)) as [rows complete] eqn:E.
    destruct H as (e & z' & ps'' & Heof & ending & Hread & Hl & Hend).
    exists (Results (map (column_seen (upstream_database env)) (columns r)) rows ending).
    split; [|cbn; rewrite E; split_and!; done].
    rewrite hears_count, Nat2Z.id by lia. rewrite length_map in Hcols.
    rewrite Hcols. cbn [mbind option_bind]. rewrite Heof. destruct e. cbn [mbind option_bind]. by rewrite Hread.
Qed.

End Answers.

(** *** Text rows *)

(** What the client should see of a row: the text of each value, or NULL. *)
Definition text_cell (v : value) (c : string * ColumnType) : option (list byte) :=
  let '(text, null) := textValue v (DatabaseTypeName c.2) in if null then None else Some text.

Definition text_cells (columns : list (string * ColumnType)) (values : list value) : list (option (list byte)) :=
  zip_with text_cell values columns.

Lemma shown_pairs (l : list (list byte * bool)) :
  shown (map fst l) (map snd l) = map (fun c => if c.2 : bool then None else Some c.1) l.
Proof. induction l as [|[text []] l IH]; cbn; [done|by rewrite IH..]. Qed.

Lemma cells_sized (l : list (list byte * bool)) limit :
  Forall (fun c => c.2 = true -> c.1 = []) l ->
  Z.of_nat (length (concat (cells (map fst l) (map snd l)))) <= limit -> limit < 2 ^ 63 ->
  Forall sized (map fst l).
Proof.
  intros Hnull Hl Hlim. induction Hnull as [|[text null] l Hc _ IH]; cbn [map]; [by apply Forall_nil_2|].
  cbn [map cells concat tail fst snd] in Hl. rewrite length_app in Hl. apply Forall_cons_2; [|apply IH; lia].
  unfold sized. cbn [fst snd] in *. destruct null; [by rewrite Hc|].
  cbn [cell] in Hl. pose proof (Handshake.lenenc_bytes_length text). lia.
Qed.

Lemma text_null v type : (textValue v type).2 = true -> (textValue v type).1 = [].
Proof. destruct v; cbn; try done. by repeat case_match. Qed.

Definition text_row_of (columns : list (string * ColumnType)) (values : list value) : list byte :=
  let cells := zip_with (fun v c => textValue v (DatabaseTypeName c.2)) values columns in
  TextRowPayload (map fst cells) (map snd cells).

Lemma text_row_sized columns values : within_limit (text_row_of columns values) ->
  Forall sized (map fst (zip_with (fun v c => textValue v (DatabaseTypeName c.2)) values columns)).
Proof.
  unfold within_limit, text_row_of, TextRowPayload. cbv zeta. rewrite text_row_cells. intros H.
  eapply cells_sized; [|exact H|done]. apply Forall_forall. intros c (v & col & -> & _)%elem_of_zip_with.
  apply text_null.
Qed.

(** The rows before the first that could not be read. *)
Fixpoint scanned (scans : list (answer (list value))) : list (list value) :=
  match scans with inr values :: scans => values :: scanned scans | _ => [] end.

Lemma encoded_text columns scans :
  encoded (text_payload columns) scans
  = (map (text_row_of columns) (scanned scans), forallb (fun scan => match scan with inl _ => false | inr _ => true end) scans).
Proof. induction scans as [|[e|values] scans IH]; cbn; [done..|]. by rewrite IH. Qed.

Lemma text_row_encodes columns : columns <> [] -> row_encodes (text_payload columns) (length columns).
Proof.
  intros Hc values Hv. split; [done|]. intros payload [= <-] Hl.
  destruct result_packets_distinct as [H _]. apply H.
  - by destruct columns, values.
  - exact (text_row_sized columns values Hl).
Qed.

(** A row as the client decodes it. *)
Definition decodes (columns : list (string * ColumnType)) (payload : list byte) (values : list value) : Prop :=
  read_row (length columns) (Handshake.newByteCursor payload)
  = Ret (text_cells columns values, Handshake.mkCursor payload (length payload)).

Lemma text_row_decodes columns values : length values = length columns ->
  within_limit (text_row_of columns values) -> decodes columns (text_row_of columns values) values.
Proof.
  intros Hv Hl. unfold decodes.
  pose proof (text_row_roundtrip _ (map snd (zip_with (fun v c => textValue v (DatabaseTypeName c.2)) values columns))
    (text_row_sized columns values Hl)) as H.
  rewrite length_map, length_zip_with_l_eq in H by done. rewrite Hv in H. rewrite shown_pairs in H.
  unfold text_row_of. cbv zeta in *. rewrite H. do 2 f_equal. unfold text_cells.
  clear. revert columns. induction values as [|v values IH]; intros [|c columns]; cbn; [done..|].
  rewrite IH. f_equal. unfold text_cell. by destruct (textValue v _).
Qed.

Lemma scanned_sized n scans :
  Forall (fun scan => match scan with inr vs => length vs = n | inl _ => True end) scans ->
  Forall (fun values => length values = n) (scanned scans).
Proof. induction 1 as [|[e|values] scans Hv _ IH]; cbn; [by apply Forall_nil_2..|]. by apply Forall_cons_2. Qed.

Lemma text_rows_decode columns rows :
  Forall (fun values => length values = length columns) rows ->
  List.Forall within_limit (map (text_row_of columns) rows) ->
  Forall2 (decodes columns) (map (text_row_of columns) rows) rows.
Proof.
  induction 1 as [|values rows Hv _ IH]; cbn [map]; intros Hl; [by apply Forall2_nil_2|].
  inversion Hl; subst. apply Forall2_cons_2; [by apply text_row_decodes|by apply IH].
Qed.

(** *** Binary rows *)

Lemma binary_row_encodes database columns : (forall bits s, no_panic (ParseFloat bits s)) ->
  row_encodes (binary_payload row_error_text database columns) (length columns).
Proof.
  intros Hf values Hv. unfold binary_payload. split.
  - apply map_fail_no_panic, binary_row_no_panic; [done|..]; by rewrite ?length_map.
  - intros payload Hp _. rewrite binary_row_rows in Hp.
    destruct (row_values _ _ _ _); cbn in Hp; [|done..]. by injection Hp as <-.
Qed.

(** ** Text commands *)

(** What the client knows after a query: the rows the server gave, or that
    something failed. *)
Definition told (encode : list (string * ColumnType) -> list value -> outcome go_error (list byte))
    (ps : list packet) : Prop :=
  (exists n r, on_query env n = inr r /\ showing encode r ps) \/
  ((pool_fails \/ exists n e, on_query env n = inl e) /\ exists f, read_response ps = Some (Failure f, [])).

Lemma told_understood encode ps : told encode ps -> understood ps.
Proof. intros [(n & r & _ & answer & H & _)|(_ & f & H)]; by eexists. Qed.

Lemma responds_reply_rows encode on r :
  (forall columns, columns <> [] -> row_encodes (encode columns) (length columns)) ->
  answered on_query r -> responds None (told encode) (reply_rows encode on r).
Proof.
  intros Henc [n Hr]. unfold reply_rows. destruct r as [e|r].
  - apply responds_writeSQLErrorAt. intros. right. split; [eauto|]. eexists. apply hears_failure.
  - pose proof (do_columns Hdriver n r Hr) as Hc. eapply responds_weaken; [apply responds_write_results|].
    + done. + exact (do_rows Hdriver n r Hr). + apply Henc. intros E. rewrite E in Hc. cbn in Hc. lia.
    + intros ps H. left. eauto.
Qed.

Lemma text_rows_encode columns : columns <> [] -> row_encodes (text_payload columns) (length columns).
Proof. apply text_row_encodes. Qed.

Lemma responds_rows q : responds (Some q) (told (fun columns => text_payload columns)) (rows q).
Proof.
  unfold rows, query_on. eapply responds_quietly; [apply quietly_session|]. intros s _. destruct (tx s).
  - apply responds_asking; [done..|]. intros r Hr. apply responds_reply_rows; [exact text_rows_encode|exact Hr].
  - apply responds_pooled; [done..| | |apply quiet_release|apply quiet_close].
    + intros Hfail code sqlState message. right. split; [by left|]. eexists. apply hears_failure.
    + intros r Hr. apply responds_reply_rows; [exact text_rows_encode|exact Hr].
Qed.

Lemma responds_any q m : responds None understood m -> responds q understood m.
Proof. intros H. by eapply responds_weaken. Qed.

Lemma responds_told q encode m : responds q (told encode) m -> responds q understood m.
Proof.
  intros H. eapply runs_mono; [exact H|]. intros r l [Ht HP He]. split; [done| |done].
  intros Hr. by eapply told_understood, HP.
Qed.

Lemma responds_initDatabase q database : responds q understood (initDatabase database).
Proof.
  unfold initDatabase. eapply responds_quietly; [apply quietly_asks|]. intros configured _.
  destruct (_ || _); [apply responds_refusal|].
  eapply responds_quietly; [apply quiet_logical|]. intros [e|] _; [apply responds_refusal|apply responds_ok_0].
Qed.

Lemma warning_column_ranges database :
  within_limit (ColumnDefinitionPayload (warningColumn database)) -> column_ranges (warningColumn database).
Proof. intros H%column_names_within. by constructor. Qed.

Lemma responds_warningCount q : responds q understood warningCount.
Proof.
  unfold warningCount. eapply responds_quietly; [apply quietly_asks|]. intros database _.
  apply responds_write. intros _. apply responds_write. intros Hc%warning_column_ranges.
  eapply responds_quietly; [apply status_quiet|]. intros st _. apply responds_write. intros _.
  eapply responds_quietly; [apply quietly_session|]. intros s _. apply responds_write. intros Hrow.
  eapply responds_quietly; [apply status_quiet|]. intros st' _. apply responds_write. intros _.
  apply responds_done. eexists. rewrite hears_count by done. change (Z.to_nat 1) with 1%nat.
  rewrite hears_column by done. cbn [read_columns mbind option_bind]. rewrite hears_eof. cbn [mbind option_bind].
  rewrite hears_row; [by rewrite hears_rows_end|].
  destruct result_packets_distinct as [H _]. apply H; [done|].
  unfold within_limit, TextRowPayload in Hrow. rewrite text_row_cells in Hrow.
  eapply (cells_sized [(_, false)]); [by repeat constructor|exact Hrow|done].
Qed.

Lemma quiet_logical_result {A} (f : Logical -> Logical * A) (R : A -> Prop) :
  (forall l, R (f l).2) -> quietly (logical f) R.
Proof.
  intros Hf. unfold logical. eapply (quietly_bind _ _ anything); [apply quietly_session|]. intros s _.
  specialize (Hf (state s)). destruct (f (state s)) as [l a].
  eapply (quietly_bind _ _ anything); [apply quietly_modify|]. intros _ _. by apply quietly_ret.
Qed.

Lemma responds_transition q statement code sqlState message :
  responds q understood (transition statement code sqlState message).
Proof.
  unfold transition. eapply responds_quietly; [apply quiet_logical|].
  intros [e|] _; [apply responds_refusal|apply responds_ok_0].
Qed.

(** A commit: what follows a failed one ends the session. *)
Lemma responds_commit q P (fail : go_error -> M (option go_error)) (k : M (option go_error)) :
  (forall e, quietly (fail e) (fun r => r <> None)) -> responds q P k ->
  responds q P (e ← commit_tx; match e with Some e => fail e | None => k end).
Proof.
  intros Hfail Hk. eapply (runs_bind _ _ (fun e l => l = [CommitTx (succeeded e)])).
  - intros w. by eexists.
  - intros [e|] l ->.
    + eapply runs_mono; [apply Hfail|]. intros r l [Hr Hl]. split.
      * left. rewrite texts_app. by rewrite (quiet_texts l).
      * done.
      * intros _. by left.
    + eapply runs_mono; [exact Hk|]. intros r l [Ht HP He]. split; [done..|]. intros Hr. right. by apply He.
Qed.

Lemma quiet_poisoned e : quietly (_ ← finishTransaction; _ ← poison; mret (Some e)) (fun r : option go_error => r <> None).
Proof.
  eapply (quietly_bind _ _ anything); [apply quiet_finish|]. intros _ _.
  eapply (quietly_bind _ _ anything); [apply quietly_modify|]. intros _ _. by apply quietly_ret.
Qed.

Lemma quiet_hook_none : quietly runBeforeCommitResponse (fun r => r = None).
Proof.
  unfold runBeforeCommitResponse. eapply quietly_bind; [apply quietly_call|]. intros e [n He].
  eapply (quietly_bind _ _ anything); [by apply quietly_note|]. intros _ _. apply quietly_ret.
  rewrite <- He. apply (do_hook Hdriver).
Qed.

Lemma responds_committed q m : responds q understood m ->
  responds q understood (then_ok runBeforeCommitResponse m).
Proof.
  intros Hm. unfold then_ok. eapply responds_quietly; [apply quiet_hook_none|]. by intros e ->.
Qed.

Lemma responds_commit_command q : responds q understood commit.
Proof.
  unfold commit. eapply responds_quietly; [apply quietly_session|]. intros s _.
  destruct (negb (tx s)); [apply responds_ok_0|]. apply responds_commit; [apply quiet_poisoned|].
  eapply responds_quietly; [apply (quiet_logical_result _ (fun r => r = None)); done|]. intros r ->.
  eapply responds_quietly; [apply quietly_stats|]. intros _ _.
  eapply responds_quietly; [apply quiet_finish|]. intros _ _.
  apply responds_committed, responds_ok_0.
Qed.

Lemma responds_rollback_command q : responds q understood rollback.
Proof.
  unfold rollback. eapply responds_quietly; [apply quietly_session|]. intros s _.
  destruct (negb (tx s)); [apply responds_ok_0|].
  eapply (responds_quietly _ _ _ _ anything).
  { unfold rollback_tx. eapply (quietly_bind _ _ anything); [apply quietly_any_call|]. intros e _.
    eapply (quietly_bind _ _ anything); [by apply quietly_note|]. intros _ _. by apply quietly_ret. }
  intros e _. destruct (match e with Some TxDone | None => false | _ => true end) eqn:E.
  - eapply responds_quietly; [apply quiet_finish|]. intros _ _.
    eapply responds_quietly; [apply quietly_modify|]. intros _ _. destruct e as [e|]; [apply responds_failure|done].
  - eapply responds_quietly; [apply (quiet_logical_result _ (fun r => r = None)); done|]. intros r ->.
    eapply responds_quietly; [apply quiet_finish|]. intros _ _. apply responds_ok_0.
Qed.

(** A silent step before an answer. *)
Lemma responds_ok_then q P m k :
  responds None (fun ps => ps = []) m -> responds q P k -> responds q P (then_ok m k).
Proof.
  intros Hm Hk. eapply runs_bind; [exact Hm|]. intros r l [[Ht|(? & ? & _)] HP He]; [|done].
  destruct r as [e|].
  - apply runs_ret. rewrite app_nil_r. split; [by left|done|]. intros _. by apply He.
  - eapply runs_mono; [exact Hk|]. intros r l' [Ht' HP' He']. specialize (HP eq_refl).
    split; rewrite ?texts_app, ?packets_app, ?Ht, ?HP; [done..|]. intros Hr. apply List.Exists_app. by right; apply He'.
Qed.

Lemma responds_autocommit_commit : responds None (fun ps => ps = []) autocommit_commit.
Proof.
  unfold autocommit_commit. eapply responds_quietly; [apply quietly_session|]. intros s _.
  destruct (tx s); [|by apply responds_done]. apply responds_commit; [apply quiet_poisoned|].
  eapply responds_quietly; [apply quietly_stats|]. intros _ _.
  eapply responds_quietly; [apply quiet_finish|]. intros _ _.
  intros w. destruct (quiet_hook_none w) as (l & Hl & Hr & Hq). exists l. split; [done|].
  split; rewrite ?(quiet_texts l), ?(quiet_packets l) by done; [by left|done|by rewrite Hr].
Qed.

(** A query other than a refused or a control statement is sent as it is, less
    the space around it and a semicolon at its end. *)
Lemma classified_text q :
  st_kind (ClassifySQL q) <> StatementEmpty -> st_kind (ClassifySQL q) <> StatementUnsupported ->
  st_sql (ClassifySQL q) = body q.
Proof.
  intros He Hu. destruct (one_statement_dec q) as [Ho|Ho]; [|by rewrite classify_multiple in Hu by done].
  destruct (decide (words q = [])) as [Hw|Hw]; [by rewrite classify_no_words in He by done|].
  rewrite classify_words by done. apply (classify_fields_shape (visible_upper q) (body q) (words q)).
Qed.

Lemma responds_query sql : responds (Some (body sql)) understood (query sql).
Proof.
  unfold query. pose proof (classified_text sql) as Hsql. set (statement := ClassifySQL sql) in *.
  destruct (st_kind statement) eqn:Hk; try (specialize (Hsql ltac:(done) ltac:(done)); rewrite ?Hsql).
  all: try apply responds_refusal.
  all: try apply responds_commit_command.
  all: try apply responds_rollback_command.
  all: try apply responds_warningCount.
  all: try apply responds_transition.
  all: try apply responds_ok_then; try apply responds_autocommit_commit; try apply responds_transition.
  - eapply responds_quietly; [apply quiet_implicit|]. intros [e|] _; [apply responds_failure|].
    eapply responds_told, responds_rows.
  - eapply responds_quietly; [apply quiet_implicit|]. intros [e|] _; [apply responds_failure|].
    eapply responds_quietly; [apply quietly_session|]. intros s _. apply responds_exec.
  - eapply responds_quietly; [apply quietly_session|]. intros s _. destruct (tx s); [apply responds_refusal|apply responds_exec].
  - eapply responds_quietly; [apply quietly_session|]. intros s _. destruct (tx s); [apply responds_refusal|].
    eapply responds_quietly; [apply quiet_begin|]. intros [e|] _; [apply responds_failure|apply responds_ok_0].
  - eapply responds_quietly; [apply quiet_logical|]. intros e _.
    eapply responds_quietly; [apply quietly_session|]. intros s _.
    destruct (_ || _); [apply responds_refusal|apply responds_exec].
  - destruct (fields _) as [|? [|name [|? ?]]]; try apply responds_refusal. apply responds_initDatabase.
  - eapply responds_quietly; [apply quietly_stats|]. intros _ _. apply responds_refusal.
Qed.

(** ** Prepared statements *)

Definition parameters_read (n : nat) (sequence : Z) (Q : Z -> list packet -> Prop) (ps : list packet) : Prop :=
  exists z ps', read_columns n sequence ps = Some (repeat (with_defaults parameterColumn) n, z, ps') /\ Q z ps'.

Lemma responds_write_parameters n (Q : Z -> list packet -> Prop) k : forall sequence,
  (forall z, responds None (Q z) (k z)) ->
  responds None (parameters_read n sequence Q) (write_parameters n sequence k).
Proof.
  induction n as [|n IH]; intros sequence Hk; cbn [write_parameters].
  - eapply responds_weaken; [apply Hk|]. intros ps H. by exists sequence, ps.
  - apply responds_write. intros _. eapply responds_weaken; [by apply IH|].
    intros ps (z & ps' & Hr & HQ). exists z, ps'. split; [|done].
    rewrite hears_column by (constructor; by repeat constructor). by rewrite Hr.
Qed.

(** A complete answer to a preparation: an error, or a description of each
    placeholder. *)
Definition described (count : Z) (ps : list packet) : Prop :=
  exists p, read_prepared ps = Some (p, []) /\
    match p with
    | NotPrepared _ => True
    | IsPrepared _ columns warnings parameters =>
        columns = 0 /\ warnings = 0 /\ parameters = repeat (with_defaults parameterColumn) (Z.to_nat count)
    end.

Lemma not_described count code sqlState message : described count [(1, ErrorPayload code sqlState message)].
Proof. eexists. split; [apply hears_no_preparation|done]. Qed.

Lemma quiet_prepareOn sql : quietly (prepareOnCurrentConnection sql) anything.
Proof. unfold prepareOnCurrentConnection. hush. Qed.

Lemma responds_prepare sql :
  let count := countPreparedParameters (st_sql (ClassifySQL sql)) in
  count < 2 ^ 16 -> responds None (described count) (prepare sql).
Proof.
  intros count Hc. assert (Hcount : 0 <= count) by by apply Protocol.count_loop_nonneg.
  unfold prepare. fold count.
  assert (Hw : forall code sqlState message, responds None (described count) (writeError 1 code sqlState message))
    by (intros; apply responds_writeError; intros; apply not_described).
  assert (He : forall e, responds None (described count) (writeSQLError e))
    by (intros; apply responds_writeSQLErrorAt; intros; apply not_described).
  destruct (negb _); [apply Hw|].
  eapply responds_quietly; [apply quietly_session|]. intros s _. destruct (_ && _); [apply Hw|].
  eapply responds_quietly; [apply quiet_ensurePinned|]. intros [created [e|]] _; [apply He|].
  eapply responds_quietly; [apply quiet_prepareOn|]. intros [e|statement] _.
  - eapply responds_quietly; [apply quietly_session|]. intros s' _.
    eapply (responds_quietly _ _ _ _ anything); [|by intros _ _].
    destruct (_ && _); [apply quiet_releasePinned|by apply quietly_ret].
  - eapply responds_quietly; [apply quietly_modify|]. intros _ _.
    eapply responds_quietly; [apply quietly_session|]. intros s' _.
    eapply responds_quietly; [apply quietly_modify|]. intros _ _.
    eapply responds_quietly; [apply quiet_logical|]. intros [e|] _.
    + eapply (responds_quietly _ _ _ _ anything); [by apply quietly_note|]. intros _ _.
      eapply responds_quietly; [apply quietly_modify|]. intros _ _. apply He.
    + assert (u16 count = count) as -> by by apply Z.mod_small.
      apply responds_write. intros _. eapply responds_weaken.
      * apply (responds_write_parameters _ (fun z ps =>
          if 0 <? count then exists e z', read_eof_packet z ps = Some (e, z', []) else ps = [])). intros z.
        destruct (0 <? count); [|by apply responds_done].
        eapply responds_quietly; [apply status_quiet|]. intros st _.
        apply responds_write. intros _. apply responds_done. do 2 eexists. apply hears_eof.
      * intros ps (z & ps' & Hr & H). eexists. split.
        -- rewrite hears_prepared by done. rewrite Hr. cbn [mbind option_bind].
           destruct (0 <? count); [|by rewrite H]. destruct H as (e & z' & H). rewrite H. by destruct e.
        -- done.
Qed.

Lemma quiet_statementForExecution id p : quietly (statementForExecution id p) anything.
Proof.
  pose proof quiet_prepareOn as H. unfold statementForExecution.
  eapply (quietly_bind _ _ anything); [apply quietly_session|]. intros s _.
  eapply (quietly_bind _ _ anything); [unfold alter_prepared; hush|]. intros current _. hush.
Qed.

Lemma quiet_source : quietly warning_source anything.
Proof. unfold warning_source. hush. Qed.

(** Running a driver statement is quiet: its text was sent when it was prepared. *)
Lemma responds_running {A} (P : list packet -> Prop) (ask : environment -> nat -> A) (e : event)
    (k : A -> handle -> M (option go_error)) :
  is_quiet e -> (forall a on, answered ask a -> responds None P (k a on)) ->
  responds None P (r ← call ask; _ ← note e; source ← warning_source; k r source).
Proof.
  intros He Hk. eapply responds_quietly; [apply quietly_call|]. intros a Ha.
  eapply (responds_quietly _ _ _ _ anything).
  { eapply quietly_mono; [by apply quietly_note|]. done. }
  intros _ _. eapply responds_quietly; [apply quiet_source|]. intros on _. by apply Hk.
Qed.

Lemma responds_execPrepared statement arguments : responds None understood (execPrepared statement arguments).
Proof.
  apply (responds_running _ on_exec _ (fun r source => finish_exec source r)); [done|].
  intros r on [n Hr]. by apply (responds_finish_exec _ _ n).
Qed.

Lemma responds_queryPrepared statement arguments : (forall bits s, no_panic (ParseFloat bits s)) ->
  responds None (told (binary_payload row_error_text (upstream_database env)))
    (queryPrepared row_error_text statement arguments).
Proof.
  intros Hf. apply (responds_running _ on_query _ (fun r source =>
    database ← asks upstream_database; reply_rows (binary_payload row_error_text database) source r)); [done|].
  intros r on Hr. eapply responds_quietly; [apply quietly_asks|]. intros database ->.
  apply responds_reply_rows; [|done]. intros columns _. by apply binary_row_encodes.
Qed.

(** Statements whose arguments can be decoded without a panic. *)
Definition decodable (s : clientSession) : Prop :=
  map_Forall (fun _ p => forall payload, (decodeArguments (ps_parameters p) payload).1 <> Panic) (prepared s).

Lemma runs_at_session {A} w (k : clientSession -> M A) (Q : A -> list event -> Prop) :
  runs_at w (k (session w)) Q -> runs_at w (s ← get_session; k s) Q.
Proof. done. Qed.

Lemma quiet_alter id f : quietly (alter_prepared id f) anything.
Proof. apply quietly_modify. Qed.

Lemma responds_executePrepared payload w : (forall bits s, no_panic (ParseFloat bits s)) -> decodable (session w) ->
  runs_at w (executePrepared row_error_text payload) (says None understood).
Proof.
  intros Hf Hs. unfold executePrepared. destruct (_ <? _); [apply responds_refusal|].
  set (id := u32_at payload 1). apply runs_at_session.
  destruct (prepared (session w) !! id) as [p|] eqn:Hp; [|apply responds_refusal].
  specialize (Hs id p Hp payload). cbn beta in Hs. clear Hp. revert w.
  match goal with |- forall w, runs_at w ?m _ => change (responds None understood m) end.
  destruct (negb _); [apply responds_refusal|]. destruct (ps_longDataError p).
  { eapply responds_quietly; [apply quiet_alter|]. intros _ _. apply responds_refusal. }
  destruct (decodeArguments (ps_parameters p) payload) as [arguments decoded]. cbn [fst] in Hs. cbv zeta.
  eapply responds_quietly; [apply quiet_alter|]. intros _ _.
  destruct arguments as [arguments|text|]; [|apply responds_refusal|done].
  eapply responds_quietly; [apply quiet_implicit|]. intros [e|] _; [apply responds_failure|].
  eapply responds_quietly; [apply quiet_statementForExecution|].
  intros [e|[statement temporary]] _; [apply responds_failure|]. apply responds_then.
  - destruct (bool_decide _); [|apply responds_execPrepared].
    eapply responds_told, responds_queryPrepared, Hf.
  - intros r. apply quietly_same_result. destruct temporary; hush.
Qed.

(** Long data gets no answer; a packet that is refused gets one nobody reads. *)
Definition long_data_answer (ps : list packet) : Prop :=
  ps = [] \/ exists code sqlState message, ps = [(1, ErrorPayload code sqlState message)].

Lemma responds_long_data q payload : responds q long_data_answer (sendPreparedLongData payload).
Proof.
  assert (He : forall code sqlState message, responds q long_data_answer (writeError 1 code sqlState message)).
  { intros. apply responds_writeError. intros. right. by do 3 eexists. }
  unfold sendPreparedLongData. destruct (_ <? _); [apply He|].
  eapply responds_quietly; [apply quietly_session|]. intros s _.
  destruct (prepared s !! _) as [p|]; [|apply He]. destruct (_ <=? _); [apply He|].
  destruct (_ <? _); (eapply responds_quietly; [apply quiet_alter|]; intros _ _; apply responds_done; by left).
Qed.

Lemma responds_resetPrepared q payload : responds q understood (resetPrepared payload).
Proof.
  unfold resetPrepared. destruct (_ <? _); [apply responds_refusal|].
  eapply responds_quietly; [apply quietly_session|]. intros s _.
  destruct (prepared s !! _) as [p|]; [|apply responds_refusal].
  eapply responds_quietly; [apply quiet_alter|]. intros _ _. apply responds_ok_0.
Qed.

Lemma responds_closePrepared q payload : responds q (fun ps => ps = []) (closePrepared payload).
Proof.
  assert (Hd := responds_done q (fun ps => ps = []) eq_refl).
  unfold closePrepared. destruct (_ <? _); [done|].
  eapply responds_quietly; [apply quietly_session|]. intros s _.
  destruct (prepared s !! _) as [p|]; [|done].
  eapply (responds_quietly _ _ _ _ anything); [unfold close_statement; hush|]. intros _ _.
  eapply responds_quietly; [apply quietly_modify|]. intros _ _.
  eapply responds_quietly; [apply quiet_logical|]. intros _ _.
  eapply responds_quietly; [apply quietly_session|]. intros s' _.
  eapply (responds_quietly _ _ _ _ anything); [|by intros _ _].
  destruct (_ && _); [apply quiet_releasePinned|by apply quietly_ret].
Qed.

(** ** A command *)

(** The statement that may be sent for a command. *)
Definition asked (command : Z) (payload : list byte) : option string :=
  if command =? CommandQuery then Some (body (string_of (drop 1 payload))) else None.

(** What a client gets for a command: the response it waits for - or the error it
    does not wait for, after long data that was refused. *)
Definition served (command : Z) (ps : list packet) : Prop :=
  (exists h, hear command ps = Some (h, [])) \/
  (command = CommandStmtSendLongData /\
   exists code sqlState message, ps = [(1, ErrorPayload code sqlState message)]).

(** The number of parameters of a statement is sent in sixteen bits. *)
Definition describable (command : Z) (payload : list byte) : Prop :=
  command = CommandStmtPrepare ->
  countPreparedParameters (st_sql (ClassifySQL (string_of (drop 1 payload)))) < 2 ^ 16.

Lemma understood_served command ps :
  command <> CommandStmtSendLongData -> command <> CommandStmtClose -> command <> CommandStmtPrepare ->
  understood ps -> served command ps.
Proof.
  intros H1 H2 H3 (r & Hr). left. exists (Answer r). unfold hear.
  rewrite (proj2 (Z.eqb_neq _ _) H1), (proj2 (Z.eqb_neq _ _) H2), (proj2 (Z.eqb_neq _ _) H3). cbn [orb].
  by rewrite Hr.
Qed.

Lemma says_weaken q (P Q : list packet -> Prop) r l :
  says q P r l -> (forall ps, P ps -> Q ps) -> says q Q r l.
Proof. intros [Ht HP He] H. split; [done| |done]. intros Hr. by apply H, HP. Qed.

Lemma dispatch_serves command payload w : (forall bits s, no_panic (ParseFloat bits s)) ->
  decodable (session w) -> describable command payload ->
  runs_at w (dispatch row_error_text command payload) (says (asked command payload) (served command)).
Proof.
  intros Hf Hs Hd.
  assert (Hweak : forall q (P : list packet -> Prop) m, runs_at w m (says q P) ->
    (forall ps, P ps -> served command ps) -> runs_at w m (says q (served command))).
  { intros q P m (l & Hl & H) HP. exists l. split; [done|]. by eapply says_weaken. }
  unfold dispatch. cbv zeta.
  destruct (Z.eqb_spec command CommandPing) as [->|_].
  { eapply Hweak; [apply responds_ok_0|]. intros ps. by apply understood_served. }
  destruct (Z.eqb_spec command CommandInitDB) as [->|_].
  { eapply Hweak; [apply responds_initDatabase|]. intros ps. by apply understood_served. }
  destruct (Z.eqb_spec command CommandQuery) as [->|_].
  { eapply Hweak; [apply responds_query|]. intros ps. by apply understood_served. }
  destruct (Z.eqb_spec command CommandStmtPrepare) as [->|N1].
  { eapply Hweak; [apply responds_prepare; by apply Hd|]. intros ps (p & Hp & _).
    left. exists (Preparation p). cbn. by rewrite Hp. }
  destruct (Z.eqb_spec command CommandStmtExecute) as [->|_].
  { eapply Hweak; [by apply responds_executePrepared|]. intros ps. by apply understood_served. }
  destruct (Z.eqb_spec command CommandStmtSendLongData) as [->|N2].
  { eapply Hweak; [apply responds_long_data|]. intros ps [->|H]; [by left; exists Silence|by right]. }
  destruct (Z.eqb_spec command CommandStmtClose) as [->|N3].
  { eapply Hweak; [apply responds_closePrepared|]. intros ps ->. by left; exists Silence. }
  destruct (Z.eqb_spec command CommandStmtReset) as [->|_].
  { eapply Hweak; [apply responds_resetPrepared|]. intros ps. by apply understood_served. }
  assert (Hr : forall reason code sqlState message, responds (asked command payload) understood
    (_ ← recordRejection reason; writeError 1 code sqlState message)).
  { intros. eapply responds_quietly; [apply quietly_stats|]. intros _ _. apply responds_refusal. }
  destruct (command =? CommandStmtFetch); (eapply Hweak; [apply Hr|]; intros ps; by apply understood_served).
Qed.

(** ** A session *)

(** A conversation: the client's messages, how the session ended, and the events
    of each command in order. *)
Inductive conversed (ending : go_error) : list (Z * list byte) -> option go_error -> list event -> Prop :=
| all_read : conversed ending [] (Some ending) []
| out_of_sequence sequence payload messages :
    payload = [] \/ sequence <> 0 -> conversed ending ((sequence, payload) :: messages) (Some errSequence) []
| quits command payload messages :
    bval command = CommandQuit -> conversed ending ((0, command :: payload) :: messages) None []
| command_served command payload messages r l l' :
    says (asked (bval command) (command :: payload)) (served (bval command)) None l ->
    conversed ending messages r l' -> conversed ending ((0, command :: payload) :: messages) r (l ++ l')
| command_failed command payload messages e l :
    says (asked (bval command) (command :: payload)) (served (bval command)) (Some e) l ->
    conversed ending ((0, command :: payload) :: messages) (Some e) l.

Definition describable_message (message : Z * list byte) : Prop :=
  match message.2 with [] => True | command :: _ => describable (bval command) message.2 end.

Lemma in_order_decodable s : Protocol.in_order s s -> decodable s.
Proof.
  intros Hs id p Hp payload. apply (Protocol.decoded_ok (tx s)).
  by apply (Protocol.cl_statements s (Protocol.io_closable _ _ Hs) id).
Qed.

Lemma serve_converses ending messages : (forall bits s, no_panic (ParseFloat bits s)) ->
  List.Forall describable_message messages -> forall w,
  Protocol.view_of w = Protocol.rest (session w) -> Protocol.in_order (session w) (session w) ->
  nextPreparedID (session w) + Z.of_nat (length messages) < 2 ^ 32 ->
  runs_at w (serve row_error_text ending messages) (conversed ending messages).
Proof.
  intros Hf. induction 1 as [|[sequence payload] messages Hm _ IH]; intros w Hv Ho Hn; cbn [serve].
  { exists []. rewrite app_nil_r. split; [done|constructor]. }
  assert (Hseq : payload = [] \/ sequence <> 0 ->
    runs_at w (mret (Some errSequence)) (conversed ending ((sequence, payload) :: messages))).
  { intros H. exists []. rewrite app_nil_r. split; [done|by constructor]. }
  destruct payload as [|command payload]; [by apply Hseq; left|].
  destruct (Z.eqb_spec sequence 0) as [->|Hne]; [|by apply Hseq; right]. cbn [negb].
  set (w1 := (modify_stats (add_traffic (Z.of_nat (length (command :: payload)) + Z.of_nat Codec.HeaderBytes) 0) env w).2).
  assert (Hv1 : Protocol.view_of w1 = Protocol.rest (session w1)) by exact Hv.
  change (runs_at w1 (if bval command =? CommandQuit then mret None
    else then_ok (dispatch row_error_text (bval command) (command :: payload)) (serve row_error_text ending messages))
    (conversed ending ((0, command :: payload) :: messages))).
  assert (Ho1 : Protocol.in_order (session w1) (session w1)) by exact Ho.
  assert (Hn1 : nextPreparedID (session w1) + Z.of_nat (S (length messages)) < 2 ^ 32) by exact Hn.
  clearbody w1. clear Hv Ho Hn Hseq w.
  destruct (Z.eqb_spec (bval command) CommandQuit) as [Hq|_].
  { exists []. rewrite app_nil_r. split; [done|by constructor]. }
  pose proof (Protocol.dispatch_handles row_error_text Hf env (do_rows Hdriver) (bval command) (command :: payload)
    _ Ho1 ltac:(lia) w1 Hv1) as (s' & Hv' & Hc & Hnext & Hh).
  destruct (dispatch_serves (bval command) (command :: payload) w1 Hf (in_order_decodable _ Ho1) Hm) as (l & Hl & Hsays).
  unfold runs_at, then_ok, mbind, M_bind.
  destruct (dispatch row_error_text (bval command) (command :: payload) env w1) as [[e|] w2]; cbn [fst snd] in *.
  - exists l. split; [done|]. by apply command_failed.
  - assert (session w2 = s') as Hs2 by exact (f_equal Protocol.v_session Hv'). subst s'.
    destruct (IH w2) as (l' & Hl' & H); [done|apply Protocol.closable_in_order; auto|lia|].
    exists (l ++ l'). rewrite Hl', Hl, app_assoc. split; [done|]. by apply command_served.
Qed.

Lemma quiet_session_end : quietly close anything.
Proof.
  assert (Hall : forall l, quietly (close_prepared l) anything).
  { induction l as [|[id p] l IH]; cbn [close_prepared]; unfold close_statement; [hush|].
    pose proof (fun f => quiet_logical (A := bool) f). hush. }
  pose proof quiet_releasePinned. unfold close, closeAllPrepared, rollback_tx, cancel_tx. hush.
Qed.

End Programs.
End Transparency.
