(* ===== verification/Conversation.v ===== *)
(** * Conversations with the gateway

    The claims that [Transparency] prepares: a session answers command after
    command, a client that reads the answers is never out of step, the server
    sees the client's own statements in the client's order, and a read sends back
    the rows the server gave. *)

From stdpp Require Import base list numbers strings option gmap.
From coqutil Require Import Byte.
From Stdlib Require Import ZArith Lia.
From S2P Require Import Prelude GoStrings GoStrconv Classify Logical Codec Response Handshake Wire.
From S2P Require Import PreparedCodec PreparedRows BinaryRows Gateway GatewayProtocol Client Transparency.
Import GoStrconv Classify Logical Response Wire Values Arguments PreparedRows Gateway Client Transparency.

Module Conversation.
Local Open Scope Z_scope.
Local Open Scope list_scope.

Section Sessions.
Context {U : UnicodeCase} {F : FloatText}.
Variable row_error_text : row_error -> string.
Variable env : environment.

Lemma run_session_converses ending messages w :
  driver_ok env -> (forall bits s, no_panic (ParseFloat bits s)) ->
  List.Forall describable_message messages -> Z.of_nat (length messages) < 2 ^ 32 -> Protocol.idle w ->
  exists l final, log (run_session row_error_text ending messages env w).2 = l ++ final /\ quiet final /\
    conversed ending messages (run_session row_error_text ending messages env w).1 l.
Proof.
  intros Hd Hf Hm Hn Hw. unfold run_session. unfold mbind, M_bind. cbn [asks modify_session fst snd].
  set (w1 := mkWorld (new_session (upstream_database env)) (slots w) (connections w) (stats w) (calls w) (log w)).
  destruct (serve_converses row_error_text env Hd ending messages Hf Hm w1) as (l & Hl & H).
  - rewrite (Protocol.idle_view w1 Hw). done.
  - apply Protocol.in_order_new.
  - cbn. lia.
  - destruct (serve _ _ _ _ w1) as [r w2]. cbn [fst snd] in *.
    destruct (quiet_session_end env w2) as (final & Hfinal & _ & Hq).
    destruct (close env w2) as [[] w3]. cbn [fst snd] in *. exists l, final.
    split_and!; [|done|done]. destruct Hw as (_ & _ & _ & Hlog). cbn. rewrite Hfinal, Hl. cbn. by rewrite Hlog.
Qed.

(** The command of a message. *)
Definition command_of (message : Z * list byte) : Z :=
  match message.2 with [] => 0 | command :: _ => bval command end.

(** The statements the client sent as text, cut to their bodies. *)
Definition asked_texts (messages : list (Z * list byte)) : list string :=
  omap (fun message => asked (command_of message) message.2) messages.

Lemma conversed_texts ending messages r l :
  conversed ending messages r l -> texts l `sublist_of` asked_texts messages.
Proof.
  assert (Hasked : forall q P r' l' (k t : list string), says q P r' l' -> k `sublist_of` t ->
    texts l' ++ k `sublist_of` from_option (fun q => [q]) [] q ++ t).
  { intros q P r' l' k t [[->|(u & -> & ->)] _ _] H; cbn; [|by apply sublist_skip].
    destruct q; cbn; [by apply sublist_cons|done]. }
  assert (Hone : forall command payload messages, asked_texts ((0, command :: payload) :: messages) =
    from_option (fun q => [q]) [] (asked (bval command) (command :: payload)) ++ asked_texts messages).
  { intros. unfold asked_texts. cbn. by destruct (asked _ _). }
  induction 1 as [| | |command payload messages r l l' Hs _ IH|command payload messages e l Hs];
    try apply sublist_nil_l.
  - rewrite texts_app, Hone. by eapply Hasked.
  - rewrite Hone, <- (app_nil_r (texts l)). eapply Hasked; [exact Hs|apply sublist_nil_l].
Qed.

(** C7.  The server sees the client's own statements, in the client's order.
    Whatever driver, network and server do, the texts a session has run are a
    subsequence of the texts of its COM_QUERY messages, each sent once at most
    and unchanged but for the space around it and one final semicolon: nothing
    is rewritten, repeated after a failure, invented or reordered. *)
Theorem statements_verbatim (ending : go_error) (messages : list (Z * list byte)) (w : world)
    (Hdriver : driver_ok env) (Hfloat : forall bits s, no_panic (ParseFloat bits s))
    (Hmessages : List.Forall describable_message messages) (Hlen : Z.of_nat (length messages) < 2 ^ 32)
    (Hw : Protocol.idle w) :
  texts (log (run_session row_error_text ending messages env w).2) `sublist_of` asked_texts messages.
Proof.
  destruct (run_session_converses ending messages w Hdriver Hfloat Hmessages Hlen Hw) as (l & final & -> & Hq & H).
  rewrite texts_app, (quiet_texts final Hq), app_nil_r. by eapply conversed_texts.
Qed.

(** Why a session stopped at a message. *)
Definition stopped (ending : go_error) (rest : list (Z * list byte)) (r : option go_error) : Prop :=
  match rest with
  | [] => r = Some ending
  | (sequence, payload) :: _ =>
      (r = Some errSequence /\ (payload = [] \/ sequence <> 0)) \/ (r = None /\ command_of (sequence, payload) = CommandQuit)
  end.

Lemma conversed_in_step ending messages r l : conversed ending messages r l ->
  ~ List.Exists interrupts l -> Forall (fun message => command_of message <> CommandStmtSendLongData) messages ->
  exists answered rest heard, messages = answered ++ rest /\
    converse (map command_of answered) (packets l) = Some (heard, []) /\ stopped ending rest r.
Proof.
  induction 1 as [|sequence payload messages Hs|command payload messages Hq
    |command payload messages r l l' [_ Hp _] _ IH|command payload messages e l [_ _ He]]; intros Hi Hm.
  - by exists [], [], [].
  - exists [], ((sequence, payload) :: messages), []. split_and!; [done..|by left].
  - exists [], ((0, command :: payload) :: messages), []. split_and!; [done..|by right].
  - inversion Hm as [|? ? Hc Hm']; subst. rewrite List.Exists_app in Hi.
    destruct IH as (answered & rest & heard & -> & H & Hstop); [naive_solver|done|].
    destruct (Hp eq_refl) as [(h & Hh)|[Hl _]]; [|done].
    exists ((0, command :: payload) :: answered), rest, (h :: heard). split_and!; [done| |done].
    rewrite packets_app. by apply (converse_cons (bval command)).
  - destruct Hi. by apply He.
Qed.


(** *** Reads *)

(** What the client's answer says of what the server did for a read; [carried]
    relates the columns it saw, the rows it got and the rows that were scanned,
    and [cut] tells why some are missing. *)
Definition faithful (carried : list (string * ColumnType) -> list ColumnDefinition -> list (list byte) -> list (list value) -> Prop)
    (cut : list (string * ColumnType) -> list (answer (list value)) -> Prop) (answer : response) : Prop :=
  match answer with
  | Success _ _ _ _ => False
  | Failure _ =>
      pool_fails env \/ (exists n e, on_query env n = inl e) \/
      exists n result, on_query env n = inr result /\ (is_Some (columns_error result) \/ is_Some (types_error result))
  | Results seen rows ending =>
      exists n result, on_query env n = inr result /\
        seen = map (column_seen (upstream_database env)) (columns result) /\
        carried (columns result) seen rows (scanned (scans result)) /\
        match ending with
        | inl (_, warnings) =>
            scans result = map inr (scanned (scans result)) /\ length rows = length (scans result) /\
            rows_err result = None /\ close_err result = None /\
            exists n count, on_warnings env n = inr count /\ warnings = u16 (Z.min count 65535)
        | inr _ =>
            cut (columns result) (scans result) \/ is_Some (rows_err result) \/
            is_Some (close_err result) \/ exists n e, on_warnings env n = inl e
        end
  end.

Definition unreadable (scans : list (answer (list value))) : Prop := List.Exists (fun scan => exists e, scan = inl e) scans.

(** Text rows: each decodes to the texts and NULLs of its values. *)
Definition text_faithful : response -> Prop :=
  faithful (fun columns _ rows values => Forall2 (decodes columns) rows values) (fun _ => unreadable).

(** Binary rows: the reader of the columns the client saw cuts each into cells
    that show its values; the rows stop early only at one that cannot be
    encoded. *)
Definition binary_decodes (columns : list (string * ColumnType)) (seen : list ColumnDefinition)
    (payload : list byte) (values : list value) : Prop :=
  exists cells, BinaryRows.read_binary_row (map col_Type seen) payload = Some cells /\
    BinaryRows.row_shows (map (fun c => columnDefinition c.1 (upstream_database env) c.2) columns)
      (map (fun c => DatabaseTypeName c.2) columns) values cells.

Definition unencodable (columns : list (string * ColumnType)) (values : list value) : Prop :=
  exists e, binary_payload row_error_text (upstream_database env) columns values = Fail e.

Definition binary_faithful : response -> Prop :=
  faithful (fun columns seen rows values => Forall2 (binary_decodes columns seen) rows (take (length rows) values))
    (fun columns scans => unreadable scans \/ List.Exists (unencodable columns) (scanned scans)).

Lemma whole_scan scans :
  forallb (fun scan : answer (list value) => match scan with inl _ => false | inr _ => true end) scans = true ->
  scans = map inr (scanned scans).
Proof. induction scans as [|[e|values] scans IH]; cbn; [done..|]. intros H. by rewrite <- IH. Qed.

Lemma not_scanned scans :
  forallb (fun scan : answer (list value) => match scan with inl _ => false | inr _ => true end) scans = false ->
  unreadable scans.
Proof. induction scans as [|[e|values] scans IH]; cbn; [done|left; by eexists|right; by apply IH]. Qed.

Lemma scanned_length scans : scans = map inr (scanned scans) -> length (scanned scans) = length scans.
Proof. intros H. rewrite H at 2. by rewrite length_map. Qed.

Lemma failed_faithful carried cut ps :
  ((pool_fails env \/ exists n e, on_query env n = inl e) /\ exists f, read_response ps = Some (Failure f, [])) ->
  exists answer, read_response ps = Some (answer, []) /\ faithful carried cut answer.
Proof. intros [[Hf|Hf] (f & Hread)]; (exists (Failure f); split; [done|]); [by left|right; by left]. Qed.

Lemma told_text ps : driver_ok env -> told env (fun columns => text_payload columns) ps ->
  exists answer, read_response ps = Some (answer, []) /\ text_faithful answer.
Proof.
  intros Hd [(n & result & Hr & answer & Hread & H)|H]; [|by apply failed_faithful].
  exists answer. split; [done|]. destruct answer as [| |seen rows ending]; [done|right; right; by exists n, result|].
  destruct H as (_ & _ & Hseen & Hrows & Hl & He). rewrite encoded_text in Hrows, He. cbn [fst snd] in *. subst rows.
  exists n, result. split_and!; [done..| |].
  - apply text_rows_decode; [|done]. apply scanned_sized, (do_rows env Hd n result Hr).
  - destruct ending as [[st warnings]|f]; cbn [ends] in He.
    + destruct He as (Hall & H1 & H2 & H3). apply whole_scan in Hall.
      split_and!; [done|by rewrite length_map, (scanned_length _ Hall)|done..].
    + destruct He as [He|He]; [left; by apply not_scanned|by right].
Qed.

(** The rows that were encoded are the first of those that were scanned. *)
Lemma encoded_prefix (encode : list value -> outcome go_error (list byte)) scans :
  Forall2 (fun payload values => encode values = Ret payload) (encoded encode scans).1
    (take (length (encoded encode scans).1) (scanned scans)) /\
  if (encoded encode scans).2 then scans = map inr (scanned scans) /\ length (encoded encode scans).1 = length scans
  else unreadable scans \/ List.Exists (fun values => forall payload, encode values <> Ret payload) (scanned scans).
Proof.
  induction scans as [|[e|values] scans IH]; cbn [encoded scanned]; [done| |].
  { split; [constructor|]. left. apply List.Exists_cons_hd. by exists e. }
  destruct (encode values) as [payload|e|] eqn:E.
  - destruct (encoded encode scans) as [rows complete]. cbn [fst snd length take map] in *. destruct IH as [H1 H2].
    split; [by constructor|]. destruct complete.
    + destruct H2 as [H2 H3]. split; [by rewrite <- H2|]. by rewrite H3.
    + destruct H2 as [H2|H2]; [left|right]; by apply List.Exists_cons_tl.
  - split; [constructor|]. right. apply List.Exists_cons_hd. intros payload. by rewrite E.
  - split; [constructor|]. right. apply List.Exists_cons_hd. intros payload. by rewrite E.
Qed.

Lemma map_seen_types database columns :
  map col_Type (map (column_seen database) columns) =
  map col_Type (map (fun c => columnDefinition c.1 database c.2) columns).
Proof. rewrite !map_map. apply map_ext. by intros []. Qed.

Lemma binary_row_decodes columns payload values : length values = length columns -> within_limit payload ->
  binary_payload row_error_text (upstream_database env) columns values = Ret payload ->
  binary_decodes columns (map (column_seen (upstream_database env)) columns) payload values.
Proof.
  intros Hv Hl Hp. unfold binary_decodes. rewrite map_seen_types. unfold binary_payload in Hp.
  apply BinaryRows.binary_row_read; rewrite ?length_map; [done..| |].
  - revert Hp. by destruct (binaryPreparedRow _ _ _); cbn; [intros [= ->]|..].
  - unfold within_limit, Codec.DefaultMaxPacket in Hl. unfold Arguments.len. lia.
Qed.

Lemma told_binary ps : driver_ok env -> (forall bits s, no_panic (ParseFloat bits s)) ->
  told env (binary_payload row_error_text (upstream_database env)) ps ->
  exists answer, read_response ps = Some (answer, []) /\ binary_faithful answer.
Proof.
  intros Hd Hf [(n & result & Hr & answer & Hread & H)|H]; [|by apply failed_faithful].
  exists answer. split; [done|]. destruct answer as [| |seen rows ending]; [done|right; right; by exists n, result|].
  destruct H as (_ & _ & Hseen & Hrows & Hl & He).
  set (encode := binary_payload row_error_text (upstream_database env) (columns result)) in *.
  destruct (encoded_prefix encode (scans result)) as [H2 Hend]. rewrite <- Hrows in H2, Hend.
  pose proof (scanned_sized _ _ (do_rows env Hd n result Hr)) as Hsized.
  exists n, result. split_and!; [done..| |].
  - assert (Forall (fun values => length values = length (columns result)) (take (length rows) (scanned (scans result))))
      as Hs by by apply Forall_take.
    subst seen. clear Hread Hrows He Hend. revert Hl Hs. induction H2 as [|payload values rows' vs Hp _ IH]; intros Hl Hs; [constructor|].
    inversion Hl; subst. inversion Hs; subst. constructor; [by apply binary_row_decodes|by apply IH].
  - destruct ending as [[st warnings]|f]; cbn [ends] in He.
    + destruct He as (Hall & H1 & H3 & H4). rewrite Hall in Hend. destruct Hend. by split_and!.
    + destruct He as [He|He]; [|by right]. left. rewrite He in Hend. destruct Hend as [Hend|Hend]; [by left|right].
      apply List.Exists_exists in Hend as (values & Hin & Hne). apply List.Exists_exists. exists values. split; [done|].
      rewrite List.Forall_forall in Hsized. destruct (binary_row_encodes row_error_text (upstream_database env) (columns result) Hf values
        (Hsized values Hin)) as [Hnp _]. unfold unencodable. fold encode in Hnp |- *.
      destruct (encode values) as [payload|e|]; [by destruct (Hne payload)|by exists e|done].
Qed.

(** C4.  A read shows the client what the server returned.  Unless its reply is
    lost, the packets of a read are one complete response: the columns of the
    result set, under the names, types and flags computed for them, and rows
    which the client decodes to exactly the texts and NULLs of the values that
    were scanned, in order.  If it ends well nothing is missing - every row was
    read, the cursor had no error and the warning count is the server's - and an
    error, in place of the columns or after the rows, is sent only when
    something failed. *)
Theorem results_faithful (sql : string) (w : world) (Hdriver : driver_ok env) :
  let '(r, w') := rows sql env w in
  exists l, log w' = log w ++ l /\
    (r = None -> exists answer, read_response (packets l) = Some (answer, []) /\ text_faithful answer) /\
    (r <> None -> List.Exists interrupts l).
Proof.
  destruct (responds_rows env Hdriver sql w) as (l & Hl & [_ HP He]). destruct (rows sql env w) as [r w'].
  cbn [fst snd] in *. exists l. split_and!; [done| |done]. intros Hr. by apply told_text, HP.
Qed.


End Sessions.

(** ** Witnesses *)

Lemma sample_driver : driver_ok Protocol.sample_env.
Proof.
  split; [exact Protocol.sample_env_ok|..|done].
  - by intros n r [= <-].
  - by intros n affected insertID [= <- <-].
Qed.

Lemma sample_describable : List.Forall (describable_message (U := ascii_case)) Protocol.sample_messages.
Proof. repeat constructor; by intros H; vm_compute in H. Qed.

Lemma statements_verbatim_witness :
  texts (log (run_session (U := ascii_case) (F := no_floats) Protocol.no_text Canceled Protocol.sample_messages
    Protocol.sample_env Protocol.sample_start).2) = ["DELETE FROM t"; "SELECT 1"]%string /\
  ["DELETE FROM t"; "SELECT 1"]%string `sublist_of` ["BEGIN"; "DELETE FROM t"; "COMMIT"; "SELECT 1"]%string.
Proof.
  pose proof (statements_verbatim (U := ascii_case) (F := no_floats) Protocol.no_text Protocol.sample_env Canceled
    Protocol.sample_messages Protocol.sample_start sample_driver Protocol.no_floats_total sample_describable
    eq_refl ltac:(by repeat split)) as H.
  revert H. match goal with |- texts (log ?x.2) `sublist_of` ?y -> _ =>
    assert (texts (log x.2) = ["DELETE FROM t"; "SELECT 1"]%string) as -> by (vm_compute; reflexivity);
    assert (y = ["BEGIN"; "DELETE FROM t"; "COMMIT"; "SELECT 1"]%string) as -> by (vm_compute; reflexivity) end.
  intros H. split; [reflexivity|exact H].
Defined.


(** The client's view of that conversation. *)
Example sample_conversation :
  let w' := (run_session (U := ascii_case) (F := no_floats) Protocol.no_text Canceled Protocol.sample_messages
    Protocol.sample_env Protocol.sample_start).2 in
  match converse (map command_of (take 5 Protocol.sample_messages)) (packets (log w')) with
  | Some ([Answer (Success 0 0 3 0); Answer (Success 1 7 3 0); Preparation (IsPrepared 1 0 0 [_]);
      Answer (Success 0 0 2 0); Answer (Results [column] [row] (inl (2, 0)))], []) =>
      col_Name column = "n"%string /\ row = [zbyte 1; zbyte 51]
  | _ => False
  end.
Proof. vm_compute. split; reflexivity. Qed.

Lemma results_faithful_witness :
  let '(r, w') := rows (U := ascii_case) (F := no_floats) "SELECT 1" Protocol.sample_env Protocol.sample_start in
  r = None /\ exists answer, read_response (packets (log w')) = Some (answer, []) /\
    text_faithful (U := ascii_case) (F := no_floats) Protocol.sample_env answer.
Proof.
  pose proof (results_faithful (U := ascii_case) (F := no_floats) Protocol.sample_env "SELECT 1" Protocol.sample_start
    sample_driver) as H.
  assert (Hr : (rows (U := ascii_case) (F := no_floats) "SELECT 1" Protocol.sample_env Protocol.sample_start).1 = None)
    by (vm_compute; reflexivity).
  destruct (rows _ _ _) as [r w']. destruct H as (l & Hl & H & _). split; [exact Hr|].
  destruct (H Hr) as (answer & H1 & H2). exists answer. rewrite Hl. split; [exact H1|exact H2].
Defined.


(** ** Where the hypotheses matter *)

(** A tab hides INTO OUTFILE from the classifier: the statement is run as a read,
    and a read without columns is answered by a column count of zero, which a
    client takes for a malformed OK packet. *)
Example outfile_is_read :
  let tab := String (char 9) "" in
  st_kind (ClassifySQL (U := ascii_case) "SELECT 1 INTO OUTFILE '/tmp/x'") = StatementUnsupported /\
  st_kind (ClassifySQL (U := ascii_case) ("SELECT 1 INTO" ++ tab ++ "OUTFILE '/tmp/x'")%string) = StatementRead /\
  read_response [(1, ColumnCountPayload 0)] = None.
Proof. vm_compute. by repeat split. Qed.

(** Long data for an unknown statement is answered; the client, which expects no
    answer, reads the error as the response to its next command. *)
Example long_data_answered :
  let messages := [(0, zbyte CommandStmtSendLongData :: repeat (zbyte 9) 6); Protocol.command CommandPing ""] in
  let w' := (run_session (U := ascii_case) (F := no_floats) Protocol.no_text Canceled messages
    Protocol.sample_env Protocol.sample_start).2 in
  match converse (map command_of messages) (packets (log w')) with
  | Some ([Silence; Answer (Failure e)], [_]) => f_code e = 1243
  | _ => False
  end.
Proof. vm_compute. reflexivity. Qed.

End Conversation.
