(* ===== verification/Reset.v ===== *)
(** * Resetting an upstream connection ([internal/gateway/reset.go])

    Before a pooled connection serves a client, [resetConnection] brings it back
    to the baseline probed at start-up and checks that it got there.  The server
    is arbitrary: a function from the statements sent so far to the answer to
    the last one. *)

From stdpp Require Import base list numbers strings option.
From Stdlib Require Import ZArith Lia Ascii.
From S2P Require Import Prelude GoStrings GoStrconv Connector Gateway.
Import GoStrconv Connector.SessionMetadata Gateway.

Module Reset.
Local Open Scope string_scope.
Local Open Scope list_scope.
Local Open Scope Z_scope.

(** ** Quoting and checking *)

Section Isolation.
Context {U : UnicodeCase}.
(** [fmt.Sprintf("%q", s)] *)
Variable quoted : string -> string.

Definition normalizeResetIsolation (value : string) : string :=
  join " " (fields (replace_all "-" " " (to_upper value))).

Definition isolation_levels : list string :=
  ["READ UNCOMMITTED"; "READ COMMITTED"; "REPEATABLE READ"; "SERIALIZABLE"].

Definition resetIsolation (value : string) : answer string :=
  let normalized := normalizeResetIsolation value in
  if str_mem normalized isolation_levels then inr normalized
  else inl (TextError (String.append "unsupported transaction isolation baseline " (quoted value))).

End Isolation.

Definition safe_rune (r : Z) : bool :=
  (r =? 95) || ((97 <=? r) && (r <=? 122)) || ((65 <=? r) && (r <=? 90)) || ((48 <=? r) && (r <=? 57)).

(** The [range] loop decodes code points. *)
Fixpoint safe_runes (fuel : nat) (value : string) : bool :=
  match fuel, value with
  | S fuel, String _ _ =>
      let '(r, width) := decode_rune value in
      if negb (safe_rune r) then false else safe_runes fuel (str_drop width value)
  | _, _ => true
  end.

Definition safeResetIdentifier (value : string) : bool :=
  if String.eqb value "" then false else safe_runes (String.length value) value.

Definition quoteResetIdentifier (value : string) : string :=
  ("`" ++ replace_all "`" "``" value ++ "`")%string.

Definition quoteResetString (value : string) : string :=
  ("'" ++ replace_all "'" "''" value ++ "'")%string.

(** ** The reset *)

(** The row of the first query of [verifyReset]; a NULL database reads as the
    empty string. *)
Record session_row := mkRow {
  row_database : string; row_autocommit : Z; row_charset : string; row_collation : string;
  row_sqlMode : string; row_timeZone : string }.

(** What the server answers to the last statement of a history. *)
Record server := mkServer {
  on_command : list string -> option go_error;
  on_count : list string -> answer Z;
  on_row : list string -> answer session_row;
  on_text : list string -> answer string }.

Definition count_query : string := "SHOW COUNT(*) WARNINGS".
Definition session_query : string :=
  "SELECT DATABASE(), @@autocommit, @@character_set_connection, @@collation_connection, @@sql_mode, @@time_zone".
Definition isolation_query : string := "SELECT @@transaction_isolation".
Definition old_isolation_query : string := "SELECT @@tx_isolation".

Section Reset.
Context {U : UnicodeCase}.
Variable quoted : string -> string.
Variable srv : server.

(** The statements sent so far are threaded through. *)
Definition R (A : Type) : Type := list string -> A * list string.

Definition ask {A} (read : list string -> A) (statement : string) : R A :=
  fun h => let h := h ++ [statement] in (read h, h).

Definition requireNoResetWarnings : R (option go_error) := fun h =>
  let '(warnings, h) := ask (on_count srv) count_query h in
  match warnings with
  | inl e => (Some e, h)
  | inr n =>
      if negb (n =? 0) then
        (Some (TextError ("reset command returned " ++ format_uint n ++ " warnings")%string), h)
      else (None, h)
  end.

Definition read_isolation : R (answer string) := fun h =>
  let '(r, h) := ask (on_text srv) isolation_query h in
  match r with
  | inl (ServerError 1193 _ _) => ask (on_text srv) old_isolation_query h
  | _ => (r, h)
  end.

Definition at_baseline (b : Metadata) (row : session_row) (isolation : string) : bool :=
  String.eqb (row_database row) (md_Database b) && (row_autocommit row =? 1)
  && String.eqb (row_charset row) (md_CharacterSet b) && String.eqb (row_collation row) (md_Collation b)
  && String.eqb (row_sqlMode row) (md_SQLMode b) && String.eqb (row_timeZone row) (md_TimeZone b)
  && String.eqb (normalizeResetIsolation isolation) (normalizeResetIsolation (md_TransactionIsolation b)).

Definition verifyReset (b : Metadata) : R (option go_error) := fun h =>
  let '(row, h) := ask (on_row srv) session_query h in
  match row with
  | inl e => (Some e, h)
  | inr row =>
      let '(isolation, h) := read_isolation h in
      match isolation with
      | inl e => (Some e, h)
      | inr isolation =>
          if negb (at_baseline b row isolation) then
            (Some (TextError "upstream session did not match the canonical baseline after reset"), h)
          else requireNoResetWarnings h
      end
  end.

Definition reset_commands (b : Metadata) (isolation : string) : list string :=
  ["ROLLBACK"; "SET autocommit=1"] ++
  (if String.eqb (md_Database b) "" then []
   else [String.append "USE " (quoteResetIdentifier (md_Database b))]) ++
  [("SET NAMES " ++ md_CharacterSet b ++ " COLLATE " ++ md_Collation b)%string;
   String.append "SET SESSION time_zone = " (quoteResetString (md_TimeZone b));
   String.append "SET SESSION sql_mode = " (quoteResetString (md_SQLMode b));
   String.append "SET SESSION TRANSACTION ISOLATION LEVEL " isolation;
   "SET SESSION TRANSACTION READ WRITE"%string].

Definition stage (index : nat) (e : go_error) : go_error :=
  wrap (String.append "reset stage " (format_int (Z.of_nat index + 1))) e.

Fixpoint run_commands (index : nat) (commands : list string) : R (option go_error) := fun h =>
  match commands with
  | [] => (None, h)
  | command :: commands =>
      let '(e, h) := ask (on_command srv) command h in
      match e with
      | Some e => (Some (stage index e), h)
      | None =>
          let '(e, h) := if (0 <? index)%nat then requireNoResetWarnings h else (None, h) in
          match e with
          | Some e => (Some (stage index e), h)
          | None => run_commands (S index) commands h
          end
      end
  end.

Definition resetConnection (b : Metadata) : R (option go_error) := fun h =>
  match resetIsolation quoted (md_TransactionIsolation b) with
  | inl e => (Some e, h)
  | inr isolation =>
      if negb (safeResetIdentifier (md_CharacterSet b)) || negb (safeResetIdentifier (md_Collation b)) then
        (Some (TextError "unsafe character baseline returned by upstream"), h)
      else
        let '(e, h) := run_commands 0 (reset_commands b isolation) h in
        match e with
        | Some e => (Some e, h)
        | None => verifyReset b h
        end
  end.

(** ** What a successful reset guarantees *)

(** Every statement sent from [h] to [h'] was answered well: commands without
    an error, warning counts with zero. *)
Inductive clean : list string -> list string -> Prop :=
| clean_nil h : clean h h
| clean_command h c h' : on_command srv (h ++ [c]) = None -> clean (h ++ [c]) h' -> clean h h'
| clean_count h h' :
    on_count srv (h ++ [count_query]) = inr 0 -> clean (h ++ [count_query]) h' -> clean h h'.

Lemma clean_trans h1 h2 h3 : clean h1 h2 -> clean h2 h3 -> clean h1 h3.
Proof. induction 1; eauto using clean. Qed.

Lemma no_warnings_clean h h' : requireNoResetWarnings h = (None, h') ->
  h' = h ++ [count_query] /\ on_count srv h' = inr 0.
Proof.
  unfold requireNoResetWarnings, ask. destruct (on_count srv _) as [e|n] eqn:E; [done|].
  destruct (Z.eqb_spec n 0) as [->|]; cbn [negb]; [|done]. by intros [= <-].
Qed.

(** The commands with a warning check after each but the first of all. *)
Fixpoint checked (index : nat) (commands : list string) : list string :=
  match commands with
  | [] => []
  | c :: commands => c :: (if (0 <? index)%nat then [count_query] else []) ++ checked (S index) commands
  end.

Lemma run_commands_clean commands : forall index h h',
  run_commands index commands h = (None, h') -> h' = h ++ checked index commands /\ clean h h'.
Proof.
  induction commands as [|c commands IH]; intros index h h'; cbn [run_commands checked].
  { intros [= <-]. rewrite app_nil_r. split; [done|constructor]. }
  unfold ask. destruct (on_command srv (h ++ [c])) as [e|] eqn:Ec; [done|].
  destruct (0 <? index)%nat.
  - destruct (requireNoResetWarnings (h ++ [c])) as [[e|] h1] eqn:Ew; [done|].
    apply no_warnings_clean in Ew as [-> Hw]. intros (-> & Hc)%IH.
    split; [by rewrite <- !app_assoc|]. eapply clean_command; [done|]. by eapply clean_count.
  - intros (-> & Hc)%IH. split; [by rewrite <- app_assoc|]. by eapply clean_command.
Qed.

Lemma at_baseline_iff b row level : at_baseline b row level = true <->
  row = mkRow (md_Database b) 1 (md_CharacterSet b) (md_Collation b) (md_SQLMode b) (md_TimeZone b) /\
  normalizeResetIsolation level = normalizeResetIsolation (md_TransactionIsolation b).
Proof.
  unfold at_baseline. rewrite !andb_true_iff, !String.eqb_eq, Z.eqb_eq.
  destruct row as [d a c l s t]. cbn. split.
  - by intros ((((((-> & ->) & ->) & ->) & ->) & ->) & ->).
  - by intros ([= -> -> -> -> -> ->] & ->).
Qed.

Lemma read_isolation_queries h level h' : read_isolation h = (inr level, h') ->
  exists queries, (queries = [isolation_query] \/ queries = [isolation_query; old_isolation_query]) /\
    h' = h ++ queries /\ on_text srv h' = inr level.
Proof.
  unfold read_isolation, ask. destruct (on_text srv (h ++ [isolation_query])) as [e|l] eqn:E.
  - assert (Hold : (on_text srv ((h ++ [isolation_query]) ++ [old_isolation_query]),
        (h ++ [isolation_query]) ++ [old_isolation_query]) = (inr level, h') ->
      exists queries, (queries = [isolation_query] \/ queries = [isolation_query; old_isolation_query]) /\
        h' = h ++ queries /\ on_text srv h' = inr level).
    { intros [= H <-]. exists [isolation_query; old_isolation_query]. rewrite <- app_assoc in *. auto. }
    repeat case_match; first [apply Hold | done].
  - intros [= <- <-]. exists [isolation_query]. auto.
Qed.

Lemma verify_clean b h h' : verifyReset b h = (None, h') ->
  exists row level queries,
    on_row srv (h ++ [session_query]) = inr row /\
    (queries = [session_query; isolation_query] \/
     queries = [session_query; isolation_query; old_isolation_query]) /\
    on_text srv (h ++ queries) = inr level /\
    h' = h ++ queries ++ [count_query] /\ on_count srv h' = inr 0 /\
    row = mkRow (md_Database b) 1 (md_CharacterSet b) (md_Collation b) (md_SQLMode b) (md_TimeZone b) /\
    normalizeResetIsolation level = normalizeResetIsolation (md_TransactionIsolation b).
Proof.
  unfold verifyReset, ask. destruct (on_row srv _) as [e|row] eqn:Er; [done|].
  destruct (read_isolation _) as [[e|level] h1] eqn:Ei; [done|].
  apply read_isolation_queries in Ei as (queries & Hq & -> & Ht).
  destruct (at_baseline b row level) eqn:Eb; cbn [negb]; [|done].
  intros (-> & Hc)%no_warnings_clean. apply at_baseline_iff in Eb as [Hrow Hl].
  exists row, level, (session_query :: queries). rewrite <- !app_assoc in *. cbn [app] in *.
  split_and!; try done. by destruct Hq as [-> | ->]; [left|right].
Qed.

(** C8.  A connection is handed out only after it was brought back to the
    baseline and seen to be there.  If [resetConnection] succeeds then, for
    every server: the statements sent are exactly ROLLBACK, the SET and USE
    commands in order, each from the second on followed by a warning check, and
    then the queries; every command succeeded and every warning count was zero,
    the last one after everything else; the session row the server then reported
    is the baseline (database, autocommit on, character set, collation, SQL mode,
    time zone), as is the isolation level up to case, dashes and blanks; the
    level asked for is one of the four of SQL, and the character set and
    collation are plain identifiers. *)
Theorem reset_reaches_baseline (b : Metadata) (h h' : list string)
    (Hreset : resetConnection b h = (None, h')) :
  exists isolation row level queries,
    In isolation isolation_levels /\
    safeResetIdentifier (md_CharacterSet b) = true /\ safeResetIdentifier (md_Collation b) = true /\
    let sent := h ++ checked 0 (reset_commands b isolation) in
    clean h sent /\
    on_row srv (sent ++ [session_query]) = inr row /\
    (queries = [session_query; isolation_query] \/
     queries = [session_query; isolation_query; old_isolation_query]) /\
    on_text srv (sent ++ queries) = inr level /\
    h' = sent ++ queries ++ [count_query] /\ on_count srv h' = inr 0 /\
    row = mkRow (md_Database b) 1 (md_CharacterSet b) (md_Collation b) (md_SQLMode b) (md_TimeZone b) /\
    normalizeResetIsolation level = normalizeResetIsolation (md_TransactionIsolation b).
Proof.
  revert Hreset. unfold resetConnection.
  destruct (resetIsolation quoted _) as [e|isolation] eqn:Ei; [done|].
  destruct (negb (safeResetIdentifier (md_CharacterSet b)) || _) eqn:Es; [done|].
  destruct (run_commands 0 (reset_commands b isolation) h) as [[e|] h1] eqn:Er; [done|].
  apply run_commands_clean in Er as [-> Hclean]. intros Hv. apply verify_clean in Hv as (row & level & queries & Hv).
  exists isolation, row, level, queries. apply orb_false_iff in Es as [E1%negb_false_iff E2%negb_false_iff].
  unfold resetIsolation in Ei. destruct (str_mem _ _) eqn:Em; [|done]. injection Ei as <-.
  apply str_mem_true in Em. by repeat split; try apply Hv.
Qed.

End Reset.
(** ** Identifiers *)

Definition word_byte (c : ascii) : bool := safe_rune (code c).

Fixpoint all_bytes (f : ascii -> bool) (s : string) : bool :=
  match s with EmptyString => true | String c r => f c && all_bytes f r end.

Lemma code_range c : 0 <= code c < 256.
Proof. unfold code. pose proof (N_ascii_bounded c). lia. Qed.

(** Code points of ASCII come from one byte, all others are unsafe. *)
Lemma decode_rune_word a s :
  (code a < 128 /\ decode_rune (String a s) = (code a, 1%nat)) \/
  (128 <= code a /\ safe_rune (decode_rune (String a s)).1 = false).
Proof.
  unfold decode_rune. destruct (Z.ltb_spec (code a) 128) as [H|H]; [by left|right]. split; [done|].
  assert (Hbig : forall r, 128 <= r -> safe_rune r = false).
  { intros r Hr. unfold safe_rune. repeat match goal with
      | |- context [?x =? ?y] => destruct (Z.eqb_spec x y); [lia|]
      | |- context [?x <=? ?y] => destruct (Z.leb_spec x y); try lia end; done. }
  unfold in_range.
  repeat case_match; cbn [fst]; apply Hbig; unfold rune_error; try lia;
    bool_props; Z.to_euclidean_division_equations; lia.
Qed.

Lemma word_byte_small c : word_byte c = true -> code c < 128.
Proof.
  unfold word_byte, safe_rune. rewrite !orb_true_iff, !andb_true_iff, Z.eqb_eq, !Z.leb_le. lia.
Qed.

Lemma safe_runes_bytes fuel : forall value, (String.length value <= fuel)%nat ->
  safe_runes fuel value = all_bytes word_byte value.
Proof.
  induction fuel as [|fuel IH]; intros [|a s] Hl; try done; cbn [String.length] in Hl; [lia|].
  cbn [safe_runes all_bytes]. destruct (decode_rune_word a s) as [[Ha ->]|[Ha Hs]].
  - unfold word_byte at 1. destruct (safe_rune (code a)); cbn [negb andb]; [|done].
    change (str_drop 1 (String a s)) with s. apply IH. lia.
  - destruct (decode_rune (String a s)) as [r width]. cbn [fst] in Hs. rewrite Hs. cbn [negb].
    destruct (word_byte a) eqn:E; [|done]. apply word_byte_small in E. lia.
Qed.

(** The identifier check is exact: it accepts the non-empty strings of
    ASCII letters, digits and underscores, and nothing else - whatever the
    decoder of code points makes of multi-byte or malformed input. *)
Theorem safe_identifier_iff (value : string) :
  safeResetIdentifier value = negb (String.eqb value "") && all_bytes word_byte value.
Proof.
  unfold safeResetIdentifier. destruct (String.eqb value ""); [done|]. by apply safe_runes_bytes.
Qed.

(** ** Quoting *)

(** MySQL's reading of a quoted token: a doubled quote stands for itself and,
    in a string literal, a backslash escapes the next byte. *)
Fixpoint unquote (escapes : bool) (q : ascii) (s : string) : option (string * string) :=
  match s with
  | EmptyString => None
  | String c r =>
      if Ascii.eqb c q then
        match r with
        | String d r' =>
            if Ascii.eqb d q then '(v, rest) ← unquote escapes q r'; Some (String q v, rest)
            else Some (""%string, r)
        | EmptyString => Some (""%string, ""%string)
        end
      else if escapes && Ascii.eqb c (char 92) then
        match r with
        | String d r' => '(v, rest) ← unquote escapes q r'; Some (String d v, rest)
        | EmptyString => None
        end
      else '(v, rest) ← unquote escapes q r; Some (String c v, rest)
  end.

Definition read_quoted (escapes : bool) (q : ascii) (s : string) : option (string * string) :=
  match s with
  | String c r => if Ascii.eqb c q then unquote escapes q r else None
  | EmptyString => None
  end.

Fixpoint doubled (q : ascii) (s : string) : string :=
  match s with
  | EmptyString => ""
  | String c r => if Ascii.eqb c q then String q (String q (doubled q r)) else String c (doubled q r)
  end.

Lemma replace_doubled q fuel : forall s, (String.length s <= fuel)%nat ->
  replace_all_fuel fuel (String q "") (String q (String q "")) s = doubled q s.
Proof.
  induction fuel as [|fuel IH]; intros [|c s] Hl; try done; cbn [String.length] in Hl; [lia|].
  cbn [replace_all_fuel doubled]. unfold has_prefix. cbn [String.prefix].
  destruct (ascii_dec q c) as [->|Hne].
  - rewrite Ascii.eqb_refl. destruct s as [|d s]; cbn [String.length str_drop] in *;
      rewrite !append_cons; change (String.append "" ?x) with x; by rewrite IH by (cbn [String.length]; lia).
  - rewrite (proj2 (Ascii.eqb_neq c q)) by congruence. by rewrite IH by lia.
Qed.

Definition starts_with (q : ascii) (s : string) : bool :=
  match s with String c _ => Ascii.eqb c q | EmptyString => false end.

Lemma unquote_doubled escapes q v rest :
  starts_with q rest = false -> q <> char 92 ->
  (escapes = true -> all_bytes (fun c => negb (Ascii.eqb c (char 92))) v = true) ->
  unquote escapes q (doubled q v ++ String q rest) = Some (v, rest).
Proof.
  intros Hr Hq. induction v as [|c v IH]; intros Hv.
  - change (String.append (doubled q "") (String q rest)) with (String q rest). cbn [unquote].
    rewrite Ascii.eqb_refl. destruct rest as [|d rest]; [done|]. cbn in Hr. by rewrite Hr.
  - assert (IH' : unquote escapes q (doubled q v ++ String q rest) = Some (v, rest)).
    { apply IH. intros He. specialize (Hv He). cbn in Hv. by apply andb_true_iff in Hv as [_ Hv]. }
    cbn [doubled]. destruct (Ascii.eqb_spec c q) as [->|Hne].
    + rewrite !append_cons. cbn [unquote]. rewrite !Ascii.eqb_refl, IH'. done.
    + rewrite append_cons. cbn [unquote]. rewrite (proj2 (Ascii.eqb_neq c q) Hne), IH'.
      destruct escapes; [|done]. specialize (Hv eq_refl). cbn [all_bytes] in Hv. apply andb_true_iff in Hv as [Hv _].
      apply negb_true_iff in Hv. cbn [andb]. by rewrite Hv.
Qed.

(** Quoting is faithful: the server reads a quoted identifier back as the
    name that was quoted, whatever bytes it has, and nothing after it is
    swallowed; the same for a quoted string, provided the value contains no
    backslash or the server does not treat backslashes as escapes. *)
Theorem quoting_roundtrip (value rest : string) (escapes : bool)
    (Hv : escapes = true -> all_bytes (fun c => negb (Ascii.eqb c (char 92))) value = true)
    (Hi : starts_with (char 96) rest = false) (Hs : starts_with (char 39) rest = false) :
  read_quoted false (char 96) (quoteResetIdentifier value ++ rest) = Some (value, rest) /\
  read_quoted escapes (char 39) (quoteResetString value ++ rest) = Some (value, rest).
Proof.
  assert (H : forall q e, starts_with q rest = false -> q <> char 92 ->
    (e = true -> all_bytes (fun c => negb (Ascii.eqb c (char 92))) value = true) ->
    read_quoted e q ((String q "" ++ replace_all (String q "") (String q (String q "")) value ++ String q "") ++ rest)
      = Some (value, rest)).
  { intros q e Hr Hq He. unfold replace_all. rewrite replace_doubled by done.
    assert (Hone : forall x, String.append (String q "") x = String q x) by (intros x; by destruct x).
    rewrite Hone, append_cons. cbn [read_quoted]. rewrite Ascii.eqb_refl, append_assoc, Hone.
    by apply unquote_doubled. }
  split; [by apply (H (char 96) false)|by apply (H (char 39) escapes)].
Qed.

(** A backslash is not escaped: under the default SQL mode the literal for a
    value that ends in one does not end where it should. *)
Lemma backslash_not_escaped :
  read_quoted true (char 39) (quoteResetString (String (char 92) "") ++ "; SELECT 1") = None.
Proof. reflexivity. Qed.

(** ** Witnesses *)

Definition sample_baseline : Metadata :=
  mkMetadata "mariadb" "10.11.6-MariaDB" "mariadb.org binary distribution" "shop" "utf8mb4"
    "utf8mb4_general_ci" "STRICT_TRANS_TABLES" "SYSTEM" "REPEATABLE-READ" true.

(** A server that does what it is told; it only knows the older name of the
    isolation variable. *)
Definition sample_server : server :=
  mkServer (fun _ => None) (fun _ => inr 0)
    (fun _ => inr (mkRow "shop" 1 "utf8mb4" "utf8mb4_general_ci" "STRICT_TRANS_TABLES" "SYSTEM"))
    (fun h => if String.eqb (List.last h ""%string) isolation_query
              then inl (ServerError 1193 "HY000" "Unknown system variable") else inr "REPEATABLE-READ"%string).

Lemma reset_reaches_baseline_witness :
  exists h' isolation,
    resetConnection (U := ascii_case) id sample_server sample_baseline [] = (None, h') /\
    In isolation isolation_levels /\ clean sample_server [] (checked 0 (reset_commands sample_baseline isolation)) /\
    on_count sample_server h' = inr 0.
Proof.
  assert (H : exists h', resetConnection (U := ascii_case) id sample_server sample_baseline [] = (None, h'))
    by (eexists; vm_compute; reflexivity).
  destruct H as [h' H]. exists h'.
  destruct (reset_reaches_baseline (U := ascii_case) id sample_server sample_baseline [] h' H)
    as (isolation & row & level & queries & Hi & _ & _ & Hc & _ & _ & _ & _ & Hw & _).
  exists isolation. by repeat split.
Defined.

Lemma quoting_roundtrip_witness :
  starts_with (char 39) ", sql_mode = ''" = false /\
  read_quoted true (char 39) (quoteResetString "O'Hara" ++ ", sql_mode = ''") = Some ("O'Hara", ", sql_mode = ''")%string.
Proof.
  split; [reflexivity|].
  apply (quoting_roundtrip "O'Hara" ", sql_mode = ''" true); reflexivity.
Defined.

End Reset.
