(* ===== verification/Login.v ===== *)
(** * The login of a gateway client
      ([Service.handleClient] and [authenticate] in [internal/gateway/gateway.go],
      [ReadResponse] in [internal/protocol/mysql/handshake.go])

    From the greeting to the final OK.  What the network, the clock and the TLS
    library do is given; the shared [authLimiter] is threaded through. *)

From stdpp Require Import base list numbers strings option gmap.
From coqutil Require Import Byte.
From Stdlib Require Import ZArith Lia.
From S2P Require Import Prelude GoStrings Codec Response Handshake NativeAuth AuthLimit Gateway.
Import Response Handshake NativeAuth AuthLimit.

Module Login.
Local Open Scope Z_scope.
Local Open Scope list_scope.

(** ** The setting *)

(** What the service is configured with. *)
Record serviceIdentity := mkService {
  version : string;                 (* [buildinfo.Version] *)
  clientTLS : bool;                 (* [s.clientTLS != nil] *)
  ClientUser : string;
  UpstreamDatabase : string;
  clientVerifier : list byte }.

Abbreviation go_error := Gateway.go_error.

(** One connection: its number and address, the random bytes of the seed, what
    the reads give, whether the TLS handshake and the writes succeed, and the
    times at which the limiter is consulted. *)
Record connection := mkConnection {
  ID : Z;
  RemoteAddr : string;
  random : option (list byte);
  greeting_write : option go_error;
  first_read : go_error + (Z * list byte);
  upgrade : option go_error;
  second_read : go_error + (Z * list byte);
  asked_at : Z;
  failed_at : Z;
  final_write : option go_error }.

Inductive login_error :=
| NoHandshake (e : handshake_error)
| NetworkFailed (e : go_error)
| WrongSequence (got want : Z)
| GreetingSequence
| BadResponse (e : handshake_error)
| UnavailableTLS
| TLSFailed (e : go_error)
| TLSRequired
| TemporarilyLocked
| WrongUser
| WrongPlugin
| WrongDatabase
| WrongPassword
| Crashed.

Inductive event :=
| Greeted (payload : list byte)
| Upgraded
| Replied (sequence : Z) (payload : list byte).

Inductive result := Failed (e : login_error) | LoggedIn (r : HandshakeResponse).

(** ** Definitions *)

Definition client_capabilities (tls : bool) : Z :=
  let capabilities := Z.ldiff DefaultServerCapabilities
    (flags [ClientDeprecateEOF; ClientSessionTrack; ClientMultiResults; ClientPSMultiResults]) in
  if tls then Z.lor capabilities ClientSSL else Z.ldiff capabilities ClientSSL.

Definition handshakeConfig (s : serviceIdentity) (c : connection) : HandshakeConfig :=
  let default := DefaultHandshakeConfig (u32 (ID c)) in
  mkConfig ("DatabaseAccelerator-" ++ version s) (ConnectionID default) (client_capabilities (clientTLS s))
    (CharsetID default) (Status default) NativePasswordPlugin (MaxAttributesBytes default).

(** [SendGreeting]: the error and the events; a greeting is one frame. *)
Definition SendGreeting (h : Handshake) (write : option go_error) : option login_error * list event :=
  let payload := GreetingPayload h in
  match write with
  | Some e => (Some (NetworkFailed e), [])
  | None =>
      let next := u8 (Z.of_nat (length payload) / Codec.MaxFramePayload + 1) in
      (if negb (next =? 1) then Some GreetingSequence else None, [Greeted payload])
  end.

Definition Seed (h : Handshake) : list byte := seed h.

Definition ReadResponseSequence (h : Handshake) (expected : Z) (read : go_error + (Z * list byte))
  : login_error + HandshakeResponse :=
  match read with
  | inl e => inl (NetworkFailed e)
  | inr (sequence, payload) =>
      if negb (sequence =? expected) then inl (WrongSequence sequence expected) else
      match ParseResponse h payload with
      | Ret r => inr r
      | Fail e => inl (BadResponse e)
      | Panic => inl Crashed
      end
  end.

Definition ReadResponse (h : Handshake) (read : go_error + (Z * list byte)) : login_error + HandshakeResponse :=
  ReadResponseSequence h 1 read.

Definition authenticate (s : serviceIdentity) (r : HandshakeResponse) (seed : list byte) : option login_error :=
  if negb (String.eqb (Username r) (ClientUser s)) then Some WrongUser
  else if negb (String.eqb (ResponseAuthPlugin r) NativePasswordPlugin) then Some WrongPlugin
  else if negb (String.eqb (ResponseDatabase r) "")
          && negb (String.eqb (ResponseDatabase r) (UpstreamDatabase s)) then Some WrongDatabase
  else if negb (NativePasswordVerifierMatches (AuthResponse r) (clientVerifier s) seed) then Some WrongPassword
  else None.

Definition denied : list byte := ErrorPayload 1045 "28000" "access denied by Database Accelerator".
Definition invalid_response : list byte := ErrorPayload 1043 "08S01" "invalid handshake response".
Definition tls_required : list byte :=
  ErrorPayload 3159 "HY000" "secure transport required by Database Accelerator".
Definition welcome : list byte := OKPayload 0 0 ServerStatusAutocommit 0.

Section Login.
Variable range : gmap string authAttempt -> list (string * authAttempt).
Variable s : serviceIdentity.

(** The limiter and the credentials. *)
Definition judge (c : connection) (h : Handshake) (r : HandshakeResponse) (sequence : Z)
    (log : list event) (l : authLimiter) : result * list event * authLimiter :=
  let '(ok, l) := allowed (asked_at c) (RemoteAddr c) l in
  if negb ok then (Failed TemporarilyLocked, log ++ [Replied sequence denied], l) else
  match authenticate s r (Seed h) with
  | Some e =>
      (Failed e, log ++ [Replied sequence denied], failure range (failed_at c) (RemoteAddr c) l)
  | None =>
      let l := success (RemoteAddr c) l in
      let log := log ++ [Replied sequence welcome] in
      match final_write c with
      | Some e => (Failed (NetworkFailed e), log, l)
      | None => (LoggedIn r, log, l)
      end
  end.

Definition login (c : connection) (l : authLimiter) : result * list event * authLimiter :=
  match NewHandshake (handshakeConfig s c) (random c) with
  | Fail e => (Failed (NoHandshake e), [], l)
  | Panic => (Failed Crashed, [], l)
  | Ret h =>
      let '(err, log) := SendGreeting h (greeting_write c) in
      match err with
      | Some e => (Failed e, log, l)
      | None =>
          match ReadResponse h (first_read c) with
          | inl e => (Failed e, log ++ [Replied 2 invalid_response], l)
          | inr response =>
              if WantsTLS response then
                if negb (clientTLS s) then (Failed UnavailableTLS, log, l) else
                match upgrade c with
                | Some e => (Failed (TLSFailed e), log, l)
                | None =>
                    let log := log ++ [Upgraded] in
                    match ReadResponseSequence h 2 (second_read c) with
                    | inl e => (Failed e, log, l)
                    | inr response => judge c h response 3 log l
                    end
                end
              else if clientTLS s then (Failed TLSRequired, log ++ [Replied 2 tls_required], l)
              else judge c h response 2 log l
          end
      end
  end.

(** ** Theorems *)

(** The response that is judged, and how it arrived. *)
Definition judged (c : connection) (h : Handshake) (r : HandshakeResponse) (sequence : Z) : Prop :=
  if clientTLS s then
    sequence = 3 /\ upgrade c = None /\
    (exists p p0 r0, first_read c = inr (1, p0) /\ ParseResponse h p0 = Ret r0 /\ WantsTLS r0 = true /\
       second_read c = inr (2, p) /\ ParseResponse h p = Ret r)
  else
    sequence = 2 /\ exists p, first_read c = inr (1, p) /\ ParseResponse h p = Ret r /\ WantsTLS r = false.

Definition before_verdict (h : Handshake) : list event :=
  Greeted (GreetingPayload h) :: if clientTLS s then [Upgraded] else [].

Lemma read_response_inv h expected read r :
  ReadResponseSequence h expected read = inr r ->
  exists p, read = inr (expected, p) /\ ParseResponse h p = Ret r.
Proof.
  unfold ReadResponseSequence. destruct read as [e|[got p]]; [done|].
  destruct (Z.eqb_spec got expected) as [->|]; cbn [negb]; [|done].
  destruct (ParseResponse h p) eqn:E; [|done..]. intros [= <-]. eauto.
Qed.

Definition is_denial (e : login_error) : Prop :=
  match e with
  | TemporarilyLocked | WrongUser | WrongPlugin | WrongDatabase | WrongPassword => True
  | _ => False
  end.

Lemma read_response_error h expected read e :
  ReadResponseSequence h expected read = inl e -> ~ is_denial e.
Proof.
  unfold ReadResponseSequence. destruct read as [e0|[got p]]; [intros [= <-] []|].
  destruct (negb _); [intros [= <-] []|]. destruct (ParseResponse h p); intros [= <-] [].
Qed.

(** Either the login ends before the limiter is asked, without a verdict on
    credentials and without touching the limiter, or it is decided by [judge]. *)
Lemma login_cases c l :
  (exists e log, login c l = (Failed e, log, l) /\ ~ is_denial e) \/
  (exists h r sequence, NewHandshake (handshakeConfig s c) (random c) = Ret h /\
     judged c h r sequence /\ login c l = judge c h r sequence (before_verdict h) l).
Proof.
  unfold login. destruct (NewHandshake _ _) as [h|e|] eqn:Eh; [|by (left; eexists _, _; split; [done|intros []])..].
  unfold SendGreeting, ReadResponse. cbv zeta.
  destruct (greeting_write c) as [e|]; [by (left; eexists _, _; split; [done|intros []])|].
  destruct (negb _); [by (left; eexists _, _; split; [done|intros []])|].
  destruct (ReadResponseSequence h 1 (first_read c)) as [e|r0] eqn:E1.
  { left. exists e. eexists. split; [done|]. by eapply read_response_error. }
  apply read_response_inv in E1 as (p0 & Hr0 & Hp0).
  unfold judged, before_verdict. destruct (WantsTLS r0) eqn:Ew.
  - destruct (clientTLS s); cbn [negb]; [|by (left; eexists _, _; split; [done|intros []])].
    destruct (upgrade c) as [e|] eqn:Eu; [by (left; eexists _, _; split; [done|intros []])|].
    destruct (ReadResponseSequence h 2 (second_read c)) as [e|r] eqn:E2.
    { left. exists e. eexists. split; [done|]. by eapply read_response_error. }
    apply read_response_inv in E2 as (p & Hr & Hp). right. exists h, r, 3. split_and!; eauto 10.
  - destruct (clientTLS s); [by (left; eexists _, _; split; [done|intros []])|]. right. exists h, r0, 2. split_and!; eauto.
Qed.

Lemma logged_in (c : connection) (l l' : authLimiter) (r : HandshakeResponse) (log : list event)
    (Hlogin : login c l = (LoggedIn r, log, l')) :
  exists h sequence,
    NewHandshake (handshakeConfig s c) (random c) = Ret h /\ judged c h r sequence /\
    Username r = ClientUser s /\ ResponseAuthPlugin r = NativePasswordPlugin /\
    (ResponseDatabase r = ""%string \/ ResponseDatabase r = UpstreamDatabase s) /\
    NativePasswordVerifierMatches (AuthResponse r) (clientVerifier s) (seed h) = true /\
    (allowed (asked_at c) (RemoteAddr c) l).1 = true /\
    l' = success (RemoteAddr c) (allowed (asked_at c) (RemoteAddr c) l).2 /\
    log = before_verdict h ++ [Replied sequence welcome].
Proof.
  destruct (login_cases c l) as [(e & log' & H & _)|(h & r' & sequence & Hh & Hj & H)]; rewrite H in Hlogin.
  { done. }
  exists h, sequence. unfold judge, Seed in Hlogin. destruct (allowed _ _ l) as [ok l1].
  destruct ok; cbn [negb] in Hlogin; [|done].
  destruct (authenticate s r' (seed h)) as [e|] eqn:Ea; [done|].
  destruct (final_write c); [done|]. injection Hlogin as -> <- <-.
  unfold authenticate in Ea.
  destruct (String.eqb_spec (Username r) (ClientUser s)); cbn [negb] in Ea; [|done].
  destruct (String.eqb_spec (ResponseAuthPlugin r) NativePasswordPlugin); cbn [negb] in Ea; [|done].
  destruct (negb (String.eqb (ResponseDatabase r) "") && _) eqn:Ed; [done|].
  destruct (NativePasswordVerifierMatches _ _ _) eqn:Ev; cbn [negb] in Ea; [|done].
  split_and!; try done. apply andb_false_iff in Ed as [Ed|Ed]; apply negb_false_iff, String.eqb_eq in Ed; auto.
Qed.

(** C21.  Only the configured client logs in.  If a login succeeds then: the
    service could judge the client at all - when client TLS is configured, the
    client asked for it first, the TLS handshake succeeded and the credentials
    judged are those of the response read after it, never of one sent in the
    clear; the response parses and names the configured user, the native
    password plugin, and no database or the configured one; its token proves the
    password against the seed of this very connection; the address was not
    locked out; its record of failures is erased; and the client has seen the
    greeting, the upgrade and one OK packet, nothing else. *)
Theorem login_sound (c : connection) (l l' : authLimiter) (r : HandshakeResponse) (log : list event)
    (Hlogin : login c l = (LoggedIn r, log, l')) :
  exists h sequence,
    NewHandshake (handshakeConfig s c) (random c) = Ret h /\ judged c h r sequence /\
    Username r = ClientUser s /\ ResponseAuthPlugin r = NativePasswordPlugin /\
    (ResponseDatabase r = ""%string \/ ResponseDatabase r = UpstreamDatabase s) /\
    NativePasswordVerifierMatches (AuthResponse r) (clientVerifier s) (seed h) = true /\
    (allowed (asked_at c) (RemoteAddr c) l).1 = true /\
    l' = success (RemoteAddr c) (allowed (asked_at c) (RemoteAddr c) l).2 /\
    log = before_verdict h ++ [Replied sequence welcome].
Proof. by apply logged_in. Qed.

(** C22.  Denials look alike and count.  When a client is turned away by the
    limiter or because of its user name, plugin, database or password, it sees
    the same packet in every case, under a sequence number that depends only on
    whether TLS is configured, so that a refusal does not tell which check
    failed.  A credential failure is recorded for the address; an address that
    is locked out is not judged, and being asked leaves its lock in place. *)
Theorem login_denials_uniform (c : connection) (l l' : authLimiter) (e : login_error) (log : list event)
    (Hlogin : login c l = (Failed e, log, l'))
    (He : is_denial e) :
  let '(ok, l1) := allowed (asked_at c) (RemoteAddr c) l in
  (exists h, NewHandshake (handshakeConfig s c) (random c) = Ret h /\
     log = before_verdict h ++ [Replied (if clientTLS s then 3 else 2) denied]) /\
  if ok then e <> TemporarilyLocked /\ l' = failure range (failed_at c) (RemoteAddr c) l1
  else e = TemporarilyLocked /\ l' = l1.
Proof.
  destruct (login_cases c l) as [(e' & log' & H & Hne)|(h & r & sequence & Hh & Hj & H)]; rewrite H in Hlogin.
  { by injection Hlogin as -> -> ->. }
  assert (Hseq : sequence = if clientTLS s then 3 else 2)
    by (unfold judged in Hj; destruct (clientTLS s); apply Hj).
  unfold judge, Seed in Hlogin. destruct (allowed _ _ l) as [ok l1]. rewrite <- Hseq.
  destruct ok; cbn [negb] in Hlogin.
  - destruct (authenticate s r (seed h)) as [e'|] eqn:Ea.
    + injection Hlogin as -> <- <-. split; [by eauto|]. split; [|done]. intros ->.
      unfold authenticate in Ea. by repeat case_match.
    + destruct (final_write c); simplify_eq. done.
  - injection Hlogin as <- <- <-. split; [by eauto|done].
Qed.

Lemma login_never_crashes c l : (login c l).1.1 <> Failed Crashed.
Proof.
  assert (Hr : forall h expected read, ReadResponseSequence h expected read <> inl Crashed).
  { intros h expected read. unfold ReadResponseSequence. destruct read as [e|[got p]]; [done|].
    destruct (negb _); [done|]. pose proof (parse_response_no_panic h p). by destruct (ParseResponse h p). }
  assert (Ha : forall r sd, authenticate s r sd <> Some Crashed)
    by (intros r sd; unfold authenticate; by repeat case_match).
  assert (Hadmit : forall h r sequence log, (judge c h r sequence log l).1.1 <> Failed Crashed).
  { intros h r sequence log. unfold judge, Seed. destruct (allowed _ _ l) as [[|] l1]; cbn [negb]; [|done].
    specialize (Ha r (seed h)). destruct (authenticate s r (seed h)) as [e|]; [by destruct e|].
    by destruct (final_write c). }
  unfold login. assert (Hn : NewHandshake (handshakeConfig s c) (random c) <> Panic)
    by (unfold NewHandshake; by repeat case_match).
  destruct (NewHandshake _ _) as [h|e|]; [|done..].
  unfold SendGreeting, ReadResponse. cbv zeta. destruct (greeting_write c); [done|]. destruct (negb _); [done|].
  pose proof (Hr h 1 (first_read c)) as H1. destruct (ReadResponseSequence h 1 _) as [e|r0]; [by destruct e|].
  destruct (WantsTLS r0).
  - destruct (clientTLS s); cbn [negb]; [|done]. destruct (upgrade c); [done|].
    pose proof (Hr h 2 (second_read c)) as H2. destruct (ReadResponseSequence h 2 _) as [e|r]; [by destruct e|].
    apply Hadmit.
  - destruct (clientTLS s); [done|apply Hadmit].
Qed.

End Login.

(** ** Witnesses *)

Definition sample_service : serviceIdentity := mkService "0.1" false "app" "shop" [].

Definition sample_payload (user : string) : list byte :=
  encode_login (mkLogin
    (flags [ClientProtocol41; ClientSecureConnection; ClientPluginAuth; ClientConnectWithDB])
    (2 ^ 24) 45 user [] "shop" NativePasswordPlugin []).

Definition sample_connection (user : string) : connection :=
  mkConnection 7 "10.0.0.9:4242" (Some (map (fun i => zbyte (Z.of_nat i + 1)) (seq 0 20))) None
    (inr (1, sample_payload user)) None (inl Gateway.Canceled) 0 0 None.

Lemma login_sound_witness :
  exists r log l', login map_to_list sample_service (sample_connection "app") newAuthLimiter = (LoggedIn r, log, l') /\
    Username r = "app"%string /\
    NativePasswordVerifierMatches (AuthResponse r) [] (map (fun i => zbyte (Z.of_nat i + 1)) (seq 0 20)) = true.
Proof.
  assert (H : exists r log, login map_to_list sample_service (sample_connection "app") newAuthLimiter =
      (LoggedIn r, log, success "10.0.0.9:4242" newAuthLimiter))
    by (eexists _, _; vm_compute; reflexivity).
  destruct H as (r & log & H). exists r, log. eexists. split; [exact H|].
  destruct (login_sound map_to_list sample_service (sample_connection "app") newAuthLimiter _ r log H)
    as (h & sequence & Hh & _ & Hu & _ & _ & Hv & _). split; [exact Hu|].
  vm_compute in Hh. injection Hh as <-. exact Hv.
Defined.

Lemma login_denials_uniform_witness :
  exists log l', login map_to_list sample_service (sample_connection "root") newAuthLimiter
      = (Failed WrongUser, log, l') /\
    let '(ok, l1) := allowed 0 "10.0.0.9:4242" newAuthLimiter in
    if ok then WrongUser <> TemporarilyLocked /\ l' = failure map_to_list 0 "10.0.0.9:4242" l1
    else WrongUser = TemporarilyLocked /\ l' = l1.
Proof.
  assert (H : exists log, login map_to_list sample_service (sample_connection "root") newAuthLimiter =
      (Failed WrongUser, log, failure map_to_list 0 "10.0.0.9:4242" newAuthLimiter))
    by (eexists; vm_compute; reflexivity).
  destruct H as (log & H). exists log. eexists. split; [exact H|].
  exact (proj2 (login_denials_uniform map_to_list sample_service (sample_connection "root") newAuthLimiter _ _ _ H I)).
Defined.

End Login.
