(* ===== verification/Service.v ===== *)
(** * The pooled gateway as a service
      ([internal/gateway/gateway.go], [tls.go], [identity.go])

    Building the [Service] from configuration, secrets and connector; the client
    TLS policy and its certificate files; [Start], [Shutdown] and [Snapshot].  The
    certificate library and the upstream are parameters. *)

From stdpp Require Import base list numbers strings option gmap.
From coqutil Require Import Byte.
From Stdlib Require Import ZArith Lia String.
From S2P Require Import Prelude GoStrings GoStrconv GoDuration GoNet Config ConfigRules Secrets.
From S2P Require Import Connector Relay Listener Codec NativeAuth AuthLimit Handshake Gateway Login.

Module Service.
Import GoNet.GoNet.
Import GoDuration.GoDuration.
Import Config.Config.
Import ConfigRules.ConfigRules.
Import Secrets.Secrets.
Import AuthLimit.AuthLimit NativeAuth.NativeAuth.
Local Open Scope list_scope.
Local Open Scope string_scope.
Local Open Scope Z_scope.

(** ** Client TLS *)

Section Certificates.
(** [tls.LoadX509KeyPair]: the chain of certificates; [x509.ParseCertificate]: the
    interval of validity. *)
Context {certificate : Type}.
Context (load_key_pair : string -> string -> string + list certificate).
Context (parse_certificate : certificate -> string + (Z * Z)).

Inductive certificate_error :=
| LoadFailed (err : string)
| EmptyChain
| ParseFailed (err : string)
| NotYetValid (notBefore : Z)
| Expired (notAfter : Z).

(** [notAfter] is [None] while the time is zero. *)
Record clientCertificateStore := mkStore {
  certFile : string;
  keyFile : string;
  notAfter : option Z
}.

(** [load] at the time [now]: the chain, and the store with its expiry noted. *)
Definition load (now : Z) (s : clientCertificateStore)
  : outcome certificate_error (list certificate) * clientCertificateStore :=
  match load_key_pair (certFile s) (keyFile s) with
  | inl err => (Fail (LoadFailed err), s)
  | inr [] => (Fail EmptyChain, s)
  | inr ((leaf :: _) as chain) =>
      match parse_certificate leaf with
      | inl err => (Fail (ParseFailed err), s)
      | inr (from, until) =>
          if now <? from then (Fail (NotYetValid from), s)
          else if negb (now <? until) then (Fail (Expired until), s)
          else (Ret chain, mkStore (certFile s) (keyFile s) (Some until))
      end
  end.

Definition getCertificate := load.

(** [expiry]; the store itself may be nil. *)
Definition expiry (s : option clientCertificateStore) : option Z := s ≫= notAfter.

Inductive tls_error := UnsupportedMode (mode : string) | BadCertificate (e : certificate_error).

(** [newClientTLS]: no TLS, or the minimal version and the certificate store. *)
Definition newClientTLS (now : Z) (server : ServerConfig)
  : outcome tls_error (option (Z * clientCertificateStore)) :=
  if String.eqb (MySQLTLSMode server) "disabled" then Ret None
  else if negb (String.eqb (MySQLTLSMode server) "required")
  then Fail (UnsupportedMode (MySQLTLSMode server))
  else
    let '(loaded, store) :=
      load now (mkStore (MySQLTLSCertFile server) (MySQLTLSKeyFile server) None) in
    match loaded with
    | Ret _ => Ret (Some (Connector.VersionTLS12, store))
    | Fail e => Fail (BadCertificate e)
    | Panic => Panic
    end.

(** ** The service *)

Record permissionIdentity := mkPermission {
  identity_ClientUser : string;
  identity_UpstreamHost : string;
  identity_UpstreamPort : Z;
  identity_UpstreamUser : string;
  identity_Database : string;
  identity_UpstreamTLSMode : string;
  identity_ClientTLSMode : string
}.

Definition newPermissionIdentity (cfg : Config) : permissionIdentity := {|
  identity_ClientUser := MySQLClientUser (Server cfg);
  identity_UpstreamHost := Host (Upstream cfg);
  identity_UpstreamPort := Port (Upstream cfg);
  identity_UpstreamUser := User (Upstream cfg);
  identity_Database := Database (Upstream cfg);
  identity_UpstreamTLSMode := TLSMode (Upstream cfg);
  identity_ClientTLSMode := MySQLTLSMode (Server cfg) |}.

(** What the connector offers the service. *)
Record upstream_operations := mkUpstream {
  Probe : outcome Connector.Error Connector.Report;
  OpenPool : Z -> outcome Connector.Error Connector.pool_limits
}.

Record Service := mkService {
  cfg : Config;
  database : Connector.pool_limits;
  auth : authLimiter;
  clientTLS : option (Z * clientCertificateStore);
  clientVerifier : list byte;
  permission : permissionIdentity;
  baseline : Connector.SessionMetadata.Metadata;
  resetTimeout : Z;
  admission_slots : Z;
  queue_slots : Z;
  listener_config : Listener.ListenerConfig
}.

Inductive new_error :=
| NoConnector
| TLSFailed (e : tls_error)
| BaselineFailed (e : Connector.Error)
| PoolFailed (e : Connector.Error)
| ListenerFailed (err : string).

(** [upstream.Error] of a connector that is nil is [None].  [log] lists what was
    opened and closed. *)
Inductive effect := PoolOpened | PoolClosed.

Definition New (now : Z) (c : Config) (secrets : Secrets) (connector : option upstream_operations)
  : outcome new_error Service * list effect :=
  match connector with
  | None => (Fail NoConnector, [])
  | Some connector =>
      match newClientTLS now (Server c) with
      | Panic => (Panic, [])
      | Fail e => (Fail (TLSFailed e), [])
      | Ret tls =>
          match Probe connector with
          | Panic => (Panic, [])
          | Fail e => (Fail (BaselineFailed e), [])
          | Ret report =>
              match OpenPool connector (MaxUpstreamConnections (Limits c)) with
              | Panic => (Panic, [])
              | Fail e => (Fail (PoolFailed e), [])
              | Ret pool =>
                  (* [_, _, _, resetTimeout, _ := cfg.UpstreamDurations()] *)
                  let reset := match UpstreamDurations c with Ret (_, _, _, health) => health | _ => 0 end in
                  let listener := Listener.mkListenerConfig (MaxLogicalConnections (Limits c))
                    Codec.DefaultMaxPacket (5 * Minute) in
                  match Listener.NewServer listener true with
                  | Some err => (Fail (ListenerFailed err), [PoolOpened; PoolClosed])
                  | None =>
                      (Ret {| cfg := c;
                              database := pool;
                              auth := newAuthLimiter;
                              clientTLS := tls;
                              clientVerifier := NativePasswordVerifier (Reveal (ClientPassword secrets));
                              permission := newPermissionIdentity c;
                              baseline := Connector.report_Metadata report;
                              resetTimeout := reset;
                              admission_slots := MaxUpstreamConnections (Limits c);
                              queue_slots := MaxQueuedRequests (Limits c);
                              listener_config := listener |}, [PoolOpened])
                  end
              end
          end
      end
  end.

(** What the login of a client sees of the service. *)
Definition login_identity (version : string) (s : Service) : Login.serviceIdentity :=
  Login.mkService version (bool_decide (is_Some (clientTLS s)))
    (identity_ClientUser (permission s)) (Database (Upstream (cfg s))) (clientVerifier s).

(** ** Running *)

(** The listener (its address), whether its context is cancelled, and whether the
    database handle is open. *)
Record running := mkRunning {
  listener : option string;
  cancelled : bool;
  database_open : bool
}.

Definition constructed : running := mkRunning None false true.

(** [Start]: [listen] is what [net.Listen] returned; the second component says
    whether [Serve] runs on the new listener (otherwise it was closed). *)
Definition Start (listen : string + string) (r : running) : option string * bool * running :=
  match listen with
  | inl err => (Some ("open pooled mysql listener: " ++ err), false, r)
  | inr address =>
      match listener r with
      | Some _ => (Some "pooled mysql listener already started", false, r)
      | None => (None, true, mkRunning (Some address) (cancelled r) (database_open r))
      end
  end.

(** [Shutdown]: [served] is what [Serve] returned, if it did before the deadline;
    [deadline] the error of the caller's context otherwise; [close_error] that of
    closing the database. *)
Definition Shutdown (served : option (option string)) (deadline : string) (close_error : option string)
    (r : running) : option string * running :=
  let r := mkRunning (listener r) true (database_open r) in
  match served with
  | Some err =>
      (match err with Some err => Some err | None => close_error end,
       mkRunning (listener r) true false)
  | None => (Some deadline, r)
  end.

Definition Address (s : Service) (r : running) : string :=
  default (MySQLListen (Server (cfg s))) (listener r).

(** [database.Stats]. *)
Record db_stats := mkStats { InUse : Z; Idle : Z }.

Definition reasonSnapshot (source : gmap string Z) : gmap string Z := source.

Definition Snapshot (s : Service) (r : running) (db : db_stats) (server : Listener.server)
    (waiting : Z) (stats : Gateway.statistics) : Relay.Snapshot := {|
  Relay.Mode := "protocol-pooled";
  Relay.snap_ListenAddress := Address s r;
  Relay.snap_UpstreamAddress :=
    JoinHostPort (Host (Upstream (cfg s))) (GoStrconv.format_int (Port (Upstream (cfg s))));
  Relay.Active := Listener.active server;
  Relay.DatabaseLinks := InUse db;
  Relay.IdleDatabaseLinks := Idle db;
  Relay.WaitingWork := waiting;
  Relay.PinnedWork := Gateway.pinned stats;
  Relay.AcceptedTotal := Listener.nextID server;
  Relay.RejectedTotal := Listener.rejected server;
  Relay.DialErrorsTotal := 0;
  Relay.RelayErrorsTotal := Gateway.queryErrors stats;
  Relay.ClientToDBBytes := Gateway.clientBytes stats;
  Relay.DBToClientBytes := Gateway.databaseBytes stats;
  Relay.ResetDiscardsTotal := Gateway.resetDiscards stats;
  Relay.CommitGeneration := Gateway.commitGeneration stats;
  Relay.RejectionReasons := reasonSnapshot (Gateway.rejectionReasons stats);
  Relay.PinReasons := reasonSnapshot (Gateway.pinReasons stats);
  Relay.snap_MaxConnections := MaxUpstreamConnections (Limits (cfg s));
  Relay.ClientTLSMode := MySQLTLSMode (Server (cfg s));
  Relay.ClientTLSExpires := expiry (snd <$> clientTLS s) |}.

(** ** Properties *)

(** A certificate is presented only while it is valid. *)
Lemma certificate_load_inv now s chain s' :
  load now s = (Ret chain, s') ->
  exists leaf rest from until, chain = leaf :: rest /\
    load_key_pair (certFile s) (keyFile s) = inr chain /\
    parse_certificate leaf = inr (from, until) /\ from <= now < until /\
    s' = mkStore (certFile s) (keyFile s) (Some until).
Proof.
  unfold load. destruct (load_key_pair _ _) as [err|[|leaf rest]]; [done|done|].
  destruct (parse_certificate leaf) as [err|[from until]] eqn:Ep; [done|].
  destruct (Z.ltb_spec now from); [done|]. destruct (Z.ltb_spec now until); [|done].
  intros [= <- <-]. by exists leaf, rest, from, until.
Qed.

Lemma newClientTLS_inv now server tls :
  newClientTLS now server = Ret tls ->
  (MySQLTLSMode server = "disabled" /\ tls = None) \/
  (MySQLTLSMode server = "required" /\ exists store until, tls = Some (Connector.VersionTLS12, store) /\
     certFile store = MySQLTLSCertFile server /\ keyFile store = MySQLTLSKeyFile server /\
     notAfter store = Some until /\ now < until).
Proof.
  unfold newClientTLS. destruct (String.eqb_spec (MySQLTLSMode server) "disabled"); [intros [= <-]; by left|].
  destruct (String.eqb_spec (MySQLTLSMode server) "required"); [|done]. cbn [negb].
  destruct (load _ _) as [[chain|e|] store] eqn:El; try done. intros [= <-]. right. split; [done|].
  apply certificate_load_inv in El as (leaf & rest & from & until & _ & _ & _ & Hn & ->).
  eexists _, until. split_and!; try done. lia.
Qed.

Section Exposure.
Context {U : UnicodeCase}.
Context (range : list (string * string) -> list (string * string)).
Context (Hrange : forall l, range l ≡ₚ l).

Lemma New_inv now c secrets connector s log :
  New now c secrets connector = (Ret s, log) ->
  newClientTLS now (Server c) = Ret (clientTLS s) /\ cfg s = c /\ permission s = newPermissionIdentity c /\
  clientVerifier s = NativePasswordVerifier (Reveal (ClientPassword secrets)) /\
  admission_slots s = MaxUpstreamConnections (Limits c) /\ queue_slots s = MaxQueuedRequests (Limits c) /\
  Listener.MaxConnections (listener_config s) = MaxLogicalConnections (Limits c) /\
  resetTimeout s = (match UpstreamDurations c with Ret (_, _, _, health) => health | _ => 0 end).
Proof.
  unfold New. destruct connector as [connector|]; [|done].
  destruct (newClientTLS now (Server c)) as [tls|e|]; [|done..].
  destruct (Probe connector) as [report|e|]; [|done..].
  destruct (OpenPool connector _) as [pool|e|]; [|done..]. cbv zeta.
  destruct (Listener.NewServer _ _); [done|]. intros [= <- <-]. done.
Qed.

(** A login to a service with client TLS has upgraded the connection. *)
Lemma login_upgraded (s : Service) store version visit connection limiter limiter' r events :
  clientTLS s = Some store ->
  Login.login visit (login_identity version s) connection limiter
    = (Login.LoggedIn r, events, limiter') ->
  Login.upgrade connection = None /\
  exists h p, Login.second_read connection = inr (2, p) /\ Handshake.ParseResponse h p = Ret r.
Proof.
  intros Hs Hl.
  destruct (Login.login_cases visit (login_identity version s) connection limiter)
    as [(e & log' & H & _)|(h & r' & sequence & Hh & Hj & H)]; rewrite H in Hl; [done|].
  unfold Login.judged, login_identity in Hj. cbn [Login.clientTLS] in Hj. rewrite Hs in Hj.
  rewrite bool_decide_eq_true_2 in Hj by done. destruct Hj as (_ & Hu & p & p0 & r0 & _ & _ & _ & H2 & Hpr).
  split; [done|]. exists h, p. split; [done|]. unfold Login.judge in Hl.
  destruct (allowed _ _ limiter) as [[] l1]; [|done]. cbn [negb] in Hl.
  destruct (Login.authenticate _ r' _); [done|]. destruct (Login.final_write connection); [done|].
  by injection Hl as -> _ _.
Qed.

(** A valid configuration that is exposed gives a service with a valid
    certificate. *)
Lemma exposed_service_tls now c secrets connector s log :
  New now c secrets connector = (Ret s, log) -> valid c -> pooledMode c = true ->
  MySQLAllowInsecureNet (Server c) = false -> isLoopbackAddress (MySQLListen (Server c)) = false ->
  exists store until, clientTLS s = Some (Connector.VersionTLS12, store) /\
    notAfter store = Some until /\ now < until.
Proof.
  intros Hnew Hvalid Hpooled Hoptin Hexposed. apply New_inv in Hnew as (Htls & _).
  pose proof (valid_pooled_mode _ Hvalid Hpooled) as Hp.
  destruct (pooled_exposure _ Hp) as [?|[?|Hr]]; [congruence..|].
  apply newClientTLS_inv in Htls as [[Hd _]|(_ & store & until & Hs & _ & _ & Hn & Hlt)].
  { rewrite Hd in Hr. by vm_compute in Hr. }
  by exists store, until.
Qed.

(** A gateway that other hosts can reach speaks TLS, unless the operator asked
    otherwise.  Take any configuration [Validate] accepts in pooled mode whose
    listener is not a loopback address and that does not set
    [mysql_allow_insecure_network].  If a service is built from it, it has a
    certificate that is valid at that moment and requires at least TLS 1.2; and
    whoever then logs in to it, however clients, network and limiter behave, has
    upgraded the connection first, and the credentials that were judged were read
    after the upgrade. *)
Theorem exposed_gateway_encrypted (now : Z) (c : Config) (secrets : Secrets)
    (connector : option upstream_operations) (s : Service) (log : list effect)
    (Hnew : New now c secrets connector = (Ret s, log))
    (Hvalid : Validate range c = None) (Hpooled : pooledMode c = true)
    (Hoptin : MySQLAllowInsecureNet (Server c) = false)
    (Hexposed : isLoopbackAddress (MySQLListen (Server c)) = false) :
  (exists store until, clientTLS s = Some (Connector.VersionTLS12, store) /\
     notAfter store = Some until /\ now < until) /\
  forall version visit connection limiter limiter' r events,
    Login.login visit (login_identity version s) connection limiter
      = (Login.LoggedIn r, events, limiter') ->
    Login.upgrade connection = None /\
    exists h p, Login.second_read connection = inr (2, p) /\ Handshake.ParseResponse h p = Ret r.
Proof.
  apply (Validate_valid range Hrange) in Hvalid.
  destruct (exposed_service_tls _ _ _ _ _ _ Hnew Hvalid Hpooled Hoptin Hexposed) as (store & until & Hs & H).
  split; [by exists store, until|]. intros version visit connection limiter limiter' r events.
  by apply login_upgraded with (store := (Connector.VersionTLS12, store)).
Qed.

End Exposure.
End Certificates.
(** ** Witness: a certificate is its interval of validity *)

Section Examples.
#[local] Existing Instance ascii_case.

Definition sample_key_pair (cert key : string) : string + list (Z * Z) :=
  if String.eqb cert "/etc/cert.pem" then inr [(0, 1000)] else inl "no such file".

Definition sample_report : Connector.Report :=
  Connector.mkReport "ok" "db:3306" 0 1
    (Connector.SessionMetadata.mkMetadata "mysql" "8.0.36" "" "app" "utf8mb4" "utf8mb4_0900_ai_ci" ""
       "SYSTEM" "REPEATABLE-READ" true).

Definition sample_connector : upstream_operations :=
  mkUpstream (Ret sample_report) (fun n => Ret (Connector.mkPoolLimits n n 0 0)).

Definition sample_exposed : Config := exposed false "pooled" "required" "/etc/cert.pem".

Definition sample_new (now : Z) : outcome new_error Service * list effect :=
  New sample_key_pair inr now sample_exposed
    (mkSecrets no_secret (mkSecret "correct horse") no_secret) (Some sample_connector).

Example certificate_expired : fst (sample_new 1000) = Fail (TLSFailed (BadCertificate (Expired 1000))).
Proof. vm_compute. reflexivity. Qed.

Lemma exposed_gateway_encrypted_witness :
  exists s log, sample_new 500 = (Ret s, log) /\
    exists store until, clientTLS s = Some (Connector.VersionTLS12, store) /\
      notAfter store = Some until /\ 500 < until.
Proof.
  destruct (sample_new 500) as [[s|e|] log] eqn:E.
  - exists s, log. split; [reflexivity|].
    refine (proj1 (exposed_gateway_encrypted sample_key_pair inr backwards backwards_range 500 sample_exposed
      (mkSecrets no_secret (mkSecret "correct horse") no_secret) (Some sample_connector) s log E _ _ _ _));
      vm_compute; reflexivity.
  - exfalso. vm_compute in E. discriminate E.
  - exfalso. vm_compute in E. discriminate E.
Defined.
End Examples.

End Service.
