(* ===== verification/App.v ===== *)
(** * The application ([internal/app/app.go])

    [Run]: from the data directory over the MySQL service and the control API to
    the ordered shutdown, in a monad of early returns that carries the
    application's fields and records what it does to the outside.  The connector,
    the gateway and the relay it builds are the modelled ones; what the operating
    system answers is an environment. *)

From stdpp Require Import base list numbers strings option.
From Stdlib Require Import ZArith Lia String.
From S2P Require Import Prelude GoStrings GoStrconv GoDuration GoNet Config ConfigRules Secrets.
From S2P Require Import Connector Relay Lifecycle Service.

Module App.
Import GoNet.GoNet.
Import GoDuration.GoDuration.
Import Config.Config.
Import ConfigRules.ConfigRules.
Import Secrets.Secrets.
Local Open Scope list_scope.
Local Open Scope string_scope.
Local Open Scope Z_scope.

(** ** State and effects *)

Record App := mkApp {
  cfg : Config;
  secrets : Secrets;
  state : Lifecycle.Manager;
  ready : bool;            (* [a.ready] is closed *)
  adminAddr : string
}.

Definition New (c : Config) (s : Secrets) (now : Z) : App :=
  mkApp c s (Lifecycle.New now) false "".

(** The service behind [mysqlService]. *)
Inductive traffic :=
| RelayService (c : Relay.Config)
| GatewayService (s : Service.Service).

(** What [Run] does to the outside, in order.  [Moved] is an accepted transition of
    the lifecycle manager, which the health endpoints report; a shutdown has the limit
    of its context. *)
Inductive event :=
| DataDirectory
| PoolEffect (e : Service.effect)
| TrafficStarted (t : traffic) (address : string)
| TrafficShutdown (limit : Z)
| AdminListening (address : string)
| AdminListenerClosed
| RuntimeStarted
| AdminServing
| AdminShutdown (limit : Z)
| AdminClosed
| Moved (s : Lifecycle.State).

Inductive run_error :=
| MkdirFailed (err : string)
| DurationFailed (err : string)
| ConnectorFailed (e : Connector.Error)
| GatewayFailed (e : Service.new_error)
| RelayFailed (err : string)
| TrafficStartFailed (err : string)
| AdminListenFailed (err : string)
| IllegalTransition (err : string)
| AdminServerFailed (err : string)
| AdminShutdownFailed (err : string)
| TrafficShutdownFailed (err : string).

(** ** The environment *)

Inductive serve_result := ServerClosed | ServeFailed (err : string) | ServedNil.

(** The end of the [select]: the context, or the admin server. *)
Inductive ending := ContextDone | AdminEnded (r : serve_result).

Record environment := mkEnvironment {
  mkdir : option string;                   (* [os.MkdirAll] *)
  moment : string -> Z;                    (* the time of the transition with this reason *)
  construction : Z;                        (* the time when the gateway loads its certificate *)
  mysql_listen : string + string;          (* [net.Listen] for the MySQL service *)
  admin_listen : string + string;          (* [net.Listen] for the control API *)
  waited_for : ending;
  admin_shutdown : option string;          (* [server.Shutdown] *)
  relay_final : option Relay.server;       (* the relay when its [Shutdown] has waited *)
  gateway_served : option (option string); (* what [Serve] returned before the deadline *)
  database_close : option string;
  deadline_error : string                  (* [context.DeadlineExceeded] *)
}.

(** ** The monad: early return, the fields and the log *)

Definition M (A : Type) : Type := App * list event -> outcome run_error A * (App * list event).

Definition ret {A} (a : A) : M A := fun s => (Ret a, s).
Definition throw {A} (e : run_error) : M A := fun s => (Fail e, s).
Definition bind {A B} (m : M A) (k : A -> M B) : M B := fun s =>
  match m s with
  | (Ret a, s) => k a s
  | (Fail e, s) => (Fail e, s)
  | (Panic, s) => (Panic, s)
  end.
Definition lift {A} (o : outcome run_error A) : M A := fun s => (o, s).
Definition emit (e : event) : M unit := fun '(a, log) => (Ret tt, (a, (log ++ [e])%list)).

Notation "x <- m ;; k" := (bind m (fun x => k)) (at level 100, m at next level, right associativity).
Notation "m ;; k" := (bind m (fun _ => k)) (at level 100, right associativity).

Section Run.
Context {U : UnicodeCase}.
Context (range : list (string * string) -> list (string * string)).
(** The parameters of the connector: files, certificate pools, the driver and the
    server it talks to. *)
Context {pool authority : Type}.
Context (read_file : string -> string + string).
Context (system_pool : option pool) (new_pool : pool).
Context (append_pem : pool -> string -> option pool).
Context (verify : option pool -> option string -> list authority -> authority -> option string).
Context (quoted : string -> string).
Context (new_driver : Connector.driver_config (pool := pool) (certificate := authority)
                      -> option Connector.go_error).
Context (upstream_server : Connector.server) (checkedAt latency : Z).
(** The parameters of the client TLS policy. *)
Context {certificate : Type}.
Context (load_key_pair : string -> string -> string + list certificate).
Context (parse_certificate : certificate -> string + (Z * Z)).
(** [errors.Is(err, context.Canceled)] *)
Context (is_canceled : string -> bool).
Context (env : environment).

(** [a.state.Transition(next, reason, time.Now())]: its error. *)
Definition transition (next : Lifecycle.State) (reason : string) : M (option string) :=
  fun '(a, log) =>
    let '(m, err) := Lifecycle.Transition (state a) next reason (moment env reason) in
    (Ret err, (mkApp (cfg a) (secrets a) m (ready a) (adminAddr a),
               match err with None => (log ++ [Moved next])%list | Some _ => log end)).

(** [_ = a.state.Transition(lifecycle.Failed, reason, time.Now()); return err] *)
Definition fail {A} (reason : string) (e : run_error) : M A :=
  transition Lifecycle.Failed reason ;; throw e.

(** The connector as the gateway sees it. *)
Definition operations (c : Connector.Connector) : Service.upstream_operations :=
  Service.mkUpstream (fst (Connector.Probe quoted new_driver upstream_server c checkedAt latency))
    (Connector.OpenPool new_driver c).

Definition relay_config (c : Config) (connectLimit : Z) : Relay.Config := {|
  Relay.ListenAddress := MySQLListen (Server c);
  Relay.UpstreamAddress :=
    JoinHostPort (Host (Upstream c)) (GoStrconv.format_int (Port (Upstream c)));
  Relay.MaxConnections := MaxUpstreamConnections (Limits c);
  Relay.DialTimeout := connectLimit |}.

Fixpoint emit_all (es : list Service.effect) : M unit :=
  match es with [] => ret tt | e :: es => emit (PoolEffect e) ;; emit_all es end.

(** [gateway.New] or [relay.New]. *)
Definition new_traffic (c : Config) (s : Secrets) (connector : Connector.Connector) (connectLimit : Z)
  : M traffic :=
  if String.eqb (MySQLMode (Server c)) "pooled" then
    let '(service, effects) :=
      Service.New load_key_pair parse_certificate (construction env) c s (Some (operations connector)) in
    emit_all effects ;;
    match service with
    | Ret service => ret (GatewayService service)
    | Fail e => fail "configure mysql service" (GatewayFailed e)
    | Panic => lift Panic
    end
  else
    match Relay.check (relay_config c connectLimit) with
    | Ret _ => ret (RelayService (relay_config c connectLimit))
    | Fail e => fail "configure mysql service" (RelayFailed e)
    | Panic => lift Panic
    end.

(** [trafficService.Start]: the address, or the error. *)
Definition start_traffic (t : traffic) : string + string :=
  match t with
  | RelayService _ =>
      match mysql_listen env with
      | inl err => inl ("open relay listener: " ++ err)
      | inr address => inr address
      end
  | GatewayService s =>
      let '(err, _, r) := Service.Start (mysql_listen env) Service.constructed in
      match err with Some err => inl err | None => inr (Service.Address s r) end
  end.

(** [trafficService.Shutdown]: its error. *)
Definition shutdown_traffic (t : traffic) : option string :=
  match t with
  | RelayService _ =>
      match relay_final env with Some final => Relay.runErr final | None => Some (deadline_error env) end
  | GatewayService _ =>
      fst (Service.Shutdown (gateway_served env) (deadline_error env) (database_close env) Service.constructed)
  end.

Definition create_directory : M unit :=
  match mkdir env with
  | Some err => fail "create data directory" (MkdirFailed err)
  | None => emit DataDirectory
  end.

Definition open_traffic (c : Config) (s : Secrets) : M (option traffic) :=
  if negb (Enabled (Upstream c)) then ret None else
  match UpstreamDurations c with
  | Fail e => fail "parse upstream duration" (DurationFailed e)
  | Panic => lift Panic
  | Ret (connectLimit, _, _, _) =>
      match Connector.New read_file system_pool new_pool append_pem verify quoted range c s with
      | Fail e => fail "configure upstream" (ConnectorFailed e)
      | Panic => lift Panic
      | Ret connector =>
          t <- new_traffic c s connector connectLimit ;;
          match start_traffic t with
          | inl err => fail "open mysql relay" (TrafficStartFailed err)
          | inr address => emit (TrafficStarted t address) ;; ret (Some t)
          end
      end
  end.

(** Whatever [Shutdown] answers here is ignored. *)
Definition drop_traffic (t : option traffic) : M unit :=
  match t with Some _ => emit (TrafficShutdown (2 * Second)) | None => ret tt end.

Definition open_admin (t : option traffic) : M unit :=
  match admin_listen env with
  | inl err => drop_traffic t ;; fail "open admin listener" (AdminListenFailed err)
  | inr address =>
      (fun '(a, log) => (Ret tt, (mkApp (cfg a) (secrets a) (state a) (ready a) address,
                                  (log ++ [AdminListening address])%list)))
  end.

Definition become_ready : M unit :=
  err <- transition Lifecycle.Ready "foundation services ready" ;;
  match err with
  | Some err => emit AdminListenerClosed ;; throw (IllegalTransition err)
  | None =>
      (fun '(a, log) => (Ret tt, (mkApp (cfg a) (secrets a) (state a) true (adminAddr a), log)))
  end.

Definition wait_for_end : M unit :=
  match waited_for env with
  | ContextDone => transition Lifecycle.Draining "shutdown requested" ;; ret tt
  | AdminEnded (ServeFailed err) => fail "admin server failed" (AdminServerFailed err)
  | AdminEnded _ => transition Lifecycle.Draining "admin server stopped" ;; ret tt
  end.

Definition shut_down (c : Config) (t : option traffic) : M unit :=
  (* [shutdownDuration, _ := a.cfg.ShutdownDuration()] *)
  let limit := match ShutdownDuration c with Ret d => d | _ => 0 end in
  emit (AdminShutdown limit) ;;
  match admin_shutdown env with
  | Some err =>
      transition Lifecycle.Failed "graceful shutdown failed" ;;
      emit AdminClosed ;; throw (AdminShutdownFailed err)
  | None =>
      (match t with
       | None => ret tt
       | Some t =>
           emit (TrafficShutdown limit) ;;
           match shutdown_traffic t with
           | Some err =>
               if is_canceled err then ret tt
               else fail "relay shutdown failed" (TrafficShutdownFailed err)
           | None => ret tt
           end
       end) ;;
      err <- transition Lifecycle.Stopped "shutdown complete" ;;
      match err with Some err => throw (IllegalTransition err) | None => ret tt end
  end.

Definition run (c : Config) (s : Secrets) : M unit :=
  create_directory ;;
  t <- open_traffic c s ;;
  open_admin t ;;
  emit RuntimeStarted ;;
  emit AdminServing ;;
  become_ready ;;
  wait_for_end ;;
  shut_down c t.

Definition Run (a : App) : outcome run_error unit * (App * list event) :=
  run (cfg a) (secrets a) (a, []).

End Run.
End App.
