(* ===== verification/AppRules.v ===== *)
(** * What a run of the application guarantees

    The lifecycle a run reports, which services it leaves running, and which
    service it starts for a configuration, against the modelled components of
    [App.v]. *)

From stdpp Require Import base list numbers strings option.
From Stdlib Require Import ZArith Lia String.
From S2P Require Import Prelude GoStrings GoStrconv GoDuration GoNet Config ConfigRules Secrets.
From S2P Require Import Concurrency Connector Relay Listener Lifecycle Service App.

Module AppRules.
Import GoNet.GoNet.
Import GoDuration.GoDuration.
Import Config.Config.
Import ConfigRules.ConfigRules.
Import Secrets.Secrets.
Import App.App.
Local Open Scope list_scope.
Local Open Scope string_scope.
Local Open Scope Z_scope.

(** ** None of the constructors crashes *)

Lemma boundedDuration_total value lo hi : boundedDuration value lo hi <> Panic.
Proof.
  unfold boundedDuration. apply bind_no_panic; [apply map_fail_no_panic, ParseDuration_total|].
  intros d _. case_goal; done.
Qed.

Lemma UpstreamDurations_total c : UpstreamDurations c <> Panic.
Proof.
  unfold UpstreamDurations, upstreamBound.
  repeat (apply bind_no_panic; [apply boundedDuration_total|intros ? _]). done.
Qed.

Lemma relay_check_total c : Relay.check c <> Panic.
Proof.
  unfold Relay.check.
  repeat (apply bind_no_panic; [apply map_fail_no_panic, SplitHostPort_total|intros ? _]).
  repeat case_goal; done.
Qed.

Lemma newClientTLS_total {certificate} (load_key_pair : string -> string -> string + list certificate)
    parse_certificate now s :
  Service.newClientTLS load_key_pair parse_certificate now s <> Panic.
Proof.
  unfold Service.newClientTLS, Service.load. cbn [Service.certFile Service.keyFile].
  destruct (String.eqb _ _); [done|]. destruct (negb _); [done|].
  destruct (load_key_pair _ _) as [err|[|leaf rest]]; [done..|].
  destruct (parse_certificate leaf) as [err|[from until]]; [done|].
  destruct (now <? from); [done|]. by destruct (negb (now <? until)).
Qed.

Lemma service_total {certificate} (load_key_pair : string -> string -> string + list certificate)
    parse_certificate now c s ops :
  Service.Probe ops <> Panic -> (forall n, Service.OpenPool ops n <> Panic) ->
  fst (Service.New load_key_pair parse_certificate now c s (Some ops)) <> Panic.
Proof.
  intros Hp Ho. unfold Service.New.
  pose proof (newClientTLS_total load_key_pair parse_certificate now (Server c)).
  destruct (Service.newClientTLS _ _ _ _); try done. destruct (Service.Probe ops); try done.
  specialize (Ho (MaxUpstreamConnections (Limits c))). destruct (Service.OpenPool ops _); try done.
  cbv zeta. by destruct (Listener.NewServer _ _).
Qed.

Section Rules.
Context {U : UnicodeCase}.
Context (range : list (string * string) -> list (string * string)).
Context {pool authority : Type}.
Context (read_file : string -> string + string).
Context (system_pool : option pool) (new_pool : pool).
Context (append_pem : pool -> string -> option pool).
Context (verify : option pool -> option string -> list authority -> authority -> option string).
Context (quoted : string -> string).
Context (new_driver : Connector.driver_config (pool := pool) (certificate := authority)
                      -> option Connector.go_error).
Context (upstream_server : Connector.server) (checkedAt latency : Z).
Context {certificate : Type}.
Context (load_key_pair : string -> string -> string + list certificate).
Context (parse_certificate : certificate -> string + (Z * Z)).
Context (is_canceled : string -> bool).
Context (env : environment).

Abbreviation new_connector :=
  (Connector.New read_file system_pool new_pool append_pem verify quoted range).
Abbreviation ops := (operations quoted new_driver upstream_server checkedAt latency).
Abbreviation build := (new_traffic quoted new_driver upstream_server checkedAt latency
  load_key_pair parse_certificate env).
Abbreviation opened := (open_traffic range read_file system_pool new_pool append_pem verify quoted
  new_driver upstream_server checkedAt latency load_key_pair parse_certificate env).
Abbreviation Run := (App.Run range read_file system_pool new_pool append_pem verify quoted
  new_driver upstream_server checkedAt latency load_key_pair parse_certificate is_canceled env).

Lemma connector_total c s : new_connector c s <> Panic.
Proof.
  unfold Connector.New. case_goal; [done|]. case_goal; [done|].
  pose proof (UpstreamDurations_total c). destruct (UpstreamDurations c) as [[[[]]]|e|]; try done.
  assert (Connector.buildTLSConfig read_file system_pool new_pool append_pem verify quoted (Upstream c)
          <> Panic) as Ht.
  { unfold Connector.buildTLSConfig. cbv zeta. do 3 (case_goal; [done|]). case_goal; [|done].
    apply bind_no_panic; [apply Connector.load_roots_total|]. intros roots _. case_goal; done. }
  destruct (Connector.buildTLSConfig _ _ _ _ _ _ _) as [[]|e|]; done.
Qed.

Lemma operations_total c :
  Service.Probe (ops c) <> Panic /\ forall n, Service.OpenPool (ops c) n <> Panic.
Proof.
  assert (forall n, Service.OpenPool (ops c) n <> Panic) as Ho.
  { intros n. cbn. unfold Connector.OpenPool. repeat case_goal; done. }
  split; [|done]. cbn. unfold Connector.Probe, Connector.Open. specialize (Ho 1). cbn -[Connector.OpenPool] in Ho.
  destruct (Connector.OpenPool _ _ _); [|done..].
  destruct (Connector.on_connect upstream_server); [done|].
  unfold Connector.probe_connection, Connector.readMetadata. cbv zeta.
  destruct (Connector.on_health upstream_server); [done|]. destruct (negb _); [done|].
  destruct (Connector.on_metadata upstream_server) as [err|row]; [done|].
  destruct (String.eqb _ "unsupported"); [done|].
  by destruct (Connector.read_isolation upstream_server) as [[err|level] more].
Qed.

(** ** The service for a configuration *)

(** What [Run] starts when the upstream is enabled: a gateway for the mode spelled
    "pooled", and for every other spelling a relay. *)
Definition serves (c : Config) (s : Secrets) (t : traffic) : Prop :=
  match t with
  | GatewayService service =>
      MySQLMode (Server c) = "pooled" /\
      exists connector effects, new_connector c s = Ret connector /\
        (Service.New load_key_pair parse_certificate (construction env) c s (Some (ops connector))
         = (Ret service, effects))
  | RelayService rc =>
      MySQLMode (Server c) <> "pooled" /\
      exists connect read write health, UpstreamDurations c = Ret (connect, read, write, health) /\
        rc = relay_config c connect /\ Relay.check rc = Ret tt
  end.

(** The application after a transition to [Failed]. *)
Definition failed (a : App) (reason : string) : App :=
  mkApp (cfg a) (secrets a)
    (Lifecycle.mkManager (Lifecycle.mkSnapshot Lifecycle.Failed (moment env reason) reason))
    (ready a) (adminAddr a).

(** The errors of the construction of the MySQL service. *)
Definition setup_error (e : run_error) : bool :=
  match e with
  | DurationFailed _ | ConnectorFailed _ | GatewayFailed _ | RelayFailed _ | TrafficStartFailed _ => true
  | _ => false
  end.

Lemma emit_all_ok es a log : emit_all es (a, log) = (Ret tt, (a, (log ++ map PoolEffect es)%list)).
Proof.
  revert log. induction es as [|e es IH]; intros log; cbn.
  - by rewrite app_nil_r.
  - unfold bind, emit. cbn. rewrite IH. by rewrite <- app_assoc.
Qed.

Definition starting (a : App) : Prop :=
  Lifecycle.snap_state (Lifecycle.snapshot (state a)) = Lifecycle.Starting.

Lemma fail_starting {A} reason e a log :
  starting a -> @fail env A reason e (a, log)
    = (Fail e, (failed a reason, (log ++ [Moved Lifecycle.Failed])%list)).
Proof.
  unfold starting, fail, bind, transition, Lifecycle.Transition. intros ->. done.
Qed.

Lemma new_traffic_cases c s connector connect read write health a log :
  starting a -> new_connector c s = Ret connector -> UpstreamDurations c = Ret (connect, read, write, health) ->
  exists effects,
    (exists t, build c s connector connect (a, log)
       = (Ret t, (a, (log ++ map PoolEffect effects)%list)) /\ serves c s t) \/
    (exists e reason, build c s connector connect (a, log)
       = (Fail e, (failed a reason, (log ++ map PoolEffect effects ++ [Moved Lifecycle.Failed])%list)) /\
       setup_error e = true).
Proof.
  intros Ha Hc Hu. unfold new_traffic. destruct (String.eqb_spec (MySQLMode (Server c)) "pooled") as [Hm|Hm].
  - destruct (operations_total connector) as [Hp Ho].
    pose proof (service_total load_key_pair parse_certificate (construction env) c s _ Hp Ho) as Ht.
    destruct (Service.New _ _ _ _ _ _) as [service effects] eqn:Es. cbn [fst] in Ht. exists effects.
    unfold bind. rewrite emit_all_ok. destruct service as [service|e|]; [| |done].
    + left. exists (GatewayService service). split; [done|]. split; [done|]. by exists connector, effects.
    + right. eexists _, _. rewrite fail_starting by done. by rewrite <- app_assoc.
  - exists []. cbn. pose proof (relay_check_total (relay_config c connect)).
    destruct (Relay.check _) as [[]|e|] eqn:Er; [| |done].
    + left. eexists. rewrite app_nil_r. split; [done|]. split; [done|].
      by exists connect, read, write, health.
    + right. eexists _, _. by rewrite fail_starting.
Qed.

(** [open_traffic] starts nothing when the upstream is disabled, or the service of
    the configuration; or else it fails, with the lifecycle at [Failed]. *)
Lemma open_traffic_cases c s a log :
  starting a ->
  (Enabled (Upstream c) = false /\ opened c s (a, log) = (Ret None, (a, log))) \/
  (Enabled (Upstream c) = true /\ exists t address effects, serves c s t /\
     opened c s (a, log) = (Ret (Some t), (a, (log ++ map PoolEffect effects ++ [TrafficStarted t address])%list))) \/
  (exists e reason effects, setup_error e = true /\
     opened c s (a, log)
       = (Fail e, (failed a reason, (log ++ map PoolEffect effects ++ [Moved Lifecycle.Failed])%list))).
Proof.
  intros Ha. unfold open_traffic. destruct (Enabled (Upstream c)) eqn:Ee; [right|by left]. cbn [negb].
  pose proof (UpstreamDurations_total c).
  destruct (UpstreamDurations c) as [[[[connect read] write] health]|e|] eqn:Eu; [| |done].
  2: { right. eexists _, _, []. split; [|by apply fail_starting]. done. }
  pose proof (connector_total c s). destruct (new_connector c s) as [connector|e|] eqn:Ec; [| |done].
  2: { right. eexists _, _, []. split; [|by apply fail_starting]. done. }
  destruct (new_traffic_cases c s connector connect read write health a log Ha Ec Eu)
    as (effects & [(t & Ht & Hs)|(e & reason & Ht & He)]); unfold bind; rewrite Ht.
  - destruct (start_traffic env t) as [err|address].
    + right. eexists _, _, effects. split; [|rewrite fail_starting by done; by rewrite <- app_assoc]. done.
    + left. split; [done|]. exists t, address, effects. split; [done|]. cbn. by rewrite <- app_assoc.
  - right. by exists e, reason, effects.
Qed.

(** ** What the outside sees of a run *)

(** A monitor of the events: which services are up, and what the lifecycle manager
    says.  It refuses to start anything twice, to report readiness before the
    control API and, when the upstream is enabled, the MySQL service are up, and to
    shut anything down that is not up or while readiness is still reported. *)
Record watch := mkWatch {
  traffic_up : bool;
  admin_up : bool;
  serving : bool;
  is_ready : bool;
  was_ready : bool
}.

Definition idle : watch := mkWatch false false false false false.

Definition observe (enabled : bool) (e : event) (w : watch) : option watch :=
  let '(mkWatch traffic admin serve now_ready ever) := w in
  match e with
  | TrafficStarted _ _ =>
      if traffic || admin then None else Some (mkWatch true admin serve now_ready ever)
  | AdminListening _ => if admin then None else Some (mkWatch traffic true serve now_ready ever)
  | AdminServing => if admin && negb serve then Some (mkWatch traffic admin true now_ready ever) else None
  | Moved Lifecycle.Ready =>
      if serve && implb enabled traffic then Some (mkWatch traffic admin serve true true) else None
  | Moved _ => Some (mkWatch traffic admin serve false ever)
  | TrafficShutdown _ =>
      if traffic && negb now_ready then Some (mkWatch false admin serve now_ready ever) else None
  | AdminShutdown _ =>
      if serve && negb now_ready then Some (mkWatch traffic false false now_ready ever) else None
  | AdminListenerClosed => Some (mkWatch traffic false serve now_ready ever)
  | DataDirectory | PoolEffect _ | RuntimeStarted | AdminClosed => Some w
  end.

Abbreviation watched := (Concurrency.run (fun e w => observe w e)).

(** The errors after which [Run] returns without shutting the MySQL service down. *)
Definition abandons (r : outcome run_error unit) : bool :=
  match r with Fail (AdminServerFailed _) | Fail (AdminShutdownFailed _) => true | _ => false end.

Definition server_failed (r : outcome run_error unit) : bool :=
  match r with Fail (AdminServerFailed _) => true | _ => false end.

Definition rest (c : Config) (t : option traffic) : M unit :=
  open_admin env t ;;
  emit RuntimeStarted ;;
  emit AdminServing ;;
  become_ready env ;;
  wait_for_end env ;;
  shut_down is_canceled env c t.

(** How a run ends: [r] and the application against the last state of the monitor. *)
Record ends (enabled : bool) (r : outcome run_error unit) (a : App) (w : watch) : Prop := {
  ends_state :
    Lifecycle.snap_state (Lifecycle.snapshot (state a)) =
      match r with Ret _ => Lifecycle.Stopped | _ => Lifecycle.Failed end;
  ends_legal : r <> Panic /\ forall e, r <> Fail (IllegalTransition e);
  ends_unready : is_ready w = false;
  ends_ready : ready a = was_ready w;
  ends_admin : admin_up w = server_failed r /\ serving w = server_failed r;
  ends_traffic : traffic_up w = enabled && abandons r
}.

Lemma watched_effects enabled effects w :
  Concurrency.run (observe enabled) (map PoolEffect effects) w = Some w.
Proof. destruct w. induction effects; cbn; done. Qed.

Lemma watched_setup enabled effects more :
  Concurrency.run (observe enabled) (([] ++ [DataDirectory]) ++ map PoolEffect effects ++ more) idle
  = Concurrency.run (observe enabled) more idle.
Proof. cbn. by rewrite run_actions_app, watched_effects. Qed.

Lemma transition_ok next reason cf sec st since why rd addr log :
  Lifecycle.allowed st next = true ->
  transition env next reason
    (mkApp cf sec (Lifecycle.mkManager (Lifecycle.mkSnapshot st since why)) rd addr, log)
  = (Ret None,
     (mkApp cf sec (Lifecycle.mkManager (Lifecycle.mkSnapshot next (moment env reason) reason)) rd addr,
      (log ++ [Moved next])%list)).
Proof. intros H. unfold transition, Lifecycle.Transition. cbn -[Lifecycle.allowed]. by rewrite H. Qed.

#[local] Arguments transition : simpl never.

Ltac advance := repeat (rewrite transition_ok by reflexivity; cbn).

(** Replays the log of a finished run in the monitor. *)
Ltac replay Hw :=
  eexists _, _; split; [rewrite <- ?app_assoc; reflexivity|split; [reflexivity|]];
  split; [rewrite run_actions_app, Hw; reflexivity|by split].

Definition starts_traffic (e : event) : bool :=
  match e with TrafficStarted _ _ => true | _ => false end.

Lemma rest_ends c t a log :
  starting a -> ready a = false -> bool_decide (is_Some t) = Enabled (Upstream c) ->
  Concurrency.run (observe (Enabled (Upstream c))) log idle
    = Some (mkWatch (Enabled (Upstream c)) false false false false) ->
  let '(r, (a', log')) := rest c t (a, log) in
  exists more w', log' = (log ++ more)%list /\ existsb starts_traffic more = false /\
    Concurrency.run (observe (Enabled (Upstream c))) (log ++ more)%list idle = Some w' /\
    ends (Enabled (Upstream c)) r a' w'.
Proof.
  intros Ha Hr Ht Hw. destruct a as [cf sec [[st since why]] rd addr].
  unfold starting in Ha. cbn in Ha, Hr. subst st rd.
  unfold rest, open_admin, become_ready, wait_for_end, shut_down, drop_traffic, fail, bind, emit, ret, throw.
  destruct t as [t|]; cbn in Ht; rewrite <- Ht in Hw |- *; clear Ht;
    (destruct (admin_listen env) as [err|address]; cbn; advance; [by replay Hw|]);
    (destruct (waited_for env) as [|[|err|]]; cbn; advance; [..|by replay Hw|]).
  all: destruct (admin_shutdown env) as [err|]; cbn; advance; [by replay Hw|].
  all: try (destruct (shutdown_traffic env t) as [err|]; [destruct (is_canceled err)|]; cbn; advance).
  all: replay Hw.
Qed.

(** ** Whole runs *)

Lemma run_split c s a log :
  mkdir env = None ->
  run range read_file system_pool new_pool append_pem verify quoted new_driver upstream_server checkedAt
    latency load_key_pair parse_certificate is_canceled env c s (a, log)
  = bind (opened c s) (rest c) (a, (log ++ [DataDirectory])%list).
Proof. intros H. unfold run, bind at 1, create_directory. rewrite H. done. Qed.

Lemma no_start t address log :
  existsb starts_traffic log = false -> ~ In (TrafficStarted t address) log.
Proof.
  intros H Hi. enough (existsb starts_traffic log = true) by congruence.
  apply existsb_exists. by exists (TrafficStarted t address).
Qed.

Lemma setup_starts t address effects more :
  In (TrafficStarted t address) (([] ++ [DataDirectory]) ++ map PoolEffect effects ++ more) ->
  In (TrafficStarted t address) more.
Proof.
  intros [[|[]]|[(? & ? & _)%in_map_iff|H]%in_app_or]%in_app_or; done.
Qed.

Lemma run_ends c s now :
  let '(r, (a', log)) := Run (New c s now) in
  (forall t address, In (TrafficStarted t address) log -> Enabled (Upstream c) = true /\ serves c s t) /\
  exists w, Concurrency.run (observe (Enabled (Upstream c))) log idle = Some w /\
    ends (Enabled (Upstream c)) r a' w.
Proof.
  unfold App.Run. cbn [cfg secrets New].
  assert (starting (New c s now)) as Hs by done.
  destruct (mkdir env) as [err|] eqn:Em.
  { unfold run, bind, create_directory. rewrite Em, fail_starting by done.
    split; [by intros t address [|[]]|]. eexists. split; [done|]. split; try done. cbn. by rewrite andb_false_r. }
  rewrite run_split by done. unfold bind.
  destruct (open_traffic_cases c s (New c s now) ([] ++ [DataDirectory])%list Hs)
    as [(He & Ho)|[(He & t & address & effects & Hv & Ho)|(e & reason & effects & Hse & Ho)]]; rewrite Ho.
  - pose proof (rest_ends c None (New c s now) ([] ++ [DataDirectory])%list Hs eq_refl) as H.
    rewrite He in H |- *. destruct (rest _ _ _) as [r [a log]].
    destruct H as (more & w & -> & Hq & H); [done..|]. split; [|by exists w].
    intros t address [[|[]]|Hi]%in_app_or; [done|]. by apply (no_start _ _ _ Hq) in Hi.
  - pose proof (rest_ends c (Some t) (New c s now)
      (([] ++ [DataDirectory]) ++ map PoolEffect effects ++ [TrafficStarted t address])%list Hs eq_refl) as H.
    rewrite He in H |- *. destruct (rest _ _ _) as [r [a log]].
    destruct H as (more & w & -> & Hq & H); [done|by rewrite watched_setup|]. split; [|by exists w].
    intros t' address' [Hi|Hi]%in_app_or; [|by apply (no_start _ _ _ Hq) in Hi].
    split; [done|]. apply setup_starts in Hi as [[= -> _]|[]]. done.
  - split; [by intros t address [|[]]%setup_starts|]. eexists. split; [by rewrite watched_setup|].
    split; try done; [by destruct e|by destruct e|]. cbn. by destruct e; rewrite ?andb_false_r.
Qed.

Lemma was_ready_iff enabled log w w' :
  Concurrency.run (observe enabled) log w = Some w' ->
  was_ready w' = true <-> was_ready w = true \/ In (Moved Lifecycle.Ready) log.
Proof.
  revert w. induction log as [|e log IH]; intros w; cbn [Concurrency.run].
  { intros [= ->]. cbn. naive_solver. }
  destruct (observe enabled e w) as [w1|] eqn:E; [|done]. intros ->%IH. cbn [In].
  assert (was_ready w1 = true <-> was_ready w = true \/ e = Moved Lifecycle.Ready) as ->; [|naive_solver].
  clear IH. destruct w as [[] [] [] [] ever], e as [| | | | | | | | | |[]]; cbn in E |- *;
    try destruct enabled; simplify_eq E; cbn; naive_solver.
Qed.

(** C16.  The lifecycle a run reports is what happened.  Whatever the operating
    system, the database and the clients answer, [Run] returns nil exactly if the
    process ends in "stopped", and otherwise an error with the process in "failed":
    none of the transitions whose error it ignores is ever refused, and nothing
    crashes.  It does not return while the process is reported ready, and [Ready]
    is closed exactly if readiness was reported. *)
Theorem run_lifecycle (c : Config) (s : Secrets) (now : Z) :
  let '(r, (a, log)) := Run (New c s now) in
  r <> Panic /\ (forall e, r <> Fail (IllegalTransition e)) /\
  (r = Ret tt <-> Lifecycle.snap_state (Lifecycle.snapshot (state a)) = Lifecycle.Stopped) /\
  (forall e, r = Fail e -> Lifecycle.snap_state (Lifecycle.snapshot (state a)) = Lifecycle.Failed) /\
  Lifecycle.IsReady (state a) = false /\
  (ready a = true <-> In (Moved Lifecycle.Ready) log).
Proof.
  pose proof (run_ends c s now) as H. destruct (Run (New c s now)) as [r [a log]].
  destruct H as (_ & w & Hw & H). pose proof (ends_state _ _ _ _ H) as Hst.
  destruct (ends_legal _ _ _ _ H) as [Hp Hi]. unfold Lifecycle.IsReady. rewrite Hst.
  split_and!; try done.
  - destruct r as [[]|e|]; done.
  - by intros e ->.
  - by destruct r.
  - rewrite (ends_ready _ _ _ _ H), (was_ready_iff _ _ _ _ Hw). cbn. naive_solver.
Qed.


End Rules.

(** ** Examples *)

Section Examples.
#[local] Existing Instance ascii_case.

(** A pooled gateway off loopback, with TLS; the mode is a parameter. *)
Definition sample_config (mode : string) : Config :=
  let c := exposed false mode "required" "/etc/cert.pem" in
  {| Version := 1; Server := Server c;
     Upstream := mkUpstreamConfig true "db.internal" 3306 "app" "P" false "app" "disabled" "" ""
                   "5s" "30s" "30s" "5s";
     Limits := Limits c; Logging := Logging c |}.

Definition sample_secrets : Secrets :=
  mkSecrets (mkSecret "hunter22hunter22") (mkSecret "correct horse") no_secret.

Definition sample_environment (e : ending) (shutdown : option string) : environment := {|
  mkdir := None;
  moment := fun _ => 7;
  construction := 500;
  mysql_listen := inr "0.0.0.0:3307";
  admin_listen := inr "127.0.0.1:9090";
  waited_for := e;
  admin_shutdown := shutdown;
  relay_final := Some Relay.start;
  gateway_served := Some None;
  database_close := None;
  deadline_error := "context deadline exceeded" |}.

Definition sample_run (mode : string) (e : ending) (shutdown : option string) :=
  App.Run backwards Connector.sample_read None [] Connector.sample_append Connector.sample_verify id
    (fun _ => None) (Connector.sample_server "8.0.36") 0 1 Service.sample_key_pair inr (fun _ => false)
    (sample_environment e shutdown) (New (sample_config mode) sample_secrets 0).

Definition log_of {A B C} (r : A * (B * C)) : C := snd (snd r).

Definition gateways (log : list event) : list bool :=
  omap (fun e => match e with
                 | TrafficStarted (GatewayService _) _ => Some true
                 | TrafficStarted (RelayService _) _ => Some false
                 | _ => None end) log.

Example pooled_gateway : gateways (log_of (sample_run "pooled" ContextDone None)) = [true].
Proof. vm_compute. reflexivity. Qed.
Example graceful : fst (sample_run "pooled" ContextDone None) = Ret tt.
Proof. vm_compute. reflexivity. Qed.
Example abandoned : hd_error (rev (log_of (sample_run "pooled" (AdminEnded (ServeFailed "accept")) None)))
  = Some (Moved Lifecycle.Failed).
Proof. vm_compute. reflexivity. Qed.

(** The spelling of the mode decides whether clients are authenticated.
    [Validate] compares "pooled" without regard to case, and with it asks for
    client credentials and for TLS off loopback; [Run] compares exactly.  So there
    is a configuration that is valid as a pooled one, on a public address, for
    which [Run] starts the transparent relay, which neither authenticates nor
    encrypts; the same configuration in lower case starts the gateway. *)
Theorem pooled_spelling :
  exists c, Validate backwards c = None /\ pooledMode c = true /\
    MySQLAllowInsecureNet (Server c) = false /\ isLoopbackAddress (MySQLListen (Server c)) = false /\
    c = sample_config "Pooled" /\
    gateways (log_of (sample_run "Pooled" ContextDone None)) = [false] /\
    gateways (log_of (sample_run "pooled" ContextDone None)) = [true].
Proof. exists (sample_config "Pooled"). split_and!; vm_compute; reflexivity. Qed.

End Examples.
End AppRules.
