(* ===== verification/ControlAuth.v ===== *)
(** * Administrator sessions of the control API ([internal/control/auth.go])

    The HTTP plumbing is left out: a request is its cookie, its decoded body, its
    address and the time; a response is its status and the cookie it sets.
    SHA-256, HMAC and URL-safe base64 are written out. *)

From stdpp Require Import base list numbers strings option gmap.
From coqutil Require Import Byte.
From Stdlib Require Import ZArith Lia Ascii.
From S2P Require Import Prelude GoStrings GoStrconv NativeAuth.
Import GoStrconv.

Module Crypto.
Local Open Scope Z_scope.
Local Open Scope list_scope.

(** ** SHA-256 *)

Definition rotr (n w : Z) : Z := u32 (Z.lor (Z.shiftr w n) (Z.shiftl w (32 - n))).

Definition k256 : list Z :=
  [0x428a2f98; 0x71374491; 0xb5c0fbcf; 0xe9b5dba5; 0x3956c25b; 0x59f111f1; 0x923f82a4; 0xab1c5ed5;
   0xd807aa98; 0x12835b01; 0x243185be; 0x550c7dc3; 0x72be5d74; 0x80deb1fe; 0x9bdc06a7; 0xc19bf174;
   0xe49b69c1; 0xefbe4786; 0x0fc19dc6; 0x240ca1cc; 0x2de92c6f; 0x4a7484aa; 0x5cb0a9dc; 0x76f988da;
   0x983e5152; 0xa831c66d; 0xb00327c8; 0xbf597fc7; 0xc6e00bf3; 0xd5a79147; 0x06ca6351; 0x14292967;
   0x27b70a85; 0x2e1b2138; 0x4d2c6dfc; 0x53380d13; 0x650a7354; 0x766a0abb; 0x81c2c92e; 0x92722c85;
   0xa2bfe8a1; 0xa81a664b; 0xc24b8b70; 0xc76c51a3; 0xd192e819; 0xd6990624; 0xf40e3585; 0x106aa070;
   0x19a4c116; 0x1e376c08; 0x2748774c; 0x34b0bcb5; 0x391c0cb3; 0x4ed8aa4a; 0x5b9cca4f; 0x682e6ff3;
   0x748f82ee; 0x78a5636f; 0x84c87814; 0x8cc70208; 0x90befffa; 0xa4506ceb; 0xbef9a3f7; 0xc67178f2].

Definition xor3 (a b c : Z) : Z := Z.lxor a (Z.lxor b c).

(** The message schedule, newest word first. *)
Fixpoint expand256 (k : nat) (w : list Z) : list Z :=
  match k with
  | O => w
  | S k =>
      let w15 := nth 14 w 0 in
      let w2 := nth 1 w 0 in
      let s0 := xor3 (rotr 7 w15) (rotr 18 w15) (Z.shiftr w15 3) in
      let s1 := xor3 (rotr 17 w2) (rotr 19 w2) (Z.shiftr w2 10) in
      expand256 k (u32 (nth 15 w 0 + s0 + nth 6 w 0 + s1) :: w)
  end.

Definition words8 : Type := Z * Z * Z * Z * Z * Z * Z * Z.

Fixpoint rounds256 (wk : list (Z * Z)) (s : words8) : words8 :=
  match wk with
  | [] => s
  | (w, k) :: wk =>
      let '(a, b, c, d, e, f, g, h) := s in
      let t1 := h + xor3 (rotr 6 e) (rotr 11 e) (rotr 25 e)
                + Z.lxor (Z.land e f) (Z.land (Z.lxor e 0xffffffff) g) + k + w in
      let t2 := xor3 (rotr 2 a) (rotr 13 a) (rotr 22 a)
                + xor3 (Z.land a b) (Z.land a c) (Z.land b c) in
      rounds256 wk (u32 (t1 + t2), a, b, c, u32 (d + t1), e, f, g)
  end.

Definition block256 (s : words8) (chunk : list byte) : words8 :=
  let w := rev (expand256 48 (rev (map Sha1.be_value (Sha1.chunks 16 4 chunk)))) in
  let '(a, b, c, d, e, f, g, h) := rounds256 (combine w k256) s in
  let '(h0, h1, h2, h3, h4, h5, h6, h7) := s in
  (u32 (h0 + a), u32 (h1 + b), u32 (h2 + c), u32 (h3 + d),
   u32 (h4 + e), u32 (h5 + f), u32 (h6 + g), u32 (h7 + h)).

(** [sha256.Sum256] *)
Definition Sum256 (message : list byte) : list byte :=
  let padded := Sha1.pad message in
  let '(h0, h1, h2, h3, h4, h5, h6, h7) :=
    fold_left block256 (Sha1.chunks (length padded) 64 padded)
      (0x6a09e667, 0xbb67ae85, 0x3c6ef372, 0xa54ff53a, 0x510e527f, 0x9b05688c, 0x1f83d9ab, 0x5be0cd19) in
  concat (map (Sha1.be_bytes 4) [h0; h1; h2; h3; h4; h5; h6; h7]).

Example sha256_abc : map bval (take 8 (Sum256 (bytes_of "abc"))) =
  [0xba; 0x78; 0x16; 0xbf; 0x8f; 0x01; 0xcf; 0xea].
Proof. vm_compute. reflexivity. Qed.

(** ** HMAC and base64 *)

Definition hmac_sum (key message : list byte) : list byte :=
  let key := if (64 <? length key)%nat then Sum256 key else key in
  let key := key ++ repeat (zbyte 0) (64 - length key) in
  let pad_with (x : Z) := map (fun b => zbyte (Z.lxor (bval b) x)) key in
  Sum256 (pad_with 0x5c ++ Sum256 (pad_with 0x36 ++ message)).

Example hmac_rfc4231 : map bval (take 4 (hmac_sum (bytes_of "Jefe") (bytes_of "what do ya want for nothing?"))) =
  [0x5b; 0xdc; 0xc1; 0x46].
Proof. vm_compute. reflexivity. Qed.

Definition url_digit (d : Z) : ascii :=
  if d <? 26 then char (65 + d) else if d <? 52 then char (71 + d)
  else if d <? 62 then char (d - 4) else if d =? 62 then char 45 else char 95.

(** [base64.RawURLEncoding.EncodeToString] *)
Fixpoint raw_url (bs : list byte) : string :=
  match bs with
  | a :: b :: c :: bs =>
      let v := bval a * 65536 + bval b * 256 + bval c in
      String (url_digit (v / 262144)) (String (url_digit (v / 4096 mod 64))
        (String (url_digit (v / 64 mod 64)) (String (url_digit (v mod 64)) (raw_url bs))))
  | [a; b] =>
      let v := bval a * 65536 + bval b * 256 in
      String (url_digit (v / 262144)) (String (url_digit (v / 4096 mod 64))
        (String (url_digit (v / 64 mod 64)) ""))
  | [a] =>
      let v := bval a * 65536 in
      String (url_digit (v / 262144)) (String (url_digit (v / 4096 mod 64)) "")
  | [] => ""
  end.

Example raw_url_text : raw_url (bytes_of "Man is") = "TWFuIGlz"%string /\ raw_url (map zbyte [251; 255]) = "-_8"%string.
Proof. split; reflexivity. Qed.

End Crypto.

Module ControlAuth.
Import Crypto.
Local Open Scope string_scope.
Local Open Scope list_scope.
Local Open Scope Z_scope.

(** ** State *)

Record loginFailures := mkFailures { count : Z; since : Z }.

Record adminAuth := mkAuth {
  token : string;
  tokenHash : list byte;
  failures : gmap string loginFailures }.

Definition maxLoginFailureClients : Z := 1024.
Definition minute : Z := 60 * 10 ^ 9.
Definition second : Z := 10 ^ 9.

Definition newAdminAuth (token : string) : adminAuth := mkAuth token (Sum256 (bytes_of token)) ∅.

Definition with_failures (f : gmap string loginFailures -> gmap string loginFailures) (a : adminAuth) : adminAuth :=
  mkAuth (token a) (tokenHash a) (f (failures a)).

Definition required (a : adminAuth) : bool := negb (String.eqb (token a) "").

(** ** Session cookies *)

Definition sign (a : adminAuth) (expires : string) : string :=
  raw_url (hmac_sum (bytes_of (token a)) (bytes_of ("database-accelerator-admin-session-v1:" ++ expires)%string)).

Definition dot : ascii := char 46.

Definition unix (now : Z) : Z := now / second.

Definition authenticated (a : adminAuth) (cookie : option string) (now : Z) : bool :=
  if negb (required a) then true else
  match cookie with
  | None => false
  | Some value =>
      match split_byte dot value with
      | [expires; signature] =>
          match ParseInt 64 expires with
          | Ret expiresUnix =>
              if expiresUnix <=? unix now then false
              else String.eqb signature (sign a expires)
          | _ => false
          end
      | _ => false
      end
  end.

(** ** Failed logins *)

Definition stale (now : Z) (entry : loginFailures) : bool := minute <=? now - since entry.

Definition failureKeyLocked (client : string) (now : Z) (a : adminAuth) : string * adminAuth :=
  if bool_decide (is_Some (failures a !! client))
     || (Z.of_nat (size (failures a)) <? maxLoginFailureClients - 1)
  then (client, a)
  else
    let a := with_failures (filter (fun kv => stale now kv.2 = false)) a in
    if maxLoginFailureClients <=? Z.of_nat (size (failures a)) then ("overflow"%string, a) else (client, a).

(** A missing entry has the zero time, which is long past. *)
Definition rateLimited (client : string) (now : Z) (a : adminAuth) : bool * adminAuth :=
  let '(client, a) := failureKeyLocked client now a in
  match failures a !! client with
  | None => (false, a)
  | Some entry =>
      if stale now entry then (false, with_failures (delete client) a) else (5 <=? count entry, a)
  end.

Definition recordFailure (client : string) (now : Z) (a : adminAuth) : adminAuth :=
  let '(client, a) := failureKeyLocked client now a in
  let entry :=
    match failures a !! client with
    | None => mkFailures 0 now
    | Some entry => if stale now entry then mkFailures 0 now else entry
    end in
  with_failures <[client := mkFailures (count entry + 1) (since entry)]> a.

Definition clearFailures (client : string) (a : adminAuth) : adminAuth :=
  with_failures (delete client) a.

Definition remoteHost (address : string) : string :=
  match split_host_port address with Some (host, _) => host | None => address end.

(** ** The login handler *)

Record response := mkResponse { resp_status : Z; resp_cookie : option (string * bool) }.

(** [body] is the decoded token, [None] a malformed request; [tls] whether the
    request came over TLS; the clock is read up to three times. *)
Definition adminLogin (a : adminAuth) (address : string) (body : option string) (tls : bool)
    (checked failed granted : Z) : response * adminAuth :=
  if negb (required a) then (mkResponse 200 None, a) else
  let client := remoteHost address in
  let '(limited, a) := rateLimited client checked a in
  if limited then (mkResponse 429 None, a) else
  match body with
  | None => (mkResponse 400 None, a)
  | Some provided =>
      if negb (bool_decide (map bval (Sum256 (bytes_of provided)) = map bval (tokenHash a))) then
        (mkResponse 401 None, recordFailure client failed a)
      else
        let a := clearFailures client a in
        let expires := format_int (unix (granted + 8 * 60 * minute)) in
        (mkResponse 200 (Some ((expires ++ "." ++ sign a expires)%string, tls)), a)
  end.

(** ** Cookies *)

Lemma split_one_inv sep s x : split_byte sep s = [x] -> s = x /\ index_byte sep x = None.
Proof.
  revert x. induction s as [|c s IH]; intros x; cbn [split_byte]; [by intros [= <-]|].
  destruct (Ascii.eqb_spec c sep) as [->|Hne]; [intros [= _ H]; by destruct s; cbn in H; repeat case_match|].
  destruct (split_byte sep s) as [|p ps] eqn:E; [by intros [= <-]; destruct s; cbn in E; repeat case_match|].
  intros [= <- ->]. destruct (IH p eq_refl) as [-> H]. split; [done|].
  cbn [index_byte]. rewrite (proj2 (Ascii.eqb_neq sep c)) by congruence. by rewrite H.
Qed.

Lemma split_two_inv sep s x y : split_byte sep s = [x; y] ->
  s = (x ++ String sep y)%string /\ index_byte sep x = None /\ index_byte sep y = None.
Proof.
  revert x. induction s as [|c s IH]; intros x; cbn [split_byte]; [done|].
  destruct (Ascii.eqb_spec c sep) as [->|Hne].
  - intros [= <- Hy]. split; [|split; [done|]].
    + f_equal. clear IH. by apply split_one_inv in Hy as [-> _].
    + by apply split_one_inv in Hy as [_ Hy].
  - destruct (split_byte sep s) as [|p ps] eqn:E; [done|]. intros [= <- ->].
    destruct (IH p eq_refl) as (-> & H1 & H2). split; [done|]. split; [|done].
    cbn [index_byte]. rewrite (proj2 (Ascii.eqb_neq sep c)) by congruence. by rewrite H1.
Qed.

(** The signature and the decimal have no dot. *)
Lemma url_digit_no_dot d : 0 <= d < 64 -> Ascii.eqb dot (url_digit d) = false.
Proof.
  intros Hd. apply Ascii.eqb_neq. intros H. apply (f_equal code) in H. unfold url_digit, dot in H.
  repeat case_match; repeat rewrite code_char in H by lia; bool_props; lia.
Qed.

Lemma digit_bounds v : 0 <= v < 2 ^ 24 ->
  0 <= v / 262144 < 64 /\ 0 <= v / 4096 mod 64 < 64 /\ 0 <= v / 64 mod 64 < 64 /\ 0 <= v mod 64 < 64.
Proof. intros Hv. Z.to_euclidean_division_equations. lia. Qed.

Lemma raw_url_no_dot n : forall bs, (length bs <= n)%nat -> index_byte dot (raw_url bs) = None.
Proof.
  induction n as [|n IH]; intros [|a [|b [|c bs]]] Hl; cbn [length] in Hl; try lia; try done;
    pose proof (bval_range a) as Ra;
    try (pose proof (bval_range b) as Rb); try (pose proof (bval_range c) as Rc); cbn [raw_url].
  - destruct (digit_bounds (bval a * 65536)) as (H1 & H2 & H3 & H4); [lia|].
    cbn [index_byte]. by rewrite !url_digit_no_dot.
  - destruct (digit_bounds (bval a * 65536 + bval b * 256)) as (H1 & H2 & H3 & H4); [lia|].
    cbn [index_byte]. by rewrite !url_digit_no_dot.
  - destruct (digit_bounds (bval a * 65536 + bval b * 256 + bval c)) as (H1 & H2 & H3 & H4); [lia|].
    cbn [index_byte]. rewrite !url_digit_no_dot by done. by rewrite IH by lia.
Qed.

Lemma sign_no_dot a expires : index_byte dot (sign a expires) = None.
Proof. by eapply raw_url_no_dot. Qed.

Lemma format_no_dot z : 0 <= z -> index_byte dot (format_int z) = None.
Proof.
  intros Hz. unfold format_int. rewrite (proj2 (Z.ltb_ge z 0)) by done.
  eapply index_not_digit; [done|]. by apply format_uint_value.
Qed.

Lemma dot_unique x y x' y' : (x ++ "." ++ y)%string = (x' ++ String dot y')%string ->
  index_byte dot x = None -> index_byte dot x' = None -> x = x' /\ y = y'.
Proof.
  revert x'. induction x as [|c x IH]; intros [|c' x'] H Hx Hx'.
  - by injection H.
  - injection H as <- H. done.
  - injection H as -> H. done.
  - rewrite !append_cons in H. injection H as -> H. cbn [index_byte] in Hx, Hx'.
    destruct (Ascii.eqb dot c'); [done|].
    destruct (IH x' H) as [-> ->]; [by destruct (index_byte dot x)|by destruct (index_byte dot x')|done].
Qed.

Lemma key_same client now a :
  token (failureKeyLocked client now a).2 = token a /\ tokenHash (failureKeyLocked client now a).2 = tokenHash a.
Proof. unfold failureKeyLocked. by repeat case_match. Qed.

Lemma rate_limited_same client now a :
  token (rateLimited client now a).2 = token a /\ tokenHash (rateLimited client now a).2 = tokenHash a.
Proof.
  pose proof (key_same client now a) as H. unfold rateLimited.
  destruct (failureKeyLocked client now a) as [k a1]. by repeat case_match.
Qed.

(** A cookie is accepted exactly if it is a time in the future, a dot, and the
    signature of that time under the administrator's token. *)
Lemma authenticated_iff a value now : required a = true ->
  authenticated a (Some value) now = true <->
  exists expires e, value = (expires ++ String dot (sign a expires))%string /\
    index_byte dot expires = None /\ ParseInt 64 expires = Ret e /\ unix now < e.
Proof.
  intros Hr. unfold authenticated. rewrite Hr. cbn [negb]. split.
  - destruct (split_byte dot value) as [|expires [|signature [|? ?]]] eqn:Es; try done.
    destruct (ParseInt 64 expires) as [e| |] eqn:Ee; try done.
    destruct (Z.leb_spec e (unix now)); [done|]. intros ->%String.eqb_eq.
    apply split_two_inv in Es as (-> & H1 & _). eauto 10.
  - intros (expires & e & -> & He & Hp & Hn).
    rewrite split_byte_append, (split_byte_one dot (sign a expires)) by (done || apply sign_no_dot).
    rewrite Hp. destruct (Z.leb_spec e (unix now)); [lia|]. apply String.eqb_refl.
Qed.

(** C23.  The administrator's session lasts eight hours and cannot be obtained
    otherwise.  When a token is configured, a login sets a cookie only if the
    address was not rate limited and the hash of the token presented is that of
    the configured one; it then forgets the failures of the address, marks the
    cookie secure exactly on TLS, and the cookie is accepted at a time exactly
    if that is before the expiry.  And no other text is accepted than a time in
    the future, a dot, and the signature of that time. *)
Theorem admin_session_lifetime (a a' : adminAuth) (address : string) (body : option string) (tls : bool)
    (checked failed granted status : Z) (value : string) (secure : bool)
    (Hr : required a = true) (Htime : 0 <= unix (granted + 8 * 60 * minute) < 2 ^ 63)
    (Hlogin : adminLogin a address body tls checked failed granted =
              (mkResponse status (Some (value, secure)), a')) :
  status = 200 /\ secure = tls /\ failures a' !! remoteHost address = None /\
  (rateLimited (remoteHost address) checked a).1 = false /\
  (exists provided, body = Some provided /\
     map bval (Sum256 (bytes_of provided)) = map bval (tokenHash a)) /\
  (forall now, authenticated a' (Some value) now = true <-> unix now < unix (granted + 8 * 60 * minute)) /\
  (forall other now, authenticated a' (Some other) now = true ->
     exists expires e, other = (expires ++ "." ++ sign a expires)%string /\
       ParseInt 64 expires = Ret e /\ unix now < e).
Proof.
  unfold adminLogin in Hlogin. rewrite Hr in Hlogin. cbn [negb] in Hlogin.
  pose proof (rate_limited_same (remoteHost address) checked a) as [Htoken Hhash].
  destruct (rateLimited (remoteHost address) checked a) as [limited a1]. cbn [snd] in Htoken, Hhash.
  destruct limited; [done|]. destruct body as [provided|]; [|done].
  destruct (bool_decide_reflect (map bval (Sum256 (bytes_of provided)) = map bval (tokenHash a1))) as [Hh|];
    cbn [negb] in Hlogin; [|done].
  set (a2 := clearFailures (remoteHost address) a1) in *. injection Hlogin as <- <- <- <-.
  assert (Hr2 : required a2 = true) by (unfold required, a2; cbn; by rewrite Htoken).
  assert (Hs : forall e, sign a2 e = sign a e) by (intros e; unfold sign, a2; cbn; by rewrite Htoken).
  split_and!; try done.
  - unfold a2. cbn. apply lookup_delete_eq.
  - exists provided. split; [done|]. by rewrite Hh, Hhash.
  - intros now. rewrite authenticated_iff by done. split.
    + intros (expires & e & Hv & Hd & Hp & Hn). 
      destruct (dot_unique _ _ _ _ Hv) as [<- _]; [apply format_no_dot, Htime|done|].
      rewrite parse_format_int in Hp by lia. by injection Hp as <-.
    + intros Hn. eexists _, _. split; [done|]. split; [apply format_no_dot, Htime|]. split; [|exact Hn].
      apply parse_format_int; lia.
  - intros other now (expires & e & -> & _ & Hp & Hn)%authenticated_iff; [|done].
    exists expires, e. by rewrite Hs.
Qed.

(** ** Failed logins *)

Inductive operation :=
| Limited (client : string) (now : Z)      (* [rateLimited] *)
| Recorded (client : string) (now : Z)     (* [recordFailure] *)
| Cleared (client : string).               (* [clearFailures] *)

Definition apply_operation (a : adminAuth) (o : operation) : adminAuth :=
  match o with
  | Limited client now => (rateLimited client now a).2
  | Recorded client now => recordFailure client now a
  | Cleared client => clearFailures client a
  end.

Definition run (a : adminAuth) (l : list operation) : adminAuth := foldl apply_operation a l.

(** Entries that are not stale survive the choice of the key. *)
Lemma key_keeps client now a k e : failures a !! k = Some e -> stale now e = false ->
  failures (failureKeyLocked client now a).2 !! k = Some e.
Proof.
  intros Hk He. unfold failureKeyLocked. destruct (_ || _); [done|].
  assert (H : failures (with_failures (filter (fun kv => stale now kv.2 = false)) a) !! k = Some e)
    by (cbn; by apply map_lookup_filter_Some).
  by destruct (_ <=? _).
Qed.

Lemma key_present client now a e : failures a !! client = Some e ->
  failureKeyLocked client now a = (client, a).
Proof. intros Hk. unfold failureKeyLocked. by rewrite Hk. Qed.

(** What the key is taken from: an entry that exists, a table with room, or the
    shared entry. *)
Lemma key_cases client now a : let '(k, a1) := failureKeyLocked client now a in
  failures a1 ⊆ failures a /\
  (is_Some (failures a1 !! k) \/ Z.of_nat (size (failures a1)) < maxLoginFailureClients \/ k = "overflow"%string).
Proof.
  unfold failureKeyLocked. destruct (bool_decide_reflect (is_Some (failures a !! client))); cbn [orb].
  { split; [done|by left]. }
  destruct (Z.ltb_spec (Z.of_nat (size (failures a))) (maxLoginFailureClients - 1)).
  { split; [done|]. right. left. lia. }
  set (a1 := with_failures _ a).
  assert (failures a1 ⊆ failures a) by (unfold a1; cbn; apply map_filter_subseteq).
  destruct (Z.leb_spec maxLoginFailureClients (Z.of_nat (size (failures a1)))); split; auto.
Qed.

(** At most 1024 entries besides the shared one. *)
Definition bounded (m : gmap string loginFailures) : Prop :=
  Z.of_nat (size (delete "overflow"%string m)) <= maxLoginFailureClients.

Lemma bounded_subset m m' : m' ⊆ m -> bounded m -> bounded m'.
Proof.
  intros Hs Hb. unfold bounded in *.
  assert (H : delete "overflow"%string m' ⊆ delete "overflow"%string m) by by apply delete_mono.
  apply map_subseteq_size in H. lia.
Qed.

Lemma size_delete_le (m : gmap string loginFailures) k : (size (delete k m) <= size m)%nat.
Proof. apply map_subseteq_size, delete_subseteq. Qed.

Lemma bounded_insert m k e : bounded m ->
  is_Some (m !! k) \/ Z.of_nat (size m) < maxLoginFailureClients \/ k = "overflow"%string ->
  bounded (<[k := e]> m).
Proof.
  intros Hb Hk. unfold bounded in *. destruct (decide (k = "overflow"%string)) as [->|Hne].
  { by rewrite delete_insert_eq. }
  rewrite delete_insert_ne by done. destruct Hk as [[x Hx]|[Hk|Hk]]; [| |done].
  - rewrite map_size_insert_Some; [done|]. by rewrite lookup_delete_ne, Hx.
  - pose proof (size_delete_le m "overflow"%string). destruct (delete "overflow"%string m !! k) eqn:E.
    + rewrite map_size_insert_Some; [lia|by rewrite E].
    + rewrite map_size_insert_None; [lia|done].
Qed.

Lemma apply_bounded a o : bounded (failures a) -> bounded (failures (apply_operation a o)).
Proof.
  intros Hb. destruct o as [client now|client now|client]; cbn [apply_operation].
  - unfold rateLimited. pose proof (key_cases client now a) as H.
    destruct (failureKeyLocked client now a) as [k a1]. destruct H as [Hs _].
    pose proof (bounded_subset _ _ Hs Hb). destruct (failures a1 !! k); [|done]. case_match; [|done].
    cbn. eapply bounded_subset; [apply delete_subseteq|done].
  - unfold recordFailure. pose proof (key_cases client now a) as H.
    destruct (failureKeyLocked client now a) as [k a1]. destruct H as [Hs Hk]. cbn.
    apply bounded_insert; [by eapply bounded_subset|done].
  - cbn. eapply bounded_subset; [apply delete_subseteq|done].
Qed.

(** The table of failed logins is bounded: however many addresses an
    attacker uses, after any sequence of rate checks, failures and successful
    logins it holds at most 1024 addresses and the one entry they share beyond
    that.  (The constant suggests 1024 with the shared entry; the check for room
    is made before the insertion, so one more can get in.) *)
Theorem admin_failures_bounded (token : string) (operations : list operation) :
  let table := failures (run (newAdminAuth token) operations) in
  Z.of_nat (size (delete "overflow"%string table)) <= maxLoginFailureClients /\
  Z.of_nat (size table) <= maxLoginFailureClients + 1.
Proof.
  assert (H : bounded (failures (run (newAdminAuth token) operations))).
  { induction operations as [|o l IH] using rev_ind; [done|].
    unfold run. rewrite foldl_app. by apply apply_bounded. }
  split; [exact H|]. unfold bounded in H. set (table := failures _) in *.
  destruct (table !! "overflow"%string) as [x|] eqn:E.
  - rewrite map_size_delete_Some in H by eauto. lia.
  - rewrite delete_id in H by done. lia.
Qed.

(** The failures a trace records for [client]. *)
Definition recorded (client : string) (l : list operation) : Z :=
  foldr (fun o n => match o with Recorded c _ => if String.eqb c client then n + 1 else n | _ => n end) 0 l.

(** The operations fall before [deadline], and none clears [client]. *)
Definition within (client : string) (deadline : Z) (o : operation) : Prop :=
  match o with
  | Limited _ now | Recorded _ now => now < deadline
  | Cleared c => c <> client
  end.

Lemma not_stale now n s : now < s + minute -> stale now (mkFailures n s) = false.
Proof. intros H. unfold stale. apply Z.leb_gt. cbn. lia. Qed.

Lemma entry_step a client n s o : failures a !! client = Some (mkFailures n s) ->
  within client (s + minute) o ->
  exists n', n + recorded client [o] <= n' /\
    failures (apply_operation a o) !! client = Some (mkFailures n' s).
Proof.
  intros Ha Hw. destruct o as [c now|c now|c]; cbn in Hw; cbn [apply_operation recorded foldr].
  - exists n. split; [lia|]. pose proof (key_keeps c now a client _ Ha (not_stale _ _ _ Hw)) as Hk.
    unfold rateLimited. destruct (failureKeyLocked c now a) as [k a1]. cbn [snd] in Hk.
    destruct (failures a1 !! k) as [e|] eqn:Ek; [|done]. destruct (stale now e) eqn:Es; [|done]. cbn.
    rewrite lookup_delete_ne; [done|]. intros ->. rewrite Hk in Ek. injection Ek as <-.
    by rewrite (not_stale _ _ _ Hw) in Es.
  - unfold recordFailure. destruct (String.eqb_spec c client) as [->|Hne].
    + rewrite (key_present _ _ _ _ Ha), Ha, (not_stale _ _ _ Hw). cbn. exists (n + 1). split; [lia|].
      apply lookup_insert_eq.
    + pose proof (key_keeps c now a client _ Ha (not_stale _ _ _ Hw)) as Hk.
      destruct (failureKeyLocked c now a) as [k a1]. cbn [snd] in Hk. cbn.
      destruct (decide (k = client)) as [->|Hne'].
      * rewrite Hk, (not_stale _ _ _ Hw), lookup_insert_eq. cbn. exists (n + 1). split; [lia|done].
      * rewrite lookup_insert_ne by done. exists n. split; [lia|done].
  - exists n. split; [lia|]. cbn. by rewrite lookup_delete_ne.
Qed.

Lemma recorded_cons client o l : recorded client (o :: l) = recorded client [o] + recorded client l.
Proof. destruct o as [c t|c t|c]; unfold recorded; cbn [foldr]; try destruct (String.eqb c client); lia. Qed.

Lemma entry_run l : forall a client n s, failures a !! client = Some (mkFailures n s) ->
  Forall (within client (s + minute)) l ->
  exists n', n + recorded client l <= n' /\ failures (run a l) !! client = Some (mkFailures n' s).
Proof.
  induction l as [|o l IH]; intros a client n s Ha Hl; [exists n; split; [cbn; lia|done]|].
  apply Forall_cons in Hl as [Ho Hl]. destruct (entry_step a client n s o Ha Ho) as (n1 & Hn1 & H1).
  destruct (IH _ _ _ _ H1 Hl) as (n2 & Hn2 & H2). exists n2. rewrite recorded_cons. split; [lia|done].
Qed.

(** C24.  Five failures within a minute lock an address out.  Once an address has
    an entry, started at [s] with [n] failures, then whatever all clients do
    before [s] plus one minute - checks, failures from any address, successful
    logins from others, the table filling up - as soon as its further failures
    bring the count to five, every login attempt from it before that time is
    refused with status 429: no token is looked at, the right one included. *)
Theorem admin_lockout (a : adminAuth) (address : string) (n s now : Z) (l : list operation)
    (body : option string) (tls : bool) (failed granted : Z)
    (Hr : required a = true) (Ha : failures a !! remoteHost address = Some (mkFailures n s))
    (Hl : Forall (within (remoteHost address) (s + minute)) l)
    (Hn : 5 <= n + recorded (remoteHost address) l) (Hnow : now < s + minute) :
  (adminLogin (run a l) address body tls now failed granted).1 = mkResponse 429 None.
Proof.
  destruct (entry_run l a _ n s Ha Hl) as (n' & Hn' & H').
  assert (Htoken : token (run a l) = token a).
  { clear. revert a. induction l as [|o l IH]; intros a; [done|]. cbn. rewrite IH.
    destruct o as [c t|c t|c]; cbn; [apply rate_limited_same| |done].
    unfold recordFailure. pose proof (key_same c t a) as [H _].
    by destruct (failureKeyLocked c t a). }
  unfold adminLogin. unfold required. rewrite Htoken. fold (required a). rewrite Hr. cbn [negb].
  unfold rateLimited. rewrite (key_present _ _ _ _ H'), H', (not_stale _ _ _ Hnow). cbn [count].
  by rewrite (proj2 (Z.leb_le 5 n')) by lia.
Qed.

(** ** Witnesses *)

Definition sample_auth : adminAuth := recordFailure "10.0.0.9" 1000 (newAdminAuth "secret").

Definition sample_operations : list operation :=
  [Recorded "10.0.0.9" 2000; Limited "10.0.0.9" 2500; Recorded "10.0.0.9" 3000; Cleared "10.0.0.8";
   Recorded "10.0.0.9" 4000; Recorded "10.0.0.7" 4000; Recorded "10.0.0.9" 5000].

Lemma admin_lockout_witness :
  recorded "10.0.0.9" sample_operations = 4 /\
  (adminLogin (run sample_auth sample_operations) "10.0.0.9:51122" (Some "secret"%string) true 6000 6000 6000).1
    = mkResponse 429 None.
Proof.
  split; [reflexivity|].
  apply (admin_lockout sample_auth "10.0.0.9:51122" 1 1000 6000 sample_operations);
    [reflexivity|reflexivity| |vm_compute; discriminate|reflexivity].
  unfold sample_operations. repeat (constructor; [vm_compute; first [reflexivity | discriminate]|]). constructor.
Defined.

Lemma admin_session_lifetime_witness :
  exists value a', adminLogin (newAdminAuth "secret") "10.0.0.9:51122" (Some "secret"%string) true 0 0 1000 =
      (mkResponse 200 (Some (value, true)), a') /\
    (authenticated a' (Some value) 0 = true <-> unix 0 < unix (1000 + 8 * 60 * minute)).
Proof.
  assert (H : exists value a', adminLogin (newAdminAuth "secret") "10.0.0.9:51122" (Some "secret"%string) true 0 0 1000 =
      (mkResponse 200 (Some (value, true)), a')).
  { eexists _, _. vm_compute. reflexivity. }
  destruct H as (value & a' & H). exists value, a'. split; [exact H|].
  eapply (admin_session_lifetime (newAdminAuth "secret") a' "10.0.0.9:51122" (Some "secret"%string) true 0 0 1000);
    [reflexivity|vm_compute; split; [discriminate|reflexivity]|exact H].
Defined.

End ControlAuth.
