(* ===== verification/Benchmark.v ===== *)
(** * The benchmark ([internal/benchmark/benchmark.go])

    The run as a sequence of effects with deferred clean-up, the isolated database
    it works in, and the arithmetic of its figures on binary64 numbers.  The
    measurements themselves - latencies, durations, peaks - are inputs. *)

From stdpp Require Import base list numbers strings option gmap sorting.
From coqutil Require Import Byte.
From Stdlib Require Import ZArith Lia Ascii String SpecFloat.
From S2P Require Import Prelude BuildInfo GoStrings GoStrconv GoTime GoDuration GoNet Config Secrets Connector Service.
From S2P Require Import ControlAuth.

Module Benchmark.
Import BuildInfo.BuildInfo.
Import GoNet.GoNet.
Import GoDuration.GoDuration.
Import Config.Config.
Import Secrets.Secrets.
Local Open Scope list_scope.
Local Open Scope string_scope.
Local Open Scope Z_scope.

Definition SchemaVersion : Z := 1.

Record Options := mkOptions {
  config : Config;
  secrets : Secrets;
  Clients : Z;
  Concurrency : Z;
  Operations : Z;
  Rows : Z;
  OutputPath : string
}.

Definition problems (o : Options) : list string :=
  omap id [
    when ((Clients o <? 2) || (256 <? Clients o)) "clients must be between 2 and 256";
    when ((Concurrency o <? 1) || (32 <? Concurrency o) || (Clients o <? Concurrency o))
      "concurrency must be between 1 and min(clients, 32)";
    when ((Operations o <? 100) || (100000 <? Operations o)) "operations must be between 100 and 100000";
    when ((Rows o <? 100) || (10000 <? Rows o)) "rows must be between 100 and 10000";
    when (negb (Enabled (Upstream (config o)))) "upstream must be enabled"
  ].

Definition validate (o : Options) : option string :=
  match problems o with [] => None | ps => Some (join "; " ps) end.

(** ** The isolated database *)

Definition hex_digit (d : Z) : ascii := if d <? 10 then char (48 + d) else char (87 + d).

(** [hex.EncodeToString] *)
Fixpoint hex_encode (bs : list byte) : string :=
  match bs with
  | [] => ""
  | b :: bs => String (hex_digit (bval b / 16)) (String (hex_digit (bval b mod 16)) (hex_encode bs))
  end.

Definition is_hex (c : ascii) : bool := in_range 48 57 c || in_range 97 102 c || in_range 65 70 c.

(** Whether [hex.DecodeString] succeeds. *)
Fixpoint hex_decodes (s : string) : bool :=
  match s with
  | EmptyString => true
  | String c (String d r) => is_hex c && is_hex d && hex_decodes r
  | _ => false
  end.

Definition database_prefix : string := "dba_benchmark_".

(** [started.Format("20060102T150405Z")] *)
Definition format_stamp (t : Z) : string :=
  GoTime.pad_int 4 (GoTime.Year t) ++ GoTime.pad_int 2 (GoTime.Month t) ++ GoTime.pad_int 2 (GoTime.Day t) ++ "T"
  ++ GoTime.pad_int 2 (GoTime.Hour t) ++ GoTime.pad_int 2 (GoTime.Minute t) ++ GoTime.pad_int 2 (GoTime.Second t) ++ "Z".

(** [runIdentity]: the timestamp and four random bytes. *)
Definition runIdentity (started : Z) (random : string + list byte) : string + (string * string) :=
  match random with
  | inl err => inl err
  | inr bs => inr (format_stamp started ++ "-" ++ hex_encode bs, database_prefix ++ hex_encode bs)
  end.

Definition safeBenchmarkDatabase (name : string) : bool :=
  has_prefix database_prefix name && (Z.of_nat (String.length name) =? 14 + 8)
  && hex_decodes (trim_prefix database_prefix name).

Definition backquoted (name : string) : string := "`" ++ name ++ "`".

Definition pointQuery (database : string) (id : Z) : string :=
  "SELECT payload, counter FROM " ++ backquoted database ++ ".`bench_items` WHERE id = " ++ GoStrconv.format_int id.

Definition create_database (name : string) : string := "CREATE DATABASE " ++ backquoted name.
Definition drop_database (name : string) : string := "DROP DATABASE IF EXISTS " ++ backquoted name.

Definition table_of (name : string) : string := backquoted name ++ ".`bench_items`".

Definition create_table (name : string) : string :=
  "CREATE TABLE " ++ table_of name ++ " (id INT PRIMARY KEY, payload VARCHAR(160) NOT NULL, counter BIGINT NOT NULL) ENGINE=InnoDB".

Definition digits_query : string :=
  "(SELECT 0 n UNION ALL SELECT 1 UNION ALL SELECT 2 UNION ALL SELECT 3 UNION ALL SELECT 4 UNION ALL SELECT 5 UNION ALL SELECT 6 UNION ALL SELECT 7 UNION ALL SELECT 8 UNION ALL SELECT 9)".

Definition populate (name : string) (rows : Z) : string :=
  "INSERT INTO " ++ table_of name ++ " (id, payload, counter) SELECT bench_id, RPAD(CONCAT('row-', bench_id, '-'), 128, 'x'), 0 FROM (SELECT a.n + b.n*10 + c.n*100 + d.n*1000 + 1 AS bench_id FROM "
  ++ digits_query ++ " a CROSS JOIN " ++ digits_query ++ " b CROSS JOIN " ++ digits_query ++ " c CROSS JOIN "
  ++ digits_query ++ " d) AS source_rows WHERE bench_id <= " ++ GoStrconv.format_int rows.

(** ** Figures *)

(** [math.Round] of a finite number: half away from zero. *)
Definition math_round (x : spec_float) : spec_float :=
  match x with
  | S754_finite sign m e =>
      if 0 <=? e then x else
      let q := (Z.pos m + 2 ^ (- e - 1)) / 2 ^ (- e) in
      binary_normalize float_prec float_emax (if sign then - q else q) 0 sign
  | _ => x
  end.

(** [math.Ceil] of a non-negative number, as an integer. *)
Definition ceil_int (x : spec_float) : Z :=
  match x with
  | S754_finite false m e => if 0 <=? e then Z.pos m * 2 ^ e else - ((- Z.pos m) / 2 ^ (- e))
  | _ => 0
  end.

Definition round (value : spec_float) (places : Z) : spec_float :=
  let unit := float_of (10 ^ places) in
  float_div (math_round (float_mul value unit)) unit.

Definition median (first second : spec_float) : spec_float :=
  round (float_div (float_add first second) (float_of 2)) 3.

Definition maxFloat (first second : spec_float) : spec_float := if SFltb second first then first else second.

Definition percent (numerator denominator : spec_float) : spec_float :=
  if SFeqb denominator (float_of 0) then float_of 0
  else round (float_mul (float_div numerator denominator) (float_of 100)) 2.

Definition milliseconds (value : Z) : spec_float :=
  round (float_div (float_of value) (float_of Millisecond)) 6.

(** [percentile] of sorted latencies; the quantile is [p] hundredths. *)
Definition percentile (values : list Z) (p : Z) : outcome string spec_float :=
  let n := Z.of_nat (List.length values) in
  let index := ceil_int (float_mul (float_of n) (float_div (float_of p) (float_of 100))) - 1 in
  let index := Z.min (Z.max index 0) (n - 1) in
  if index <? 0 then Panic else milliseconds <$> go_index values (Z.to_nat index).

Record PathMetrics := mkMetrics {
  ClientReadyMS : spec_float;
  PeakDatabaseConnections : Z;
  metric_Operations : Z;
  Errors : Z;
  DurationMS : spec_float;
  ThroughputPerSecond : spec_float;
  P50MS : spec_float;
  P95MS : spec_float;
  P99MS : spec_float;
  MaxMS : spec_float;
  PeakHeapAllocBytes : Z;
  PeakGoroutines : Z
}.

(** What one workload measures: a latency per operation, the failed operations, the
    duration, and the peaks of the process. *)
Record measurement := mkMeasurement {
  latencies : list Z;
  failures : Z;
  duration : Z;
  heap : Z;
  goroutines : Z
}.

(** The end of [runWorkload]: [slices.Sort] and the figures. *)
Definition path_metrics (operations : Z) (m : measurement) : outcome string PathMetrics :=
  let sorted := merge_sort Z.le (latencies m) in
  p50 ← percentile sorted 50;
  p95 ← percentile sorted 95;
  p99 ← percentile sorted 99;
  worst ← go_index sorted (List.length sorted - 1);
  Ret {| ClientReadyMS := float_of 0;
         PeakDatabaseConnections := 0;
         metric_Operations := operations;
         Errors := failures m;
         DurationMS := milliseconds (duration m);
         ThroughputPerSecond := float_div (float_of (operations - failures m)) (seconds (duration m));
         P50MS := p50; P95MS := p95; P99MS := p99;
         MaxMS := milliseconds worst;
         PeakHeapAllocBytes := heap m;
         PeakGoroutines := goroutines m |}.

Definition medianPathMetrics (first second : PathMetrics) : PathMetrics := {|
  ClientReadyMS := float_of 0;
  PeakDatabaseConnections := 0;
  metric_Operations := metric_Operations first;
  Errors := Z.max (Errors first) (Errors second);
  DurationMS := median (DurationMS first) (DurationMS second);
  ThroughputPerSecond := median (ThroughputPerSecond first) (ThroughputPerSecond second);
  P50MS := median (P50MS first) (P50MS second);
  P95MS := median (P95MS first) (P95MS second);
  P99MS := median (P99MS first) (P99MS second);
  MaxMS := median (MaxMS first) (MaxMS second);
  PeakHeapAllocBytes := Z.max (PeakHeapAllocBytes first) (PeakHeapAllocBytes second);
  PeakGoroutines := Z.max (PeakGoroutines first) (PeakGoroutines second) |}.

Definition with_ready (ready : Z) (peak : Z) (m : PathMetrics) : PathMetrics := {|
  ClientReadyMS := milliseconds ready;
  PeakDatabaseConnections := peak;
  metric_Operations := metric_Operations m; Errors := Errors m; DurationMS := DurationMS m;
  ThroughputPerSecond := ThroughputPerSecond m; P50MS := P50MS m; P95MS := P95MS m; P99MS := P99MS m;
  MaxMS := MaxMS m; PeakHeapAllocBytes := PeakHeapAllocBytes m; PeakGoroutines := PeakGoroutines m |}.

Record Gains := mkGains {
  ConnectionsSaved : Z;
  ConnectionReductionPercent : spec_float;
  FanInRatio : spec_float;
  ClientReadySpeedup : spec_float;
  ThroughputChangePercent : spec_float;
  P95LatencyChangePercent : spec_float
}.

Definition calculateGains (direct accelerated : PathMetrics) (clients : Z) : Gains :=
  let saved := Z.max 0 (PeakDatabaseConnections direct - PeakDatabaseConnections accelerated) in {|
  ConnectionsSaved := saved;
  ConnectionReductionPercent :=
    percent (float_of saved) (float_of (Z.max 1 (PeakDatabaseConnections direct)));
  FanInRatio :=
    round (float_div (float_of clients) (float_of (Z.max 1 (PeakDatabaseConnections accelerated)))) 2;
  ClientReadySpeedup :=
    round (float_div (ClientReadyMS direct)
             (maxFloat (float_div (float_of 1) (float_of 10000)) (ClientReadyMS accelerated))) 2;
  ThroughputChangePercent :=
    percent (float_sub (ThroughputPerSecond accelerated) (ThroughputPerSecond direct)) (ThroughputPerSecond direct);
  P95LatencyChangePercent := percent (float_sub (P95MS direct) (P95MS accelerated)) (P95MS direct) |}.

(** ** Evidence *)

Record ServerSettings := mkServerSettings {
  set_MaxConnections : Z;
  set_InnoDBBufferPoolBytes : Z;
  set_CharacterSet : string;
  set_Collation : string;
  set_SQLMode : string;
  set_BinlogFormat : string
}.

Record Environment := mkEnv {
  ServerProduct : string;
  ServerVersion : string;
  ServerOperatingSys : string;
  ServerArchitecture : string;
  Address : string;
  OperatingSys : string;
  Architecture : string;
  LogicalCPUs : Z;
  CPUProfile : string;
  Driver : string;
  DriverVersion : string;
  env_Accelerator : string;
  env_Commit : string;
  env_ServerSettings : ServerSettings;
  ServerConfigDigest : string
}.

Record Workload := mkWorkload {
  Name : string;
  Seed : Z;
  OpenClients : Z;
  work_Concurrency : Z;
  work_Operations : Z;
  work_Rows : Z;
  PayloadSize : Z;
  DatasetEstimatedBytes : Z;
  DatasetDigest : string;
  StorageEngine : string;
  NetworkPath : string;
  DirectRuns : Z;
  QueryShape : string
}.

Record EvidenceNote := mkNote { Measured : bool; Experimental : bool; Scope : string; Caveat : string }.

Record Report := mkReport {
  report_SchemaVersion : Z;
  report_RunID : string;
  report_StartedAt : Z;
  report_CompletedAt : Z;
  report_Confidence : string;
  report_Environment : Environment;
  report_Workload : Workload;
  report_Direct : PathMetrics;
  report_Accelerator : PathMetrics;
  report_Gains : Gains;
  report_Evidence : EvidenceNote
}.

(** [digest], given the JSON text of the value. *)
Definition digest (encoded : string) : string := hex_encode (Crypto.Sum256 (bytes_of encoded)).

(** The JSON text of a string without characters to escape. *)
Definition json_text (s : string) : string := String (char 34) (s ++ String (char 34) "").

Definition dataset_text (rows : Z) : string :=
  "seed=21188;rows=" ++ GoStrconv.format_int rows ++ ";payload=128;counter=0".

Definition workload_of (o : Options) : Workload := {|
  Name := "bounded-point-read-comparison";
  Seed := 21188;
  OpenClients := Clients o;
  work_Concurrency := Concurrency o;
  work_Operations := Operations o;
  work_Rows := Rows o;
  PayloadSize := 128;
  DatasetEstimatedBytes := Rows o * (128 + 8 + 4);
  DatasetDigest := digest (json_text (dataset_text (Rows o)));
  StorageEngine := "InnoDB temporary schema";
  NetworkPath := "loopback TCP";
  DirectRuns := 2;
  QueryShape := "single-row primary-key SELECT; no cache; local TCP" |}.

Definition evidence_note : EvidenceNote := {|
  Measured := true;
  Experimental := true;
  Scope := "This machine, this database, this binary, and the recorded bounded workload only.";
  Caveat := "Connection savings are the product claim. Throughput and latency may improve or regress; both are reported without filtering." |}.

Record Status := mkStatus { Available : bool; status_Report : option Report; status_Error : string }.

Inductive read_failure := Missing | ReadFailed.

(** [LoadStatus]: the file, and its decoder. *)
Definition LoadStatus (file : read_failure + string) (unmarshal : string -> option Report) : Status :=
  match file with
  | inl Missing => mkStatus false None ""
  | inl ReadFailed => mkStatus false None "benchmark evidence could not be read"
  | inr data =>
      match unmarshal data with
      | Some report =>
          if (report_SchemaVersion report =? SchemaVersion) && Measured (report_Evidence report)
          then mkStatus true (Some report) ""
          else mkStatus false None "benchmark evidence is invalid or unsupported"
      | None => mkStatus false None "benchmark evidence is invalid or unsupported"
      end
  end.

Inductive save_error :=
| PathRequired
| DirectoryFailed (err : string)
| EncodeFailed (err : string)
| SaveWriteFailed (err : string)
| PublishFailed (err : string).

(** The answers of the file system: the directory, how much of the temporary file
    is written before an error, and the renaming. *)
Record save_answers := mkSaveAnswers {
  make_directory : option string;
  write_stops : option (option nat * string);  (* [None]: the file is not even opened *)
  rename_refused : option string;
  remove_refused : bool
}.

(** [Save]: a temporary file beside the path, renamed over it. *)
Definition Save (path : string) (encoded : string + string) (fs : save_answers) (disk : gmap string string)
  : option save_error * gmap string string :=
  if String.eqb (trim_space path) "" then (Some PathRequired, disk) else
  match make_directory fs with
  | Some err => (Some (DirectoryFailed err), disk)
  | None =>
      match encoded with
      | inl err => (Some (EncodeFailed err), disk)
      | inr data =>
          let temporary := path ++ ".tmp" in
          let data := data ++ String newline "" in
          match write_stops fs with
          | Some (written, err) =>
              (Some (SaveWriteFailed err),
               match written with Some n => <[temporary := str_take n data]> disk | None => disk end)
          | None =>
              match rename_refused fs with
              | Some err =>
                  (Some (PublishFailed err),
                   if remove_refused fs then <[temporary := data]> disk else delete temporary disk)
              | None => (None, <[path := data]> (delete temporary disk))
              end
          end
      end
  end.

(** ** The run *)

Inductive bench_error :=
| Invalid (problems : string)
| RandomFailed (err : string)
| ConnectorFailed (e : Connector.Error)
| PingFailed (e : Connector.Error)
| StatementFailed (statement err : string)
| IdentityFailed (err : string)
| SettingsFailed (err : string)
| ReadinessFailed (err : string)
| WarmFailed (path err : string)
| GatewayFailed (e : Service.new_error)
| GatewayStartFailed (err : string)
| ClientsFailed (err : string)
| MeasuredErrors (direct accelerated : Z)
| SaveFailed (e : save_error)
| DropFailed (err : string)
| ShutdownFailed (err : string)
| Crash (text : string).

(** What a run holds until it ends. *)
Inductive resource :=
| AdminPool
| Schema (name : string)
| ReadinessPools
| DirectPool
| GatewayServer
| ClientPools.

#[export] Instance resource_eq_dec : EqDecision resource.
Proof. solve_decision. Defined.

Inductive event :=
| Executed (statement : string)     (* through the administrative pool *)
| Acquired (r : resource)
| Released (r : resource)
| PoolEffect (e : Service.effect)
| Saved (files : gmap string string).  (* what [Save] left of the files *)

(** The files after a run. *)
Definition files_after (log : list event) (before : gmap string string) : gmap string string :=
  foldl (fun files e => match e with Saved after => after | _ => files end) before log.

Definition W (A : Type) : Type := outcome bench_error A * list event.

Definition ret {A} (a : A) : W A := (Ret a, []).
Definition throw {A} (e : bench_error) : W A := (Fail e, []).
Definition emit (e : event) : W unit := (Ret tt, [e]).
Definition lift {E A} (f : E -> bench_error) (o : outcome E A) : W A := (map_fail f o, []).
Definition bind {A B} (w : W A) (k : A -> W B) : W B :=
  match fst w with
  | Ret a => let '(r, log) := k a in (r, snd w ++ log)%list
  | Fail e => (Fail e, snd w)
  | Panic => (Panic, snd w)
  end.

(** A deferred clean-up: it runs on every path, and its error counts only if there
    is no other. *)
Definition finally {A} (body : W A) (cleanup : option bench_error * list event) : W A :=
  (match fst body, fst cleanup with Ret _, Some e => Fail e | r, _ => r end, (snd body ++ snd cleanup)%list).

Definition holding {A} (r : resource) (body : W A) : W A :=
  bind (emit (Acquired r)) (fun _ => finally body (None, [Released r])).

Notation "x <- m ;; k" := (bind m (fun x => k)) (at level 100, m at next level, right associativity).
Notation "'let*' x := m 'in' k" := (bind m (fun x => k))
  (at level 100, x strict pattern, m at next level, right associativity).
Notation "m ;; k" := (bind m (fun _ => k)) (at level 100, right associativity).

(** What the driver is told about a logical client. *)
Record client_config := mkClient {
  client_User : string;
  client_Passwd : string;
  client_Net : string;
  client_Addr : string;
  client_DBName : string;
  client_Timeout : Z;
  client_ReadTimeout : Z;
  client_WriteTimeout : Z
}.

(** The first error of a channel that is closed: [None] is the zero value. *)
Definition first_error (arrived : list (option string)) : option string := hd_error (omap id arrived).

Definition pingAll (arrived : list (option string)) : option string := first_error arrived.

(** A worker of [warm] stops at its first error; the workers in the order in which
    their errors arrive. *)
Definition warm_worker (answers : list (option string)) : option string := first_error (take 8 answers).
Definition warm (workers : list (list (option string))) : option string := first_error (map warm_worker workers).

(** [monitorGateway], and the comparison with the last snapshot. *)
Definition peak_connections (samples : list Z) (last : Z) : Z := Z.max (foldl Z.max 0 samples) last.

(** What a run meets: the answers of the server, the clients and the gateway, and
    what was measured. *)
Record environment := mkEnvironment {
  started_at : Z;
  completed_at : Z;
  random : string + list byte;
  ping : option Connector.go_error;
  exec : string -> option string;
  identity : string + (string * string * string * string);
                                          (* version, comment, system, machine *)
  settings : string + ServerSettings;
  settings_json : ServerSettings -> string;
  host : string * string * Z;             (* GOOS, GOARCH, NumCPU *)
  build : Info;
  direct_pings : list (option string);    (* as they arrive *)
  direct_ready : Z;
  direct_open : list Z;                   (* open connections, per pool *)
  warm_answers : string -> list (list (option string));   (* per path and worker *)
  direct_first : measurement;
  accelerated : measurement;
  direct_second : measurement;
  construction : Z;
  listen : string + string;
  gateway_served : option (option string);  (* what Serve returns, if it does in time *)
  database_close : option string;
  client_refused : client_config -> option string;
  client_pings : list (option string);
  client_ready : Z;
  link_samples : list Z;                  (* database links, idle ones included *)
  final_links : Z;
  encode : Report -> string + string;
  saved : save_answers
}.

(** The configuration of the gateway under test. *)
Definition gatewayConfig (o : Options) : Config :=
  let c := config o in
  let s := Server c in
  {| Version := Version c;
     Server := mkServerConfig "127.0.0.1:0" "pooled" (MySQLClientUser s) (MySQLClientPasswordEnv s)
                 (MySQLAllowInsecureNet s) (MySQLTLSMode s) (MySQLTLSCertFile s) (MySQLTLSKeyFile s)
                 (AdminListen s) (AdminTokenEnv s) (ShutdownTimeout s) (DataDir s);
     Upstream := Upstream c;
     Limits := mkLimitsConfig (Z.max (Clients o + 8) (MaxLogicalConnections (Limits c))) (Concurrency o)
                 (Z.max (Clients o) (MaxQueuedRequests (Limits c))) (MaxQueuedBytes (Limits c));
     Logging := Logging c |}.

Section Run.
Context {U : UnicodeCase}.
Context (range : list (string * string) -> list (string * string)).
Context {pool authority : Type}.
Context (read_file : string -> string + string).
Context (system_pool : option pool) (new_pool : pool).
Context (append_pem : pool -> string -> option pool).
Context (verify : option pool -> option string -> list authority -> authority -> option string).
Context (quoted : string -> string).
Context (new_driver : Connector.driver_config (pool := pool) (certificate := authority)
                      -> option Connector.go_error).
Context (upstream_server : Connector.server) (checkedAt latency : Z).
Context {certificate : Type}.
Context (load_key_pair : string -> string -> string + list certificate).
Context (parse_certificate : certificate -> string + (Z * Z)).
Context (env : environment) (disk : gmap string string).

Definition connect (c : Config) (s : Secrets) : W Connector.Connector :=
  lift ConnectorFailed
    (Connector.New read_file system_pool new_pool append_pem verify quoted range c s).

Definition open_pool (c : Connector.Connector) (n : Z) : W Connector.pool_limits :=
  lift ConnectorFailed (Connector.OpenPool new_driver c n).

Definition execute (statement : string) : W unit :=
  emit (Executed statement) ;;
  match exec env statement with
  | Some err => throw (StatementFailed statement err)
  | None => ret tt
  end.

(** An answer that may be an error. *)
Definition answer {A} (f : string -> bench_error) (o : string + A) : W A :=
  match o with inl err => throw (f err) | inr a => ret a end.

Definition attempt (f : string -> bench_error) (o : option string) : W unit :=
  match o with Some err => throw (f err) | None => ret tt end.

Definition createDataset (name : string) (rows : Z) : W unit :=
  execute (create_table name) ;; execute (populate name rows).

(** The isolated database, dropped at the end if its name is safe. *)
Definition with_database {A} (name : string) (body : W A) : W A :=
  execute (create_database name) ;;
  emit (Acquired (Schema name)) ;;
  finally body
    (if safeBenchmarkDatabase name
     then (DropFailed <$> exec env (drop_database name),
           [Executed (drop_database name); Released (Schema name)])
     else (None, [])).

Definition measureDirectReadiness (c : Connector.Connector) : W (Z * Z) :=
  open_pool c 1 ;;
  holding ReadinessPools (
    attempt ReadinessFailed (pingAll (direct_pings env)) ;;
    ret (direct_ready env, foldl Z.add 0 (direct_open env))).

Definition gateway_client (c : Config) (s : Secrets) (address : string) : client_config := {|
  client_User := MySQLClientUser (Server c);
  client_Passwd := Reveal (ClientPassword s);
  client_Net := "tcp";
  client_Addr := address;
  client_DBName := Database (Upstream c);
  client_Timeout := 5 * Second;
  client_ReadTimeout := 30 * Second;
  client_WriteTimeout := 30 * Second |}.

(** The clients are closed by [closeDatabases], here or at the end of the run. *)
Definition openGatewayClients (c : Config) (s : Secrets) (address : string) : W Z :=
  attempt ClientsFailed (client_refused env (gateway_client c s address)) ;;
  attempt ClientsFailed (pingAll (client_pings env)) ;;
  ret (client_ready env).

Definition product_of (version comment : string) : string :=
  if contains "mariadb" (to_lower (version ++ " " ++ comment)) then "mariadb" else "mysql".

Definition environment_of (o : Options) (product version system machine : string) (s : ServerSettings)
  : Environment :=
  let '(goos, goarch, cpus) := host env in {|
  ServerProduct := product;
  ServerVersion := version;
  ServerOperatingSys := system;
  ServerArchitecture := machine;
  Address := JoinHostPort (Host (Upstream (config o))) (GoStrconv.format_int (Port (Upstream (config o))));
  OperatingSys := goos;
  Architecture := goarch;
  LogicalCPUs := cpus;
  CPUProfile := goos ++ "/" ++ goarch ++ "; " ++ GoStrconv.format_int cpus ++ " logical CPUs";
  Driver := "github.com/go-sql-driver/mysql";
  DriverVersion := "v1.9.3";
  env_Accelerator := BuildInfo.Version (build env);
  env_Commit := Commit (build env);
  env_ServerSettings := s;
  ServerConfigDigest := digest (settings_json env s) |}.

(** The gateway under test, shut down at the end. *)
Definition with_gateway {A} (o : Options) (body : string -> W A) : W A :=
  let c := gatewayConfig o in
  connector <- connect c (secrets o) ;;
  let '(service, effects) :=
    Service.New load_key_pair parse_certificate (construction env) c (secrets o)
      (Some (Service.mkUpstream
               (fst (Connector.Probe quoted new_driver upstream_server connector checkedAt latency))
               (Connector.OpenPool new_driver connector))) in
  (Ret tt, map PoolEffect effects) ;;
  service <- lift GatewayFailed service ;;
  let '(err, _, serving) := Service.Start (listen env) Service.constructed in
  attempt GatewayStartFailed err ;;
  emit (Acquired GatewayServer) ;;
  finally (body (Service.Address service serving))
    (ShutdownFailed <$> fst (Service.Shutdown (gateway_served env) "context deadline exceeded" (database_close env) serving),
     [Released GatewayServer]).

Definition metrics (o : Options) (m : measurement) : W PathMetrics :=
  lift Crash (path_metrics (Operations o) m).

Definition Run (o : Options) : W Report :=
  attempt Invalid (validate o) ;;
  let* (runID, name) := answer RandomFailed (runIdentity (started_at env) (random env)) in
  connector <- connect (config o) (secrets o) ;;
  open_pool connector (Z.max 2 (Concurrency o)) ;;
  holding AdminPool (
    match ping env with
    | Some err => throw (PingFailed (Connector.classify_error "benchmark ping" err))
    | None => ret tt
    end ;;
    with_database name (
      createDataset name (Rows o) ;;
      let* (version, comment, system, machine) := answer IdentityFailed (identity env) in
      server_settings <- answer SettingsFailed (settings env) ;;
      let* (directReady, directPeak) := measureDirectReadiness connector in
      open_pool connector (Concurrency o) ;;
      holding DirectPool (
        attempt (WarmFailed "direct") (warm (warm_answers env "direct")) ;;
        directA <- metrics o (direct_first env) ;;
        with_gateway o (fun address =>
          holding ClientPools (
            ready <- openGatewayClients (gatewayConfig o) (secrets o) address ;;
            attempt (WarmFailed "accelerator") (warm (warm_answers env "accelerator")) ;;
            fast <- metrics o (accelerated env) ;;
            let fast := with_ready ready (peak_connections (link_samples env) (final_links env)) fast in
            attempt (WarmFailed "rewarm") (warm (warm_answers env "rewarm")) ;;
            directB <- metrics o (direct_second env) ;;
            let direct := with_ready directReady directPeak (medianPathMetrics directA directB) in
            if (0 <? Errors direct) || (0 <? Errors fast)
            then throw (MeasuredErrors (Errors direct) (Errors fast)) else
            let report := mkReport SchemaVersion runID (started_at env) (completed_at env)
                            "local-measured-experimental"
                            (environment_of o (product_of version comment) version system machine server_settings)
                            (workload_of o) direct fast (calculateGains direct fast (Clients o)) evidence_note in
            let '(err, after) := Save (OutputPath o) (encode env report) (saved env) disk in
            emit (Saved after) ;;
            match err with
            | Some e => throw (SaveFailed e)
            | None => ret report
            end))))).

End Run.
End Benchmark.
