(* ===== verification/PointReads.v ===== *)
(** * The measured point reads ([runWorkload] of [internal/benchmark/benchmark.go])

    Workers that share a counter, a slice of latencies and a counter of failures.
    A run is any interleaving of their steps; what the database answers, and how
    long it takes, is part of the schedule. *)

From stdpp Require Import base list list_numbers numbers strings option sorting.
From Stdlib Require Import ZArith Lia Ascii String Permutation.
From S2P Require Import Prelude GoStrings GoStrconv GoDuration Concurrency Benchmark.

Module PointReads.
Import Benchmark.Benchmark.
Local Open Scope string_scope.
Local Open Scope list_scope.
Local Open Scope Z_scope.
#[local] Arguments total : simpl never.

(** Rewriting with permutations. *)
#[local] Instance cons_permutation {A} (a : A) : Proper (Permutation ==> Permutation) (cons a).
Proof. intros l k H. by apply perm_skip. Qed.
#[local] Instance app_permutation {A} : Proper (Permutation ==> Permutation ==> Permutation) (@app A).
Proof. intros l k H l' k' H'. by apply Permutation_app. Qed.

Record workload := mkWorkload {
  operations : Z;
  concurrency : Z;
  rows : Z;
  databaseName : string
}.

(** Where a worker is: before [next.Add], at its query, before [errorsFound.Add],
    returned - or past the end of [latencies]. *)
Inductive phase :=
| Taking
| Asking (index : Z)
| Counting
| Finished
| Crashed.

#[export] Instance reads_phase_eq_dec : EqDecision phase.
Proof. solve_decision. Defined.

(** What came back for a query: an error or a row, after a time. *)
Record reply := mkReply {
  reply_index : Z;
  reply_query : string;
  reply_time : Z;
  reply_row : string + (string * Z)
}.

(** [err != nil || payload == "" || counter < 0] *)
Definition failed (row : string + (string * Z)) : bool :=
  match row with
  | inl _ => true
  | inr (payload, counter) => String.eqb payload "" || (counter <? 0)
  end.

Record state := mkState {
  next : Z;
  errorsFound : Z;
  latencies : list Z;
  workers : list phase;
  replies : list reply         (* what was asked and answered so far *)
}.

Definition start (c : workload) : state := {|
  next := 0;
  errorsFound := 0;
  latencies := replicate (Z.to_nat (operations c)) 0;
  workers := replicate (Z.to_nat (concurrency c)) Taking;
  replies := [] |}.

Inductive action :=
| Take (w : nat)
| Answer (w : nat) (time : Z) (row : string + (string * Z))
| Count (w : nat).

Definition move (w : nat) (p : phase) (s : state) : state :=
  mkState (next s) (errorsFound s) (latencies s) (alter (fun _ => p) w (workers s)) (replies s).

Definition query_of (c : workload) (index : Z) : string :=
  pointQuery (databaseName c) (Z.rem index (rows c) + 1).

Definition step (c : workload) (a : action) (s : state) : option state :=
  match a with
  | Take w =>
      match workers s !! w with
      | Some Taking =>
          let index := next s in
          let s := mkState (next s + 1) (errorsFound s) (latencies s) (workers s) (replies s) in
          Some (move w (if operations c <=? index then Finished else Asking index) s)
      | _ => None
      end
  | Answer w time row =>
      match workers s !! w with
      | Some (Asking index) =>
          let answered := replies s ++ [mkReply index (query_of c index) time row] in
          if (0 <=? index) && (index <? Z.of_nat (List.length (latencies s))) then
            Some (move w (if failed row then Counting else Taking)
                    (mkState (next s) (errorsFound s) (<[Z.to_nat index := time]> (latencies s))
                       (workers s) answered))
          else Some (move w Crashed (mkState (next s) (errorsFound s) (latencies s) (workers s) answered))
      | _ => None
      end
  | Count w =>
      match workers s !! w with
      | Some Counting =>
          Some (move w Taking
                  (mkState (next s) (errorsFound s + 1) (latencies s) (workers s) (replies s)))
      | _ => None
      end
  end.

(** Every action is the program's own: a query returns, at the latest when the
    deadline of its context passes. *)
Definition internal (a : action) (s : state) : bool := true.

(** [wait.Wait()] returns. *)
Definition all_returned (s : state) : Prop := Forall (fun p => p = Finished) (workers s).

Definition reachable (c : workload) (s : state) : Prop := steps (step c) (start c) s.

(** The peaks of what the monitor sampled of the heap and the goroutines. *)
Definition monitorRuntime (samples : list (Z * Z)) : Z * Z :=
  foldl (fun '(heap, goroutines) '(h, g) => (Z.max heap h, Z.max goroutines g)) (0, 0) samples.

(** What is measured. *)
Definition measured (s : state) (duration : Z) (samples : list (Z * Z)) : measurement :=
  let '(heap, goroutines) := monitorRuntime samples in
  mkMeasurement (latencies s) (errorsFound s) duration heap goroutines.

(** ** Invariant *)

Definition asking (p : phase) : option Z := match p with Asking i => Some i | _ => None end.
Definition counting (p : phase) : Z := match p with Counting => 1 | _ => 0 end.

Definition failures_of (l : list reply) : Z := total (fun r => if failed (reply_row r) then 1 else 0) l.

Record inv (c : workload) (s : state) : Prop := {
  inv_next : 0 <= next s;
  inv_length : Z.of_nat (List.length (latencies s)) = operations c;
  inv_workers : Z.of_nat (List.length (workers s)) = concurrency c;
  inv_whole : forall w, workers s !! w <> Some Crashed;
  inv_ended : forall w, workers s !! w = Some Finished -> operations c < next s;
  inv_once : omap asking (workers s) ++ map reply_index (replies s)
               ≡ₚ seqZ 0 (Z.min (next s) (operations c));
  inv_replies : Forall (fun r => reply_query r = query_of c (reply_index r) /\
                   latencies s !! Z.to_nat (reply_index r) = Some (reply_time r)) (replies s);
  inv_errors : errorsFound s + total counting (workers s) = failures_of (replies s)
}.

Lemma start_inv c : 0 <= operations c -> 0 <= concurrency c -> inv c (start c).
Proof.
  intros Hn Hc. constructor; cbn; rewrite ?length_replicate, ?Z2Nat.id by done; try done.
  - intros w [? _]%lookup_replicate. done.
  - intros w [? _]%lookup_replicate. done.
  - rewrite Z.min_l, app_nil_r by done. induction (Z.to_nat (concurrency c)); done.
  - rewrite total_zero; [done|]. intros p Hp%elem_of_replicate_inv. by subst.
Qed.

Lemma omap_alter (f : phase -> option Z) p l w q :
  l !! w = Some q ->
  from_option (fun i => [i]) [] (f q) ++ omap f (alter (fun _ => p) w l)
    ≡ₚ from_option (fun i => [i]) [] (f p) ++ omap f l.
Proof.
  revert w. induction l as [|x l IH]; intros [|w] H; try done; cbn in H |- *.
  - injection H as ->. destruct (f q), (f p); cbn; try done. by rewrite Permutation_swap.
  - specialize (IH w H). destruct (f x) as [i|]; [|exact IH].
    rewrite <- !Permutation_middle. by apply perm_skip.
Qed.

Lemma total_move (f : phase -> Z) p l w q :
  l !! w = Some q -> total f (alter (fun _ => p) w l) = total f l - f q + f p.
Proof. intros H. by rewrite (total_alter f (fun _ => p) l w q). Qed.

Lemma alter_cases (p : phase) (l : list phase) (w v : nat) q :
  alter (fun _ => p) w l !! v = Some q -> q = p /\ v = w \/ l !! v = Some q.
Proof.
  destruct (decide (v = w)) as [->|Hv].
  - rewrite list_lookup_alter, decide_True by done. destruct (l !! w); [|done]. cbn. intros [= <-]. by left.
  - rewrite list_lookup_alter_ne by done. by right.
Qed.

Lemma seqZ_snoc n : 0 <= n -> seqZ 0 (n + 1) ≡ₚ n :: seqZ 0 n.
Proof.
  intros Hn. rewrite seqZ_app by lia.
  replace (seqZ (0 + n) 1) with [n] by (by rewrite seqZ_cons, Z.add_0_l by lia). by rewrite <- Permutation_cons_append.
Qed.

Lemma take_inv c s w :
  inv c s -> workers s !! w = Some Taking -> 0 <= operations c ->
  let index := next s in
  inv c (move w (if operations c <=? index then Finished else Asking index)
           (mkState (next s + 1) (errorsFound s) (latencies s) (workers s) (replies s))).
Proof.
  intros [Hn Hl Hw Hx He Ho Hr Hf] Hi Hc. cbv zeta. constructor; cbn; rewrite ?length_alter; try done; [lia|..].
  - intros v [[Hv _]|Hv]%alter_cases; [by destruct (_ <=? _)|by apply Hx in Hv].
  - intros v [[Hv ->]|Hv]%alter_cases; [|specialize (He v Hv); lia].
    destruct (Z.leb_spec (operations c) (next s)); [lia|done].
  - pose proof (omap_alter asking (if operations c <=? next s then Finished else Asking (next s)) _ _ _ Hi) as H.
    destruct (Z.leb_spec (operations c) (next s)) as [Hle|Hlt]; cbn in H.
    + rewrite H. rewrite Ho. by rewrite !Z.min_r by lia.
    + rewrite H. cbn. rewrite Ho, !Z.min_l by lia.
      by rewrite seqZ_snoc.
  - rewrite (total_move counting _ _ _ Taking) by done. destruct (_ <=? _); cbn; lia.
Qed.

Lemma replies_kept (c : workload) (lat : list Z) l k time :
  ~ In (Z.of_nat k) (map reply_index l) -> Forall (fun r => 0 <= reply_index r) l ->
  Forall (fun r => reply_query r = query_of c (reply_index r) /\
            lat !! Z.to_nat (reply_index r) = Some (reply_time r)) l ->
  Forall (fun r => reply_query r = query_of c (reply_index r) /\
            <[k := time]> lat !! Z.to_nat (reply_index r) = Some (reply_time r)) l.
Proof.
  intros Hk Hp H. rewrite !List.Forall_forall in *. intros r Hr. destruct (H r Hr) as [Hq Ht].
  split; [done|]. rewrite list_lookup_insert_ne; [done|]. intros ->. apply Hk.
  rewrite Z2Nat.id by by apply Hp. by apply in_map.
Qed.

Lemma indices_bounded c s : inv c s ->
  Forall (fun i => 0 <= i < Z.min (next s) (operations c)) (omap asking (workers s) ++ map reply_index (replies s)).
Proof.
  intros H. rewrite (inv_once _ _ H). apply Forall_forall. intros i Hi%elem_of_seqZ. lia.
Qed.

Lemma asking_in (l : list phase) (w : nat) i : l !! w = Some (Asking i) -> In i (omap asking l).
Proof.
  intros H. apply list_elem_of_In, list_elem_of_omap. exists (Asking i). split; [|done].
  by eapply list_elem_of_lookup_2.
Qed.

(** A worker with a query has its index to itself. *)
Lemma asking_alone c s w i :
  inv c s -> workers s !! w = Some (Asking i) ->
  0 <= i < operations c /\ i < next s /\ ~ In i (map reply_index (replies s)) /\
  forall v, workers s !! v = Some (Asking i) -> v = w.
Proof.
  intros H Hw. pose proof (indices_bounded _ _ H) as Hb. rewrite List.Forall_forall in Hb.
  pose proof (asking_in _ _ _ Hw) as Hin. pose proof (Hb i ltac:(apply in_or_app; by left)) as Hi.
  pose proof (NoDup_seqZ 0 (Z.min (next s) (operations c))) as Hd. rewrite <- (inv_once _ _ H) in Hd.
  apply NoDup_app in Hd as (Hd & Hdis & _). split_and!; try lia.
  - intros Hr. apply (Hdis i); by apply list_elem_of_In.
  - intros v Hv. clear Hb Hdis Hi Hin H. revert w v Hw Hv Hd. induction (workers s) as [|x l IH]; [done|].
    intros [|w] [|v] Hw Hv Hd; try done; cbn in Hw, Hv, Hd.
    + injection Hw as ->. apply asking_in in Hv. apply list.NoDup_cons in Hd as [Hd _].
      destruct Hd. by apply list_elem_of_In.
    + injection Hv as ->. apply asking_in in Hw. apply list.NoDup_cons in Hd as [Hd _].
      destruct Hd. by apply list_elem_of_In.
    + f_equal. apply IH; [done..|]. destruct (asking x); [by apply list.NoDup_cons in Hd as [_ Hd]|done].
Qed.

Lemma failures_snoc l r :
  failures_of (l ++ [r]) = failures_of l + if failed (reply_row r) then 1 else 0.
Proof. unfold failures_of. by rewrite total_app, total_one. Qed.

Lemma replies_bounded c s : inv c s -> Forall (fun r => 0 <= reply_index r) (replies s).
Proof.
  intros H. pose proof (indices_bounded _ _ H) as Hb. rewrite List.Forall_forall in *. intros r Hr.
  specialize (Hb (reply_index r) ltac:(apply in_or_app; right; by apply in_map)). lia.
Qed.

Lemma answer_inv c s w i time row :
  inv c s -> workers s !! w = Some (Asking i) ->
  inv c (move w (if failed row then Counting else Taking)
           (mkState (next s) (errorsFound s) (<[Z.to_nat i := time]> (latencies s)) (workers s)
              (replies s ++ [mkReply i (query_of c i) time row]))).
Proof.
  intros H Hi. destruct (asking_alone _ _ _ _ H Hi) as (Hb & Hlt & Hno & _).
  pose proof (replies_bounded _ _ H) as Hrb. destruct H as [Hn Hl Hw Hx He Ho Hr Hf].
  constructor; cbn; rewrite ?length_alter, ?length_insert; try done.
  - intros v [[Hv _]|Hv]%alter_cases; [by destruct (failed row)|by apply Hx in Hv].
  - intros v [[Hv _]|Hv]%alter_cases; [by destruct (failed row)|by apply He in Hv].
  - rewrite <- Ho. pose proof (omap_alter asking (if failed row then Counting else Taking) _ _ _ Hi) as H.
    assert (asking (if failed row then Counting else Taking) = None) as Hp by by destruct (failed row).
    rewrite Hp in H. cbn in H. rewrite map_app. cbn. rewrite <- H. cbn.
    rewrite app_assoc. by rewrite <- Permutation_cons_append.
  - apply List.Forall_app. split; [by apply replies_kept; [rewrite Z2Nat.id by lia|..]|].
    apply List.Forall_cons; [|apply List.Forall_nil]. cbn. split; [done|].
    apply list_lookup_insert_eq. lia.
  - rewrite failures_snoc, (total_move counting _ _ _ (Asking i)) by done. cbn. destruct (failed row); cbn; lia.
Qed.

Lemma count_inv c s w :
  inv c s -> workers s !! w = Some Counting ->
  inv c (move w Taking (mkState (next s) (errorsFound s + 1) (latencies s) (workers s) (replies s))).
Proof.
  intros [Hn Hl Hw Hx He Ho Hr Hf] Hi. constructor; cbn; rewrite ?length_alter; try done.
  - intros v [[Hv _]|Hv]%alter_cases; [done|by apply Hx in Hv].
  - intros v [[Hv _]|Hv]%alter_cases; [done|by apply He in Hv].
  - pose proof (omap_alter asking Taking _ _ _ Hi) as H. cbn in H. by rewrite H.
  - rewrite (total_move counting _ _ _ Counting) by done. cbn. lia.
Qed.

Lemma step_inv c a s s' : 0 <= operations c -> inv c s -> step c a s = Some s' -> inv c s'.
Proof.
  intros Hc H. destruct a as [w|w time row|w]; cbn; destruct (workers s !! w) as [[]|] eqn:Hw; try done.
  - intros [= <-]. by apply take_inv.
  - destruct (asking_alone _ _ _ _ H Hw) as (Hb & _). pose proof (inv_length _ _ H) as Hl.
    destruct (Z.leb_spec 0 index); [|lia]. destruct (Z.ltb_spec index (Z.of_nat (List.length (latencies s)))); [|lia].
    intros [= <-]. by apply answer_inv.
  - intros [= <-]. by apply count_inv.
Qed.

Lemma reachable_inv c s : 0 <= operations c -> 0 <= concurrency c -> reachable c s -> inv c s.
Proof.
  intros Ho Hc. apply steps_invariant; [|by apply start_inv]. intros a t u Ht Hu. by eapply step_inv.
Qed.

(** ** Every schedule ends *)

Definition weight (p : phase) : Z :=
  match p with Taking => 1 | Asking _ => 3 | Counting => 2 | Finished | Crashed => 0 end.

Definition remaining (c : workload) (s : state) : Z :=
  4 * Z.max 0 (operations c - next s) + total weight (workers s).

Lemma phase_weight_nonneg p : 0 <= weight p.
Proof. by destruct p. Qed.

Lemma step_remaining c a s s' : inv c s -> step c a s = Some s' -> remaining c s' < remaining c s.
Proof.
  intros H. unfold remaining.
  destruct a as [w|w time row|w]; cbn; destruct (workers s !! w) as [[]|] eqn:Hw; try done.
  - intros [= <-]. cbn. rewrite (total_move weight _ _ _ Taking) by done.
    destruct (Z.leb_spec (operations c) (next s)); cbn; lia.
  - destruct (_ && _); intros [= <-]; cbn; rewrite (total_move weight _ _ _ (Asking index)) by done;
      [destruct (failed row)|]; cbn; lia.
  - intros [= <-]. cbn. rewrite (total_move weight _ _ _ Counting) by done. cbn. lia.
Qed.

Lemma not_stuck c s : inv c s -> all_returned s \/ exists a s', internal a s = true /\ step c a s = Some s'.
Proof.
  intros H. unfold all_returned. destruct (decide (Forall (fun p => p = Finished) (workers s))) as [|Hn]; [by left|].
  right. apply not_Forall_Exists in Hn; [|intros p; apply _].
  apply List.Exists_exists in Hn as (p & Hp & Hne). apply list_elem_of_In, list_elem_of_lookup in Hp as [w Hw].
  destruct p; [exists (Take w)|exists (Answer w 0 (inl ""))|exists (Count w)|by destruct Hne|by apply (inv_whole _ _ H) in Hw];
    cbn; rewrite Hw; try (destruct (_ && _)); by eexists.
Qed.

(** The measured workload ends, whatever the schedule.  From every state it can
    reach, however fast the workers and the database are, all workers return: some
    worker can always go on, and no schedule goes on for ever. *)
Theorem workload_ends (c : workload) (s : state) (Hn : 0 <= operations c) (Hc : 0 <= concurrency c)
    (Hs : reachable c s) :
  eventually (step c) internal all_returned s.
Proof.
  apply (eventually_by_measure (step c) internal (inv c) all_returned (remaining c)).
  - intros t Ht. unfold remaining. pose proof (total_nonneg weight (workers t) phase_weight_nonneg). lia.
  - intros t Ht. by apply not_stuck.
  - intros a t u Ht Hu. split; [by eapply step_inv|by eapply step_remaining].
  - by apply reachable_inv.
Qed.

(** ** What is measured *)

Lemma returned_asks l : Forall (fun p => p = Finished) l -> omap asking l = [] /\ total counting l = 0.
Proof.
  induction 1 as [|p l -> _ [IH1 IH2]]; [done|]. cbn. split; [done|]. by rewrite total_cons, IH2.
Qed.

Lemma latencies_replies (lat : list Z) (l : list reply) :
  map reply_index l ≡ₚ seqZ 0 (Z.of_nat (List.length lat)) ->
  Forall (fun r => lat !! Z.to_nat (reply_index r) = Some (reply_time r)) l ->
  lat ≡ₚ map reply_time l.
Proof.
  intros Hi Ht.
  assert (map (fun i => default 0 (lat !! Z.to_nat i)) (seqZ 0 (Z.of_nat (List.length lat))) = lat) as Hlat.
  { apply list_eq. intros k. destruct (decide (k < List.length lat)%nat) as [Hk|Hk].
    - change (map ?f ?l) with (f <$> l). rewrite list_lookup_fmap, lookup_seqZ_lt, Z.add_0_l by lia.
      cbn -[Z.to_nat]. rewrite Nat2Z.id. destruct (lookup_lt_is_Some_2 lat k Hk) as [x Hx]. by rewrite Hx.
    - rewrite !lookup_ge_None_2; [done|lia|]. rewrite length_map, length_seqZ. lia. }
  rewrite <- Hlat at 1. rewrite <- Hi. rewrite map_map.
  assert (map (fun r => default 0 (lat !! Z.to_nat (reply_index r))) l = map reply_time l) as ->; [|done].
  apply map_ext_in. intros r Hr. rewrite List.Forall_forall in Ht. by rewrite (Ht r Hr).
Qed.

Lemma percentile_member (values : list Z) (p : Z) :
  values <> [] -> exists v, In v values /\ percentile values p = Ret (milliseconds v).
Proof.
  intros Hv. unfold percentile. cbv zeta.
  set (index := Z.min _ _). assert (0 <= index < Z.of_nat (List.length values)) as Hi.
  { subst index. destruct values; [done|]. cbn [List.length]. lia. }
  destruct (Z.ltb_spec index 0); [lia|]. unfold go_index.
  destruct (lookup_lt_is_Some_2 values (Z.to_nat index) ltac:(lia)) as [v Hl].
  exists v. rewrite Hl. split; [|done]. by apply list_elem_of_lookup_2, list_elem_of_In in Hl.
Qed.

Lemma sorted_last (l : list Z) v :
  StronglySorted Z.le l -> last l = Some v -> Forall (fun x => x <= v) l.
Proof.
  induction 1 as [|x l Hs IH Hx]; [done|]. destruct l as [|y l].
  - intros [= <-]. apply List.Forall_cons; [lia|apply List.Forall_nil].
  - rewrite last_cons_cons. intros Hl. specialize (IH Hl). apply List.Forall_cons; [|done].
    rewrite List.Forall_forall in Hx, IH. pose proof (Hx y ltac:(by left)). pose proof (IH y ltac:(by left)). lia.
Qed.

(** The figures of a workload: percentiles are measured times, the worst time is
    the largest. *)
Lemma path_metrics_figures n (m : measurement) :
  Benchmark.latencies m <> [] -> exists figures, path_metrics n m = Ret figures /\
    Errors figures = failures m /\ metric_Operations figures = n /\
    (exists worst, In worst (Benchmark.latencies m) /\ Forall (fun t => t <= worst) (Benchmark.latencies m) /\
       MaxMS figures = milliseconds worst) /\
    Forall (fun x => exists t, In t (Benchmark.latencies m) /\ x = milliseconds t)
      [P50MS figures; P95MS figures; P99MS figures].
Proof.
  intros Hm. pose proof (merge_sort_Permutation Z.le (Benchmark.latencies m)) as Hp.
  pose proof (StronglySorted_merge_sort Z.le (Benchmark.latencies m)) as Hs.
  set (l := merge_sort Z.le (Benchmark.latencies m)) in *.
  assert (l <> []) as Hl by (intros H; rewrite H in Hp; by apply Permutation_nil_l in Hp).
  destruct (percentile_member l 50 Hl) as (a & Ha & H50), (percentile_member l 95 Hl) as (b & Hb & H95).
  destruct (percentile_member l 99 Hl) as (d & Hd & H99).
  assert (forall x, In x l -> In x (Benchmark.latencies m)) as Hin by (intros x; by rewrite Hp).
  destruct (last l) as [worst|] eqn:Hw; [|by apply last_None in Hw].
  unfold path_metrics. cbv zeta. fold l. rewrite H50, H95, H99. cbn [mbind outcome_bind].
  unfold go_index. rewrite last_lookup in Hw. replace (List.length l - 1)%nat with (pred (List.length l)) by lia.
  rewrite Hw. eexists. split; [done|]. cbn. split_and!; try done.
  - exists worst. split_and!; [apply Hin, list_elem_of_In; by eapply list_elem_of_lookup_2| |done].
    rewrite <- Hp. apply sorted_last; [done|]. by rewrite last_lookup.
  - repeat apply List.Forall_cons; [..|apply List.Forall_nil]; eauto.
Qed.

(** C27.  A workload measures every operation once, and all of them.  In no state
    that any schedule reaches do two workers write the same latency, nor any outside
    the slice; and when all have returned, the queries that were answered are one
    per operation, each for a row of the dataset; the latencies are their times; the
    errors are the answers that failed or made no sense; and the figures exist, with
    these errors, the longest time as maximum, and measured times as percentiles. *)
Theorem workload_exact (c : workload) (s : state) (Hn : 1 <= operations c) (Hc : 1 <= concurrency c)
    (Hrows : 1 <= rows c) (Hs : reachable c s) :
  (forall v w i, workers s !! v = Some (Asking i) -> workers s !! w = Some (Asking i) -> v = w) /\
  (forall w, workers s !! w <> Some Crashed) /\
  (all_returned s ->
   map reply_index (replies s) ≡ₚ seqZ 0 (operations c) /\
   Forall (fun r => exists id, 1 <= id <= rows c /\ reply_query r = pointQuery (databaseName c) id) (replies s) /\
   latencies s ≡ₚ map reply_time (replies s) /\
   errorsFound s = failures_of (replies s) /\
   forall duration samples, exists figures,
     path_metrics (operations c) (measured s duration samples) = Ret figures /\
     Errors figures = failures_of (replies s) /\
     (exists worst, In worst (map reply_time (replies s)) /\
        Forall (fun r => reply_time r <= worst) (replies s) /\ MaxMS figures = milliseconds worst) /\
     Forall (fun x => exists r, In r (replies s) /\ x = milliseconds (reply_time r))
       [P50MS figures; P95MS figures; P99MS figures]).
Proof.
  apply reachable_inv in Hs as H; [|lia..]. split_and!.
  - intros v w i Hv Hw. by apply (asking_alone _ _ _ _ H Hw).
  - apply (inv_whole _ _ H).
  - intros Hdone. destruct (returned_asks _ Hdone) as [Hask Hcount].
    pose proof (inv_length _ _ H) as Hl. pose proof (inv_errors _ _ H) as He. rewrite Hcount, Z.add_0_r in He.
    assert (operations c < next s) as Hnext.
    { apply (inv_ended _ _ H 0%nat). pose proof (inv_workers _ _ H) as Hw. unfold all_returned in Hdone.
      destruct (workers s) as [|p l]; [cbn in Hw; lia|]. by apply List.Forall_inv in Hdone as ->. }
    pose proof (inv_once _ _ H) as Ho. rewrite Hask, Z.min_r in Ho by lia. cbn in Ho.
    pose proof (inv_replies _ _ H) as Hr. apply Forall_and in Hr as [Hq Ht].
    assert (latencies s ≡ₚ map reply_time (replies s)) as Hlat by (apply latencies_replies; [by rewrite Hl|done]).
    split_and!; try done.
    + pose proof (replies_bounded _ _ H) as Hb. rewrite List.Forall_forall in *. intros r Hin.
      rewrite (Hq r Hin). eexists. split; [|done]. specialize (Hb r Hin).
      pose proof (Z.rem_bound_pos (reply_index r) (rows c) Hb ltac:(lia)). lia.
    + intros duration samples. unfold measured. destruct (monitorRuntime samples) as [heap goroutines].
      destruct (path_metrics_figures (operations c) (mkMeasurement (latencies s) (errorsFound s) duration heap goroutines))
        as (figures & Hf & Hfe & _ & (worst & Hw & Hmax & HM) & Hp).
      { intros H0. cbn in H0. rewrite H0 in Hl. cbn in Hl. lia. }
      exists figures. cbn in Hfe, Hw, Hmax, Hp. rewrite Hlat in Hw, Hmax. split_and!; [done|by rewrite Hfe| |].
      * exists worst. split_and!; [done| |done]. by rewrite Forall_map in Hmax.
      * eapply Forall_impl; [exact Hp|]. intros x (t & Hin & ->). rewrite Hlat in Hin.
        apply in_map_iff in Hin as (r & <- & Hin). by exists r.
Qed.

(** ** Example: two workers, three reads, one of which returns an empty payload *)

Definition sample_workload : workload := mkWorkload 3 2 2 "dba_benchmark_deadbeef".

Definition sample_schedule : list action :=
  [Take 0; Take 1; Answer 1 5000000 (inr ("", 0)); Count 1; Take 1; Answer 0 9000000 (inr ("row-1-x", 0));
   Take 0; Answer 1 7000000 (inr ("row-1-x", 0)); Take 1].

Definition sample_state : state := default (start sample_workload) (run (step sample_workload) sample_schedule (start sample_workload)).

Lemma sample_reachable : reachable sample_workload sample_state.
Proof. apply (run_steps _ sample_schedule). vm_compute. reflexivity. Qed.

Example sample_latencies :
  (latencies sample_state, errorsFound sample_state, workers sample_state, map reply_index (replies sample_state))
  = ([9000000; 5000000; 7000000], 1, [Finished; Finished], [1; 0; 2]).
Proof. vm_compute. reflexivity. Qed.

Lemma workload_ends_witness : eventually (step sample_workload) internal all_returned (start sample_workload).
Proof. apply workload_ends; [cbn; lia|cbn; lia|apply steps_refl]. Defined.

Lemma workload_exact_witness :
  exists figures, path_metrics 3 (measured sample_state 10000000 [(1, 1)]) = Ret figures /\ Errors figures = 1.
Proof.
  destruct (workload_exact sample_workload sample_state ltac:(cbn; lia) ltac:(cbn; lia) ltac:(cbn; lia)
              sample_reachable) as (_ & _ & H).
  destruct H as (_ & _ & _ & _ & H).
  - vm_compute. repeat constructor.
  - destruct (H 10000000 [(1, 1)]) as (figures & Hf & He & _). exists figures. split; [exact Hf|].
    rewrite He. vm_compute. reflexivity.
Defined.

End PointReads.
