(* ===== verification/BenchmarkRules.v ===== *)
(** * What a benchmark run leaves behind

    Isolation: a run only touches a database of its own, and releases in reverse
    order what it acquired.  Evidence: what is saved is what is shown.  And the
    gateway under test, when the configuration is not a pooled one. *)

From stdpp Require Import base list numbers strings option gmap sorting.
From coqutil Require Import Byte.
From Stdlib Require Import ZArith Lia Ascii String SpecFloat.
From S2P Require Import Prelude BuildInfo GoStrings GoStrconv GoDuration GoNet Config ConfigRules Secrets Connector.
From S2P Require Import NativeAuth Handshake Login Service App AppRules Benchmark.

Module BenchmarkRules.
Import Config.Config.
Import Secrets.Secrets.
Import ConfigRules.ConfigRules.
Import Benchmark.Benchmark.
Local Open Scope list_scope.
Local Open Scope string_scope.
Local Open Scope Z_scope.

(** ** Names *)

Lemma hex_digit_hex d : 0 <= d < 16 -> is_hex (hex_digit d) = true.
Proof.
  intros Hd. unfold hex_digit, is_hex, in_range.
  destruct (Z.ltb_spec d 10); rewrite GoStrconv.code_char by lia; lia.
Qed.

Lemma hex_encode_decodes bs : hex_decodes (hex_encode bs) = true.
Proof.
  induction bs as [|b bs IH]; cbn; [done|]. pose proof (bval_range b).
  rewrite !hex_digit_hex, IH; [done|apply Z.mod_pos_bound; lia|].
  split; [apply Z.div_pos; lia|apply Z.div_lt_upper_bound; lia].
Qed.

Lemma hex_encode_length bs : String.length (hex_encode bs) = (2 * List.length bs)%nat.
Proof. induction bs as [|b bs IH]; cbn; [done|]. rewrite IH. lia. Qed.

Lemma identity_safe stamp bs id name :
  List.length bs = 4%nat -> runIdentity stamp (inr bs) = inr (id, name) ->
  safeBenchmarkDatabase name = true.
Proof.
  intros Hl [= _ <-]. pose proof (hex_encode_length bs) as Hn. rewrite Hl in Hn.
  pose proof (hex_encode_decodes bs) as Hd. revert Hn Hd. generalize (hex_encode bs) as s. intros s Hn Hd.
  assert (has_prefix database_prefix (database_prefix ++ s) = true) as Hp by (vm_compute; by destruct s).
  unfold safeBenchmarkDatabase, trim_prefix. rewrite Hp.
  change (str_drop (String.length database_prefix) (database_prefix ++ s)) with s.
  change (String.length (database_prefix ++ s)) with (14 + String.length s)%nat. rewrite Hd, Hn. done.
Qed.

(** ** Acquired and released *)

(** Releases in the reverse order; statements only for one database. *)
Definition hold (e : event) (held : list resource) : option (list resource) :=
  match e with
  | Acquired r => Some (r :: held)
  | Released r => match held with top :: rest => if decide (top = r) then Some rest else None | [] => None end
  | Executed _ | PoolEffect _ | Saved _ => Some held
  end.

Definition replay (log : list event) (held : list resource) : option (list resource) :=
  foldl (fun o e => held ← o; hold e held) (Some held) log.

Definition own_statement (name : string) (rows : Z) (e : event) : Prop :=
  match e with
  | Executed statement =>
      In statement [create_database name; create_table name; populate name rows; drop_database name]
  | _ => True
  end.

Record tidy (name : string) (rows : Z) (log : list event) : Prop := {
  tidy_held : forall held, replay log held = Some held;
  tidy_own : Forall (own_statement name rows) log
}.

Lemma replay_app a b held :
  replay (a ++ b)%list held = held' ← replay a held; replay b held'.
Proof.
  unfold replay. rewrite foldl_app. destruct (foldl _ (Some held) a); [done|]. cbn.
  induction b; done.
Qed.

Section Tidy.
Context (name : string) (rows : Z).
Abbreviation clean w := (tidy name rows (snd w)).

Lemma tidy_nil : tidy name rows [].
Proof. by split. Qed.

Lemma tidy_app a b : tidy name rows a -> tidy name rows b -> tidy name rows (a ++ b)%list.
Proof.
  intros [Ha Fa] [Hb Fb]. split.
  - intros held. rewrite replay_app, Ha. apply Hb.
  - by apply List.Forall_app.
Qed.

Lemma tidy_bind {A B} (w : W A) (k : A -> W B) :
  clean w -> (forall a, fst w = Ret a -> clean (k a)) -> clean (bind w k).
Proof.
  intros Hw Hk. unfold bind. destruct (fst w) as [a|e|] eqn:E; [|done..]. specialize (Hk a eq_refl).
  destruct (k a) as [r log]. by apply tidy_app.
Qed.

Lemma tidy_bracket r a b :
  tidy name rows a -> Forall (own_statement name rows) b ->
  (forall held, replay b (r :: held) = Some held) -> tidy name rows (Acquired r :: a ++ b)%list.
Proof.
  intros [Ha Fa] Fb Hb. split.
  - intros held. change (Acquired r :: a ++ b)%list with ([Acquired r] ++ (a ++ b))%list.
    rewrite replay_app. cbn. rewrite replay_app, Ha. apply Hb.
  - apply List.Forall_cons; [done|]. by apply List.Forall_app.
Qed.

Lemma tidy_holding {A} r (body : W A) : clean body -> clean (holding r body).
Proof.
  intros H. unfold holding, bind, emit, finally. cbn. apply tidy_bracket; [done| |].
  - by repeat constructor.
  - intros held. cbn. by rewrite decide_True.
Qed.

Lemma tidy_ret {A} (a : A) : clean (ret a).
Proof. apply tidy_nil. Qed.
Lemma tidy_throw {A} e : clean (throw (A := A) e).
Proof. apply tidy_nil. Qed.
Lemma tidy_lift {E A} f (o : outcome E A) : clean (lift f o).
Proof. apply tidy_nil. Qed.
Lemma tidy_answer {A} f (o : string + A) : clean (answer f o).
Proof. destruct o; apply tidy_nil. Qed.
Lemma tidy_attempt f o : clean (attempt f o).
Proof. destruct o; apply tidy_nil. Qed.

Lemma tidy_execute env statement :
  In statement [create_database name; create_table name; populate name rows; drop_database name] ->
  clean (execute env statement).
Proof.
  intros H. unfold execute. apply tidy_bind.
  - split; [done|]. apply List.Forall_cons; [exact H|apply List.Forall_nil].
  - intros _ _. destruct (exec env statement); apply tidy_nil.
Qed.

Lemma tidy_effects es : clean ((Ret tt, map PoolEffect es) : W unit).
Proof.
  cbn. induction es as [|e es IH]; [apply tidy_nil|].
  apply (tidy_app [PoolEffect e] (map PoolEffect es)); [|done]. split; [done|]. by repeat constructor.
Qed.

Lemma tidy_database {A} env (body : W A) :
  safeBenchmarkDatabase name = true -> clean body -> clean (with_database env name body).
Proof.
  intros Hs H. unfold with_database. apply tidy_bind; [apply tidy_execute; cbn; tauto|]. intros _ _.
  unfold bind, emit, finally. cbn. rewrite Hs. cbn [snd fst].
  apply (tidy_bracket (Schema name) (snd body) [Executed (drop_database name); Released (Schema name)]); [done| |].
  - do 2 (apply List.Forall_cons; [cbn; tauto|]). apply List.Forall_nil.
  - intros held. cbn. by rewrite decide_True.
Qed.

End Tidy.

Create HintDb tidy.
#[local] Hint Resolve tidy_ret tidy_throw tidy_lift tidy_answer tidy_attempt tidy_effects tidy_holding : tidy.

(** Opens the sequence and closes its simple parts. *)
Ltac tidy_steps :=
  repeat first
    [ solve [auto with tidy]
    | apply tidy_holding
    | apply tidy_bind; [|intros ? ?] ].

Section Rules.
Context {U : UnicodeCase}.
Context (range : list (string * string) -> list (string * string)).
Context {pool authority : Type}.
Context (read_file : string -> string + string).
Context (system_pool : option pool) (new_pool : pool).
Context (append_pem : pool -> string -> option pool).
Context (verify : option pool -> option string -> list authority -> authority -> option string).
Context (quoted : string -> string).
Context (new_driver : Connector.driver_config (pool := pool) (certificate := authority)
                      -> option Connector.go_error).
Context (upstream_server : Connector.server) (checkedAt latency : Z).
Context {certificate : Type}.
Context (load_key_pair : string -> string -> string + list certificate).
Context (parse_certificate : certificate -> string + (Z * Z)).
Context (env : environment) (disk : gmap string string).

Abbreviation run := (Run range read_file system_pool new_pool append_pem verify quoted new_driver
  upstream_server checkedAt latency load_key_pair parse_certificate env disk).
Abbreviation gateway := (with_gateway range read_file system_pool new_pool append_pem verify quoted new_driver
  upstream_server checkedAt latency load_key_pair parse_certificate env).

Lemma tidy_gateway {A} name rows o (body : string -> W A) :
  (forall address, tidy name rows (snd (body address))) -> tidy name rows (snd (gateway o body)).
Proof.
  intros H. unfold with_gateway. cbv zeta. apply tidy_bind; [apply tidy_lift|]. intros connector _.
  destruct (Service.New _ _ _ _ _ _) as [service effects].
  apply tidy_bind; [apply tidy_effects|]. intros _ _. apply tidy_bind; [apply tidy_lift|]. intros s _.
  destruct (Service.Start _ _) as [[err started] serving]. apply tidy_bind; [apply tidy_attempt|]. intros _ _.
  unfold bind, emit, finally. cbn.
  apply (tidy_bracket name rows GatewayServer (snd (body _)) [Released GatewayServer]); [done| |].
  - by repeat constructor.
  - intros held. cbn. by rewrite decide_True.
Qed.


(** ** Evidence *)

Lemma temporary_differs path : path <> path ++ ".tmp".
Proof.
  induction path as [|c path IH]; [done|]. intros H. apply IH. rewrite append_cons in H. by injection H.
Qed.

(** Saving replaces the evidence or leaves it alone; nothing else changes but the
    temporary file, which a success removes. *)
Lemma save_atomic path encoded fs before :
  let '(err, after) := Save path encoded fs before in
  (err = None -> exists data, encoded = inr data /\ after !! path = Some (data ++ String newline "") /\
     after !! (path ++ ".tmp") = None) /\
  (err <> None -> after !! path = before !! path) /\
  (forall other, other <> path -> other <> path ++ ".tmp" -> after !! other = before !! other).
Proof.
  pose proof (temporary_differs path) as Hd. unfold Save. destruct (String.eqb _ ""); [done|].
  destruct (make_directory fs); [done|]. destruct encoded as [err|data]; [done|]. cbv zeta.
  destruct (write_stops fs) as [[[n|] err]|]; [split_and!; try done| |].
  - intros _. by rewrite lookup_insert_ne.
  - intros other H1 H2. by rewrite lookup_insert_ne.
  - done.
  - destruct (rename_refused fs) as [err|]; [split_and!; try done|split_and!; try done].
    + intros _. destruct (remove_refused fs); [by rewrite lookup_insert_ne|by rewrite lookup_delete_ne].
    + intros other H1 H2. destruct (remove_refused fs); [by rewrite lookup_insert_ne|by rewrite lookup_delete_ne].
    + intros _. exists data. split; [done|]. rewrite lookup_insert_eq, lookup_insert_ne by done.
      by rewrite lookup_delete_eq.
    + intros other H1 H2. by rewrite lookup_insert_ne, lookup_delete_ne.
Qed.

(** What a part of the run returns, and the files it leaves, whatever they were. *)
Definition saves (post : Report -> gmap string string -> Prop) (w : W Report) : Prop :=
  forall report, fst w = Ret report ->
    exists after, (forall before, files_after (snd w) before = after) /\ post report after.

Lemma files_after_app a b before : files_after (a ++ b)%list before = files_after b (files_after a before).
Proof. apply foldl_app. Qed.

Lemma saves_bind {A} post (w : W A) (k : A -> W Report) :
  (forall a, fst w = Ret a -> saves post (k a)) -> saves post (bind w k).
Proof.
  intros Hk report. unfold bind. destruct (fst w) as [a|e|] eqn:E; [|done..]. specialize (Hk a eq_refl).
  destruct (k a) as [r log]. cbn [fst snd]. intros ->. destruct (Hk report eq_refl) as (after & Hf & Hp).
  exists after. split; [|done]. intros before. rewrite files_after_app. apply Hf.
Qed.

Lemma saves_finally post (body : W Report) cleanup :
  (forall before, files_after (snd cleanup) before = before) -> saves post body ->
  saves post (finally body cleanup).
Proof.
  intros Hc Hb report. unfold finally. cbn [fst snd]. destruct (fst body) as [a|e|] eqn:E; [|done..]. intros H.
  assert (a = report) as -> by (destruct (fst cleanup); [done|by injection H as ->]).
  destruct (Hb report E) as (after & Hf & Hp). exists after. split; [|done].
  intros before. by rewrite files_after_app, Hc.
Qed.

Lemma saves_holding post r (body : W Report) : saves post body -> saves post (holding r body).
Proof. intros H. apply saves_bind. intros _ _. by apply saves_finally. Qed.

Lemma saves_database post name (body : W Report) : saves post body -> saves post (with_database env name body).
Proof.
  intros H. apply saves_bind. intros _ _. apply saves_bind. intros _ _. apply saves_finally; [|done].
  by destruct (safeBenchmarkDatabase name).
Qed.

Lemma saves_gateway post o (body : string -> W Report) :
  (forall address, saves post (body address)) -> saves post (gateway o body).
Proof.
  intros H. unfold with_gateway. cbv zeta. apply saves_bind. intros connector _.
  destruct (Service.New _ _ _ _ _ _) as [service effects]. apply saves_bind. intros _ _.
  apply saves_bind. intros s _. destruct (Service.Start _ _) as [[err started] serving].
  apply saves_bind. intros _ _. apply saves_bind. intros _ _. by apply saves_finally.
Qed.

(** Nothing follows the saving. *)
Lemma saves_report (post : Report -> gmap string string -> Prop) after err report :
  (err = None -> post report after) ->
  saves post (bind (emit (Saved after)) (fun _ => match err with Some e => throw (SaveFailed e) | None => ret report end)).
Proof. intros H r. destruct err as [e|]; [done|]. cbn. intros [= <-]. exists after. by split; [|apply H]. Qed.

(** What a successful benchmark reports is what it measured and what the status
    page shows.  The options were valid, no operation of either path failed, the
    gains are those of the reported figures; the file at the output path holds the
    report, nothing of it is left beside it and every other file is as before; and
    if decoding undoes encoding then reading the status from that file gives this
    report, as available. *)
Lemma saved_evidence (o : Options) (report : Report) (unmarshal : string -> option Report)
    (Hrun : fst (run o) = Ret report)
    (Hcodec : forall data, encode env report = inr data -> unmarshal (data ++ String newline "") = Some report) :
  validate o = None /\ Errors (report_Direct report) <= 0 /\ Errors (report_Accelerator report) <= 0 /\
  report_Gains report = calculateGains (report_Direct report) (report_Accelerator report) (Clients o) /\
  report_Workload report = workload_of o /\
  exists after, (forall before, files_after (snd (run o)) before = after) /\
    after !! (OutputPath o ++ ".tmp") = None /\
    (forall other, other <> OutputPath o -> other <> OutputPath o ++ ".tmp" -> after !! other = disk !! other) /\
    exists file, after !! OutputPath o = Some file /\
      LoadStatus (inr file) unmarshal = mkStatus true (Some report) "".
Proof.
  enough (saves (fun report after => validate o = None /\ Errors (report_Direct report) <= 0 /\
    Errors (report_Accelerator report) <= 0 /\
    report_Gains report = calculateGains (report_Direct report) (report_Accelerator report) (Clients o) /\
    report_Workload report = workload_of o /\
    report_SchemaVersion report = SchemaVersion /\ report_Evidence report = evidence_note /\
    Save (OutputPath o) (encode env report) (saved env) disk = (None, after)) (run o)) as H.
  { destruct (H report Hrun) as (after & Hf & Hv & Hd & Ha & Hg & Hw & Hsv & Hev & Hsave).
    pose proof (save_atomic (OutputPath o) (encode env report) (saved env) disk) as Hs. rewrite Hsave in Hs.
    destruct Hs as (Hs & _ & Ho). destruct (Hs eq_refl) as (data & Henc & Hfile & Htmp).
    split_and!; try done. exists after. split_and!; try done. exists (data ++ String newline ""). split; [done|].
    unfold LoadStatus. by rewrite (Hcodec data Henc), Hsv, Hev. }
  unfold Run. apply saves_bind. intros [] Hv. apply saves_bind. intros [runID name] _.
  apply saves_bind. intros connector _. apply saves_bind. intros _ _. apply saves_holding.
  apply saves_bind. intros _ _. apply saves_database. apply saves_bind. intros _ _.
  apply saves_bind. intros [[[version comment] system] machine] _. apply saves_bind. intros st _.
  apply saves_bind. intros [ready peaked] _. apply saves_bind. intros _ _. apply saves_holding.
  apply saves_bind. intros _ _. apply saves_bind. intros directA _. apply saves_gateway.
  intros address. apply saves_holding. apply saves_bind. intros r _. apply saves_bind. intros _ _.
  apply saves_bind. intros fast _. cbv zeta. apply saves_bind. intros _ _. apply saves_bind. intros directB _.
  destruct ((0 <? _) || (0 <? _)) eqn:He; [by intros ?|]. apply orb_false_iff in He as [Hd Hf].
  set (sent := mkReport _ _ _ _ _ _ _ _ _ _ _). destruct (Save _ _ _ _) as [err after] eqn:Hs.
  apply saves_report. intros ->. cbn [report_Direct report_Accelerator report_Gains report_Workload sent].
  split_and!; try done; [|lia|lia]. unfold attempt in Hv. by destruct (validate o).
Qed.

(** ** The gateway under test *)

(** The gateway under test of a configuration that is not pooled has no
    password.  The secrets of such a configuration contain no client password, and
    the gateway is built with them: whoever reaches its port while the benchmark
    runs logs in with the configured user name and an empty response, for every
    seed. *)
Theorem benchmark_gateway_open (o : Options) (environ : string -> option string)
    (connector : option Service.upstream_operations) (service : Service.Service) (effects : list Service.effect)
    (now : Z) (Hmode : pooledMode (config o) = false)
    (Hsecrets : ResolveEnvironmentSecrets environ read_file (config o) = Ret (secrets o))
    (Hnew : Service.New load_key_pair parse_certificate now (gatewayConfig o) (secrets o) connector
            = (Ret service, effects)) :
  Service.clientVerifier service = [] /\
  forall version (r : Handshake.Handshake.HandshakeResponse) (seed : list byte),
    Handshake.Handshake.Username r = MySQLClientUser (Server (config o)) ->
    Handshake.Handshake.ResponseAuthPlugin r = NativeAuth.NativePasswordPlugin ->
    Handshake.Handshake.ResponseDatabase r = "" -> Handshake.Handshake.AuthResponse r = [] ->
    Login.authenticate (Service.login_identity version service) r seed = None.
Proof.
  apply resolved_secrets in Hsecrets as (_ & [[_ Hc]|[Hp _]] & _); [|congruence].
  apply Service.New_inv in Hnew as (_ & Hcfg & Hperm & Hver & _). rewrite Hc in Hver.
  change (NativeAuth.NativePasswordVerifier (Reveal no_secret)) with (@nil byte) in Hver.
  split; [done|]. intros version r seed Hu Hp Hd Ha. unfold Login.authenticate.
  cbn [Service.login_identity Login.ClientUser Login.clientVerifier]. rewrite Hperm, Hver, Ha, Hp, Hd, Hu.
  cbn [Service.newPermissionIdentity Service.identity_ClientUser gatewayConfig Server MySQLClientUser].
  by rewrite !String.eqb_refl.
Qed.

End Rules.

(** ** Examples *)

Section Examples.
#[local] Existing Instance ascii_case.

Definition sample_options : Options :=
  mkOptions (AppRules.sample_config "transparent") (mkSecrets no_secret no_secret no_secret) 8 4 100 100
    "/data/benchmark-latest.json".

Definition sample_measurement (scale : Z) : measurement :=
  mkMeasurement (map (fun n => Z.of_nat n * scale) (seq 1 100)) 0 (1000 * scale) 1 1.

Definition sample_environment : environment := {|
  started_at := 1767225600000000000;
  completed_at := 1767225660000000000;
  random := inr (map zbyte [222; 173; 190; 239]);
  ping := None;
  exec := fun _ => None;
  identity := inr ("11.4.2", "MariaDB Server", "Linux", "x86_64");
  settings := inr (mkServerSettings 151 134217728 "utf8mb4" "utf8mb4_general_ci" "STRICT_TRANS_TABLES" "MIXED");
  settings_json := fun _ => "{}";
  host := ("linux", "amd64", 8);
  build := BuildInfo.development "go1.24";
  direct_pings := [None; None];
  direct_ready := 80000000;
  direct_open := [1; 1; 1; 1; 1; 1; 1; 1];
  warm_answers := fun _ => [[None; None]; []];
  direct_first := sample_measurement 10000;
  accelerated := sample_measurement 20000;
  direct_second := sample_measurement 30000;
  construction := 500;
  listen := inr "127.0.0.1:40000";
  gateway_served := Some None;
  database_close := None;
  client_refused := fun _ => None;
  client_pings := [None];
  client_ready := 20000000;
  link_samples := [1; 3; 2];
  final_links := 4;
  encode := fun _ => inr "{}";
  saved := mkSaveAnswers None None None false |}.

Definition sample_run : W Report :=
  Run backwards Connector.sample_read None [] Connector.sample_append Connector.sample_verify id
    (fun _ => None) (Connector.sample_server "8.0.36") 0 1 Service.sample_key_pair inr sample_environment ∅
    sample_options.

Example database_name :
  runIdentity (started_at sample_environment) (random sample_environment)
  = inr ("20260101T000000Z-deadbeef", "dba_benchmark_deadbeef").
Proof. vm_compute. reflexivity. Qed.
Example unsafe_names :
  map safeBenchmarkDatabase ["dba_benchmark_deadbeef"; "dba_benchmark_deadbee"; "dba_benchmark_deadbeeg"; "mysql"]
  = [true; false; false; false].
Proof. vm_compute. reflexivity. Qed.
Example gains :
  (fun r => (ConnectionsSaved (report_Gains r), ConnectionReductionPercent (report_Gains r),
                   FanInRatio (report_Gains r), ClientReadySpeedup (report_Gains r),
                   P95LatencyChangePercent (report_Gains r), P50MS (report_Direct r))) <$> fst sample_run
  = Ret (4, GoDuration.GoDuration.float_of 50, GoDuration.GoDuration.float_of 2,
         GoDuration.GoDuration.float_of 4, GoDuration.GoDuration.float_of 0, GoDuration.GoDuration.float_of 1).
Proof. vm_compute. reflexivity. Qed.

Lemma sample_run_ret : exists report, fst sample_run = Ret report.
Proof.
  assert (is_ret (fst sample_run) = true) as H by (vm_compute; reflexivity). revert H.
  generalize (fst sample_run) as r. intros [report|e|] H; [by exists report|done|done].
Qed.


Lemma saved_evidence_witness :
  exists report file, LoadStatus (inr file) (fun _ => Some report) = mkStatus true (Some report) "".
Proof.
  destruct sample_run_ret as (report & H). unfold sample_run in H.
  destruct (saved_evidence _ _ _ _ _ _ _ _ _ _ _ _ _ _ _ _ report (fun _ => Some report) H)
    as (_ & _ & _ & _ & _ & after & _ & _ & _ & file & _ & Hl).
  - intros data _. reflexivity.
  - exists report, file. exact Hl.
Defined.

Definition sample_gateway : outcome Service.new_error Service.Service * list Service.effect :=
  Service.New Service.sample_key_pair inr 500 (gatewayConfig sample_options) (secrets sample_options)
    (Some Service.sample_connector).

Definition sample_environ (name : string) : option string :=
  if String.eqb name "P" then Some "hunter22hunter22" else None.

Definition resolved_options : Options :=
  match ResolveEnvironmentSecrets sample_environ Connector.sample_read (config sample_options) with
  | Ret s => mkOptions (config sample_options) s 8 4 100 100 ""
  | _ => sample_options
  end.

Lemma benchmark_gateway_open_witness : exists service : Service.Service, Service.clientVerifier service = [].
Proof.
  destruct (Service.New Service.sample_key_pair inr 500 (gatewayConfig resolved_options)
              (secrets resolved_options) (Some Service.sample_connector)) as [[service|e|] effects] eqn:E.
  - exists service.
    refine (proj1 (benchmark_gateway_open Connector.sample_read Service.sample_key_pair inr resolved_options
      sample_environ (Some Service.sample_connector) service effects 500 _ _ E)); vm_compute; reflexivity.
  - exfalso. vm_compute in E. discriminate E.
  - exfalso. vm_compute in E. discriminate E.
Defined.
End Examples.

End BenchmarkRules.
