(* ===== verification/Runtime.v ===== *)
(** * The control API ([internal/control/runtime.go], [health.go], [internal/ui/ui.go])

    The runtime keeps the result of the last upstream probe and assembles the
    status report; the handlers decide which request sees what.  JSON encoding and
    the transport are left out: a response is its status, its cookie and what its
    body is made from. *)

From stdpp Require Import base list numbers strings option gmap.
From Stdlib Require Import ZArith Lia Ascii String SpecFloat.
From S2P Require Import Prelude BuildInfo GoStrings GoStrconv GoDuration GoNet Config Secrets Connector Relay.
From S2P Require Import Lifecycle ControlAuth Benchmark.

Module Runtime.
Import BuildInfo.BuildInfo.
Import GoNet.GoNet.
Import GoDuration.GoDuration.
Import Config.Config.
Local Open Scope list_scope.
Local Open Scope string_scope.
Local Open Scope Z_scope.

(** ** The probe state *)

Record Runtime := mkRuntime {
  config : Config;
  startedAt : Z;
  probeStatus : string;
  probeReport : option Connector.Report;   (* [None]: the zero report *)
  probeError : string;
  probeKind : option Connector.ErrorKind   (* [None]: the empty string *)
}.

Definition NewRuntime (cfg : Config) (startedAt : Z) : Runtime :=
  mkRuntime cfg startedAt "checking" None "" None.

(** One round of [probe]: [None] without a connector. *)
Definition probe (answer : option (outcome Connector.Error Connector.Report)) (r : Runtime) : Runtime :=
  match answer with
  | None =>
      mkRuntime (config r) (startedAt r) "disabled" (probeReport r)
        "upstream diagnostic connector is disabled" (Some Connector.KindConfiguration)
  | Some (Ret report) => mkRuntime (config r) (startedAt r) "ok" (Some report) "" None
  | Some (Fail e) =>
      mkRuntime (config r) (startedAt r) "error" (probeReport r) (Connector.Error_Error e)
        (Some (Connector.Kind e))
  | Some Panic => r
  end.

(** ** The status report *)

Record UpstreamStatus := mkUpstreamStatus {
  up_Status : string;
  up_Address : string;
  up_CheckedAt : option Z;
  up_LatencyMS : spec_float;
  up_ErrorKind : option Connector.ErrorKind;
  up_Error : string;
  up_Metadata : option Connector.SessionMetadata.Metadata
}.

Record PressureStatus := mkPressure {
  LogicalClients : Z;
  WaitingWork : Z;
  ActivePool : Z;
  PinnedWork : Z;
  DatabaseLinks : Z;
  SafeLimit : Z;
  Percent : spec_float;
  Dominant : string;
  SafeAction : string
}.

Record LimitsStatus := mkLimitsStatus {
  LogicalConnections : Z;
  UpstreamConnections : Z;
  QueuedRequests : Z;
  QueuedBytes : Z
}.

Record AccelerationStatus := mkAcceleration { acc_Enabled : bool; acc_Mode : string; acc_Reason : string }.

Record StatusResponse := mkStatus {
  Experimental : bool;
  ObservedAt : Z;
  UptimeSecs : Z;
  LifecycleSnapshot : Lifecycle.Snapshot;
  Build : Info;
  RelaySnapshot : Relay.Snapshot;
  Upstream_ : UpstreamStatus;
  Pressure : PressureStatus;
  Limits_ : LimitsStatus;
  Acceleration : AccelerationStatus;
  BenchmarkStatus : Benchmark.Status
}.

(** [math.Min(100, x)]: NaN stays NaN. *)
Definition float_min100 (x : spec_float) : spec_float :=
  if SFltb (float_of 100) x then float_of 100 else x.

(** [int64(d.Seconds())] *)
Definition whole_seconds (d : Z) : Z :=
  let x := seconds d in
  match x with
  | S754_finite true m e => - float_trunc (S754_finite false m e)
  | _ => float_trunc x
  end.

Definition percent_of (databaseLinks limit : Z) : spec_float :=
  if 0 <? limit
  then float_min100 (float_mul (float_div (float_of databaseLinks) (float_of limit)) (float_of 100))
  else float_of 0.

Definition pooled (mode : string) : bool := String.eqb mode "protocol-pooled".

Definition accelerationStatus (mode : string) : AccelerationStatus :=
  if pooled mode then mkAcceleration true "protocol-aware connection pooling"
    "Safe text queries share a bounded upstream pool; transactions remain pinned. Unsupported stateful commands are refused."
  else mkAcceleration false "transparent compatibility relay"
    "Protocol-aware pooling and cache remain locked behind correctness gates.".

(** The dominant constraint and the safe action. *)
Definition advice (status mode : string) (active links waiting : Z) (percent : spec_float) : string * string :=
  if String.eqb status "error" then
    ("The upstream database probe is failing.", "Check Laragon, port, credentials, and TLS policy.")
  else if SFleb (float_of 90) percent then
    ("The upstream connection pool is at its safety limit.",
     "Reduce query concurrency or raise the verified database connection budget.")
  else if 0 <? waiting then
    (GoStrconv.format_int waiting ++ " request(s) are waiting for an upstream connection.",
     "Inspect slow queries before changing the upstream connection limit.")
  else if pooled mode && (links <? active) then
    (GoStrconv.format_int active ++ " logical clients share " ++ GoStrconv.format_int links
       ++ " active database link(s).",
     "No action needed. Connection pooling is reducing idle database pressure.")
  else if 0 <? active then
    (GoStrconv.format_int active ++ " direct database link(s) are active.",
     "Traffic is passing 1:1; do not claim connection reduction yet.")
  else if pooled mode then
    ("The pooled gateway is below its upstream connection limit.",
     "No action needed. Pool capacity has headroom.")
  else
    ("Compatibility relay is below its connection limit.",
     "No action needed. Keep observing real client traffic.").

Definition disabled_relay (c : Config) : Relay.Snapshot :=
  Relay.mkSnapshot "disabled" (MySQLListen (Server c))
    (Host (Upstream c) ++ ":" ++ GoStrconv.format_int (Port (Upstream c)))
    0 0 0 0 0 0 0 0 0 0 0 0 0 ∅ ∅ (MaxUpstreamConnections (Limits c)) "" None.

Definition upstream_status (r : Runtime) (relay : Relay.Snapshot) : UpstreamStatus := {|
  up_Status := probeStatus r;
  up_Address := Relay.snap_UpstreamAddress relay;
  up_CheckedAt := Connector.report_CheckedAt <$> probeReport r;
  up_LatencyMS :=
    float_div (float_of (default 0 (Connector.report_Latency <$> probeReport r))) (float_of Millisecond);
  up_ErrorKind := probeKind r;
  up_Error := probeError r;
  up_Metadata := Connector.report_Metadata <$> probeReport r |}.

(** [Snapshot] at the time [now]; [relay] is the service's own snapshot, if there
    is a service; the evidence file is read and decoded by [read_evidence] and
    [unmarshal]. *)
Definition Snapshot (r : Runtime) (state : Lifecycle.Manager) (build : Info) (relay : option Relay.Snapshot)
    (read_evidence : string -> Benchmark.read_failure + string) (unmarshal : string -> option Benchmark.Report)
    (now : Z) : StatusResponse :=
  let relay := default (disabled_relay (config r)) relay in
  let upstream := upstream_status r relay in
  let active := Relay.Active relay in
  let links := Relay.DatabaseLinks relay in
  let waiting := Relay.WaitingWork relay in
  let limit := MaxUpstreamConnections (Limits (config r)) in
  let percent := percent_of links limit in
  let '(dominant, action) := advice (up_Status upstream) (Relay.Mode relay) active links waiting percent in
  {| Experimental := true;
     ObservedAt := now;
     UptimeSecs := whole_seconds (now - startedAt r);
     LifecycleSnapshot := Lifecycle.snapshot state;
     Build := build;
     RelaySnapshot := relay;
     Upstream_ := upstream;
     Pressure := mkPressure active waiting links (Relay.PinnedWork relay) links limit percent dominant action;
     Limits_ := mkLimitsStatus (MaxLogicalConnections (Limits (config r)))
                  (MaxUpstreamConnections (Limits (config r))) (MaxQueuedRequests (Limits (config r)))
                  (MaxQueuedBytes (Limits (config r)));
     Acceleration := accelerationStatus (Relay.Mode relay);
     BenchmarkStatus :=
       Benchmark.LoadStatus (read_evidence (Join (DataDir (Server (config r))) "benchmark-latest.json")) unmarshal |}.

(** ** Properties *)

(** What a history of probes, oldest first, leaves behind. *)
Definition history (answers : list (option (outcome Connector.Error Connector.Report))) (r : Runtime) : Runtime :=
  foldl (fun r a => probe a r) r answers.

(** The newest report of a history. *)
Definition newest (answers : list (option (outcome Connector.Error Connector.Report)))
  : option Connector.Report :=
  last (omap (fun a => match a with Some (Ret report) => Some report | _ => None end) answers).

Lemma history_snoc answers a r : history (answers ++ [a])%list r = probe a (history answers r).
Proof. unfold history. by rewrite foldl_app. Qed.

Lemma history_config answers r : config (history answers r) = config r.
Proof.
  induction answers as [|a answers IH] using rev_ind; [done|]. rewrite history_snoc, <- IH.
  by destruct a as [[report|e|]|].
Qed.

(** The status shows the last probe and nothing else.  After any history of
    probes that ends with an answer, "ok" is reported exactly if that answer was a
    report, which is then the one shown, without an error; "error" exactly if it
    was a failure, with its text and category; a failed probe keeps the metadata of
    the newest report, and none is shown before the first success. *)
Theorem status_of_last_probe (answers : list (option (outcome Connector.Error Connector.Report)))
    (answer : option (outcome Connector.Error Connector.Report)) (cfg : Config) (startedAt : Z)
    (relay : Relay.Snapshot) (Hanswer : answer <> Some Panic) :
  let status := upstream_status (history (answers ++ [answer])%list (NewRuntime cfg startedAt)) relay in
  (up_Status status = "ok" <-> exists report, answer = Some (Ret report) /\
     up_Metadata status = Some (Connector.report_Metadata report) /\
     up_Error status = "" /\ up_ErrorKind status = None) /\
  (up_Status status = "error" <-> exists e, answer = Some (Fail e) /\
     up_Error status = Connector.Error_Error e /\ up_ErrorKind status = Some (Connector.Kind e)) /\
  up_Metadata status = Connector.report_Metadata <$> newest (answers ++ [answer])%list.
Proof.
  assert (forall l, probeReport (history l (NewRuntime cfg startedAt)) = newest l) as Hnew.
  { induction l as [|a l IH] using rev_ind; [done|]. rewrite history_snoc. unfold newest in *.
    rewrite omap_app. destruct a as [[report|e|]|]; cbn; rewrite ?app_nil_r; try done.
    by rewrite last_snoc. }
  cbv zeta. unfold upstream_status. cbn [up_Status up_Metadata up_Error up_ErrorKind]. rewrite Hnew.
  rewrite history_snoc. unfold newest. rewrite omap_app.
  destruct answer as [[report|e|]|]; cbn; rewrite ?app_nil_r, ?last_snoc; try done; split_and!;
    try done; split; try done; naive_solver.
Qed.

(** The advice is safe.  The status says that no action is needed only if the
    last probe did not fail, the pool is below 90 percent of its limit and no
    request is waiting; and a client of the report is told that connections are
    saved only by the pooled gateway while it has more clients than links. *)
Theorem advice_safe (status mode : string) (active links waiting : Z) (percent : spec_float) :
  let '(dominant, action) := advice status mode active links waiting percent in
  (has_prefix "No action needed" action = true ->
   status <> "error" /\ SFleb (float_of 90) percent = false /\ waiting <= 0 /\
   (mode = "protocol-pooled" \/ active <= 0)) /\
  (action = "No action needed. Connection pooling is reducing idle database pressure." ->
   mode = "protocol-pooled" /\ links < active).
Proof.
  unfold advice, pooled. destruct (String.eqb_spec status "error"); [done|].
  destruct (SFleb (float_of 90) percent); [done|].
  destruct (Z.ltb_spec 0 waiting); [done|].
  destruct (String.eqb_spec mode "protocol-pooled") as [->|Hm]; cbn [andb].
  - destruct (Z.ltb_spec links active); [split; [by auto|done]|].
    destruct (Z.ltb_spec 0 active); [done|]. split; [by auto|done].
  - destruct (Z.ltb_spec 0 active); [done|]. split; [by auto|done].
Qed.

Example nearly_full :
  map (fun links => SFleb (float_of 90) (percent_of links 200)) [0; 179; 180; 200; 201]
  = [false; false; true; true; true].
Proof. vm_compute. reflexivity. Qed.
Example over_full : percent_of 300 200 = float_of 100.
Proof. vm_compute. reflexivity. Qed.
Example uptime : whole_seconds (90 * Second + 999999999) = 90.
Proof. vm_compute. reflexivity. Qed.

Lemma status_of_last_probe_witness :
  up_Status (upstream_status
    (history [None; Some (Fail (Connector.mkUpstreamError Connector.KindNetwork "connect" None))]
       (NewRuntime Default 0)) (disabled_relay Default)) = "error".
Proof.
  destruct (status_of_last_probe [None] (Some (Fail (Connector.mkUpstreamError Connector.KindNetwork "connect" None)))
    Default 0 (disabled_relay Default) ltac:(discriminate)) as (_ & [_ H] & _).
  apply H. eexists. split; [reflexivity|]. split; reflexivity.
Defined.

End Runtime.
