(* ===== verification/Command.v ===== *)
(** * The command line ([internal/command/command.go], [cmd/accelerator/main.go])

    The commands with their flags, what they print and their exit codes. *)

From stdpp Require Import base list numbers strings option gmap.
From Stdlib Require Import ZArith Lia Ascii String.
From S2P Require Import Prelude GoStrings GoStrconv GoDuration GoNet GoFlag Config ConfigRules Secrets.
From S2P Require Import BuildInfo Connector Lifecycle Service App AppRules Benchmark.

Module Command.
Import GoDuration.GoDuration.
Import GoFlag.GoFlag.
Import Config.Config.
Import Secrets.Secrets.
Local Open Scope list_scope.
Local Open Scope string_scope.
Local Open Scope Z_scope.

(** ** Starter configuration ([config.WriteDefault]) *)

Definition line (s : string) : string := s ++ String newline "".
Definition empty_text : string := String (char 34) (String (char 34) "").

Definition exampleYAML : string :=
  String.concat "" (map line [
    "version: 1"; ""; "server:"; "  mysql_listen: 127.0.0.1:3307"; "  mysql_mode: transparent";
    "  admin_listen: 127.0.0.1:9090"; "  admin_token_env: DBA_ADMIN_TOKEN"; "  shutdown_timeout: 15s";
    "  data_dir: ./data"; ""; "upstream:"; "  enabled: false"; "  host: 127.0.0.1"; "  port: 3306";
    "  user: accelerator"; "  password_env: DBA_UPSTREAM_PASSWORD"; "  allow_empty_password: false";
    "  database: app"; "  tls_mode: preferred"; "  tls_ca_file: " ++ empty_text;
    "  tls_server_name: " ++ empty_text; "  connect_timeout: 5s"; "  read_timeout: 30s";
    "  write_timeout: 30s"; "  health_timeout: 5s"; ""; "limits:"; "  max_logical_connections: 10000";
    "  max_upstream_connections: 200"; "  max_queued_requests: 5000"; "  max_queued_bytes: 67108864"; "";
    "logging:"; "  level: info"]).

Inductive write_error := AlreadyExists | OpenFailed (err : string) | CopyFailed (err : string).

(** What the file system answers beyond the files it has: a refusal to open, and an
    error after so many bytes. *)
Record write_faults := mkWriteFaults { open_refused : option string; copy_stops : option (nat * string) }.

(** [os.OpenFile] with [O_TRUNC] or [O_EXCL], then the copy. *)
Definition WriteDefault (path : string) (force : bool) (faults : write_faults) (disk : gmap string string)
  : option write_error * gmap string string :=
  match open_refused faults with
  | Some err => (Some (OpenFailed err), disk)
  | None =>
      if negb force && bool_decide (is_Some (disk !! path)) then (Some AlreadyExists, disk) else
      match copy_stops faults with
      | Some (n, err) => (Some (CopyFailed err), <[path := str_take n exampleYAML]> disk)
      | None => (None, <[path := exampleYAML]> disk)
      end
  end.

(** ** Results *)

Inductive line_out :=
| Usage
| VersionLine (text : string)
| WroteFile (path : string)
| ConfigurationValid (version : Z)
| ReportJSON (report : Connector.Report)
| ReadyLine
| StartingLine
| UnknownCommand (name : string)
| ConfigRequires
| UnknownConfigCommand (name : string)
| FlagFailed (e : flag_error)
| ConfigurationInvalid (e : load_error)
| SecretInvalid (e : secret_error)
| WriteFailed (e : write_error)
| DoctorFailed (e : Connector.Error)
| EncodeFailed (err : string)
| HealthFailed (err : string)
| HealthStatus (status : Z)
| StoppedWithError (e : App.run_error)
| BenchmarkFailed (e : Benchmark.bench_error)
| BenchmarkJSON (report : Benchmark.Report).

Record result := mkResult {
  code : Z;
  stdout : list line_out;
  stderr : list line_out;
  effects : list App.event;          (* what the application did *)
  benchmarked : list Benchmark.event;
  files : gmap string string
}.

(** [parseLogLevel]: the numbers of [slog.Level]. *)
Definition parseLogLevel {U : UnicodeCase} (value : string) : Z :=
  let value := to_lower value in
  if String.eqb value "debug" then -4
  else if String.eqb value "warn" then 4
  else if String.eqb value "error" then 8
  else 0.

(** *** Flag sets *)

Definition config_flags (name : string) : option kind :=
  if str_mem name ["config"; "managed-config"] then Some StringFlag else None.

Definition serve_flags (name : string) : option kind :=
  if str_mem name ["config"; "managed-config"; "mysql-listen"; "admin-listen"; "data-dir"; "log-level"]
  then Some StringFlag else None.

Definition init_flags (name : string) : option kind :=
  if String.eqb name "output" then Some StringFlag
  else if String.eqb name "force" then Some BoolFlag else None.

Definition health_flags (name : string) : option kind :=
  if String.eqb name "url" then Some StringFlag
  else if String.eqb name "timeout" then Some DurationFlag else None.

Definition benchmark_flags (name : string) : option kind :=
  if str_mem name ["config"; "managed-config"; "output"] then Some StringFlag
  else if str_mem name ["clients"; "concurrency"; "operations"; "rows"] then Some IntFlag
  else if String.eqb name "timeout" then Some DurationFlag else None.

(** The overrides [Visit] collects. *)
Definition flag_overrides (actual : gmap string string) : Overrides :=
  mkOverrides (visited actual "mysql-listen") (visited actual "admin-listen")
    (visited actual "data-dir") (visited actual "log-level").

Section Command.
Context {U : UnicodeCase}.
Context (range : list (string * string) -> list (string * string)).
(** The system: working directory, YAML decoder, environment, files. *)
Context (getwd : outcome string string).
Context {decoder : Type}.
Context (open_file : string -> decode_error + decoder).
Context (decode_config : decoder -> Config -> Config * option decode_error * decoder).
Context (decode_any : decoder -> option decode_error).
Context (environ : string -> option string).
Context (read_file : string -> string + string).
Context (faults : write_faults) (disk : gmap string string).
(** Writing a report as JSON: the error. *)
Context (encode : Connector.Report -> option string) (encode_benchmark : Benchmark.Report -> option string).
Context (build : BuildInfo.Info).
(** [http.NewRequest] and [client.Do] with a timeout: the status. *)
Context (new_request : string -> option string) (do_request : Z -> string -> string + Z).
(** The parameters of the connector and of the client TLS policy. *)
Context {pool authority : Type}.
Context (system_pool : option pool) (new_pool : pool).
Context (append_pem : pool -> string -> option pool).
Context (verify : option pool -> option string -> list authority -> authority -> option string).
Context (quoted : string -> string).
Context (new_driver : Connector.driver_config (pool := pool) (certificate := authority)
                      -> option Connector.go_error).
Context (upstream_server : Connector.server) (checkedAt latency : Z).
Context {certificate : Type}.
Context (load_key_pair : string -> string -> string + list certificate).
Context (parse_certificate : certificate -> string + (Z * Z)).
(** [errors.Is(err, context.Canceled)] on error texts and on errors of [Run]. *)
Context (is_canceled : string -> bool) (canceled : App.run_error -> bool).
Context (env : App.environment) (started : Z).
(** What a benchmark meets, given its deadline. *)
Context (bench_env : Z -> Benchmark.environment).

Definition finish (code : Z) (out err : list line_out) : result := mkResult code out err [] [] disk.

Definition load_options (actual : gmap string string) (o : Overrides) : LoadOptions := {|
  Path := get_string actual "config" "accelerator.yaml";
  ManagedPath := get_string actual "managed-config" "accelerator.managed.yaml";
  overrides := o;
  LookupEnv := environ |}.

Definition no_overrides : Overrides := mkOverrides None None None None.

Definition load_config (options : LoadOptions) : outcome load_error Config :=
  Load range getwd open_file decode_config decode_any options.

(** The common beginning of the commands: flags, configuration and secrets.  Both
    are handed to [k], or the command ends. *)
Definition configured (formal : string -> option kind) (override : gmap string string -> Overrides)
    (args : list string) (k : gmap string string -> Config -> Secrets -> result) : result :=
  match Parse formal args with
  | Ret actual =>
      match load_config (load_options actual (override actual)) with
      | Ret cfg =>
          match ResolveEnvironmentSecrets environ read_file cfg with
          | Ret secrets => k actual cfg secrets
          | Fail e => finish 1 [] [SecretInvalid e]
          | Panic => finish 2 [] []
          end
      | Fail e => finish 1 [] [ConfigurationInvalid e]
      | Panic => finish 2 [] []
      end
  | Fail e => finish 2 [] [FlagFailed e]
  | Panic => finish 2 [] []
  end.

Definition runHealthcheck (args : list string) : result :=
  match Parse health_flags args with
  | Ret actual =>
      let url := get_string actual "url" "http://127.0.0.1:9090/readyz" in
      let timeout := get_duration actual "timeout" (3 * Second) in
      match new_request url with
      | Some err => finish 2 [] [HealthFailed err]
      | None =>
          match do_request timeout url with
          | inl err => finish 1 [] [HealthFailed err]
          | inr status =>
              if (status <? 200) || (300 <=? status) then finish 1 [] [HealthStatus status]
              else finish 0 [ReadyLine] []
          end
      end
  | Fail e => finish 2 [] [FlagFailed e]
  | Panic => finish 2 [] []
  end.

Definition new_connector (cfg : Config) (secrets : Secrets) : outcome Connector.Error Connector.Connector :=
  Connector.New read_file system_pool new_pool append_pem verify quoted range cfg secrets.

Definition runDoctor (args : list string) : result :=
  configured config_flags (fun _ => no_overrides) args (fun _ cfg secrets =>
  match new_connector cfg secrets with
  | Fail e => finish 1 [] [DoctorFailed e]
  | Panic => finish 2 [] []
  | Ret connector =>
      match fst (Connector.Probe quoted new_driver upstream_server connector checkedAt latency) with
      | Fail e => finish 1 [] [DoctorFailed e]
      | Panic => finish 2 [] []
      | Ret report =>
          match encode report with
          | Some err => finish 1 [] [EncodeFailed err]
          | None => finish 0 [ReportJSON report] []
          end
      end
  end).

Definition runInit (args : list string) : result :=
  match Parse init_flags args with
  | Fail e => finish 2 [] [FlagFailed e]
  | Panic => finish 2 [] []
  | Ret actual =>
      let output := get_string actual "output" "accelerator.yaml" in
      let '(err, disk') := WriteDefault output (get_bool actual "force" false) faults disk in
      match err with
      | Some err => mkResult 1 [] [WriteFailed err] [] [] disk'
      | None => mkResult 0 [WroteFile output] [] [] [] disk'
      end
  end.

Definition runConfig (args : list string) : result :=
  match args with
  | [] => finish 2 [] [ConfigRequires]
  | name :: args =>
      if String.eqb name "init" then runInit args
      else if String.eqb name "validate" then
        configured config_flags (fun _ => no_overrides) args (fun _ cfg _ =>
          finish 0 [ConfigurationValid (Version cfg)] [])
      else finish 2 [] [UnknownConfigCommand name]
  end.

Definition runServe (args : list string) : result :=
  configured serve_flags flag_overrides args (fun _ cfg secrets =>
    let '(r, (_, log)) :=
      App.Run range read_file system_pool new_pool append_pem verify quoted new_driver upstream_server
        checkedAt latency load_key_pair parse_certificate is_canceled env (App.New cfg secrets started) in
    match r with
    | Fail e =>
        if canceled e then mkResult 0 [StartingLine] [] log [] disk
        else mkResult 1 [StartingLine] [StoppedWithError e] log [] disk
    | Panic => mkResult 2 [StartingLine] [] log [] disk
    | Ret _ => mkResult 0 [StartingLine] [] log [] disk
    end).

(** The options the flags stand for. *)
Definition benchmark_options (actual : gmap string string) (cfg : Config) (secrets : Secrets) : Benchmark.Options :=
  let output := get_string actual "output" "" in {|
  Benchmark.config := cfg;
  Benchmark.secrets := secrets;
  Benchmark.Clients := get_int actual "clients" 64;
  Benchmark.Concurrency := get_int actual "concurrency" 8;
  Benchmark.Operations := get_int actual "operations" 2000;
  Benchmark.Rows := get_int actual "rows" 5000;
  Benchmark.OutputPath :=
    if String.eqb output "" then GoNet.Join (DataDir (Server cfg)) "benchmark-latest.json" else output |}.

Definition runBenchmark (args : list string) : result :=
  configured benchmark_flags (fun _ => no_overrides) args (fun actual cfg secrets =>
    let '(r, log) :=
      Benchmark.Run range read_file system_pool new_pool append_pem verify quoted new_driver upstream_server
        checkedAt latency load_key_pair parse_certificate
        (bench_env (get_duration actual "timeout" (2 * Minute))) disk (benchmark_options actual cfg secrets) in
    let ended code out err := mkResult code out err [] log (Benchmark.files_after log disk) in
    match r with
    | Ret report =>
        match encode_benchmark report with
        | Some err => ended 1 [] [EncodeFailed err]
        | None => ended 0 [BenchmarkJSON report] []
        end
    | Fail e => ended 1 [] [BenchmarkFailed e]
    | Panic => ended 2 [] []
    end).

Definition Run (args : list string) : result :=
  match args with
  | [] => finish 0 [Usage] []
  | name :: args =>
      if str_mem name ["version"; "--version"; "-version"] then finish 0 [VersionLine (BuildInfo.Info_String build)] []
      else if str_mem name ["help"; "--help"; "-h"] then finish 0 [Usage] []
      else if String.eqb name "config" then runConfig args
      else if String.eqb name "doctor" then runDoctor args
      else if String.eqb name "benchmark" then runBenchmark args
      else if String.eqb name "healthcheck" then runHealthcheck args
      else if String.eqb name "serve" then runServe args
      else finish 2 [] [UnknownCommand name; Usage]
  end.

End Command.
End Command.
