(* ===== verification/CommandRules.v ===== *)
(** * What the commands guarantee

    The chain from the command line to a client's login: [accelerator serve]
    composes the flags, the layers of the configuration, the secrets, the
    connector, the gateway and the login; the theorems here hold for the
    composition. *)

From stdpp Require Import base list numbers strings option gmap.
From coqutil Require Import Byte.
From Stdlib Require Import ZArith Lia Ascii String.
From S2P Require Import Prelude GoStrings GoStrconv GoDuration GoNet GoFlag Config ConfigRules Secrets.
From S2P Require Import Concurrency Connector Lifecycle NativeAuth AuthLimit Handshake Login Service App AppRules Benchmark BenchmarkRules.
From S2P Require Import Runtime Command.

Module CommandRules.
Import GoDuration.GoDuration.
Import GoFlag.GoFlag.
Import Config.Config.
Import ConfigRules.ConfigRules.
Import Secrets.Secrets.
Import Command.Command.
Local Open Scope list_scope.
Local Open Scope string_scope.
Local Open Scope Z_scope.

Section Rules.
Context {U : UnicodeCase}.
Context (range : list (string * string) -> list (string * string)).
Context (Hrange : forall l, range l ≡ₚ l).
Context (getwd : outcome string string).
Context {decoder : Type}.
Context (open_file : string -> decode_error + decoder).
Context (decode_config : decoder -> Config -> Config * option decode_error * decoder).
Context (decode_any : decoder -> option decode_error).
Context (environ : string -> option string).
Context (read_file : string -> string + string).
Context (faults : write_faults) (disk : gmap string string).
Context {pool authority : Type}.
Context (system_pool : option pool) (new_pool : pool).
Context (append_pem : pool -> string -> option pool).
Context (verify : option pool -> option string -> list authority -> authority -> option string).
Context (quoted : string -> string).
Context (new_driver : Connector.driver_config (pool := pool) (certificate := authority)
                      -> option Connector.go_error).
Context (upstream_server : Connector.server) (checkedAt latency : Z).
Context {certificate : Type}.
Context (load_key_pair : string -> string -> string + list certificate).
Context (parse_certificate : certificate -> string + (Z * Z)).
Context (is_canceled : string -> bool) (canceled : App.run_error -> bool).
Context (env : App.environment) (started : Z).

Abbreviation load := (load_config range getwd open_file decode_config decode_any).
Abbreviation resolved := (ResolveEnvironmentSecrets environ read_file).
Abbreviation serve := (runServe range getwd open_file decode_config decode_any environ read_file disk
  system_pool new_pool append_pem verify quoted new_driver upstream_server checkedAt latency
  load_key_pair parse_certificate is_canceled canceled env started).
Abbreviation run_app := (App.Run range read_file system_pool new_pool append_pem verify quoted new_driver
  upstream_server checkedAt latency load_key_pair parse_certificate is_canceled env).

(** The settings and secrets a command line stands for. *)
Definition configuration (args : list string) (cfg : Config) (secrets : Secrets) : Prop :=
  exists actual, Parse serve_flags args = Ret actual /\
    load (load_options environ actual (flag_overrides actual)) = Ret cfg /\ resolved cfg = Ret secrets.

(** Nothing runs before flags, configuration and secrets are complete. *)
Lemma serve_cases args :
  (exists cfg secrets, configuration args cfg secrets) \/ (effects (serve args) = [] /\ code (serve args) <> 0).
Proof.
  unfold runServe, configured, configuration. destruct (Parse serve_flags args) as [actual|e|]; [|by right..].
  destruct (load_config _ _ _ _ _ _) as [cfg|e|] eqn:El; [|by right..].
  destruct (resolved cfg) as [secrets|e|] eqn:Er; [|by right..].
  left. by exists cfg, secrets, actual.
Qed.

Lemma configuration_valid args cfg secrets : configuration args cfg secrets -> valid cfg.
Proof.
  intros (actual & _ & Hl & _). by apply (load_inv range Hrange) in Hl as (? & ? & ? & ? & _ & _ & _ & _ & Hv).
Qed.

Lemma serve_configured args cfg secrets :
  configuration args cfg secrets ->
  let '(r, (_, log)) := run_app (App.New cfg secrets started) in
  effects (serve args) = log /\
  (code (serve args) = 0 <-> r = Ret tt \/ exists e, r = Fail e /\ canceled e = true).
Proof.
  intros (actual & Hp & Hl & Hr). unfold runServe, configured. rewrite Hp, Hl, Hr.
  destruct (App.Run _ _ _ _ _ _ _ _ _ _ _ _ _ _ _ _) as [r [a log]].
  destruct r as [[]|e|]; cbn [effects code].
  - split; [done|]. split; [by left|done].
  - destruct (canceled e) eqn:Ec; cbn [effects code]; (split; [done|]); split; try done.
    + intros _. right. by exists e.
    + intros [?|(e' & [= <-] & ?)]; congruence.
  - split; [done|]. split; [done|]. by intros [?|(e' & ? & _)].
Qed.

Lemma verifier_not_empty password : 12 <= len password -> NativeAuth.NativePasswordVerifier password <> [].
Proof.
  unfold len, NativeAuth.NativePasswordVerifier. destruct (String.eqb_spec password "") as [->|]; [cbn; lia|].
  intros _ He. apply (f_equal (@List.length _)) in He. by rewrite Sha1.sum_length in He.
Qed.

(** C13.  From the command line to the login.  Whatever arguments, files and
    environment [accelerator serve] is given, if it starts a gateway then: flags,
    configuration and secrets were complete and the configuration is valid; the
    client password has at least 12 bytes and is the one the environment or its
    file gives under the configured name; if the listener is not on loopback and
    no exception was configured, the gateway has a certificate that is valid and
    requires TLS 1.2; and whoever logs in, however the network, the clock and the
    limiter behave, gave the configured user name and a proof of that password
    for the seed of this connection, after the TLS upgrade where there is TLS. *)
Theorem serve_end_to_end (args : list string) (service : Service.Service) (address : string)
    (Hstart : In (App.TrafficStarted (App.GatewayService service) address) (effects (serve args))) :
  exists cfg secrets, configuration args cfg secrets /\ valid cfg /\ Service.cfg service = cfg /\
    given environ read_file (trim_space (MySQLClientPasswordEnv (Server cfg)))
      (Reveal (ClientPassword secrets)) /\
    12 <= len (Reveal (ClientPassword secrets)) /\
    (MySQLAllowInsecureNet (Server cfg) = false -> isLoopbackAddress (MySQLListen (Server cfg)) = false ->
     exists store until, Service.clientTLS service = Some (Connector.VersionTLS12, store) /\
       Service.notAfter store = Some until /\ App.construction env < until) /\
    forall version visit connection limiter limiter' r log,
      Login.login visit (Service.login_identity version service) connection limiter
        = (Login.LoggedIn r, log, limiter') ->
      Handshake.Username r = MySQLClientUser (Server cfg) /\
      (Service.clientTLS service <> None -> Login.upgrade connection = None) /\
      exists h, Handshake.NewHandshake
          (Login.handshakeConfig (Service.login_identity version service) connection)
          (Login.random connection) = Ret h /\
        NativeAuth.proves (Handshake.AuthResponse r)
          (NativeAuth.NativePasswordVerifier (Reveal (ClientPassword secrets))) (Handshake.seed h).
Proof.
  destruct (serve_cases args) as [(cfg & secrets & Hc)|[H _]]; [|by rewrite H in Hstart].
  pose proof (configuration_valid _ _ _ Hc) as Hv. pose proof (serve_configured _ _ _ Hc) as H.
  pose proof (AppRules.run_ends range read_file system_pool new_pool append_pem verify quoted new_driver
    upstream_server checkedAt latency load_key_pair parse_certificate is_canceled env cfg secrets started) as Hr.
  destruct (App.Run _ _ _ _ _ _ _ _ _ _ _ _ _ _ _ _) as [r [a log]]. destruct H as [Hlog _].
  rewrite Hlog in Hstart. destruct Hr as [Hr _]. destruct (Hr _ _ Hstart) as (Hen & Hmode & connector & eff & Hnc & Hn).
  assert (pooledMode cfg = true) as Hp by (unfold pooledMode; by rewrite Hmode).
  pose proof Hc as (actual & _ & _ & Hres). apply resolved_secrets in Hres as (_ & [[Hf _]|(_ & Hg & Hl)] & _);
    [congruence|].
  pose proof Hn as Hi. apply Service.New_inv in Hi as (_ & Hcfg & Hperm & Hver & _).
  exists cfg, secrets. split_and!; try done.
  { intros Hopt Hexp. by eapply Service.exposed_service_tls. }
  intros version visit connection limiter limiter' resp events Hlogin.
  split_and!.
  - apply Login.logged_in in Hlogin as (h & sequence & _ & _ & Hu & _). rewrite Hu. cbn. by rewrite Hperm.
  - destruct (Service.clientTLS service) as [store|] eqn:Es; [|done]. intros _.
    by eapply Service.login_upgraded.
  - apply Login.logged_in in Hlogin as (h & sequence & Hh & _ & _ & _ & _ & Hm & _).
    exists h. split; [done|]. cbn in Hm. rewrite Hver in Hm.
    apply NativeAuth.matches_verifier in Hm as [[He _]|[_ Hm]]; [|done].
    by apply verifier_not_empty in He.
Qed.

(** C32.  The exit code of [serve] is honest, and nothing runs on half a
    configuration.  Whatever it starts or stops, flags, configuration and secrets
    were complete and the configuration valid; and it exits with 0 exactly if they
    are complete and the application they stand for ends with the process in
    "stopped", or with a cancellation. *)
Theorem serve_exit_code (args : list string) :
  (effects (serve args) <> [] -> exists cfg secrets, configuration args cfg secrets /\ valid cfg) /\
  (code (serve args) = 0 <->
   exists cfg secrets, configuration args cfg secrets /\
     let '(r, (a, _)) := run_app (App.New cfg secrets started) in
     Lifecycle.snap_state (Lifecycle.snapshot (App.state a)) = Lifecycle.Stopped \/
     exists e, r = Fail e /\ canceled e = true).
Proof.
  assert (forall cfg secrets, configuration args cfg secrets ->
    (code (serve args) = 0 <-> let '(r, (a, _)) := run_app (App.New cfg secrets started) in
       Lifecycle.snap_state (Lifecycle.snapshot (App.state a)) = Lifecycle.Stopped \/
       exists e, r = Fail e /\ canceled e = true)) as Hcode.
  { intros cfg secrets Hc. pose proof (serve_configured _ _ _ Hc) as H.
    pose proof (AppRules.run_ends range read_file system_pool new_pool append_pem verify quoted new_driver
      upstream_server checkedAt latency load_key_pair parse_certificate is_canceled env cfg secrets started) as Hr.
    destruct (App.Run _ _ _ _ _ _ _ _ _ _ _ _ _ _ _ _) as [r [a log]].
    destruct H as [_ ->], Hr as (_ & w & _ & Hends). rewrite (AppRules.ends_state _ _ _ _ Hends).
    destruct r as [[]|e|]; naive_solver. }
  destruct (serve_cases args) as [(cfg & secrets & Hc)|[He Hn]].
  - split; [intros _; exists cfg, secrets; split; [done|by eapply configuration_valid]|].
    split; [intros H; exists cfg, secrets; split; [done|by apply (Hcode _ _ Hc)]|].
    intros (cfg' & secrets' & Hc' & H). by apply (Hcode _ _ Hc').
  - split; [done|]. split; [done|]. intros (cfg & secrets & Hc & H). by apply (Hcode _ _ Hc).
Qed.

(** ** [benchmark] *)

Context (encode_benchmark : Benchmark.Report -> option string) (bench_env : Z -> Benchmark.environment).

Abbreviation bench := (runBenchmark range getwd open_file decode_config decode_any environ read_file disk
  encode_benchmark system_pool new_pool append_pem verify quoted new_driver upstream_server checkedAt latency
  load_key_pair parse_certificate bench_env).

(** Reading a file of the disk. *)
Definition read_files (files : gmap string string) (path : string) : Benchmark.read_failure + string :=
  match files !! path with Some file => inr file | None => inl Benchmark.Missing end.

(** C25.  From the benchmark command to the status page.  If [accelerator benchmark]
    prints a report then it exits with 0 and prints nothing else; flags,
    configuration and secrets were complete, the configuration is valid, the options
    within their bounds, and no operation failed; and without an output path, what a
    control API of this configuration shows as evidence from the files it left, at
    any time and in any state, is this report, as available - provided that decoding
    undoes encoding for it. *)
Theorem benchmark_shown (args : list string) (report : Benchmark.Report)
    (unmarshal : string -> option Benchmark.Report)
    (Hout : In (BenchmarkJSON report) (stdout (bench args)))
    (Hcodec : forall d data, Benchmark.encode (bench_env d) report = inr data ->
                unmarshal (data ++ String newline "") = Some report) :
  code (bench args) = 0 /\ stdout (bench args) = [BenchmarkJSON report] /\
  exists actual cfg secrets, Parse benchmark_flags args = Ret actual /\
    load (load_options environ actual no_overrides) = Ret cfg /\ resolved cfg = Ret secrets /\ valid cfg /\
    Benchmark.validate (benchmark_options actual cfg secrets) = None /\
    Benchmark.Errors (Benchmark.report_Direct report) <= 0 /\
    Benchmark.Errors (Benchmark.report_Accelerator report) <= 0 /\
    (get_string actual "output" "" = "" ->
     forall r state build relay now, Runtime.config r = cfg ->
       Runtime.BenchmarkStatus
         (Runtime.Snapshot r state build relay (read_files (files (bench args))) unmarshal now)
       = Benchmark.mkStatus true (Some report) "").
Proof.
  revert Hout. unfold runBenchmark, configured.
  destruct (Parse benchmark_flags args) as [actual|e|]; [|by intros []..].
  destruct (load_config _ _ _ _ _ _) as [cfg|e|] eqn:El; [|by intros []..].
  destruct (resolved cfg) as [secrets|e|] eqn:Er; [|by intros []..].
  set (o := benchmark_options actual cfg secrets). set (env_ := bench_env _).
  pose proof (fun r => BenchmarkRules.saved_evidence range read_file system_pool new_pool append_pem verify quoted
    new_driver upstream_server checkedAt latency load_key_pair parse_certificate env_ disk o r unmarshal) as Hs.
  destruct (Benchmark.Run _ _ _ _ _ _ _ _ _ _ _ _ _ _ _ _) as [[ran|e|] log]; [|by intros []..].
  destruct (encode_benchmark ran); cbn [stdout code files]; [by intros []|]. intros [[= ->]|[]].
  destruct (Hs report eq_refl (Hcodec _)) as (Hv & Hd & Ha & _ & _ & after & Hf & _ & _ & file & Hfile & Hl).
  split_and!; try done. exists actual, cfg, secrets. split_and!; try done.
  - by apply (load_inv range Hrange) in El as (? & ? & ? & ? & _ & _ & _ & _ & Hvalid).
  - intros Hpath r state build relay now Hr. unfold Runtime.Snapshot. cbv zeta.
    destruct (Runtime.advice _ _ _ _ _ _) as [dominant action]. cbn [Runtime.BenchmarkStatus].
    rewrite <- Hl. f_equal. unfold read_files. rewrite Hf, Hr.
    cbn [Benchmark.OutputPath benchmark_options o] in Hfile. rewrite Hpath in Hfile. cbn in Hfile. by rewrite Hfile.
Qed.

End Rules.

(** ** [config init] *)

(** [config init] writes at most the one file it names, and replaces nothing
    unless asked to: every other file is as before, an existing file is untouched
    without [-force], and success means that the file holds the whole example. *)
Theorem init_preserves (args : list string) (faults : write_faults) (disk : gmap string string) :
  let res := runInit faults disk args in
  (files res = disk \/ exists actual, Parse init_flags args = Ret actual /\
     let output := get_string actual "output" "accelerator.yaml" in
     (forall path, path <> output -> files res !! path = disk !! path) /\
     (get_bool actual "force" false = false -> disk !! output = None) /\
     (code res = 0 -> files res !! output = Some exampleYAML)) /\
  effects res = [] /\ (code res = 0 \/ code res = 1 \/ code res = 2).
Proof.
  cbv zeta. unfold runInit. destruct (Parse init_flags args) as [actual|e|]; [|cbn; split_and!; auto..].
  unfold WriteDefault. destruct (open_refused faults); [cbn; split_and!; auto|].
  set (output := get_string actual "output" "accelerator.yaml"). cbv zeta.
  destruct (negb (get_bool actual "force" false) && _) eqn:Eo; [cbn; split_and!; auto|].
  assert (get_bool actual "force" false = false -> disk !! output = None) as Ho.
  { intros Hf. rewrite Hf in Eo. cbn in Eo. apply bool_decide_eq_false in Eo. by apply eq_None_not_Some. }
  destruct (copy_stops faults) as [[n err]|]; cbn; (split; [right; exists actual|by auto]);
    split_and!; try done.
  - intros path Hp. by rewrite lookup_insert_ne.
  - intros path Hp. by rewrite lookup_insert_ne.
  - intros _. by rewrite lookup_insert_eq.
Qed.

(** ** Examples *)

Section Examples.
#[local] Existing Instance ascii_case.

Definition sample_open (path : string) : decode_error + edits :=
  if String.eqb path "gateway.yaml" then inr (fun _ => AppRules.sample_config "pooled") else inl NotExist.

Definition sample_environ (name : string) : option string :=
  if String.eqb name "DBA_CLIENT_PASSWORD" then Some "correct horse"
  else if String.eqb name "P" then Some "hunter22hunter22" else None.

Definition sample_serve (args : list string) : result :=
  runServe backwards (Ret "/srv") sample_open sample_decode (fun _ => Some EOF) sample_environ
    Connector.sample_read ∅ None [] Connector.sample_append Connector.sample_verify id (fun _ => None)
    (Connector.sample_server "8.0.36") 0 1 Service.sample_key_pair inr (fun _ => false) (fun _ => false)
    (AppRules.sample_environment App.ContextDone None) 0 args.

Example serves_gateway :
  (AppRules.gateways (effects (sample_serve ["-config"; "gateway.yaml"])),
   code (sample_serve ["-config=gateway.yaml"; "--log-level"; "debug"])) = ([true], 0).
Proof. vm_compute. reflexivity. Qed.
Example missing_configuration :
  (stderr (sample_serve []), code (sample_serve ["-port"])) =
  ([ConfigurationInvalid (ConfigFile "accelerator.yaml" NotExist)], 2).
Proof. vm_compute. reflexivity. Qed.
Example init_twice :
  code (runInit (mkWriteFaults None None) {["accelerator.yaml" := "mine"]} []) = 1.
Proof. vm_compute. reflexivity. Qed.

Definition gateway_of (e : App.event) : option Service.Service :=
  match e with App.TrafficStarted (App.GatewayService s) _ => Some s | _ => None end.

Lemma gateway_of_started e s :
  gateway_of e = Some s -> exists address, e = App.TrafficStarted (App.GatewayService s) address.
Proof. destruct e as [| |[]| | | | | | | |]; try done. intros [= ->]. by eexists. Qed.

Lemma hd_omap_in {A B} (f : A -> option B) l b : hd_error (omap f l) = Some b -> exists a, In a l /\ f a = Some b.
Proof.
  induction l as [|a l IH]; cbn; [done|]. destruct (f a) as [b'|] eqn:E.
  - intros [= <-]. exists a. auto.
  - intros (a' & ? & ?)%IH. exists a'. auto.
Qed.

Definition started_gateway : option Service.Service :=
  hd_error (omap gateway_of (effects (sample_serve ["-config"; "gateway.yaml"]))).

Lemma started_gateway_in s :
  started_gateway = Some s ->
  exists address, In (App.TrafficStarted (App.GatewayService s) address)
                    (effects (sample_serve ["-config"; "gateway.yaml"])).
Proof.
  intros H. apply hd_omap_in in H as (e & Hi & He). apply gateway_of_started in He as [address ->].
  by exists address.
Qed.

Lemma gateway_started : negb (bool_decide (started_gateway = None)) = true.
Proof. vm_compute. reflexivity. Qed.

Lemma a_gateway : exists s address,
  In (App.TrafficStarted (App.GatewayService s) address) (effects (sample_serve ["-config"; "gateway.yaml"])).
Proof.
  pose proof gateway_started as Hs. apply negb_true_iff, bool_decide_eq_false in Hs.
  pose proof started_gateway_in as Hi. revert Hs Hi. generalize started_gateway as o.
  intros [s|] Hs Hi; [exists s; by apply Hi|done].
Qed.

Lemma serve_end_to_end_witness : exists s : Service.Service, valid (Service.cfg s).
Proof.
  destruct a_gateway as (s & address & Hi). unfold sample_serve in Hi.
  destruct (serve_end_to_end _ backwards_range _ _ _ _ _ _ _ _ _ _ _ _ _ _ _ _ _ _ _ _ _ _ _ s address Hi)
    as (cfg & secrets & _ & Hv & Hcfg & _).
  exists s. rewrite Hcfg. exact Hv.
Defined.
Example serve_ends : code (sample_serve ["-config"; "gateway.yaml"]) = 0.
Proof. vm_compute. reflexivity. Qed.

Lemma serve_exit_code_witness : exists cfg : Config, valid cfg /\ MySQLMode (Server cfg) = "pooled".
Proof.
  destruct (serve_exit_code _ backwards_range (Ret "/srv") sample_open sample_decode
    (fun _ => Some EOF) sample_environ Connector.sample_read ∅ None [] Connector.sample_append
    Connector.sample_verify id (fun _ => None) (Connector.sample_server "8.0.36") 0 1 Service.sample_key_pair
    inr (fun _ => false) (fun _ => false) (AppRules.sample_environment App.ContextDone None) 0
    ["-config"; "gateway.yaml"]) as [H _].
  destruct H as (cfg & secrets & (actual & Hp & Hl & _) & Hv).
  - destruct a_gateway as (s & address & Hi). intros He. unfold sample_serve in Hi. rewrite He in Hi. exact Hi.
  - exists cfg. split; [exact Hv|]. vm_compute in Hp. injection Hp as <-. vm_compute in Hl. injection Hl as <-.
    reflexivity.
Defined.

Definition sample_bench (args : list string) : result :=
  runBenchmark backwards (Ret "/srv") sample_open sample_decode (fun _ => Some EOF) sample_environ
    Connector.sample_read {["/srv/other" := "kept"]} (fun _ => None) None [] Connector.sample_append
    Connector.sample_verify id (fun _ => None) (Connector.sample_server "8.0.36") 0 1 Service.sample_key_pair
    inr (fun _ => BenchmarkRules.sample_environment) args.

Definition bench_args : list string :=
  ["-config"; "gateway.yaml"; "-clients=8"; "-concurrency"; "4"; "--operations"; "0x64"; "-rows=1_00"].

Example bench_ends :
  (code (sample_bench bench_args), code (sample_bench ["-config=gateway.yaml"; "-clients=1"]),
   files (sample_bench bench_args) !! "/var/lib/accelerator/benchmark-latest.json", files (sample_bench bench_args) !! "/srv/other")
  = (0, 1, Some ("{}" ++ String newline ""), Some "kept").
Proof. vm_compute. reflexivity. Qed.

Definition printed (r : result) : option Benchmark.Report :=
  hd_error (omap (fun l => match l with BenchmarkJSON report => Some report | _ => None end) (stdout r)).

Lemma printed_in r report : printed r = Some report -> In (BenchmarkJSON report) (stdout r).
Proof. intros H. apply hd_omap_in in H as ([] & Hi & He); try done. by injection He as ->. Qed.

Lemma bench_prints : negb (bool_decide (printed (sample_bench bench_args) = None)) = true.
Proof. vm_compute. reflexivity. Qed.

Lemma a_report : exists report, In (BenchmarkJSON report) (stdout (sample_bench bench_args)).
Proof.
  pose proof bench_prints as Hs. apply negb_true_iff, bool_decide_eq_false in Hs.
  pose proof (printed_in (sample_bench bench_args)) as Hi. revert Hs Hi.
  generalize (printed (sample_bench bench_args)) as o. intros [r|] Hs Hi; [exists r; exact (Hi r eq_refl)|by destruct Hs].
Qed.

Lemma benchmark_shown_witness : exists report,
  In (BenchmarkJSON report) (stdout (sample_bench bench_args)) /\
  Benchmark.Errors (Benchmark.report_Accelerator report) <= 0.
Proof.
  destruct a_report as (report & Hi). exists report. split; [exact Hi|]. unfold sample_bench in Hi.
  destruct (benchmark_shown _ backwards_range _ _ _ _ _ _ _ _ _ _ _ _ _ _ _ _ _ _ _ _ _ report (fun _ => Some report) Hi)
    as (_ & _ & actual & cfg & secrets & _ & _ & _ & _ & _ & _ & He & _).
  - intros d data _. reflexivity.
  - exact He.
Defined.
End Examples.

End CommandRules.
