(* ===== verification/ControlApi.v ===== *)
(** * Routes of the control API ([internal/control/health.go], [auth.go], [internal/ui/ui.go])

    Which request gets which answer: the router of [net/http], the public health
    and version endpoints, sessions, the operational endpoints behind
    authentication, and the embedded pages.  Percent-encoded paths are taken
    decoded. *)

From stdpp Require Import base list numbers strings option gmap.
From Stdlib Require Import ZArith Lia Ascii String.
From S2P Require Import Prelude BuildInfo GoStrings GoStrconv GoNet Config Connector Relay Lifecycle.
From S2P Require Import ControlAuth Benchmark Runtime.

Module ControlApi.
Import BuildInfo.BuildInfo.
Import GoNet.GoNet.
Import Runtime.Runtime.
Local Open Scope list_scope.
Local Open Scope string_scope.
Local Open Scope Z_scope.

(** ** Requests and responses *)

Record request := mkRequest {
  Method : string;
  Path : string;
  Cookie : option string;      (* [dba_admin_session] *)
  Body : option string;        (* the token of a login request; [None]: malformed *)
  RemoteAddr : string;
  TLS : bool
}.

Inductive body :=
| LifecycleJSON (s : Lifecycle.Snapshot)
| InfoJSON (i : Info)
| SessionJSON (required authenticated : bool)
| LoginJSON (status : Z)
| LogoutJSON
| StatusJSON (s : StatusResponse)
| UpstreamJSON (s : UpstreamStatus)
| RelayJSON (s : Relay.Snapshot)
| ConfigJSON (limits : LimitsStatus) (listen upstream mode : string)
| AuthenticationRequired
| Asset (name contentType : string)
| Dashboard
| Unavailable
| NotFound
| MethodNotAllowed
| RedirectTo (path : string).

(** [SetCookie] of the session: a value that lasts, or its deletion. *)
Inductive cookie := Session (value : string) (secure : bool) | Deleted (secure : bool).

Record response := mkResponse { status : Z; cookie_set : option cookie; content : body }.

Definition reply (status : Z) (content : body) : response := mkResponse status None content.

(** ** The router ([http.ServeMux]) *)

(** A pattern with the method GET also serves HEAD. *)
Definition is_get (r : request) : bool := str_mem (Method r) ["GET"; "HEAD"].

(** The path the router would rather have: rooted, cleaned, with its final slash. *)
Definition mux_path (p : string) : string :=
  if String.eqb p "" then "/" else
  let p := if has_prefix "/" p then p else "/" ++ p in
  let np := Clean p in
  if has_suffix "/" p && negb (String.eqb np "/") then np ++ "/" else np.

(** A router: redirects to the clean path, except for CONNECT. *)
Definition mux (serve : request -> response) (r : request) : response :=
  if negb (String.eqb (Method r) "CONNECT") && negb (String.eqb (mux_path (Path r)) (Path r))
  then reply 301 (RedirectTo (mux_path (Path r))) else serve r.

(** ** Pages *)

Section UI.
(** The embedded files. *)
Context (embedded : string -> bool).

Definition content_type (name : string) : option string :=
  if String.eqb name "app.css" then Some "text/css; charset=utf-8"
  else if String.eqb name "app.js" then Some "application/javascript; charset=utf-8"
  else if str_mem name ["brand/logo-mark.svg"; "brand/logo-lockup.svg"]
  then Some "image/svg+xml; charset=utf-8"
  else if str_mem name ["fonts/BricolageGrotesque-Variable.ttf"; "fonts/Lora-Variable.ttf";
                        "fonts/IBMPlexMono-Regular.ttf"; "fonts/IBMPlexMono-SemiBold.ttf"]
  then Some "font/ttf"
  else None.

Definition asset (r : request) : response :=
  let name := trim_prefix "/assets/" (Path r) in
  match content_type name with
  | None => reply 404 NotFound
  | Some contentType => if embedded name then reply 200 (Asset name contentType) else reply 404 NotFound
  end.

Definition index_page (r : request) : response :=
  if negb (String.eqb (Path r) "/") then reply 404 NotFound
  else if embedded "index.html" then reply 200 Dashboard
  else reply 500 Unavailable.

(** [ui.Handler]: both patterns are for GET; "/assets" is redirected. *)
Definition pages : request -> response := mux (fun r =>
  if negb (is_get r) then reply 405 MethodNotAllowed
  else if has_prefix "/assets/" (Path r) then asset r
  else if String.eqb (Path r) "/assets" then reply 301 (RedirectTo "/assets/")
  else index_page r).

(** ** Health *)

Section Health.
Context (state : Lifecycle.Manager) (info : Info).

(** [HealthHandler] *)
Definition health : request -> response := mux (fun r =>
  if str_mem (Path r) ["/livez"; "/readyz"; "/api/v1/version"] then
    if negb (is_get r) then reply 405 MethodNotAllowed
    else if String.eqb (Path r) "/livez" then
      reply (if Lifecycle.IsLive state then 200 else 503) (LifecycleJSON (Lifecycle.snapshot state))
    else if String.eqb (Path r) "/readyz" then
      reply (if Lifecycle.IsReady state then 200 else 503) (LifecycleJSON (Lifecycle.snapshot state))
    else reply 200 (InfoJSON info)
  else reply 404 NotFound).
End Health.

(** ** Sessions *)

Definition require (a : ControlAuth.adminAuth) (now : Z) (next : request -> response) (r : request) : response :=
  if ControlAuth.authenticated a (Cookie r) now then next r else reply 401 AuthenticationRequired.

Definition sessionStatus (a : ControlAuth.adminAuth) (now : Z) (r : request) : response :=
  reply 200 (SessionJSON (ControlAuth.required a) (ControlAuth.authenticated a (Cookie r) now)).

Definition login (a : ControlAuth.adminAuth) (checked failed granted : Z) (r : request)
  : response * ControlAuth.adminAuth :=
  let '(answer, a) := ControlAuth.adminLogin a (RemoteAddr r) (Body r) (TLS r) checked failed granted in
  (mkResponse (ControlAuth.resp_status answer)
     ((fun '(value, secure) => Session value secure) <$> ControlAuth.resp_cookie answer)
     (LoginJSON (ControlAuth.resp_status answer)), a).

Definition logout (r : request) : response := mkResponse 200 (Some (Deleted (TLS r))) LogoutJSON.

(** ** The application's handler *)

Section App.
Context (state : Lifecycle.Manager) (info : Info) (runtime : Runtime) (relay : option Relay.Snapshot).
Context (read_evidence : string -> Benchmark.read_failure + string) (unmarshal : string -> option Benchmark.Report).
(** The times the handler reads. *)
Context (now checked failed granted : Z).

Definition observed : StatusResponse := Snapshot runtime state info relay read_evidence unmarshal now.

Definition config_page (r : request) : response :=
  let s := observed in
  reply 200 (ConfigJSON (Limits_ s) (Relay.snap_ListenAddress (RelaySnapshot s))
               (Relay.snap_UpstreamAddress (RelaySnapshot s)) (Relay.Mode (RelaySnapshot s))).

(** The operational endpoints. *)
Definition operational (r : request) : option (request -> response) :=
  if negb (is_get r) then None
  else if String.eqb (Path r) "/api/v1/status" then Some (fun _ => reply 200 (StatusJSON observed))
  else if String.eqb (Path r) "/api/v1/upstream" then Some (fun _ => reply 200 (UpstreamJSON (Upstream_ observed)))
  else if String.eqb (Path r) "/api/v1/relay" then Some (fun _ => reply 200 (RelayJSON (RelaySnapshot observed)))
  else if String.eqb (Path r) "/api/v1/config" then Some config_page
  else None.

(** [AppHandler]; the session table may change. *)
Definition AppHandler (a : ControlAuth.adminAuth) (r : request) : response * ControlAuth.adminAuth :=
  if negb (String.eqb (Method r) "CONNECT") && negb (String.eqb (mux_path (Path r)) (Path r))
  then (reply 301 (RedirectTo (mux_path (Path r))), a)
  else if str_mem (Path r) ["/livez"; "/readyz"; "/api/v1/version"] then (health state info r, a)
  else if String.eqb (Path r) "/api/v1/session" && is_get r then (sessionStatus a now r, a)
  else if String.eqb (Path r) "/api/v1/session" && String.eqb (Method r) "POST"
  then login a checked failed granted r
  else if String.eqb (Path r) "/api/v1/session" && String.eqb (Method r) "DELETE" then (logout r, a)
  else match operational r with
       | Some serve => (require a now serve r, a)
       | None => (pages r, a)
       end.

(** ** Properties *)

(** What only an administrator may see. *)
Definition operational_body (b : body) : bool :=
  match b with StatusJSON _ | UpstreamJSON _ | RelayJSON _ | ConfigJSON _ _ _ _ => true | _ => false end.

Lemma pages_public r : operational_body (content (pages r)) = false.
Proof.
  unfold pages, mux, asset, index_page. repeat (case_goal; cbn [content reply operational_body]); done.
Qed.

Lemma health_public r : operational_body (content (health state info r)) = false.
Proof. unfold health, mux. repeat (case_goal; cbn [content reply operational_body]); done. Qed.

(** The operational endpoints have paths of their own. *)
Lemma operational_path r : is_Some (operational r) ->
  In (Path r) ["/api/v1/status"; "/api/v1/upstream"; "/api/v1/relay"; "/api/v1/config"] /\
  str_mem (Path r) ["/livez"; "/readyz"; "/api/v1/version"] = false /\
  String.eqb (Path r) "/api/v1/session" = false.
Proof.
  unfold operational. intros [f H]. destruct (is_get r); [|done]. cbn [negb] in H.
  repeat match type of H with context [String.eqb (Path r) ?p] =>
    destruct (String.eqb_spec (Path r) p) as [->|]; [split_and!; [cbn; tauto|done|done]|] end. done.
Qed.

Lemma require_cases a t next r :
  (ControlAuth.authenticated a (Cookie r) t = true /\ require a t next r = next r) \/
  (ControlAuth.authenticated a (Cookie r) t = false /\ require a t next r = reply 401 AuthenticationRequired).
Proof. unfold require. destruct (ControlAuth.authenticated _ _ _); auto. Qed.

Lemma operational_no_cookie r serve :
  operational r = Some serve -> cookie_set (serve r) = None.
Proof. unfold operational, config_page. intros H. repeat case_match; try done; by injection H as <-. Qed.

Lemma pages_no_cookie r : cookie_set (pages r) = None.
Proof. unfold pages, mux, asset, index_page. repeat case_goal; done. Qed.

Lemma health_no_cookie r : cookie_set (health state info r) = None.
Proof. unfold health, mux. repeat case_goal; done. Qed.

(** C14.  Operational data is only for administrators.  With a token configured,
    whatever method, path and headers a request has: it is answered with the
    status, upstream, relay or configuration data only if it carries a session
    cookie that is a time in the future signed with the token; a request for such
    data without one is refused with 401; and only a login request can change the
    table of failures or set a session cookie. *)
Theorem api_protected (a : ControlAuth.adminAuth) (r : request) (Hrequired : ControlAuth.required a = true) :
  let '(answer, a') := AppHandler a r in
  (operational_body (content answer) = true ->
   exists expires e, Cookie r = Some (expires ++ String ControlAuth.dot (ControlAuth.sign a expires)) /\
     GoStrconv.ParseInt 64 expires = Ret e /\ ControlAuth.unix now < e) /\
  (mux_path (Path r) = Path r -> is_Some (operational r) ->
   ControlAuth.authenticated a (Cookie r) now = false -> answer = reply 401 AuthenticationRequired) /\
  ((a' <> a \/ exists value secure, cookie_set answer = Some (Session value secure)) ->
   Method r = "POST" /\ Path r = "/api/v1/session").
Proof.
  unfold AppHandler.
  destruct (negb _ && negb _) eqn:Er.
  { split_and!; try done; [|by intros [?|(? & ? & ?)]]. intros Hp. rewrite Hp in Er.
    by rewrite String.eqb_refl, andb_false_r in Er. }
  destruct (str_mem (Path r) _) eqn:Eh.
  { split_and!.
    - by rewrite health_public.
    - intros _ Ho. apply operational_path in Ho as (_ & Hn & _). congruence.
    - rewrite health_no_cookie. by intros [?|(? & ? & ?)]. }
  destruct (String.eqb (Path r) "/api/v1/session") eqn:Es; cbn [andb].
  { assert (~ is_Some (operational r)) as Hno.
    { intros Ho. apply operational_path in Ho as (_ & _ & Hn). congruence. }
    apply String.eqb_eq in Es. destruct (is_get r); [by split_and!; [..|intros [?|(? & ? & ?)]]|].
    destruct (String.eqb_spec (Method r) "POST") as [Hm|].
    { unfold login. destruct (ControlAuth.adminLogin _ _ _ _ _ _ _) as [answer a']. by split_and!. }
    destruct (String.eqb (Method r) "DELETE"); [by split_and!; [..|intros [?|(? & ? & ?)]]|].
    destruct (operational r) as [serve|] eqn:Eo; [destruct Hno; by exists serve|].
    split_and!; [by rewrite pages_public|by intros _ [? ?]|].
    rewrite pages_no_cookie. by intros [?|(? & ? & ?)]. }
  destruct (operational r) as [serve|] eqn:Eo.
  - destruct (require_cases a now serve r) as [[Ha ->]|[Ha ->]].
    + split_and!.
      * intros _. destruct (Cookie r) as [value|] eqn:Ec.
        -- apply ControlAuth.authenticated_iff in Ha as (expires & e & -> & _ & Hp & Hl); [|done].
           by exists expires, e.
        -- unfold ControlAuth.authenticated in Ha. by rewrite Hrequired in Ha.
      * congruence.
      * rewrite (operational_no_cookie r serve Eo). by intros [?|(? & ? & ?)].
    + split_and!; try done. by intros [?|(? & ? & ?)].
  - split_and!; [by rewrite pages_public|by intros _ [? ?]|].
    rewrite pages_no_cookie. by intros [?|(? & ? & ?)].
Qed.

End App.
(** Readiness and liveness are public and truthful. *)
Lemma health_truthful state info r : is_get r = true ->
  (Path r = "/readyz" -> status (health state info r) = 200 <-> Lifecycle.IsReady state = true) /\
  (Path r = "/livez" -> status (health state info r) = 200 <-> Lifecycle.IsLive state = true).
Proof.
  intros Hg. split; intros Hp; unfold health, mux; rewrite Hp, Hg.
  - change (mux_path "/readyz") with "/readyz". rewrite String.eqb_refl, andb_false_r. cbn.
    by destruct (Lifecycle.IsReady state).
  - change (mux_path "/livez") with "/livez". rewrite String.eqb_refl, andb_false_r. cbn.
    by destruct (Lifecycle.IsLive state).
Qed.

End UI.

(** ** Examples *)

Definition sample_auth : ControlAuth.adminAuth := ControlAuth.newAdminAuth "0123456789abcdef".

Definition sample_request (method path : string) : request := mkRequest method path None None "10.0.0.9:1" true.

Definition sample_answer (method path : string) : response :=
  fst (AppHandler (fun _ => true) (Lifecycle.New 0) (mkInfo "dev" "unknown" "unknown" "go1.24")
         (NewRuntime Config.Default 0) None (fun _ => inl Benchmark.Missing) (fun _ => None) 5 5 5 5 sample_auth (sample_request method path)).

Example routes : map (fun '(method, path) => status (sample_answer method path))
  [("GET", "/"); ("GET", "/livez"); ("GET", "/readyz"); ("HEAD", "/api/v1/relay"); ("POST", "/api/v1/status");
   ("DELETE", "/api/v1/session"); ("GET", "/api//v1/status"); ("GET", "/assets/app.js"); ("GET", "/assets/../app.js")]
  = [200; 200; 503; 401; 405; 200; 301; 200; 301].
Proof. vm_compute. reflexivity. Qed.

Lemma api_protected_witness :
  sample_answer "GET" "/api/v1/config" = reply 401 AuthenticationRequired.
Proof.
  pose proof (api_protected (fun _ => true) (Lifecycle.New 0) (mkInfo "dev" "unknown" "unknown" "go1.24")
    (NewRuntime Config.Default 0) None (fun _ => inl Benchmark.Missing) (fun _ => None) 5 5 5 5 sample_auth (sample_request "GET" "/api/v1/config") eq_refl) as H.
  unfold sample_answer. destruct (AppHandler _ _ _ _ _ _ _ _ _ _ _ _ _) as [answer a']. destruct H as (_ & H & _).
  apply H; [reflexivity|by eexists|reflexivity].
Defined.

End ControlApi.
