(* ===== verification/Testkit.v ===== *)
(** * The test kit ([internal/testkit])

    What the integration tests trust: disposable databases that clean-up code can
    recognise, snapshots of a statement run directly and through the gateway, their
    comparison, and the files that keep a failure.  Two snapshots that compare
    equal saw the same results, and no SQL of a fixture leaves its database. *)

From stdpp Require Import base list numbers strings option gmap.
From coqutil Require Import Byte.
From Stdlib Require Import ZArith Lia Ascii String.
From S2P Require Import Prelude GoStrings GoStrconv GoTime Logical PreparedCodec Gateway Benchmark BenchmarkRules.

Module Testkit.
Import PreparedCodec.Values.
Import Gateway.
Import Benchmark.Benchmark.
Local Open Scope list_scope.
Local Open Scope string_scope.
Local Open Scope Z_scope.

(** ** Base64 *)

Definition std_digit (d : Z) : ascii :=
  if d <? 26 then char (65 + d) else if d <? 52 then char (71 + d)
  else if d <? 62 then char (d - 4) else if d =? 62 then char 43 else char 47.

Definition padding : ascii := char 61.

(** [base64.StdEncoding.EncodeToString] *)
Fixpoint std_encode (bs : list byte) : string :=
  match bs with
  | a :: b :: c :: bs =>
      let v := bval a * 65536 + bval b * 256 + bval c in
      String (std_digit (v / 262144)) (String (std_digit (v / 4096 mod 64))
        (String (std_digit (v / 64 mod 64)) (String (std_digit (v mod 64)) (std_encode bs))))
  | [a; b] =>
      let v := bval a * 65536 + bval b * 256 in
      String (std_digit (v / 262144)) (String (std_digit (v / 4096 mod 64))
        (String (std_digit (v / 64 mod 64)) (String padding "")))
  | [a] =>
      let v := bval a * 65536 in
      String (std_digit (v / 262144)) (String (std_digit (v / 4096 mod 64)) (String padding (String padding "")))
  | [] => ""
  end.

Example std_encode_text :
  std_encode (bytes_of "42") = "NDI=" /\ std_encode (bytes_of "Man") = "TWFu" /\ std_encode (map zbyte [251; 255; 191; 62]) = "+/+/Pg==".
Proof. by repeat split. Qed.

(** The reference decoder. *)
Definition digit_value (c : ascii) : option Z :=
  if in_range 65 90 c then Some (code c - 65) else if in_range 97 122 c then Some (code c - 71)
  else if in_range 48 57 c then Some (code c + 4)
  else if code c =? 43 then Some 62 else if code c =? 47 then Some 63 else None.

Fixpoint std_decode (s : string) : option (list byte) :=
  match s with
  | EmptyString => Some []
  | String c0 (String c1 (String c2 (String c3 rest))) =>
      d0 ← digit_value c0; d1 ← digit_value c1;
      match digit_value c2, digit_value c3 with
      | Some d2, Some d3 =>
          bs ← std_decode rest;
          let v := d0 * 262144 + d1 * 4096 + d2 * 64 + d3 in
          Some (zbyte (v / 65536) :: zbyte (v / 256 mod 256) :: zbyte (v mod 256) :: bs)
      | Some d2, None =>
          let v := d0 * 262144 + d1 * 4096 + d2 * 64 in Some [zbyte (v / 65536); zbyte (v / 256 mod 256)]
      | None, _ => let v := d0 * 262144 + d1 * 4096 in Some [zbyte (v / 65536)]
      end
  | _ => None
  end.

Lemma digit_value_std d : 0 <= d < 64 -> digit_value (std_digit d) = Some d.
Proof.
  intros Hd. unfold std_digit, digit_value, in_range.
  destruct (Z.ltb_spec d 26); [|destruct (Z.ltb_spec d 52); [|destruct (Z.ltb_spec d 62); [|destruct (Z.eqb_spec d 62)]]];
    rewrite GoStrconv.code_char by lia;
    repeat match goal with
    | |- context [(?a <=? ?b)] => destruct (Z.leb_spec a b); try lia
    | |- context [(?a =? ?b)] => destruct (Z.eqb_spec a b); try lia
    end; cbn [andb]; f_equal; lia.
Qed.

Lemma digit_value_padding : digit_value padding = None.
Proof. reflexivity. Qed.

Lemma sextets v : 0 <= v < 16777216 ->
  0 <= v / 262144 < 64 /\ 0 <= v / 4096 mod 64 < 64 /\ 0 <= v / 64 mod 64 < 64 /\ 0 <= v mod 64 < 64 /\
  v / 262144 * 262144 + v / 4096 mod 64 * 4096 + v / 64 mod 64 * 64 + v mod 64 = v.
Proof. intros Hv. Z.to_euclidean_division_equations. lia. Qed.

Lemma octets a b c : 0 <= a < 256 -> 0 <= b < 256 -> 0 <= c < 256 ->
  let v := a * 65536 + b * 256 + c in v / 65536 = a /\ v / 256 mod 256 = b /\ v mod 256 = c.
Proof. intros Ha Hb Hc v. subst v. Z.to_euclidean_division_equations. lia. Qed.

Lemma base64_decodes bs : std_decode (std_encode bs) = Some bs.
Proof.
  remember (List.length bs) as n eqn:Hn. revert bs Hn.
  induction n as [n IH] using lt_wf_ind. intros [|a [|b [|c bs]]] ->; [reflexivity|..];
    cbn [std_encode std_decode]; cbv zeta; pose proof (bval_range a) as Ha.
  - destruct (sextets (bval a * 65536) ltac:(lia)) as (H0 & H1 & _ & _ & Hv).
    destruct (octets (bval a) 0 0) as (O0 & _); [lia..|]. rewrite !Z.add_0_r in O0.
    rewrite !digit_value_std, digit_value_padding by done. cbn [mbind option_bind].
    replace (_ + _) with (bval a * 65536) by (Z.to_euclidean_division_equations; lia).
    by rewrite O0, zbyte_bval.
  - pose proof (bval_range b) as Hb.
    destruct (sextets (bval a * 65536 + bval b * 256) ltac:(lia)) as (H0 & H1 & H2 & _ & Hv).
    destruct (octets (bval a) (bval b) 0) as (O0 & O1 & _); [lia..|]. rewrite !Z.add_0_r in O0, O1.
    rewrite !digit_value_std, digit_value_padding by done. cbn [mbind option_bind].
    set (v := bval a * 65536 + bval b * 256) in *.
    replace (v / 262144 * 262144 + v / 4096 mod 64 * 4096 + v / 64 mod 64 * 64) with v
      by (subst v; Z.to_euclidean_division_equations; lia).
    by rewrite O0, O1, !zbyte_bval.
  - pose proof (bval_range b) as Hb. pose proof (bval_range c) as Hc.
    destruct (sextets (bval a * 65536 + bval b * 256 + bval c) ltac:(lia)) as (H0 & H1 & H2 & H3 & Hv).
    destruct (octets (bval a) (bval b) (bval c)) as (O0 & O1 & O2); [lia..|].
    rewrite !digit_value_std by done. cbn [mbind option_bind].
    rewrite (IH (List.length bs)); [|cbn; lia|done]. cbn [mbind option_bind].
    by rewrite Hv, O0, O1, O2, !zbyte_bval.
Qed.

Lemma std_encode_inj bs bs' : std_encode bs = std_encode bs' -> bs = bs'.
Proof.
  intros H. pose proof (base64_decodes bs) as H1. rewrite H, base64_decodes in H1. by injection H1.
Qed.

(** ** Disposable databases ([fixture.go]) *)

Definition FixturePrefix : string := "dba_test_".

Record FixtureIdentity := mkIdentity { Database : string; Marker : string }.

(** [random] is the answer of [rand.Read] for a buffer of twelve bytes. *)
Definition NewFixtureIdentity (random : string + list byte) : string + FixtureIdentity :=
  match random with
  | inl err => inl err
  | inr buffer =>
      let encoded := hex_encode buffer in inr (mkIdentity (FixturePrefix ++ str_take 12 encoded) encoded)
  end.

Fixpoint every (f : ascii -> bool) (s : string) : bool :=
  match s with EmptyString => true | String c s => f c && every f s end.

Definition name_char (c : ascii) : bool := in_range 97 122 c || in_range 48 57 c.
Definition marker_char (c : ascii) : bool := in_range 48 57 c || in_range 97 102 c.

(** [^dba_test_[a-z0-9]{12}$] *)
Definition fixtureNamePattern (s : string) : bool :=
  has_prefix FixturePrefix s && (String.length s =? 9 + 12)%nat && every name_char (trim_prefix FixturePrefix s).

Inductive fixture_error := NameOutside | MarkerInvalid.

Definition ValidateFixtureIdentity (identity : FixtureIdentity) : option fixture_error :=
  if negb (fixtureNamePattern (Database identity)) then Some NameOutside
  else if negb (String.length (Marker identity) =? 24)%nat || negb (String.eqb (trim_set marker_char (Marker identity)) "")
  then Some MarkerInvalid
  else None.

Definition sql_line (s : string) : string := s ++ String newline "".

Definition SchemaSQL (identity : FixtureIdentity) : fixture_error + string :=
  match ValidateFixtureIdentity identity with
  | Some e => inl e
  | None => inr (
      sql_line ("CREATE DATABASE `" ++ Database identity ++ "`;") ++
      sql_line ("USE `" ++ Database identity ++ "`;") ++
      sql_line "CREATE TABLE `_dba_fixture_owner` (`marker` CHAR(24) PRIMARY KEY, `version` INT NOT NULL) ENGINE=InnoDB;" ++
      sql_line ("INSERT INTO `_dba_fixture_owner` (`marker`, `version`) VALUES ('" ++ Marker identity ++ "', 1);") ++
      sql_line "CREATE TABLE `accounts` (`id` BIGINT PRIMARY KEY, `balance_cents` BIGINT NOT NULL, `version` BIGINT NOT NULL DEFAULT 0) ENGINE=InnoDB;" ++
      sql_line ("CREATE TABLE `events` (`id` BINARY(16) PRIMARY KEY, `account_id` BIGINT NOT NULL, `kind` VARCHAR(32) NOT NULL, `payload` VARBINARY(1024) NOT NULL, `created_at` TIMESTAMP(6) NOT NULL, INDEX `events_account_created` (`account_id`, `created_at`), CONSTRAINT `events_account_fk` FOREIGN KEY (`account_id`) REFERENCES `accounts` (`id`)) ENGINE=InnoDB;"))
  end.

Definition DropSQL (identity : FixtureIdentity) : fixture_error + string :=
  match ValidateFixtureIdentity identity with
  | Some e => inl e
  | None => inr ("DROP DATABASE `" ++ Database identity ++ "`")
  end.

Lemma every_impl f g s : (forall c, f c = true -> g c = true) -> every f s = true -> every g s = true.
Proof. intros H. induction s as [|c s IH]; cbn; [done|]. intros [H1 H2]%andb_true_iff. by rewrite H, IH. Qed.

Lemma every_take f n s : every f s = true -> every f (str_take n s) = true.
Proof.
  revert n. induction s as [|c s IH]; intros [|n]; cbn; try done.
  intros [H1 H2]%andb_true_iff. by rewrite H1, IH.
Qed.

Lemma hex_digit_marker d : 0 <= d < 16 -> marker_char (hex_digit d) = true.
Proof.
  intros Hd. unfold hex_digit, marker_char, in_range.
  destruct (Z.ltb_spec d 10); rewrite GoStrconv.code_char by lia; lia.
Qed.

Lemma hex_encode_marker bs : every marker_char (hex_encode bs) = true.
Proof.
  induction bs as [|b bs IH]; cbn; [done|]. pose proof (bval_range b).
  rewrite !hex_digit_marker, IH; [done|apply Z.mod_pos_bound; lia|].
  split; [apply Z.div_pos; lia|apply Z.div_lt_upper_bound; lia].
Qed.

Lemma marker_name c : marker_char c = true -> name_char c = true.
Proof. unfold marker_char, name_char, in_range. lia. Qed.

Lemma cut_right_every f s : every f s = true -> cut_right f s = "".
Proof. induction s as [|c s IH]; cbn; [done|]. intros [H1 H2]%andb_true_iff. by rewrite IH, H1. Qed.

Lemma cut_right_empty f s : cut_right f s = "" -> every f s = true.
Proof.
  induction s as [|c s IH]; cbn; [done|]. destruct (String.eqb_spec (cut_right f s) "") as [E|E]; cbn [andb].
  - destruct (f c); [|done]. intros _. by rewrite IH.
  - done.
Qed.

Lemma trim_set_every f s : trim_set f s = "" <-> every f s = true.
Proof.
  unfold trim_set. split.
  - intros H%cut_right_empty. induction s as [|c s IH]; [done|]. cbn in *. destruct (f c) eqn:E; cbn; [by apply IH|].
    cbn in H. by rewrite E in H.
  - intros H. apply cut_right_every. induction s as [|c s IH]; [done|]. cbn in *.
    apply andb_true_iff in H as [H1 H2]. rewrite H1. by apply IH.
Qed.

Lemma trim_prefix_app p s : trim_prefix p (p ++ s) = s.
Proof.
  unfold trim_prefix. rewrite has_prefix_app. induction p as [|c p IH]; cbn; [by destruct s|exact IH].
Qed.

Lemma pattern_exact s : fixtureNamePattern s = true <->
  exists suffix, s = FixturePrefix ++ suffix /\ String.length suffix = 12%nat /\ every name_char suffix = true.
Proof.
  unfold fixtureNamePattern. split.
  - intros [[Hp Hl]%andb_true_iff Hc]%andb_true_iff. apply Nat.eqb_eq in Hl.
    apply has_prefix_iff in Hp as [suffix ->]. rewrite trim_prefix_app in Hc. cbn in Hl. exists suffix.
    split; [done|]. split; [by injection Hl|done].
  - intros (suffix & -> & Hl & Hc). rewrite has_prefix_app, trim_prefix_app, Hc.
    change (String.length (FixturePrefix ++ suffix)) with (9 + String.length suffix)%nat. by rewrite Hl.
Qed.

Lemma valid_exact identity : ValidateFixtureIdentity identity = None <->
  fixtureNamePattern (Database identity) = true /\ String.length (Marker identity) = 24%nat /\
  every marker_char (Marker identity) = true.
Proof.
  unfold ValidateFixtureIdentity. destruct (fixtureNamePattern _); cbn [negb]; [|naive_solver].
  destruct (Nat.eqb_spec (String.length (Marker identity)) 24) as [E|E]; cbn [negb orb]; [|naive_solver].
  rewrite <- trim_set_every. destruct (String.eqb_spec (trim_set marker_char (Marker identity)) ""); cbn; naive_solver.
Qed.

Lemma every_app f s t : every f (s ++ t) = every f s && every f t.
Proof.
  induction s as [|c s IH]; [done|]. change (f c && every f (s ++ t) = f c && every f s && every f t).
  by rewrite IH, andb_assoc.
Qed.

Lemma str_take_length n s : (n <= String.length s)%nat -> String.length (str_take n s) = n.
Proof. revert s. induction n as [|n IH]; intros [|c s] Hn; cbn in *; try lia. rewrite IH; lia. Qed.

Lemma generated_valid buffer : List.length buffer = 12%nat ->
  ValidateFixtureIdentity (mkIdentity (FixturePrefix ++ str_take 12 (hex_encode buffer)) (hex_encode buffer)) = None.
Proof.
  intros Hb. pose proof (BenchmarkRules.hex_encode_length buffer) as Hl. rewrite Hb in Hl. pose proof (hex_encode_marker buffer) as Hm.
  apply valid_exact. cbn [Database Marker]. split_and!; [|done|done].
  apply pattern_exact. eexists. split; [done|]. split; [apply str_take_length; lia|].
  apply every_take. by eapply every_impl; [exact marker_name|].
Qed.

Lemma hex_encode_inj bs bs' : hex_encode bs = hex_encode bs' -> bs = bs'.
Proof.
  revert bs'. induction bs as [|b bs IH]; intros [|b' bs']; cbn; try done. intros H. injection H as H1 H2 H3.
  assert (Hd : forall d e, 0 <= d < 16 -> 0 <= e < 16 -> hex_digit d = hex_digit e -> d = e).
  { intros d e Hd He Heq%(f_equal code). unfold hex_digit in Heq.
    destruct (Z.ltb_spec d 10), (Z.ltb_spec e 10); rewrite !GoStrconv.code_char in Heq by lia; lia. }
  pose proof (bval_range b). pose proof (bval_range b').
  apply Hd in H1; [|split; [apply Z.div_pos; lia|apply Z.div_lt_upper_bound; lia]..].
  apply Hd in H2; [|apply Z.mod_pos_bound; lia..].
  f_equal; [|by apply IH]. rewrite <- (zbyte_bval b), <- (zbyte_bval b'). f_equal.
  rewrite (Z.div_mod (bval b) 16), (Z.div_mod (bval b') 16) by done. by rewrite H1, H2.
Qed.

(** A benchmark's database has another prefix. *)
Lemma fixture_not_benchmark s : fixtureNamePattern s = true -> safeBenchmarkDatabase s = false.
Proof. intros (suffix & -> & _)%pattern_exact. reflexivity. Qed.

(** Letters, digits and underscores: nothing that observed_end a quoted name. *)
Definition plain_name (s : string) : bool := every (fun c => name_char c || Ascii.eqb c (char 95)) s.


Definition sample_buffer : list byte := map zbyte [1; 35; 69; 103; 137; 171; 205; 239; 1; 35; 69; 103].


Example fixture_refused :
  map (fun name => DropSQL (mkIdentity name "0123456789abcdef01234567"))
    ["mysql"; "app"; "dba_test_"; "dba_test_abc`; DROP DATABASE app; --"; "dba_test_ABCDEF123456"] = repeat (inl NameOutside) 5.
Proof. vm_compute. reflexivity. Qed.

(** ** Snapshots ([differential.go]) *)

Definition differentialStatusInTransaction : Z := 1.
Definition differentialStatusAutocommit : Z := 2.

(** A nilable that may be nil, which [reflect.DeepEqual] tells from an empty one. *)
Abbreviation nilable A := (option (list A)).

Record DifferentialColumn := mkDiffColumn {
  dc_Name : string;
  dc_Type : string;
  dc_Nullable : bool;
  dc_HasNull : bool;
  dc_Precision : Z;
  dc_Scale : Z;
  dc_HasDecimal : bool
}.

Record DifferentialCell := mkCell { Null : bool; Base64 : string }.

Record DifferentialError := mkDiffError { de_Code : Z; de_SQLState : string; de_Message : string }.

Record DifferentialSnapshot := mkSnapshot {
  ds_Columns : nilable DifferentialColumn;
  ds_Rows : nilable (nilable DifferentialCell);
  ds_Status : Z;
  ds_Warnings : Z;
  AffectedRows : Z;
  InsertID : Z;
  ds_Error : option DifferentialError
}.

#[export] Instance DifferentialColumn_eq_dec : EqDecision DifferentialColumn.
Proof. solve_decision. Defined.
#[export] Instance DifferentialCell_eq_dec : EqDecision DifferentialCell.
Proof. solve_decision. Defined.
#[export] Instance DifferentialError_eq_dec : EqDecision DifferentialError.
Proof. solve_decision. Defined.

(** [any], as far as a comparison fills it. *)
Inductive observation :=
| Columns_of (columns : nilable DifferentialColumn)
| Rows_of (rows : nilable (nilable DifferentialCell))
| Uint16_of (z : Z)
| Int64_of (z : Z)
| Error_of (e : option DifferentialError).

#[export] Instance observation_eq_dec : EqDecision observation.
Proof. solve_decision. Defined.

Record DifferentialMismatch := mkMismatch { Field : string; Direct : observation; Proxy : observation }.

(** The closure [compare]. *)
Definition compare (field : string) (first second : observation) (mismatches : list DifferentialMismatch)
  : list DifferentialMismatch :=
  if bool_decide (first = second) then mismatches else (mismatches ++ [mkMismatch field first second])%list.

Definition CompareDifferential (direct proxy : DifferentialSnapshot) : list DifferentialMismatch :=
  let m := compare "columns" (Columns_of (ds_Columns direct)) (Columns_of (ds_Columns proxy)) [] in
  let m := compare "rows" (Rows_of (ds_Rows direct)) (Rows_of (ds_Rows proxy)) m in
  let m := compare "status" (Uint16_of (ds_Status direct)) (Uint16_of (ds_Status proxy)) m in
  let m := compare "warnings" (Uint16_of (ds_Warnings direct)) (Uint16_of (ds_Warnings proxy)) m in
  let m := compare "affected_rows" (Int64_of (AffectedRows direct)) (Int64_of (AffectedRows proxy)) m in
  let m := compare "insert_id" (Int64_of (InsertID direct)) (Int64_of (InsertID proxy)) m in
  compare "error" (Error_of (ds_Error direct)) (Error_of (ds_Error proxy)) m.

(** The text of a driver error, as [Error] gives it. *)
Definition error_text (e : go_error) : string :=
  match e with
  | ServerError _ _ message | TextError message => message
  | DeadlineExceeded => "context deadline exceeded"
  | Canceled => "context canceled"
  | QueueFull => errQueueFull
  | TxDone => errTxDone
  end.

Definition differentialError (err : option go_error) : option DifferentialError :=
  match err with
  | None => None
  | Some (ServerError number state message) => Some (mkDiffError number state message)
  | Some e => Some (mkDiffError 0 "" (error_text e))
  end.

Section Cells.
Context {F : FloatText} {U : UnicodeCase}.

(** The nine digits of a fraction without the zeros at their end. *)
Definition format_nanos (n : Z) : string :=
  if n =? 0 then "" else "." ++ cut_right (Ascii.eqb (char 48)) (GoStrconv.pad_uint 9 n).

(** [t.UTC().Format(time.RFC3339Nano)] *)
Definition format_rfc3339 (t : Z) : string :=
  GoTime.format_date t ++ "T" ++ GoStrconv.pad_uint 2 (GoTime.Hour t) ++ ":" ++ GoStrconv.pad_uint 2 (GoTime.Minute t)
  ++ ":" ++ GoStrconv.pad_uint 2 (GoTime.Second t) ++ format_nanos (GoTime.Nanosecond t) ++ "Z".

(** The bytes a cell stands for; [None] for NULL. *)
Definition cell_bytes (v : value) : option (list byte) :=
  match v with
  | VNil => None
  | VBytes bs => Some bs
  | VString s => Some (bytes_of s)
  | VTime t => Some (bytes_of (format_rfc3339 t))
  | v => Some (bytes_of (sprint v))
  end.

Definition differentialCell (v : value) : DifferentialCell :=
  match cell_bytes v with None => mkCell true "" | Some encoded => mkCell false (std_encode encoded) end.

(** *** Capturing *)

(** What [database/sql] answers on one connection.  Rows have a value per
    column. *)
Record cursor := mkCursor {
  column_types : go_error + list (string * ColumnType);
  scanned : list (go_error + list value);
  cursor_err : option go_error;
  cursor_close : option go_error
}.

Record answers := mkAnswers {
  on_connect : option go_error;
  on_query : go_error + cursor;
  on_exec : go_error + (Z * Z);        (* RowsAffected and LastInsertId, zero where there is none *)
  on_warnings : go_error + Z;
  on_status : go_error + (Z * Z)       (* @@session.autocommit and @@session.in_transaction *)
}.

Inductive sql_call :=
| Connect
| RunQuery (statement : string)
| RunExec (statement : string)
| CloseRows
| ReadWarnings
| ReadStatus
| CloseConnection.

#[export] Instance sql_call_eq_dec : EqDecision sql_call.
Proof. solve_decision. Defined.

(** [DifferentialSnapshot{Error: differentialError(err)}] *)
Definition failed_snapshot (e : go_error) : DifferentialSnapshot :=
  mkSnapshot None None 0 0 0 0 (differentialError (Some e)).

Definition column_of (c : string * ColumnType) : DifferentialColumn :=
  let '(name, type) := c in
  let '(precision, scale) := default (0, 0) (DecimalSize type) in
  mkDiffColumn name (DatabaseTypeName type) (default false (Nullable type)) (bool_decide (is_Some (Nullable type)))
    precision scale (bool_decide (is_Some (DecimalSize type))).

(** The loop over [rows.Next()]. *)
Fixpoint scan_rows (rows : nilable (nilable DifferentialCell)) (scans : list (go_error + list value))
  : go_error + nilable (nilable DifferentialCell) :=
  match scans with
  | [] => inr rows
  | inl e :: _ => inl e
  | inr values :: scans => scan_rows (Some (default [] rows ++ [Some (map differentialCell values)])%list) scans
  end.

Definition captureDifferentialStatus (a : answers) (snapshot : DifferentialSnapshot)
  : go_error + DifferentialSnapshot :=
  match on_status a with
  | inl e => inl e
  | inr (autocommit, inTransaction) =>
      let status := ds_Status snapshot in
      let status := if negb (autocommit =? 0) then Z.lor status differentialStatusAutocommit else status in
      let status := if negb (inTransaction =? 0) then Z.lor status differentialStatusInTransaction else status in
      inr (mkSnapshot (ds_Columns snapshot) (ds_Rows snapshot) status (ds_Warnings snapshot)
        (AffectedRows snapshot) (InsertID snapshot) (ds_Error snapshot))
  end.

(** The warnings and the status, which end both captures. *)
Definition capture_rest (a : answers) (columns : nilable DifferentialColumn) (rows : nilable (nilable DifferentialCell))
    (affected insertID : Z) : list sql_call * DifferentialSnapshot :=
  match on_warnings a with
  | inl e => ([ReadWarnings], failed_snapshot e)
  | inr warnings =>
      match captureDifferentialStatus a (mkSnapshot columns rows 0 warnings affected insertID None) with
      | inl e => ([ReadWarnings; ReadStatus], failed_snapshot e)
      | inr snapshot => ([ReadWarnings; ReadStatus], snapshot)
      end
  end.

(** [defer connection.Close()] *)
Definition on_connection (a : answers) (body : list sql_call * DifferentialSnapshot) : list sql_call * DifferentialSnapshot :=
  match on_connect a with
  | Some e => ([Connect], failed_snapshot e)
  | None => let '(calls, snapshot) := body in (Connect :: calls ++ [CloseConnection], snapshot)%list
  end.

Definition CaptureQuery (a : answers) (statement : string) : list sql_call * DifferentialSnapshot :=
  on_connection a (
    match on_query a with
    | inl e => ([RunQuery statement], failed_snapshot e)
    | inr rows =>
        match column_types rows with
        | inl e => ([RunQuery statement; CloseRows], failed_snapshot e)
        | inr types =>
            match scan_rows None (scanned rows), cursor_err rows, cursor_close rows with
            | inl e, _, _ | inr _, Some e, _ | inr _, None, Some e => ([RunQuery statement; CloseRows], failed_snapshot e)
            | inr cells, None, None =>
                let '(calls, snapshot) := capture_rest a (Some (map column_of types)) cells 0 0 in
                ([RunQuery statement; CloseRows] ++ calls, snapshot)%list
            end
        end
    end).

Definition CaptureExec (a : answers) (statement : string) : list sql_call * DifferentialSnapshot :=
  on_connection a (
    match on_exec a with
    | inl e => ([RunExec statement], failed_snapshot e)
    | inr (affected, insertID) =>
        let '(calls, snapshot) := capture_rest a None None affected insertID in (RunExec statement :: calls, snapshot)
    end).

End Cells.

(** *** Comparing *)

Definition pairs (direct proxy : DifferentialSnapshot) : list DifferentialMismatch := [
  mkMismatch "columns" (Columns_of (ds_Columns direct)) (Columns_of (ds_Columns proxy));
  mkMismatch "rows" (Rows_of (ds_Rows direct)) (Rows_of (ds_Rows proxy));
  mkMismatch "status" (Uint16_of (ds_Status direct)) (Uint16_of (ds_Status proxy));
  mkMismatch "warnings" (Uint16_of (ds_Warnings direct)) (Uint16_of (ds_Warnings proxy));
  mkMismatch "affected_rows" (Int64_of (AffectedRows direct)) (Int64_of (AffectedRows proxy));
  mkMismatch "insert_id" (Int64_of (InsertID direct)) (Int64_of (InsertID proxy));
  mkMismatch "error" (Error_of (ds_Error direct)) (Error_of (ds_Error proxy))].

Definition differs (m : DifferentialMismatch) : Prop := Direct m <> Proxy m.
#[export] Instance differs_dec m : Decision (differs m).
Proof. unfold differs. apply _. Defined.

Lemma compare_filter field first second l :
  compare field first second (filter differs l) = filter differs (l ++ [mkMismatch field first second])%list.
Proof.
  unfold compare. rewrite filter_app, filter_cons, filter_nil. destruct (bool_decide_reflect (first = second)) as [->|Hne].
  - rewrite decide_False by (by intros H; apply H). by rewrite app_nil_r.
  - by rewrite decide_True by done.
Qed.

(** The mismatches are the fields that differ, in order, with both values. *)
Theorem compare_exact (direct proxy : DifferentialSnapshot) :
  CompareDifferential direct proxy = filter differs (pairs direct proxy).
Proof.
  unfold CompareDifferential. cbv zeta.
  change (@nil DifferentialMismatch) with (filter differs (@nil DifferentialMismatch)).
  by rewrite !compare_filter.
Qed.

Lemma none_differ l : filter differs l = [] <-> Forall (fun m => Direct m = Proxy m) l.
Proof.
  induction l as [|m l IH]; [done|]. rewrite filter_cons, Forall_cons. unfold differs in *.
  destruct (decide (Direct m <> Proxy m)) as [H|H]; [naive_solver|]. rewrite IH.
  destruct (decide (Direct m = Proxy m)); [naive_solver|done].
Qed.

Lemma compare_equal direct proxy : CompareDifferential direct proxy = [] <-> direct = proxy.
Proof.
  rewrite compare_exact, none_differ. unfold pairs. rewrite !Forall_cons, Forall_nil. cbn [Direct Proxy].
  destruct direct, proxy; cbn. split.
  - by intros ([= ->] & [= ->] & [= ->] & [= ->] & [= ->] & [= ->] & [= ->] & _).
  - by intros [= -> -> -> -> -> -> ->].
Qed.

(** *** What a capture sees *)

Section Captures.
Context {F : FloatText} {U : UnicodeCase}.

(** The results of a statement, as the tests mean them: an error; or columns,
    rows of bytes and NULLs, counts, warnings, and the two state bits. *)
Record results := mkResults {
  r_columns : option (list DifferentialColumn);
  r_rows : list (list (option (list byte)));
  r_affected : Z;
  r_insertID : Z;
  r_warnings : Z;
  r_autocommit : bool;
  r_inTransaction : bool
}.

Definition observed_error (e : go_error) : DifferentialError :=
  match e with
  | ServerError number state message => mkDiffError number state message
  | e => mkDiffError 0 "" (error_text e)
  end.

Fixpoint all_scanned (scans : list (go_error + list value)) : go_error + list (list value) :=
  match scans with
  | [] => inr []
  | inl e :: _ => inl e
  | inr values :: scans =>
      match all_scanned scans with inl e => inl e | inr rows => inr (values :: rows) end
  end.

(** The rows of a cursor, unless one of its steps failed_snapshot. *)
Definition read_cursor (rows : cursor) : go_error + (list DifferentialColumn * list (list (option (list byte)))) :=
  match column_types rows, all_scanned (scanned rows), cursor_err rows, cursor_close rows with
  | inl e, _, _, _ | inr _, inl e, _, _ | inr _, inr _, Some e, _ | inr _, inr _, None, Some e => inl e
  | inr types, inr rows, None, None => inr (map column_of types, map (map cell_bytes) rows)
  end.

Definition observed_end (a : answers) (k : Z -> bool -> bool -> results) : DifferentialError + results :=
  match on_warnings a, on_status a with
  | inl e, _ | inr _, inl e => inl (observed_error e)
  | inr warnings, inr (autocommit, inTransaction) =>
      inr (k warnings (negb (autocommit =? 0)) (negb (inTransaction =? 0)))
  end.

Definition observed_query (a : answers) : DifferentialError + results :=
  match on_connect a, on_query a with
  | Some e, _ | None, inl e => inl (observed_error e)
  | None, inr rows =>
      match read_cursor rows with
      | inl e => inl (observed_error e)
      | inr (columns, cells) => observed_end a (mkResults (Some columns) cells 0 0)
      end
  end.

Definition observed_exec (a : answers) : DifferentialError + results :=
  match on_connect a, on_exec a with
  | Some e, _ | None, inl e => inl (observed_error e)
  | None, inr (affected, insertID) => observed_end a (mkResults None [] affected insertID)
  end.

Definition cell_of (c : option (list byte)) : DifferentialCell :=
  match c with None => mkCell true "" | Some encoded => mkCell false (std_encode encoded) end.

Definition slice_of (rows : list (nilable DifferentialCell)) : nilable (nilable DifferentialCell) :=
  match rows with [] => None | _ => Some rows end.

(** A snapshot holds exactly that. *)
Definition snapshot_of (o : DifferentialError + results) : DifferentialSnapshot :=
  match o with
  | inl e => mkSnapshot None None 0 0 0 0 (Some e)
  | inr r => mkSnapshot (r_columns r) (slice_of (map (fun row => Some (map cell_of row)) (r_rows r)))
      (Z.lor (if r_autocommit r then 2 else 0) (if r_inTransaction r then 1 else 0))
      (r_warnings r) (r_affected r) (r_insertID r) None
  end.

Lemma cell_of_inj : Inj (=) (=) cell_of.
Proof. intros [bs|] [bs'|]; cbn; [|done..]. by intros [= ->%std_encode_inj]. Qed.

Lemma slice_of_inj : Inj (=) (=) slice_of.
Proof. intros [|r l] [|r' l']; cbn; congruence. Qed.

Lemma map_inj {A B} (f : A -> B) : Inj (=) (=) f -> Inj (=) (=) (map f).
Proof.
  intros Hf l. induction l as [|x l IH]; intros [|y k]; cbn; try done. intros [= Hx Hl].
  f_equal; [by apply Hf|by apply IH].
Qed.

Lemma snapshot_of_inj : Inj (=) (=) snapshot_of.
Proof.
  intros [e|[c rs af ii w ac it]] [e'|[c' rs' af' ii' w' ac' it']]; cbn; try done; [by intros [= ->]|].
  intros H. injection H as -> Hrows Hstatus -> -> ->.
  assert (rs = rs') as ->.
  { apply slice_of_inj in Hrows. revert Hrows. apply map_inj. intros x y Hxy.
    assert (map cell_of x = map cell_of y) as Hm by congruence. by apply (map_inj cell_of cell_of_inj) in Hm. }
  by destruct ac, it, ac', it'.
Qed.

Lemma failed_described e : failed_snapshot e = snapshot_of (inl (observed_error e)).
Proof. by destruct e. Qed.

Lemma scan_rows_all scans : forall rows,
  scan_rows (slice_of rows) scans =
  match all_scanned scans with
  | inl e => inl e
  | inr values => inr (slice_of (rows ++ map (fun row => Some (map differentialCell row)) values)%list)
  end.
Proof.
  induction scans as [|[e|values] scans IH]; intros rows; cbn [scan_rows all_scanned map].
  - by rewrite app_nil_r.
  - done.
  - assert (Some (default [] (slice_of rows) ++ [Some (map differentialCell values)])%list =
      slice_of (rows ++ [Some (map differentialCell values)])%list) as -> by (by destruct rows).
    rewrite IH. destruct (all_scanned scans); [done|]. by rewrite <- app_assoc.
Qed.

Lemma capture_rest_ends a columns rows affected insertID :
  (capture_rest a columns (slice_of (map (fun row => Some (map cell_of row)) rows)) affected insertID).2 =
  snapshot_of (observed_end a (mkResults columns rows affected insertID)).
Proof.
  unfold capture_rest, observed_end, captureDifferentialStatus. destruct (on_warnings a) as [e|w]; [apply failed_described|].
  destruct (on_status a) as [e|[ac it]]; [apply failed_described|]. cbn.
  by destruct (ac =? 0), (it =? 0).
Qed.

Lemma capture_query_observed a statement : (CaptureQuery a statement).2 = snapshot_of (observed_query a).
Proof.
  unfold CaptureQuery, on_connection, observed_query, read_cursor.
  destruct (on_connect a) as [e|]; [apply failed_described|].
  destruct (on_query a) as [e|[types scans err close]]; [apply failed_described|]. cbn [column_types scanned cursor_err cursor_close].
  destruct types as [e|types]; [apply failed_described|].
  change (@None (list (nilable DifferentialCell))) with (slice_of []). rewrite scan_rows_all.
  destruct (all_scanned scans) as [e|rows]; [apply failed_described|].
  destruct err as [e|]; [apply failed_described|]. destruct close as [e|]; [apply failed_described|].
  cbn [app]. assert (map (fun row => Some (map differentialCell row)) rows =
    map (fun row => Some (map cell_of row)) (map (map cell_bytes) rows)) as ->.
  { rewrite map_map. apply map_ext. intros row. by rewrite map_map. }
  rewrite <- capture_rest_ends. by destruct (capture_rest _ _ _ _ _).
Qed.

Lemma capture_exec_observed a statement : (CaptureExec a statement).2 = snapshot_of (observed_exec a).
Proof.
  unfold CaptureExec, on_connection, observed_exec.
  destruct (on_connect a) as [e|]; [apply failed_described|].
  destruct (on_exec a) as [e|[affected insertID]]; [apply failed_described|].
  rewrite <- capture_rest_ends. cbn [map slice_of]. by destruct (capture_rest _ _ _ _ _).
Qed.


(** The calls on a connection are [first], part of [rest], and the closing. *)
Definition bracketed (first : sql_call) (rest : list sql_call) (calls : list sql_call) : Prop :=
  exists n, calls = (Connect :: first :: take n rest ++ [CloseConnection])%list.

Lemma capture_rest_calls a c r x y :
  exists n, (capture_rest a c r x y).1 = (ReadWarnings :: take n [ReadStatus])%list.
Proof.
  unfold capture_rest. destruct (on_warnings a) as [e|w]; [by exists 0%nat|].
  exists 1%nat. by destruct (captureDifferentialStatus _ _).
Qed.

(** Every connection taken is closed, last and once; the rows are closed once if
    there are any, and before anything else is asked on the connection. *)
Theorem captures_release (a : answers) (statement : string) (Hconnect : on_connect a = None) :
  let query := (CaptureQuery a statement).1 in
  let exec := (CaptureExec a statement).1 in
  bracketed (RunQuery statement) [CloseRows; ReadWarnings; ReadStatus] query /\
  bracketed (RunExec statement) [ReadWarnings; ReadStatus] exec /\
  (In CloseRows query <-> exists rows, on_query a = inr rows).
Proof.
  cbv zeta. unfold CaptureQuery, CaptureExec, on_connection, bracketed. rewrite Hconnect. split_and!.
  - destruct (on_query a) as [e|rows]; [by exists 0%nat|]. destruct (column_types rows) as [e|types]; [by exists 1%nat|].
    destruct (scan_rows _ _) as [e|cells]; [by exists 1%nat|].
    destruct (cursor_err rows); [by exists 1%nat|]. destruct (cursor_close rows); [by exists 1%nat|].
    destruct (capture_rest_calls a (Some (map column_of types)) cells 0 0) as [n Hn].
    destruct (capture_rest _ _ _ _ _) as [calls snapshot]. cbn in Hn. subst calls. by exists (2 + n)%nat.
  - destruct (on_exec a) as [e|[x y]]; [by exists 0%nat|].
    destruct (capture_rest_calls a None None x y) as [n Hn].
    destruct (capture_rest _ _ _ _ _) as [calls snapshot]. cbn in Hn. subst calls. by exists (1 + n)%nat.
  - destruct (on_query a) as [e|rows]; cbn; [naive_solver|]. split; [by eexists|]. intros _.
    destruct (column_types rows); [cbn; tauto|]. destruct (scan_rows _ _); [cbn; tauto|].
    destruct (cursor_err rows); [cbn; tauto|]. destruct (cursor_close rows); [cbn; tauto|].
    destruct (capture_rest _ _ _ _ _). cbn. tauto.
Qed.

(** When the state bits cannot be read - [@@session.in_transaction] exists in
    MariaDB but not in MySQL - captures compare equal whatever the results were. *)
Lemma blind_without_status direct proxy e statement :
  on_connect direct = None -> on_connect proxy = None ->
  (exists rows, on_query direct = inr rows /\ exists columns cells, read_cursor rows = inr (columns, cells)) ->
  (exists rows, on_query proxy = inr rows /\ exists columns cells, read_cursor rows = inr (columns, cells)) ->
  (exists w w', on_warnings direct = inr w /\ on_warnings proxy = inr w') ->
  on_status direct = inl e -> on_status proxy = inl e ->
  CompareDifferential (CaptureQuery direct statement).2 (CaptureQuery proxy statement).2 = [].
Proof.
  intros H1 H2 (r & Hr & c & l & Hc) (r' & Hr' & c' & l' & Hc') (w & w' & Hw & Hw') Hs Hs'.
  apply compare_equal. rewrite !capture_query_observed. f_equal. unfold observed_query, observed_end.
  by rewrite H1, H2, Hr, Hr', Hc, Hc', Hw, Hw', Hs, Hs'.
Qed.

End Captures.

(** ** Kept failures *)

Record DifferentialReproduction := mkDifferentialReproduction {
  dr_SchemaVersion : Z;
  dr_CreatedAt : Z;
  dr_Seed : Z;
  dr_Server : string;
  dr_Driver : string;
  dr_Operation : string;
  dr_Direct : DifferentialSnapshot;
  dr_Proxy : DifferentialSnapshot;
  dr_Mismatches : list DifferentialMismatch
}.

(** [atomic.go] *)
Record AtomicOperation := mkOperation { op_Index : Z; op_From : Z; op_To : Z; op_Amount : Z }.

Record AtomicReproduction := mkAtomicReproduction {
  ar_SchemaVersion : Z;
  ar_CreatedAt : Z;
  ar_Seed : Z;
  ar_Server : string;
  ar_Isolation : string;
  ar_Error : string;
  ar_Operations : list AtomicOperation
}.

(** The answers of the file system: the directory, and how much of the file is
    written before an error ([None]: it is not even opened). *)
Record file_answers := mkFileAnswers { make_directory : option string; write_stops : option (option nat * string) }.

(** [os.MkdirAll], the encoding and [os.WriteFile]. *)
Definition save_file (directory encoding writing : string -> string) (path : string) (encoded : string + string)
    (fs : file_answers) (disk : gmap string string) : option string * gmap string string :=
  match make_directory fs with
  | Some err => (Some (directory err), disk)
  | None =>
      match encoded with
      | inl err => (Some (encoding err), disk)
      | inr data =>
          let data := data ++ String newline "" in
          match write_stops fs with
          | Some (written, err) =>
              (Some (writing err), match written with Some n => <[path := str_take n data]> disk | None => disk end)
          | None => (None, <[path := data]> disk)
          end
      end
  end.

Section Saving.
(** [json.MarshalIndent] *)
Context (encode_differential : DifferentialReproduction -> string + string).
Context (encode_atomic : AtomicReproduction -> string + string).

Definition SaveDifferentialReproduction (path : string) (reproduction : DifferentialReproduction)
    (fs : file_answers) (disk : gmap string string) : option string * gmap string string :=
  if bool_decide (dr_Mismatches reproduction = []) then
    (Some "differential reproduction requires at least one mismatch", disk)
  else save_file (String.append "create differential output directory: ")
    (String.append "encode differential reproduction: ") (String.append "write differential reproduction: ")
    path (encode_differential reproduction) fs disk.

Definition SaveAtomicReproduction (path : string) (reproduction : AtomicReproduction)
    (fs : file_answers) (disk : gmap string string) : option string * gmap string string :=
  if (ar_Seed reproduction =? 0) || (List.length (ar_Operations reproduction) =? 0)%nat
     || String.eqb (ar_Error reproduction) "" then
    (Some "atomic reproduction requires seed, operations, and error", disk)
  else save_file id id id path (encode_atomic reproduction) fs disk.

Lemma save_file_spec directory encoding writing path encoded fs disk :
  let '(err, after) := save_file directory encoding writing path encoded fs disk in
  (forall other, other <> path -> after !! other = disk !! other) /\
  (err = None -> exists data, encoded = inr data /\ after !! path = Some (data ++ String newline "")).
Proof.
  unfold save_file. destruct (make_directory fs); [done|]. destruct encoded as [e|data]; [done|].
  destruct (write_stops fs) as [[[n|] e]|]; (split; [intros other Ho; try done; by rewrite lookup_insert_ne|]; try done).
  intros _. exists data. by rewrite lookup_insert_eq.
Qed.

(** Only a failure is kept: nothing is written for a comparison without a
    mismatch, or for a run without a seed, operations and an error; what is kept
    is the encoding of the failure, and no other file is touched. *)
Theorem reproductions_kept (path : string) (d : DifferentialReproduction) (r : AtomicReproduction)
    (fs : file_answers) (disk : gmap string string) :
  (let '(err, after) := SaveDifferentialReproduction path d fs disk in
   (forall other, other <> path -> after !! other = disk !! other) /\
   (dr_Mismatches d = [] -> after = disk /\ err <> None) /\
   (err = None -> exists data, encode_differential d = inr data /\
      after !! path = Some (data ++ String newline ""))) /\
  (let '(err, after) := SaveAtomicReproduction path r fs disk in
   (forall other, other <> path -> after !! other = disk !! other) /\
   (ar_Seed r = 0 \/ ar_Operations r = [] \/ ar_Error r = "" -> after = disk /\ err <> None) /\
   (err = None -> exists data, encode_atomic r = inr data /\ after !! path = Some (data ++ String newline ""))).
Proof.
  split.
  - unfold SaveDifferentialReproduction. destruct (bool_decide_reflect (dr_Mismatches d = [])) as [E|E]; [done|].
    pose proof (save_file_spec (String.append "create differential output directory: ")
      (String.append "encode differential reproduction: ") (String.append "write differential reproduction: ")
      path (encode_differential d) fs disk) as H.
    destruct (save_file _ _ _ _ _ _ _) as [err after]. naive_solver.
  - unfold SaveAtomicReproduction. destruct (Z.eqb_spec (ar_Seed r) 0); [done|].
    destruct (Nat.eqb_spec (List.length (ar_Operations r)) 0) as [E|E]; [done|].
    destruct (String.eqb_spec (ar_Error r) ""); [done|]. cbn [orb].
    pose proof (save_file_spec id id id path (encode_atomic r) fs disk) as Hsave.
    destruct (save_file _ _ _ _ _ _ _) as [err after]. destruct Hsave as [H1 H2]. split_and!; [done| |done].
    intros [?|[Ho|?]]; [done|by rewrite Ho in E|done].
Qed.

End Saving.

End Testkit.
